(* ===== verification/_CoqProject ===== *)
-Q . S2P
Prelude.v
Runtime.v
Frames.v
Reorder.v
Tunnel.v
Wire.v
PoolSends.v
Wires.v
Net.v
NetFacts.v
Socks5.v
Socks5Facts.v
Reassembler.v
ReassemblerPending.v
ReassemblerConn.v
EgressWriter.v
EgressFacts.v
ReassemblerStream.v
ReassemblerSends.v
ReassemblerOrigin.v
Splitter.v
SplitterFacts.v
SplitterTcp.v
SplitterUdp.v
SplitterSends.v
TunnelTask.v
LinkTask.v
LinkFacts.v
AcceptLoop.v
ClientConn.v
ClientFacts.v
SplitterStream.v
SplitterNode.v
SplitterNodeFacts.v
SplitterOrigin.v
ReassemblerNode.v
ReassemblerNodeFacts.v
ReassemblerTargets.v
EndToEnd.v
World.v
WorldFacts.v
WorldOrigin.v
WorldAnswers.v
Logging.v
LoggingFacts.v
Config.v
ConfigFacts.v
Startup.v
StartupFacts.v
