(* ===== verification/Prelude.v ===== *)
(** * A multi-path TCP tunnel: round_robin

    round_robin splits the connections of SOCKS5 clients over several TCP tunnels and
    puts them together again at the other end.  The splitter accepts clients, cuts what
    they send into numbered DATA frames and gives each frame to some tunnel; the
    reassembler reads the tunnels, reorders the frames of each connection, and writes
    them to the target; responses travel the same way back.  A FIN frame carries the
    number after the last DATA frame and half-closes one direction; an RST frame ends
    both.  This library models the program and proves what makes it correct.

    ** Files and the code they model (under [src/src/])

    - [Prelude]: results, machine integers with their wrap-around, bytes and big-endian
      codes, sums over maps and lists, and the tactics the other files use.
    - [Runtime]: classes for the crates the program calls (tokio's channel and [Notify],
      [bytes::BytesMut], the iteration order of [DashMap]), each with its laws and an
      instance that satisfies them.
    - [Frames] ([frame.rs]): frames, the encoders, the SYN payload, the decoder.
    - [Reorder] ([reorder.rs]): the reorder buffer.
    - [Tunnel] ([tunnel.rs]): links, the pool, the weighted scheduler, [send] and
      [send_async], and [drain_frames] as a machine.
    - [Wire]: one tunnel from the channel of its link, through its drain task and the
      bytes on the connection, to the decoder at the other end; [Wires]: all tunnels of a
      process.  [PoolSends]: what the pool's operations put into the links.
    - [Net], [NetFacts] (the address parsers and printers of the standard library) and
      [Socks5], [Socks5Facts] ([socks5.rs]): both ends of the handshake, the address and
      UDP codecs.
    - [Reassembler] ([reassembler.rs]): [handle_frame] cut at its await points, the
      pending buffer of frames that overtook their SYN, half-close, the egress reader,
      the heartbeat; [rstep] interleaves them.  [ReassemblerPending] and
      [ReassemblerConn] prove facts about its reachable states, [ReassemblerSends] what it
      puts into its tunnels, [ReassemblerOrigin] where its connects and datagrams come from.
    - [EgressWriter], [EgressFacts] ([write_to_egress]): one connection of the
      reassembler with its writer task; [ReassemblerStream]: the whole reassembler with
      the writer tasks of all its connections ([xstep]), seen from one client's stream.
    - [Splitter] ([splitter.rs]): inbound frames, the connection table, id allocation,
      the client handlers as machines, the heartbeat; [SplitterFacts], [SplitterTcp]
      hold their theorems, [SplitterSends] what they put into the tunnels.
    - [ClientConn], [ClientFacts]: one connection of the splitter with its writer task,
      [on_frame] cut at its writes, and the frames of [read_from_egress];
      [SplitterStream]: the whole splitter with the writer tasks of all its clients and
      the deliveries under way ([ystep]), seen from one response.
    - [SplitterUdp] ([handle_udp_client]): the relay of a UDP association.
    - [TunnelTask] ([run_splitter], [tunnel_read_loop]): the reconnect loop of a tunnel and
      what it does with the frames a dead tunnel did not write.
    - [LinkTask], [LinkFacts] ([run_tunnel_listener], [tunnel_read_loop], [dispatch_frame] of
      [reassembler.rs]): the tasks of each accepted tunnel and the permits of its SYN
      handlers.
    - [AcceptLoop] ([run_splitter], [handle_client]): the connection limit.
    - [SplitterNode], [ReassemblerNode]: each process whole, with every task it spawns: the
      shared state, handlers and readers with the [send_async] they may be in, UDP relays
      and responders, tunnel and drain tasks, timers.  A client enters with the bytes of its
      SOCKS5 handshake ([node_client]).  [SplitterNodeFacts] and
      [ReassemblerNodeFacts]: what leaves a process was sent by the task that owns its id;
      [SplitterOrigin]: what gets to the client of an association arrived for it;
      [ReassemblerTargets]: what the sockets of the connections are connected to.
    - [EndToEnd]: one stream in both directions, for any frames a network may deliver.
    - [World]: both processes, joined by tunnels that carry bytes.  [WorldFacts] (the
      way down), [WorldOrigin] (connects, streams and datagrams up), [WorldAnswers]
      (datagrams down).
    - [Logging], [LoggingFacts] ([logging.rs]); [Config], [ConfigFacts] ([config.rs]);
      [Startup], [StartupFacts] ([main.rs], [find_config]).

    ** State and steps

    Shared objects are identifiers into a store: an [Arc<TunnelLink>] into [arcs], an
    [Arc<VirtConnDe>] into [vcs], an [Arc<VirtConn>] into [sp_vcs], so that an object
    taken out of a map is still the one its tasks hold.  A handler runs atomically
    between two awaits; the step functions ([rstep], [sstep], [tcp_step], [drain_step],
    [egress_step], [client_step], [link_step], [xstep], [ystep], [node_step], [rnode_step],
    [world_step]) return [None] for an event that is not possible in a state, and runs are
    lists of events, so the theorems about runs hold for every interleaving.  A layer is
    built from the ones below by calling their steps, and refines them ([rnode_sim],
    [node_sim], [links_refine]), so that their theorems hold in it.  Where atomicity is too coarse (the channel writes of [on_frame], the
    phases of [close_write_half], the stores of a FIN) the finer steps are modelled too.
    Clocks, random draws, the outcome of a connect, a write or a timeout are arguments
    of the steps.  Times are milliseconds; counters wrap at 64 bits as the code's do.

    ** What is shown

    - The whole system, both processes running with all their clients over any number of
      tunnels that die and come back, nothing assumed of what the tunnels deliver:
      [world_client_to_target] and [world_target_to_client] (the bytes that a client sends
      behind its request reach its target, and those of the target the client, in order,
      unaltered, without repetition, and all of them when the stream ended normally; the
      id was given to one client only, which [conn_ids_protected] says of ids in use),
      [world_connects_asked] (no connect, and no connection,
      but to what the handshake of a client asked for),
      [world_udp_forwarded] and [world_udp_answered] (datagrams of an association, out and
      back, go between its owner and the hosts it named).
    - One stream.  [client_to_target] and [target_to_client] say it for any network that
      gives a process only frames of the stream's sender; [tunnel_is_queue]: a tunnel is a
      queue of frames.  They rest on [tcp_client_stream], [egress_stream_prefix],
      [reorder_exactly_once], [frames_roundtrip]; [egress_completes] and
      [response_completes] say that the end is reached.
    - Tables.  [conn_ids_protected], [connection_lifecycle]: a connection id is not used
      again before its tombstone is gone.  [sp_heartbeat_spec]: what is reclaimed.
      [accept_never_stuck], [connection_limit]: the limit does not hang the accept loop,
      and how far it holds.  [syn_permits]:
      handshakes are bounded, and no permit and no read loop is lost to one;
      [links_refine]: the links add no behaviour to the reassembler's steps.
      [udp_relay_private]: an association serves one client.
    - Budgets.  [pending_budget_exact], [reserve_spec], [reorder_memory_bounded],
      [reorder_window_sufficient].
    - Tunnels.  [send_spec], [send_async_delivers], [weighted_pick_shares],
      [drain_conservation], [sweep_idle_spec], [pool_ops_wf]; [tunnel_death_recovery],
      [tunnel_backoff].
    - Closing.  [half_close_machine], [grace_wait_spec].
    - Codecs.  [decoder_chunking_independent], [syn_target_codec], [handshake_agrees],
      [udp_datagram_roundtrip].
    - Surroundings.  [main_starts_valid], [parse_ports_sound], [civil_calendar],
      [purge_spec], [daily_write_spec].
    - Limits of the code, proved as they are: [lost_close_race], [fin_seq_race],
      [data_syn_race_strands_frame], [forced_close_leaves_conn],
      [drain_loses_in_flight], [client_write_hole], [sp_fin_seq_race].

    ** Fuel

    Every loop that is not structural has fuel that is proved or seen to suffice: the
    reorder drain gets one round more than there are buffered frames
    ([drain_fuel]); the eviction loop of [try_reserve_pending] one round per pending
    entry ([reserve_spec]); [send_async] one pass per link and one more
    ([send_async_delivers]); [alloc_conn_id] the 1024 tries of the code; the decoder
    more rounds than it has bytes (each frame takes 15 or more); [trim] the length of the
    text; [show] 17 digits, more than any octet, address group, port, year, month or day has.

    ** Not modelled

    - Binding, accepting and spawning, and the sockets themselves: a tunnel is a byte
      stream cut into reads, a socket the outcome of each call.
    - The wait of [run_splitter] for a first live tunnel.
    - The counts of UDP datagrams the splitter's heartbeat logs.
    - DNS, TOML, the file system and the clock, which are arguments.
    - [shutdown_signal] of [lib.rs], the banner and all logging calls. *)
From Stdlib Require Import ZArith Lia List.
From Stdlib Require Import Strings.Byte.
From stdpp Require Import base numbers list option fin_maps gmap.

(** ** Error-carrying results

    The code returns [anyhow::Result<T>]; here [result E A], with one enumeration
    [E] of the places that [bail!] per component. *)
Inductive result (E A : Type) : Type :=
| Ok (a : A)
| Err (e : E).
Arguments Ok {E A} a.
Arguments Err {E A} e.

#[export] Instance result_ret E : MRet (result E) := fun A a => Ok a.
#[export] Instance result_bind E : MBind (result E) :=
  fun A B f m => match m with Ok a => f a | Err e => Err e end.
#[export] Instance result_fmap E : FMap (result E) :=
  fun A B f m => match m with Ok a => Ok (f a) | Err e => Err e end.

Definition is_ok {E A} (r : result E A) : bool :=
  match r with Ok _ => true | Err _ => false end.

Lemma result_bind_Ok {E A B} (m : result E A) (f : A -> result E B) b :
  m ≫= f = Ok b <-> exists a, m = Ok a /\ f a = Ok b.
Proof.
  destruct m as [a|e]; cbn; split.
  - by exists a.
  - intros (a' & Ha & Hb). by simplify_eq.
  - done.
  - by intros (a' & Ha & Hb).
Qed.

(** ** Machine-width unsigned integers

    A [w]-bit unsigned integer is a [Z]; [wrap w] is the wrap-around of
    [wrapping_add] and of an [as] cast, [sat_sub] the [saturating_sub]. *)
Definition wrap (w z : Z) : Z := (z mod 2 ^ w)%Z.
Definition sat_sub (a b : Z) : Z := Z.max 0 (a - b).
Definition u64_succ (z : Z) : Z := wrap 64 (z + 1).

Lemma wrap_small w z : (0 <= z < 2 ^ w)%Z -> wrap w z = z.
Proof. apply Z.mod_small. Qed.

Lemma wrap_range w z : (0 <= w)%Z -> (0 <= wrap w z < 2 ^ w)%Z.
Proof. intros. apply Z.mod_pos_bound. lia. Qed.

Lemma u64_succ_small z : (0 <= z < 2 ^ 64 - 1)%Z -> u64_succ z = (z + 1)%Z.
Proof. intros. apply wrap_small. lia. Qed.

Lemma u64_succ_cases z :
  (0 <= z < 2 ^ 64)%Z ->
  (u64_succ z = z + 1 /\ z < 2 ^ 64 - 1 \/ u64_succ z = 0 /\ z = 2 ^ 64 - 1)%Z.
Proof.
  intros. destruct (decide (z = 2 ^ 64 - 1)%Z) as [->|].
  - right. done.
  - left. split; [apply u64_succ_small; lia | lia].
Qed.

(** ** Bytes and big-endian integers *)
Abbreviation bytes := (list byte).

Definition byte_to_Z (b : byte) : Z := Z.of_N (Byte.to_N b).
Definition byte_of_Z (z : Z) : byte :=
  match Byte.of_N (Z.to_N (z mod 256)) with Some b => b | None => Byte.x00 end.

Lemma byte_to_Z_range b : (0 <= byte_to_Z b < 256)%Z.
Proof. unfold byte_to_Z. pose proof (Byte.to_N_bounded b). lia. Qed.

Lemma byte_of_to_Z b : byte_of_Z (byte_to_Z b) = b.
Proof.
  unfold byte_of_Z, byte_to_Z. pose proof (Byte.to_N_bounded b).
  rewrite Z.mod_small, N2Z.id, Byte.of_to_N by lia. done.
Qed.

Lemma byte_to_of_Z z : byte_to_Z (byte_of_Z z) = (z mod 256)%Z.
Proof.
  unfold byte_of_Z, byte_to_Z.
  pose proof (Z.mod_pos_bound z 256 ltac:(lia)).
  destruct (Byte.of_N _) as [b|] eqn:E.
  - apply Byte.to_of_N in E. rewrite E. lia.
  - apply Byte.of_N_None_iff in E. lia.
Qed.

Lemma byte_to_Z_inj a b : byte_to_Z a = byte_to_Z b -> a = b.
Proof. intros H. rewrite <- (byte_of_to_Z a), H. apply byte_of_to_Z. Qed.

#[export] Instance byte_eq_dec : EqDecision byte.
Proof. intros a b. destruct (Byte.byte_eq_dec a b); [by left | by right]. Defined.

(** [be_bytes n z] is [z.to_be_bytes()] at [n] bytes; [be_value] is [from_be_bytes]. *)
Fixpoint be_bytes (n : nat) (z : Z) : bytes :=
  match n with
  | O => []
  | S n' => byte_of_Z (z / 256 ^ Z.of_nat n') :: be_bytes n' z
  end.

Fixpoint be_value (bs : bytes) : Z :=
  match bs with
  | [] => 0
  | b :: bs' => (byte_to_Z b * 256 ^ Z.of_nat (length bs') + be_value bs')%Z
  end.

Lemma length_be_bytes n z : length (be_bytes n z) = n.
Proof. induction n; simpl; auto. Qed.

Lemma be_value_range bs : (0 <= be_value bs < 256 ^ Z.of_nat (length bs))%Z.
Proof.
  induction bs as [|b bs IH]; cbn [be_value length].
  - lia.
  - rewrite Nat2Z.inj_succ, Z.pow_succ_r by lia.
    pose proof (byte_to_Z_range b). nia.
Qed.

Lemma be_value_be_bytes n z : be_value (be_bytes n z) = (z mod 256 ^ Z.of_nat n)%Z.
Proof.
  induction n as [|n IH]; cbn [be_bytes be_value].
  - rewrite Z.mod_1_r. done.
  - rewrite length_be_bytes, byte_to_of_Z, IH, Nat2Z.inj_succ, Z.pow_succ_r by lia.
    rewrite (Z.mul_comm 256), Z.rem_mul_r by lia. lia.
Qed.

Lemma be_value_be_bytes_small n z :
  (0 <= z < 256 ^ Z.of_nat n)%Z -> be_value (be_bytes n z) = z.
Proof. intros. rewrite be_value_be_bytes. by apply Z.mod_small. Qed.

Lemma be_bytes_shift n z k :
  be_bytes n (z + k * 256 ^ Z.of_nat n)%Z = be_bytes n z.
Proof.
  revert z k. induction n as [|n IH]; intros z k; cbn [be_bytes]; [done|].
  rewrite Nat2Z.inj_succ, Z.pow_succ_r by lia. f_equal.
  - apply byte_to_Z_inj. rewrite !byte_to_of_Z.
    replace (z + k * (256 * 256 ^ Z.of_nat n))%Z
      with (z + (k * 256) * 256 ^ Z.of_nat n)%Z by ring.
    rewrite Z.div_add by lia. apply Z_mod_plus_full.
  - replace (z + k * (256 * 256 ^ Z.of_nat n))%Z
      with (z + (k * 256) * 256 ^ Z.of_nat n)%Z by ring. apply IH.
Qed.

Lemma be_bytes_be_value bs : be_bytes (length bs) (be_value bs) = bs.
Proof.
  induction bs as [|b bs IH]; cbn [be_bytes be_value length]; [done|].
  pose proof (be_value_range bs). f_equal.
  - rewrite Z.add_comm, Z.div_add, Z.div_small, Z.add_0_l by lia. apply byte_of_to_Z.
  - rewrite Z.add_comm, be_bytes_shift. done.
Qed.

(** Length of a byte string as the [usize] the code compares with. *)
Definition zlen {A} (l : list A) : Z := Z.of_nat (length l).

Lemma zlen_nonneg {A} (l : list A) : (0 <= zlen l)%Z.
Proof. unfold zlen. lia. Qed.
Lemma zlen_app {A} (l k : list A) : zlen (l ++ k) = (zlen l + zlen k)%Z.
Proof. unfold zlen. rewrite length_app. lia. Qed.
Lemma zlen_nil {A} : zlen (@nil A) = 0%Z.
Proof. done. Qed.
Lemma zlen_cons {A} (x : A) l : zlen (x :: l) = (zlen l + 1)%Z.
Proof. unfold zlen. simpl. lia. Qed.
Lemma zlen_0_nil {A} (l : list A) : zlen l = 0%Z -> l = [].
Proof. destruct l; [done|]. unfold zlen; simpl; lia. Qed.

Lemma elem_of_rev {A} (x : A) l : x ∈ rev l <-> x ∈ l.
Proof. rewrite !list_elem_of_In. symmetry. apply in_rev. Qed.

(** [Vec::retain] and [Iterator::filter] with a boolean test. *)
Lemma filter_bool_ext {A} (P Q : A -> bool) (l : list A) :
  (forall x, x ∈ l -> P x = Q x) -> filter P l = filter Q l.
Proof.
  induction l as [|x l IH]; intros H; [done|]. rewrite !filter_cons.
  rewrite H by (apply elem_of_cons; by left).
  rewrite IH by (intros y Hy; apply H, elem_of_cons; by right). by case_decide.
Qed.

Lemma filter_bool_id {A} (P : A -> bool) (l : list A) :
  length (filter P l) = length l -> filter P l = l.
Proof.
  induction l as [|x l IH]; [done|]. rewrite filter_cons. pose proof (length_filter P l).
  case_decide; cbn; intros E; [f_equal; apply IH|]; lia.
Qed.

(** [alter] of an entry that is there. *)
Lemma alter_as_insert {A} (g : A -> A) i v (m : gmap nat A) :
  m !! i = Some v -> alter g i m = <[i := g v]> m.
Proof.
  intros Hv. apply map_eq. intros j. destruct (decide (j = i)) as [->|Hj].
  - by rewrite lookup_alter_eq, lookup_insert_eq, Hv.
  - by rewrite lookup_alter_ne, lookup_insert_ne.
Qed.

Create HintDb rr.
Create Rewrite HintDb rr_len.
#[export] Hint Rewrite @zlen_app @zlen_cons @zlen_nil : rr_len.
#[export] Hint Resolve zlen_nonneg byte_to_Z_range : rr.

(** [sum_len l] is the total payload size of a list of byte strings. *)
Definition sum_len (l : list bytes) : Z := foldr (fun b s => zlen b + s)%Z 0%Z l.

Lemma sum_len_app l k : sum_len (l ++ k) = (sum_len l + sum_len k)%Z.
Proof. induction l as [|b l IH]; simpl; [lia|]. unfold sum_len in *; simpl. lia. Qed.
Lemma sum_len_nonneg l : (0 <= sum_len l)%Z.
Proof.
  induction l as [|b l IH]; simpl; [lia|].
  pose proof (zlen_nonneg b). unfold sum_len in *; simpl. lia.
Qed.
Lemma sum_len_concat l : zlen (concat l) = sum_len l.
Proof. induction l as [|b l IH]; simpl; [done|]. rewrite zlen_app, IH. done. Qed.
Lemma sum_len_perm l k : l ≡ₚ k -> sum_len l = sum_len k.
Proof. induction 1; unfold sum_len in *; simpl; lia. Qed.

(** ** Totals over maps *)
Definition zsum (l : list Z) : Z := foldr Z.add 0%Z l.

Lemma zsum_app l k : zsum (l ++ k) = (zsum l + zsum k)%Z.
Proof. unfold zsum. induction l as [|x l IH]; simpl; lia. Qed.
Lemma zsum_perm l k : l ≡ₚ k -> zsum l = zsum k.
Proof. unfold zsum. induction 1; simpl; lia. Qed.
Lemma zsum_nonneg l : Forall (Z.le 0) l -> (0 <= zsum l)%Z.
Proof. unfold zsum. induction 1; simpl; lia. Qed.
Lemma zsum_filter {A} (P : A -> bool) (g : A -> Z) (l : list A) :
  zsum (map g l) = (zsum (map g (filter (fun x => negb (P x)) l)) + zsum (map g (filter P l)))%Z.
Proof.
  induction l as [|x l IH]; [done|]. rewrite !filter_cons. cbn [map zsum foldr].
  change (foldr Z.add 0%Z (map g l)) with (zsum (map g l)). rewrite IH.
  destruct (P x) eqn:E; cbn [negb].
  - rewrite decide_False, decide_True by (by try intros []). cbn [map zsum foldr]. unfold zsum. lia.
  - rewrite decide_True, decide_False by (by try intros []). cbn [map zsum foldr]. unfold zsum. lia.
Qed.

Section map_total.
Context {V : Type} (g : V -> Z).

(** The total of [g] over the values of a map. *)
Definition map_total (m : gmap Z V) : Z := zsum (map (fun kv => g kv.2) (map_to_list m)).

Lemma map_total_empty : map_total ∅ = 0%Z.
Proof. unfold map_total. by rewrite map_to_list_empty. Qed.

Lemma map_total_perm m l : l ≡ₚ map_to_list m -> map_total m = zsum (map (fun kv => g kv.2) l).
Proof. intros H. apply zsum_perm. by rewrite H. Qed.

Lemma map_total_insert_new m k v :
  m !! k = None -> map_total (<[k := v]> m) = (g v + map_total m)%Z.
Proof.
  intros H. rewrite (map_total_perm _ ((k, v) :: map_to_list m)); [done|].
  by rewrite map_to_list_insert.
Qed.

Lemma map_total_delete m k v :
  m !! k = Some v -> map_total (delete k m) = (map_total m - g v)%Z.
Proof.
  intros H. rewrite <- (insert_delete_id m k v H) at 2.
  rewrite map_total_insert_new by apply lookup_delete_eq. lia.
Qed.

Lemma map_total_insert m k v0 v :
  m !! k = Some v0 -> map_total (<[k := v]> m) = (map_total m - g v0 + g v)%Z.
Proof.
  intros H. rewrite <- insert_delete_eq, map_total_insert_new by apply lookup_delete_eq.
  rewrite (map_total_delete _ _ _ H). lia.
Qed.

Lemma map_total_nonneg m :
  map_Forall (fun _ v => (0 <= g v)%Z) m -> (0 <= map_total m)%Z.
Proof.
  intros H. apply zsum_nonneg, Forall_forall. intros x ([k v] & -> & Hin)%list_elem_of_fmap.
  apply elem_of_map_to_list in Hin. by apply (H k).
Qed.

Lemma map_total_ge m k v :
  map_Forall (fun _ v => (0 <= g v)%Z) m -> m !! k = Some v -> (g v <= map_total m)%Z.
Proof.
  intros H Hk. pose proof (map_total_delete m k v Hk).
  pose proof (map_total_nonneg (delete k m) (map_Forall_delete _ _ _ H)). lia.
Qed.
End map_total.

(** ** Automation *)

(** Case analysis of every [decide]/[match] of the goal or of the context. *)
Ltac rr_cases :=
  repeat first
    [ case_decide | case_match
    | progress simplify_eq/= ]; try done.

(** Turn boolean comparisons of [Z] into propositions. *)
Ltac zbool :=
  rewrite ?Z.geb_leb, ?Z.gtb_ltb in *;
  rewrite ?Z.leb_le, ?Z.leb_gt, ?Z.ltb_lt, ?Z.ltb_ge, ?Z.eqb_eq, ?Z.eqb_neq in *.

(** Close a comparison of closed [Z] terms by evaluating it. *)
Ltac zcompute := vm_compute; first [reflexivity | discriminate].

(** Split conjunctions and close arithmetic leaves. *)
Ltac split_lia := repeat split; autorewrite with rr_len in *; try done; try lia.
