(* ===== verification/Runtime.v ===== *)
(** * Interfaces of the crates the program calls

    The source of [tokio], [bytes] and [rand] is not part of the repository, so the
    components are proved against the classes of this file: the operations the code
    calls, and the documented behaviour of them it relies on.  [RefTokio] and
    [RefBufMut] are plain instances, which show that the laws can hold and let the
    witnesses compute.

    Three types of those crates are used as plain data: [bytes::Bytes] is an immutable
    byte string ([bytes] of the prelude), [dashmap::DashMap] is a map ([gmap]), and an
    [Instant] is a reading of the clock, passed to each operation that calls
    [Instant::now()]. *)
From Stdlib Require Import ZArith Lia.
From stdpp Require Import base numbers list option fin_maps gmap.
From S2P Require Import Prelude.

(** ** [bytes::BufMut] *)
Class BufMut : Type := {
  put_u8 : Z -> bytes -> bytes;
  put_u16 : Z -> bytes -> bytes;
  put_u32 : Z -> bytes -> bytes;
  put_u64 : Z -> bytes -> bytes;
  put_slice : bytes -> bytes -> bytes;
}.

(** Every [put_*] appends, and integers go out in big-endian order. *)
Class BufMutLaws (B : BufMut) : Prop := {
  put_u8_spec z b : put_u8 z b = b ++ be_bytes 1 z;
  put_u16_spec z b : put_u16 z b = b ++ be_bytes 2 z;
  put_u32_spec z b : put_u32 z b = b ++ be_bytes 4 z;
  put_u64_spec z b : put_u64 z b = b ++ be_bytes 8 z;
  put_slice_spec s b : put_slice s b = b ++ s;
}.

Definition RefBufMut : BufMut := {|
  put_u8 z b := b ++ be_bytes 1 z;
  put_u16 z b := b ++ be_bytes 2 z;
  put_u32 z b := b ++ be_bytes 4 z;
  put_u64 z b := b ++ be_bytes 8 z;
  put_slice s b := b ++ s;
|}.

#[export] Instance RefBufMut_laws : BufMutLaws RefBufMut.
Proof. by constructor. Qed.

(** ** [tokio::sync]: bounded [mpsc] channels and [Notify]

    A channel is shared by its senders and its receiver; [chan A] is that shared
    state.  [queued] and [is_closed] observe it: the messages sent and not yet
    received, and whether the receiver is gone. *)
Inductive TrySendError : Set := Full | Closed.

Class Tokio : Type := {
  chan : Type -> Type;
  chan_new : forall {A}, Z -> chan A;
  try_send : forall {A}, A -> chan A -> option TrySendError * chan A;
  try_recv : forall {A}, chan A -> option A * chan A;
  chan_close : forall {A}, chan A -> chan A;
  capacity : forall {A}, chan A -> Z;
  queued : forall {A}, chan A -> list A;
  is_closed : forall {A}, chan A -> bool;
  max_capacity : forall {A}, chan A -> Z;
  notify : Type;
  notify_new : notify;
  notify_one : notify -> notify;
  has_permit : notify -> bool;
  notify_take : notify -> notify;
}.

Class TokioLaws (T : Tokio) : Prop := {
  queued_new A n : queued (chan_new (A := A) n) = [];
  is_closed_new A n : is_closed (chan_new (A := A) n) = false;
  max_capacity_new A n : max_capacity (chan_new (A := A) n) = n;
  try_send_closed A (a : A) c :
    is_closed c = true -> try_send a c = (Some Closed, c);
  try_send_full A (a : A) c :
    is_closed c = false -> (max_capacity c <= zlen (queued c))%Z ->
    try_send a c = (Some Full, c);
  try_send_ok A (a : A) c :
    is_closed c = false -> (zlen (queued c) < max_capacity c)%Z ->
    (try_send a c).1 = None /\
    queued (try_send a c).2 = queued c ++ [a] /\
    is_closed (try_send a c).2 = false /\
    max_capacity (try_send a c).2 = max_capacity c;
  capacity_spec A (c : chan A) :
    is_closed c = false -> capacity c = (max_capacity c - zlen (queued c))%Z;
  try_recv_nil A (c : chan A) : queued c = [] -> try_recv c = (None, c);
  try_recv_cons A (c : chan A) a q :
    queued c = a :: q ->
    (try_recv c).1 = Some a /\ queued (try_recv c).2 = q /\
    is_closed (try_recv c).2 = is_closed c /\
    max_capacity (try_recv c).2 = max_capacity c;
  is_closed_close A (c : chan A) : is_closed (chan_close c) = true;
  has_permit_new : has_permit notify_new = false;
  has_permit_one n : has_permit (notify_one n) = true;
  has_permit_take n : has_permit (notify_take n) = false;
}.

Record ref_chan (A : Type) := RefChan {
  rc_queue : list A; rc_cap : Z; rc_closed : bool
}.
Arguments RefChan {A}. Arguments rc_queue {A}. Arguments rc_cap {A}.
Arguments rc_closed {A}.

Definition RefTokio : Tokio := {|
  chan := ref_chan;
  chan_new A n := RefChan [] n false;
  try_send A a c :=
    if rc_closed c then (Some Closed, c)
    else if (rc_cap c <=? zlen (rc_queue c))%Z then (Some Full, c)
    else (None, RefChan (rc_queue c ++ [a]) (rc_cap c) false);
  try_recv A c :=
    match rc_queue c with
    | [] => (None, c)
    | a :: q => (Some a, RefChan q (rc_cap c) (rc_closed c))
    end;
  chan_close A c := RefChan [] (rc_cap c) true;
  capacity A c := if rc_closed c then 0%Z else (rc_cap c - zlen (rc_queue c))%Z;
  queued A := rc_queue;
  is_closed A := rc_closed;
  max_capacity A := rc_cap;
  notify := bool;
  notify_new := false;
  notify_one _ := true;
  has_permit n := n;
  notify_take _ := false;
|}.

#[export] Instance RefTokio_laws : TokioLaws RefTokio.
Proof.
  constructor; simpl; try done.
  - intros A a c ->. done.
  - intros A a c -> H. apply Z.leb_le in H. by rewrite H.
  - intros A a c -> H. apply Z.leb_gt in H. by rewrite H.
  - intros A c ->. done.
  - intros A c ->. done.
  - intros A c a q ->. done.
Qed.

(** Facts about [try_send] and [try_recv] every client uses. *)
Section try_send_facts.
Context {T : Tokio} {TL : TokioLaws T}.

Lemma try_send_cases {A} (a : A) c :
  (is_closed c = true /\ try_send a c = (Some Closed, c)) \/
  (is_closed c = false /\ (max_capacity c <= zlen (queued c))%Z /\
     try_send a c = (Some Full, c)) \/
  (is_closed c = false /\ (zlen (queued c) < max_capacity c)%Z /\
   exists c', try_send a c = (None, c') /\ queued c' = queued c ++ [a] /\
     is_closed c' = false /\ max_capacity c' = max_capacity c).
Proof.
  destruct (is_closed c) eqn:E.
  - left. eauto using try_send_closed.
  - right. destruct (decide (zlen (queued c) < max_capacity c)%Z) as [L|L].
    + right. pose proof (try_send_ok _ a c E L) as (H1 & H2 & H3 & H4).
      destruct (try_send a c) as [o c'] eqn:Ec. simpl in *. subst o. eauto 10.
    + left. rewrite (try_send_full _ a c E) by lia. split_and!; [done|lia|done].
Qed.

(** A failed [try_send] leaves the channel as it was. *)
Lemma try_send_err {A} (a : A) c e c' :
  try_send a c = (Some e, c') -> c' = c.
Proof.
  intros H. destruct (try_send_cases a c) as [[_ E]|[(_&_&E)|(_&_&?&E&_)]];
    rewrite H in E; by simplify_eq.
Qed.

Lemma try_send_None {A} (a : A) c c' :
  try_send a c = (None, c') ->
  is_closed c = false /\ (zlen (queued c) < max_capacity c)%Z /\
  queued c' = queued c ++ [a] /\ is_closed c' = false /\
  max_capacity c' = max_capacity c.
Proof.
  intros H. destruct (try_send_cases a c) as [[_ E]|[(_&_&E)|(?&?&?&E&?&?&?)]];
    rewrite H in E; by simplify_eq.
Qed.
(** What [try_recv] finds. *)
Lemma try_recv_cases {A} (c : chan A) :
  (queued c = [] /\ try_recv c = (None, c)) \/
  (exists a q c', queued c = a :: q /\ try_recv c = (Some a, c') /\ queued c' = q /\
     is_closed c' = is_closed c).
Proof.
  destruct (queued c) as [|a q] eqn:E; [left; split; [done|by apply try_recv_nil]|right].
  destruct (try_recv_cons _ c a q E) as (H1 & H2 & H3 & _).
  destruct (try_recv c) as [o c'] eqn:Er. cbn in *. subst o. eauto 10.
Qed.
End try_send_facts.

(** ** [dashmap::DashMap] iteration

    A [DashMap] is a [gmap]; [iter] and [retain] visit the entries in an order the
    documentation leaves open, so the order is a parameter. *)
Class DashIter : Type := dash_iter : forall {V}, gmap Z V -> list (Z * V).

Class DashIterLaws (D : DashIter) : Prop :=
  dash_iter_perm V (m : gmap Z V) : dash_iter m ≡ₚ map_to_list m.

Definition RefDashIter : DashIter := fun V m => map_to_list m.

#[export] Instance RefDashIter_laws : DashIterLaws RefDashIter.
Proof. by intros V m. Qed.

Section dash_iter_facts.
Context {D : DashIter} {DL : DashIterLaws D}.

Lemma elem_of_dash_iter {V} (m : gmap Z V) k v :
  (k, v) ∈ dash_iter m <-> m !! k = Some v.
Proof. by rewrite dash_iter_perm, elem_of_map_to_list. Qed.

Lemma dash_iter_nil {V} (m : gmap Z V) : dash_iter m = [] <-> m = ∅.
Proof.
  rewrite <- (map_to_list_empty_iff m). pose proof (dash_iter_perm _ m) as H.
  split; intros E; rewrite E in H; by apply Permutation_nil_r || by apply Permutation_nil_l in H.
Qed.
End dash_iter_facts.
