(* ===== verification/Frames.v ===== *)
(** * Wire format: frames, SYN payloads and the streaming decoder

    Models [src/src/frame.rs].  [Frame] is the struct of that name, [encode_into] and
    [frame_encode] its encoders; [SynTarget] with [syn_target_encode] and
    [syn_target_decode] is the SYN payload; [try_next] is
    [FrameDecoder::try_next], with the awaited reads as an explicit list. *)
From Stdlib Require Import ZArith Lia.
From Stdlib Require Import Strings.Byte.
From stdpp Require Import base numbers list option.
From S2P Require Import Prelude Runtime.
Local Open Scope Z_scope.

(** ** Constants *)
Definition FLAG_SYN : Z := 1.
Definition FLAG_DATA : Z := 2.
Definition FLAG_FIN : Z := 4.
Definition FLAG_RST : Z := 8.
Definition HEADER_LEN : Z := 4 + 8 + 1 + 2.
Definition MAX_PAYLOAD : Z := 65535.
Definition MIN_CHUNK : Z := 512.
Definition MAX_CHUNK : Z := 65535.
Definition MAX_REORDER_WINDOW : Z := 512.
Definition MAX_REORDER_BYTES : Z := 64 * 1024 * 1024.
Definition MAX_PENDING_CIDS : Z := 256.
Definition MAX_PENDING_BYTES : Z := 64 * 1024 * 1024.
Definition MAX_DECODER_BUF : Z := HEADER_LEN + MAX_PAYLOAD + 16384.
Definition PROTO_TCP : Z := 6.
Definition PROTO_UDP : Z := 17.

(** ** Frames *)
Record Frame : Type := mkFrame {
  conn_id : Z;
  seq : Z;
  flags : Z;
  payload : bytes;
}.

Definition frame_data (cid sq : Z) (p : bytes) : Frame := mkFrame cid sq FLAG_DATA p.
Definition frame_syn (cid : Z) (p : bytes) : Frame := mkFrame cid 0 FLAG_SYN p.
Definition frame_fin (cid sq : Z) : Frame := mkFrame cid sq FLAG_FIN [].
Definition frame_rst (cid : Z) : Frame := mkFrame cid 0 FLAG_RST [].

(** [frame.flags & FLAG != 0], the test of every dispatcher. *)
Definition has_flag (f : Frame) (flag : Z) : bool := negb (Z.land (flags f) flag =? 0).

(** The ranges the field types [u32], [u64], [u8] guarantee. *)
Definition frame_typed (f : Frame) : Prop :=
  0 <= conn_id f < 2 ^ 32 /\ 0 <= seq f < 2 ^ 64 /\ 0 <= flags f < 2 ^ 8.

Inductive FrameError : Type :=
| PayloadTooLarge (len : Z)
| BufferOverflow
| EofMidFrame (buffered : Z)
| ReadFailed.

Section encode.
Context {B : BufMut}.

Definition encode_into (f : Frame) (buf : bytes) : result FrameError bytes :=
  if zlen (payload f) >? MAX_PAYLOAD then Err (PayloadTooLarge (zlen (payload f)))
  else
    let buf := put_u32 (conn_id f) buf in
    let buf := put_u64 (seq f) buf in
    let buf := put_u8 (flags f) buf in
    let buf := put_u16 (wrap 16 (zlen (payload f))) buf in
    Ok (put_slice (payload f) buf).

Definition frame_encode (f : Frame) : result FrameError bytes := encode_into f [].
End encode.

(** ** [String::from_utf8]

    A Rust [String] is its UTF-8 bytes; [utf8_valid] is the well-formedness check of
    the standard library (the table of well-formed byte sequences of the Unicode
    standard). *)
Definition in_range (b : byte) (lo hi : Z) : bool :=
  (lo <=? byte_to_Z b) && (byte_to_Z b <=? hi).
Definition utf8_cont (b : byte) : bool := in_range b 128 191.

Fixpoint utf8_valid (bs : bytes) : bool :=
  match bs with
  | [] => true
  | b0 :: r0 =>
    if in_range b0 0 127 then utf8_valid r0
    else match r0 with
    | [] => false
    | b1 :: r1 =>
      if in_range b0 194 223 then utf8_cont b1 && utf8_valid r1
      else match r1 with
      | [] => false
      | b2 :: r2 =>
        if in_range b0 224 239 then
          (if in_range b0 224 224 then in_range b1 160 191
           else if in_range b0 237 237 then in_range b1 128 159
           else utf8_cont b1) && utf8_cont b2 && utf8_valid r2
        else match r2 with
        | [] => false
        | b3 :: r3 =>
          in_range b0 240 244 &&
          (if in_range b0 240 240 then in_range b1 144 191
           else if in_range b0 244 244 then in_range b1 128 143
           else utf8_cont b1) && utf8_cont b2 && utf8_cont b3 && utf8_valid r3
        end
      end
    end
  end.

(** ** SYN payload *)
Record SynTarget : Type := mkSynTarget {
  proto : Z;
  address : bytes;
  port : Z;
}.

(** [u8], [String] and [u16] fields. *)
Definition syn_target_typed (t : SynTarget) : Prop :=
  0 <= proto t < 2 ^ 8 /\ utf8_valid (address t) = true /\ 0 <= port t < 2 ^ 16.

Inductive SynError : Type :=
| SynAddressTooLong (len : Z)
| SynTooShort
| SynTruncated
| SynBadUtf8.

Definition syn_target_encode `{BufMut} (t : SynTarget) : result SynError bytes :=
  let addr := address t in
  if zlen addr >? 65535 then Err (SynAddressTooLong (zlen addr))
  else
    let buf := put_u8 (proto t) [] in
    let buf := put_u16 (wrap 16 (zlen addr)) buf in
    let buf := put_slice addr buf in
    Ok (put_u16 (port t) buf).

Definition syn_target_decode (p : bytes) : result SynError SynTarget :=
  if zlen p <? 5 then Err SynTooShort
  else
    let proto := be_value (take 1 p) in
    let addr_len := be_value (take 2 (drop 1 p)) in
    if zlen p <? 5 + addr_len then Err SynTruncated
    else
      let n := Z.to_nat addr_len in
      let addr := take n (drop 3 p) in
      if utf8_valid addr then
        Ok (mkSynTarget proto addr (be_value (take 2 (drop (3 + n) p))))
      else Err SynBadUtf8.

(** ** Streaming decoder

    [parse_frame] is the parse attempt at the head of the loop of [try_next]: [None]
    when the buffer holds no complete frame. *)
Definition parse_frame (buf : bytes) : option (result FrameError (Frame * bytes)) :=
  if zlen buf >=? HEADER_LEN then
    let payload_len := be_value (take 2 (drop 13 buf)) in
    if payload_len >? MAX_PAYLOAD then Some (Err (PayloadTooLarge payload_len))
    else if zlen buf >=? HEADER_LEN + payload_len then
      let n := Z.to_nat payload_len in
      let rest := drop 15 buf in
      Some (Ok (mkFrame (be_value (take 4 buf)) (be_value (take 8 (drop 4 buf)))
                        (be_value (take 1 (drop 12 buf))) (take n rest),
                drop n rest))
    else None
  else None.

(** One completed [read_buf]: the bytes it appended ([n == 0] is end of file), or an
    I/O error. *)
Inductive read_result : Type := ReadOk (bs : bytes) | ReadErr.

Inductive next_outcome : Type :=
| NextFrame (f : Frame)
| NextEof
| NextErr (e : FrameError)
| NextPending.  (** still awaiting a read *)

Fixpoint try_next (buf : bytes) (reads : list read_result)
  : next_outcome * bytes * list read_result :=
  match parse_frame buf with
  | Some (Ok (f, buf')) => (NextFrame f, buf', reads)
  | Some (Err e) => (NextErr e, buf, reads)
  | None =>
    if sat_sub MAX_DECODER_BUF (zlen buf) =? 0 then (NextErr BufferOverflow, buf, reads)
    else match reads with
    | [] => (NextPending, buf, [])
    | ReadErr :: reads' => (NextErr ReadFailed, buf, reads')
    | ReadOk bs :: reads' =>
      if zlen bs =? 0 then
        (if zlen buf =? 0 then NextEof else NextErr (EofMidFrame (zlen buf)), buf, reads')
      else try_next (buf ++ bs) reads'
    end
  end.

(** The reader loop of both sides: call [try_next] until it yields no frame. *)
Fixpoint decode_stream (fuel : nat) (buf : bytes) (reads : list read_result)
  : list Frame * next_outcome :=
  match fuel with
  | O => ([], NextPending)
  | S fuel' =>
    match try_next buf reads with
    | (NextFrame f, buf', reads') =>
      let '(fs, o) := decode_stream fuel' buf' reads' in (f :: fs, o)
    | (o, _, _) => ([], o)
    end
  end.

(** Reference decoder: all the frames of a byte string at once, and what is left. *)
Fixpoint parse_all (fuel : nat) (bs : bytes) : list Frame * bytes :=
  match fuel with
  | O => ([], bs)
  | S fuel' =>
    match parse_frame bs with
    | Some (Ok (f, rest)) => let '(fs, r) := parse_all fuel' rest in (f :: fs, r)
    | _ => ([], bs)
    end
  end.

(** ** The decoder's parse step *)
Lemma be_value2_le bs : zlen bs <= 2 -> be_value bs <= MAX_PAYLOAD.
Proof.
  intros H. pose proof (be_value_range bs) as R. unfold zlen, MAX_PAYLOAD in *.
  assert (256 ^ Z.of_nat (length bs) <= 256 ^ 2) by (apply Z.pow_le_mono_r; lia). lia.
Qed.

Lemma be_value_nonneg bs : 0 <= be_value bs.
Proof. apply be_value_range. Qed.

Lemma zlen_take_le {A} n (l : list A) : zlen (take n l) <= Z.of_nat n.
Proof. unfold zlen. rewrite length_take. lia. Qed.

(** The length field is a [u16], so the [> MAX_PAYLOAD] test never fires. *)
Lemma parse_frame_no_err buf e : parse_frame buf <> Some (Err e).
Proof.
  unfold parse_frame. intros H.
  pose proof (be_value2_le (take 2 (drop 13 buf)) (zlen_take_le 2 _)).
  repeat case_match; simplify_eq; zbool; lia.
Qed.

(** The payload length a buffered header announces, and the frame it starts. *)
Definition announced (buf : bytes) : nat := Z.to_nat (be_value (take 2 (drop 13 buf))).
Definition frame_at (buf : bytes) : Frame :=
  mkFrame (be_value (take 4 buf)) (be_value (take 8 (drop 4 buf)))
    (be_value (take 1 (drop 12 buf))) (take (announced buf) (drop 15 buf)).

Lemma parse_frame_Ok buf f rest :
  parse_frame buf = Some (Ok (f, rest)) <->
  (15 + announced buf <= length buf)%nat /\
  f = frame_at buf /\ rest = drop (15 + announced buf) buf.
Proof.
  pose proof (be_value2_le (take 2 (drop 13 buf)) (zlen_take_le 2 _)).
  pose proof (be_value_nonneg (take 2 (drop 13 buf))).
  unfold parse_frame, frame_at, announced. rewrite <- drop_drop.
  unfold zlen, HEADER_LEN in *. split.
  - intros E. repeat case_match; simplify_eq; zbool. split_and!; [lia|done..].
  - intros (L & -> & ->). repeat case_match; zbool; try lia. done.
Qed.

Lemma announced_app buf x : (15 <= length buf)%nat -> announced (buf ++ x) = announced buf.
Proof.
  intros. unfold announced. rewrite drop_app_le, take_app_le by (rewrite ?length_drop; lia).
  done.
Qed.

Lemma frame_at_app buf x :
  (15 + announced buf <= length buf)%nat -> frame_at (buf ++ x) = frame_at buf.
Proof.
  intros. unfold frame_at. rewrite announced_app, !drop_app_le by lia.
  by rewrite !take_app_le by (rewrite ?length_drop; lia).
Qed.

Lemma parse_frame_app buf f rest x :
  parse_frame buf = Some (Ok (f, rest)) ->
  parse_frame (buf ++ x) = Some (Ok (f, rest ++ x)).
Proof.
  rewrite !parse_frame_Ok. intros (L & -> & ->).
  rewrite announced_app, frame_at_app, length_app, drop_app_le by lia. split_and!; [lia|done..].
Qed.

(** While a frame is incomplete the buffer is smaller than one maximal frame. *)
Lemma parse_frame_None_len buf :
  parse_frame buf = None -> zlen buf < HEADER_LEN + MAX_PAYLOAD.
Proof.
  unfold parse_frame. pose proof (be_value2_le (take 2 (drop 13 buf)) (zlen_take_le 2 _)).
  unfold HEADER_LEN, MAX_PAYLOAD in *.
  repeat case_match; intros; simplify_eq; zbool; lia.
Qed.

Lemma parse_frame_length buf f rest :
  parse_frame buf = Some (Ok (f, rest)) -> (length rest + 15 <= length buf)%nat.
Proof. intros (L & _ & ->)%parse_frame_Ok. rewrite length_drop. lia. Qed.

Lemma parse_frame_has_space buf :
  parse_frame buf = None -> (sat_sub MAX_DECODER_BUF (zlen buf) =? 0) = false.
Proof.
  intros H%parse_frame_None_len. apply Z.eqb_neq. unfold sat_sub, MAX_DECODER_BUF in *. lia.
Qed.

(** ** Chunking *)
Lemma parse_all_mono n m bs :
  (length bs < n)%nat -> (length bs < m)%nat -> parse_all n bs = parse_all m bs.
Proof.
  revert m bs. induction n as [|n IH]; intros [|m] bs Hn Hm; try lia. simpl.
  destruct (parse_frame bs) as [[[f r]|e]|] eqn:E; try done.
  apply parse_frame_length in E. rewrite (IH m r) by lia. done.
Qed.

(** One call of [try_next] over a list of non-empty chunks then end of file agrees with
    one parse step on the concatenated bytes. *)
Lemma try_next_chunks cs buf :
  Forall (fun c => c <> []) cs ->
  let bs := buf ++ concat cs in
  match parse_frame bs with
  | Some (Ok (f, rest)) =>
    exists buf' cs', try_next buf (map ReadOk cs ++ [ReadOk []]) =
        (NextFrame f, buf', map ReadOk cs' ++ [ReadOk []]) /\
      rest = buf' ++ concat cs' /\ Forall (fun c => c <> []) cs'
  | _ => (try_next buf (map ReadOk cs ++ [ReadOk []])).1.1 =
      if zlen bs =? 0 then NextEof else NextErr (EofMidFrame (zlen bs))
  end.
Proof.
  revert buf. induction cs as [|c cs IH]; intros buf Hcs; simpl.
  - rewrite app_nil_r. destruct (parse_frame buf) as [[[f r]|e]|] eqn:E; simpl.
    + exists r, []. rewrite app_nil_r. done.
    + by destruct (parse_frame_no_err buf e).
    + rewrite (parse_frame_has_space _ E). simpl. done.
  - apply Forall_cons_1 in Hcs as [Hc Hcs]. rewrite app_assoc.
    destruct (parse_frame buf) as [[[f r]|e]|] eqn:E; simpl.
    + rewrite <- app_assoc. rewrite (parse_frame_app _ _ _ (c ++ concat cs) E).
      exists r, (c :: cs). split_and!; [done..|by constructor].
    + by destruct (parse_frame_no_err buf e).
    + rewrite (parse_frame_has_space _ E).
      assert ((zlen c =? 0) = false) as -> by (apply Z.eqb_neq; intros ?%zlen_0_nil; done).
      apply (IH (buf ++ c) Hcs).
Qed.

Lemma decode_stream_chunks fuel : forall buf cs,
  Forall (fun c => c <> []) cs ->
  (length (buf ++ concat cs) < fuel)%nat ->
  decode_stream fuel buf (map ReadOk cs ++ [ReadOk []]) =
    let '(fs, rest) := parse_all fuel (buf ++ concat cs) in
    (fs, if zlen rest =? 0 then NextEof else NextErr (EofMidFrame (zlen rest))).
Proof.
  induction fuel as [|fuel IH]; intros buf cs Hcs Hf; [lia|]. cbn [decode_stream parse_all].
  pose proof (try_next_chunks cs buf Hcs) as H. cbn zeta in H.
  destruct (parse_frame (buf ++ concat cs)) as [[[f rest]|e]|] eqn:E.
  - destruct H as (buf' & cs' & -> & -> & Hcs').
    apply parse_frame_length in E. rewrite (IH buf' cs') by (done || lia).
    by destruct (parse_all fuel (buf' ++ concat cs')).
  - by destruct (parse_frame_no_err (buf ++ concat cs) e).
  - destruct (try_next buf _) as [[o b'] r']. simpl in H. subst o. destruct (zlen (buf ++ concat cs) =? 0); done.
Qed.

(** ** Encoding is the inverse of parsing *)
Definition frame_bytes (f : Frame) : bytes :=
  be_bytes 4 (conn_id f) ++ be_bytes 8 (seq f) ++ be_bytes 1 (flags f) ++
  be_bytes 2 (zlen (payload f)) ++ payload f.

(** A frame the encoder accepts. *)
Definition frame_ok (f : Frame) : Prop := frame_typed f /\ zlen (payload f) <= MAX_PAYLOAD.

Lemma be_bytes_take n bs : length bs = n -> be_bytes n (be_value bs) = bs.
Proof. intros <-. apply be_bytes_be_value. Qed.

Lemma be_value_lt n bs : length bs = n -> 0 <= be_value bs < 256 ^ Z.of_nat n.
Proof. intros <-. apply be_value_range. Qed.

Lemma announced_frame_bytes f rest :
  zlen (payload f) <= MAX_PAYLOAD ->
  announced (frame_bytes f ++ rest) = length (payload f).
Proof.
  intros. unfold announced.
  change (take 2 (drop 13 (frame_bytes f ++ rest))) with (be_bytes 2 (zlen (payload f))).
  pose proof (zlen_nonneg (payload f)). unfold MAX_PAYLOAD in *.
  rewrite be_value_be_bytes_small by (simpl; lia). unfold zlen. lia.
Qed.

Lemma frame_at_frame_bytes f rest : frame_ok f -> frame_at (frame_bytes f ++ rest) = f.
Proof.
  intros [(H1 & H2 & H3) H4]. unfold frame_at. rewrite announced_frame_bytes by done.
  change (drop 15 (frame_bytes f ++ rest)) with (payload f ++ rest).
  change (take 4 (frame_bytes f ++ rest)) with (be_bytes 4 (conn_id f)).
  change (take 8 (drop 4 (frame_bytes f ++ rest))) with (be_bytes 8 (seq f)).
  change (take 1 (drop 12 (frame_bytes f ++ rest))) with (be_bytes 1 (flags f)).
  rewrite !be_value_be_bytes_small, take_app_length by (simpl; lia). by destruct f.
Qed.

Lemma length_frame_bytes f : length (frame_bytes f) = (15 + length (payload f))%nat.
Proof. unfold frame_bytes. rewrite !length_app, !length_be_bytes. lia. Qed.

Lemma parse_frame_bytes f rest :
  frame_ok f -> parse_frame (frame_bytes f ++ rest) = Some (Ok (f, rest)).
Proof.
  intros H. apply parse_frame_Ok. rewrite announced_frame_bytes by apply H.
  rewrite frame_at_frame_bytes, length_app, length_frame_bytes by done.
  rewrite <- (length_frame_bytes f), drop_app_length. split_and!; [lia|done..].
Qed.

Lemma drop_split {A} n k m (l : list A) :
  m = (k + n)%nat -> take n (drop k l) ++ drop m l = drop k l.
Proof. intros ->. rewrite <- (take_drop n (drop k l)) at 2. by rewrite drop_drop. Qed.

Lemma frame_at_bytes buf :
  (15 + announced buf <= length buf)%nat ->
  frame_ok (frame_at buf) /\ buf = frame_bytes (frame_at buf) ++ drop (15 + announced buf) buf.
Proof.
  intros H. pose proof (be_value2_le (take 2 (drop 13 buf)) (zlen_take_le 2 _)).
  pose proof (be_value_nonneg (take 2 (drop 13 buf))).
  assert (length (payload (frame_at buf)) = announced buf) as L.
  { cbn [frame_at payload]. rewrite length_take, length_drop. lia. }
  assert (zlen (payload (frame_at buf)) = be_value (take 2 (drop 13 buf))) as Lz.
  { unfold zlen. rewrite L. unfold announced. lia. }
  split.
  - split; [|by rewrite Lz]. unfold frame_typed, frame_at; cbn [conn_id seq flags].
    pose proof (be_value_lt 4 (take 4 buf)). pose proof (be_value_lt 8 (take 8 (drop 4 buf))).
    pose proof (be_value_lt 1 (take 1 (drop 12 buf))).
    rewrite !length_take, ?length_drop in *. lia.
  - unfold frame_bytes. rewrite Lz. cbn [frame_at conn_id seq flags payload].
    rewrite !be_bytes_take by (rewrite !length_take, ?length_drop; lia).
    rewrite <- !app_assoc, (drop_split _ 15), (drop_split 2 13), (drop_split 1 12),
      (drop_split 8 4) by lia. by rewrite take_drop.
Qed.

(** [parse_frame] returns a frame exactly when the buffer starts with its encoding. *)
Lemma parse_frame_iff bs f rest :
  parse_frame bs = Some (Ok (f, rest)) <-> frame_ok f /\ bs = frame_bytes f ++ rest.
Proof.
  split.
  - intros (L & -> & ->)%parse_frame_Ok. by apply frame_at_bytes.
  - intros [H ->]. by apply parse_frame_bytes.
Qed.

Section encode_facts.
Context {B : BufMut} {BL : BufMutLaws B}.

Lemma encode_into_spec f buf :
  encode_into f buf =
    if zlen (payload f) >? MAX_PAYLOAD then Err (PayloadTooLarge (zlen (payload f)))
    else Ok (buf ++ frame_bytes f).
Proof.
  unfold encode_into. case_match; [done|]. zbool. unfold MAX_PAYLOAD in *.
  pose proof (zlen_nonneg (payload f)). rewrite wrap_small by lia.
  rewrite put_slice_spec, put_u16_spec, put_u8_spec, put_u64_spec, put_u32_spec.
  unfold frame_bytes. by rewrite <- !app_assoc.
Qed.

Lemma frame_encode_ok f :
  zlen (payload f) <= MAX_PAYLOAD -> frame_encode f = Ok (frame_bytes f).
Proof.
  intros. unfold frame_encode. rewrite encode_into_spec. case_match; zbool; [lia|done].
Qed.
End encode_facts.

Lemma concat_encodings {B : BufMut} {BL : BufMutLaws B} fs encs :
  Forall frame_ok fs -> Forall2 (fun f e => frame_encode f = Ok e) fs encs ->
  concat encs = concat (map frame_bytes fs).
Proof.
  intros Hfs He. revert Hfs. induction He as [|f e fs encs H He IH]; intros Hfs.
  - done.
  - apply Forall_cons_1 in Hfs as [Hfo Hfs]. rewrite frame_encode_ok in H by apply Hfo.
    injection H as <-. cbn. by rewrite IH.
Qed.

Lemma parse_all_frames fs tail fuel :
  Forall frame_ok fs -> parse_frame tail = None ->
  (length (concat (map frame_bytes fs) ++ tail) < fuel)%nat ->
  parse_all fuel (concat (map frame_bytes fs) ++ tail) = (fs, tail).
Proof.
  intros Hfs Ht. revert fuel. induction Hfs as [|f fs Hf Hfs IH]; intros [|fuel] L;
    cbn [map concat parse_all] in *; try lia; rewrite <- ?app_assoc in *.
  - cbn [app]. by rewrite Ht.
  - rewrite (parse_frame_bytes f _ Hf), IH; [done|].
    rewrite length_app, length_frame_bytes in L. lia.
Qed.

(** A proper prefix of an encoded frame parses as incomplete. *)
Lemma parse_frame_prefix f tail x :
  frame_ok f -> frame_bytes f = tail ++ x -> x <> [] -> parse_frame tail = None.
Proof.
  intros Hf E Hx. destruct (parse_frame tail) as [[[g r]|e]|] eqn:P; [| |done].
  - apply (parse_frame_app _ _ _ x) in P. rewrite <- E in P.
    pose proof (parse_frame_bytes f [] Hf) as Q. rewrite app_nil_r in Q. rewrite P in Q.
    simplify_eq. destruct r, x; simplify_list_eq; done.
  - by destruct (parse_frame_no_err tail e).
Qed.

(** A stream of frames cut anywhere: whole frames, and a part of one. *)
Lemma cut_frames fs bs :
  Forall frame_ok fs -> bs `prefix_of` concat (map frame_bytes fs) ->
  exists k tail, bs = concat (map frame_bytes (take k fs)) ++ tail /\ parse_frame tail = None.
Proof.
  intros Hfs. revert bs. induction Hfs as [|f fs Hf Hfs IH]; intros bs [x Hx]; cbn [map concat] in Hx.
  { exists 0%nat, bs. split; [done|]. symmetry in Hx. by apply app_nil in Hx as [-> _]. }
  destruct (decide (length bs < length (frame_bytes f))%nat) as [Hl|Hl].
  - exists 0%nat, bs. split; [done|].
    apply (parse_frame_prefix f bs (drop (length bs) (frame_bytes f)) Hf).
    + apply (f_equal (take (length bs))) in Hx. rewrite take_app_length in Hx.
      rewrite take_app_le in Hx by lia. rewrite <- Hx at 1. by rewrite take_drop.
    + intros E. apply (f_equal length) in E. rewrite length_drop in E. change (length (@nil Byte.byte)) with 0%nat in E. lia.
  - assert (bs = frame_bytes f ++ drop (length (frame_bytes f)) bs) as E.
    { apply (f_equal (take (length (frame_bytes f)))) in Hx.
      rewrite take_app_length in Hx. rewrite take_app_le in Hx by lia.
      rewrite Hx at 1. by rewrite take_drop. }
    destruct (IH (drop (length (frame_bytes f)) bs)) as (k & tail & Hk & Ht).
    { exists x. rewrite E in Hx. rewrite <- app_assoc in Hx. by apply app_inv_head in Hx. }
    exists (S k), tail. split; [|done]. cbn [take map concat]. rewrite <- app_assoc, <- Hk. exact E.
Qed.

(** ** SYN payload *)
Definition syn_bytes (t : SynTarget) : bytes :=
  be_bytes 1 (proto t) ++ be_bytes 2 (zlen (address t)) ++ address t ++ be_bytes 2 (port t).

Lemma syn_encode_spec {B : BufMut} {BL : BufMutLaws B} t :
  syn_target_encode t =
    if zlen (address t) >? 65535 then Err (SynAddressTooLong (zlen (address t)))
    else Ok (syn_bytes t).
Proof.
  unfold syn_target_encode. case_match; [done|]. zbool.
  pose proof (zlen_nonneg (address t)). rewrite wrap_small by lia.
  rewrite !put_u16_spec, put_slice_spec, put_u8_spec.
  unfold syn_bytes. by rewrite <- !app_assoc.
Qed.

Lemma syn_decode_bytes t rest :
  syn_target_typed t -> zlen (address t) <= 65535 ->
  syn_target_decode (syn_bytes t ++ rest) = Ok t.
Proof.
  intros (H1 & H2 & H3) H4. unfold syn_target_decode.
  change (take 1 (syn_bytes t ++ rest)) with (be_bytes 1 (proto t)).
  change (take 2 (drop 1 (syn_bytes t ++ rest))) with (be_bytes 2 (zlen (address t))).
  pose proof (zlen_nonneg (address t)).
  rewrite !be_value_be_bytes_small by (simpl; lia).
  assert (5 + zlen (address t) <= zlen (syn_bytes t ++ rest)).
  { unfold syn_bytes, zlen. rewrite !length_app, !length_be_bytes. lia. }
  rewrite (proj2 (Z.ltb_ge _ _)) by lia. rewrite (proj2 (Z.ltb_ge _ _)) by lia.
  rewrite <- drop_drop.
  change (drop 3 (syn_bytes t ++ rest)) with ((address t ++ be_bytes 2 (port t)) ++ rest).
  rewrite <- app_assoc. unfold zlen. rewrite Nat2Z.id, take_app_length, drop_app_length, H2.
  rewrite take_app_length' by (symmetry; apply length_be_bytes).
  rewrite be_value_be_bytes_small by (simpl; lia). by destruct t.
Qed.

Lemma syn_decode_inv p t :
  syn_target_decode p = Ok t ->
  syn_target_typed t /\ zlen (address t) <= 65535 /\ exists rest, p = syn_bytes t ++ rest.
Proof.
  unfold syn_target_decode. intros E. repeat case_match; simplify_eq. zbool.
  pose proof (be_value2_le (take 2 (drop 1 p)) (zlen_take_le 2 _)).
  pose proof (be_value_nonneg (take 2 (drop 1 p))). unfold MAX_PAYLOAD, zlen in *.
  set (n := Z.to_nat (be_value (take 2 (drop 1 p)))) in *.
  assert (Z.of_nat n = be_value (take 2 (drop 1 p))) as Hn by (unfold n; lia).
  clearbody n.
  pose proof (be_value_lt 1 (take 1 p)).
  pose proof (be_value_lt 2 (take 2 (drop (3 + n) p))).
  assert (length (take n (drop 3 p)) = n) as L by (rewrite length_take, length_drop; lia).
  unfold syn_target_typed; cbn [proto address port].
  change (S (S (S n))) with (3 + n)%nat.
  rewrite L, !length_take, ?length_drop in *.
  split; [split; [lia|split; [done|lia]]|]. split; [lia|].
  exists (drop (5 + n) p). unfold syn_bytes, zlen; cbn [proto address port].
  rewrite length_take, length_drop, L, Hn.
  rewrite !be_bytes_take by (rewrite !length_take, ?length_drop; lia).
  rewrite <- !app_assoc, (drop_split 2 (3 + n)), (drop_split n 3), (drop_split 2 1) by lia.
  by rewrite take_drop.
Qed.

(** ** Properties *)

(** C16: encoding any sequence of frames, cutting the byte stream into arbitrary
    non-empty reads and decoding it yields exactly those frames; the stream then ends
    in a clean EOF when it stops at a frame boundary, and in the mid-frame error with
    the number of buffered bytes when it stops inside a frame. *)
Theorem frames_roundtrip {B : BufMut} {BL : BufMutLaws B} fs encs last_frame tail missing reads fuel :
  Forall frame_ok fs -> frame_ok last_frame ->
  Forall2 (fun f e => frame_encode f = Ok e) fs encs ->
  frame_encode last_frame = Ok (tail ++ missing) -> missing <> [] ->
  Forall (fun c => c <> []) reads -> concat reads = concat encs ++ tail ->
  (length (concat reads) < fuel)%nat ->
  decode_stream fuel [] (map ReadOk reads ++ [ReadOk []]) =
    (fs, if zlen tail =? 0 then NextEof else NextErr (EofMidFrame (zlen tail))).
Proof.
  intros Hfs Hl He Ht Hm Hr Hc Hf.
  rewrite (frame_encode_ok last_frame) in Ht by apply Hl. injection Ht as Ht.
  pose proof (parse_frame_prefix last_frame tail missing Hl Ht Hm).
  pose proof (concat_encodings fs encs Hfs He) as E.
  rewrite decode_stream_chunks by done. cbn [app].
  rewrite Hc, E in *. by rewrite parse_all_frames.
Qed.

Lemma frames_roundtrip_witness :
  let f := frame_data 1 42 [x70; x61; x79] in let g := frame_rst 7 in
  let bs := frame_bytes f ++ frame_bytes g ++ take 5 (frame_bytes f) in
  decode_stream 100 [] (map ReadOk [take 3 bs; take 20 (drop 3 bs); drop 23 bs] ++ [ReadOk []]) =
    ([f; g], NextErr (EofMidFrame 5)).
Proof.
  apply (frames_roundtrip (B := RefBufMut) (BL := RefBufMut_laws)
    [frame_data 1 42 [x70; x61; x79]; frame_rst 7]
    [frame_bytes (frame_data 1 42 [x70; x61; x79]); frame_bytes (frame_rst 7)]
    (frame_data 1 42 [x70; x61; x79]) (take 5 (frame_bytes (frame_data 1 42 [x70; x61; x79])))
    (drop 5 (frame_bytes (frame_data 1 42 [x70; x61; x79])))).
  - repeat apply Forall_cons_2; [| |apply Forall_nil_2]; repeat split; zcompute.
  - repeat split; zcompute.
  - repeat constructor.
  - reflexivity.
  - discriminate.
  - repeat constructor; discriminate.
  - reflexivity.
  - vm_compute. lia.
Defined.

(** C25: however the bytes of a tunnel connection are cut into reads, the frames
    delivered and the way the stream ends are those of parsing the whole byte string
    at once, malformed input included. *)
Theorem decoder_chunking_independent bs reads fuel :
  Forall (fun c => c <> []) reads -> concat reads = bs -> (length bs < fuel)%nat ->
  decode_stream fuel [] (map ReadOk reads ++ [ReadOk []]) =
    let '(fs, rest) := parse_all fuel bs in
    (fs, if zlen rest =? 0 then NextEof else NextErr (EofMidFrame (zlen rest))).
Proof. intros Hr <- Hf. by rewrite decode_stream_chunks. Qed.

Lemma decoder_chunking_independent_witness :
  decode_stream 8 [] (map ReadOk [[x00; x01]; [x02]; [x03; x04; x05; x06]] ++ [ReadOk []]) =
    ([], NextErr (EofMidFrame 7)).
Proof.
  apply (decoder_chunking_independent [x00; x01; x02; x03; x04; x05; x06]).
  - repeat constructor; discriminate.
  - reflexivity.
  - cbn. lia.
Defined.

(** Whatever the peer sends and however the reads are cut, the decoder's two
    defensive errors never occur: a [u16] length field cannot exceed the payload
    limit, and an incomplete frame always leaves space in the buffer. *)
Theorem decoder_limits_unreachable buf reads :
  (forall n, (try_next buf reads).1.1 <> NextErr (PayloadTooLarge n)) /\
  (try_next buf reads).1.1 <> NextErr BufferOverflow.
Proof.
  revert buf. induction reads as [|r reads IH]; intros buf; simpl;
    (destruct (parse_frame buf) as [[[f r']|e]|] eqn:E;
      [done | by destruct (parse_frame_no_err buf e) |]);
    rewrite (parse_frame_has_space _ E); [done|].
  destruct r as [bs|]; [|done]. case_match; [by case_match|]. apply IH.
Qed.

(** C33: [SynTarget::decode] accepts a payload exactly when it starts with the encoding
    of the target it returns, whose address is valid UTF-8; encoding refuses exactly
    the addresses longer than the [u16] length field. *)
Theorem syn_target_codec {B : BufMut} {BL : BufMutLaws B} :
  (forall p t, syn_target_decode p = Ok t <->
    syn_target_typed t /\ exists enc rest, syn_target_encode t = Ok enc /\ p = enc ++ rest) /\
  (forall t, is_ok (syn_target_encode t) = true <-> zlen (address t) <= 65535).
Proof.
  split.
  - intros p t. setoid_rewrite syn_encode_spec. split.
    + intros (Ht & Hl & rest & ->)%syn_decode_inv. split; [done|].
      exists (syn_bytes t), rest. case_match; zbool; [lia|done].
    + intros (Ht & enc & rest & He & ->). case_match; simplify_eq. zbool.
      by apply syn_decode_bytes.
  - intros t. rewrite syn_encode_spec. case_match; zbool; simpl; split; by try lia.
Qed.

Lemma syn_target_codec_witness :
  let t := mkSynTarget PROTO_TCP [x61; x2e; x62] 443 in
  syn_target_decode (syn_bytes t ++ [xff]) = Ok t.
Proof.
  apply (proj1 (syn_target_codec (B := RefBufMut) (BL := RefBufMut_laws))). split.
  - repeat split; zcompute.
  - exists (syn_bytes (mkSynTarget PROTO_TCP [x61; x2e; x62] 443)), [xff].
    split; reflexivity.
Defined.

(** [Frame::encode] fails exactly on a payload over 65535 bytes, reporting its
    length, and otherwise appends a 15-byte header and the payload, leaving what was in
    the buffer in place. *)
Theorem frame_encode_spec {B : BufMut} {BL : BufMutLaws B} f buf :
  match encode_into f buf with
  | Ok out => zlen (payload f) <= MAX_PAYLOAD /\
      exists hdr, out = buf ++ hdr ++ payload f /\ zlen hdr = HEADER_LEN
  | Err e => zlen (payload f) > MAX_PAYLOAD /\ e = PayloadTooLarge (zlen (payload f))
  end.
Proof.
  rewrite encode_into_spec.
  destruct (zlen (payload f) >? MAX_PAYLOAD) eqn:E; zbool; split; try lia; try done.
  exists (be_bytes 4 (conn_id f) ++ be_bytes 8 (seq f) ++ be_bytes 1 (flags f) ++
    be_bytes 2 (zlen (payload f))). unfold frame_bytes. by rewrite <- !app_assoc.
Qed.

Lemma frame_encode_spec_witness :
  zlen (payload (frame_fin 3 9)) <= MAX_PAYLOAD /\
  exists hdr, x55 :: frame_bytes (frame_fin 3 9) = [x55] ++ hdr ++ [] /\ zlen hdr = HEADER_LEN.
Proof.
  exact (frame_encode_spec (B := RefBufMut) (BL := RefBufMut_laws) (frame_fin 3 9) [x55]).
Defined.
