(* ===== verification/Reorder.v ===== *)
(** * The reorder buffer

    Models [src/src/reorder.rs]: [ReorderBuf] with [with_limit], [push] (whose inner
    [while let] loop is [drain]) and [is_complete_through].  The [BTreeMap] is a [gmap]
    keyed by sequence number; sequence numbers wrap at 64 bits as [wrapping_add] does. *)
From Stdlib Require Import ZArith Lia.
From Stdlib Require Import Strings.Byte.
From stdpp Require Import base numbers list option fin_maps gmap.
From S2P Require Import Prelude Frames.
Local Open Scope Z_scope.

Record PushResult : Type := mkPushResult {
  ready : list bytes;
  accepted : bool;
  overflow : bool;
}.

Record ReorderBuf : Type := mkReorderBuf {
  expected : Z;
  pending : gmap Z bytes;
  pending_bytes : Z;
  max_bytes : Z;
  max_entries : Z;
}.

Definition with_limit (max_bytes : Z) : ReorderBuf :=
  mkReorderBuf 1 ∅ 0 max_bytes (Z.max (max_bytes / MAX_PAYLOAD) MAX_REORDER_WINDOW).

Definition reorder_new : ReorderBuf := with_limit MAX_REORDER_BYTES.

(** The [while let Some(chunk) = self.pending.remove(&self.expected)] loop. *)
Fixpoint drain (fuel : nat) (b : ReorderBuf) : list bytes * ReorderBuf :=
  match fuel with
  | O => ([], b)
  | S fuel' =>
    match pending b !! expected b with
    | None => ([], b)
    | Some chunk =>
      let '(r, b') := drain fuel'
        (mkReorderBuf (u64_succ (expected b)) (delete (expected b) (pending b))
           (pending_bytes b - zlen chunk) (max_bytes b) (max_entries b)) in
      (chunk :: r, b')
    end
  end.

(** [can_buffer] of [push]. *)
Definition can_buffer (b : ReorderBuf) (payload : bytes) : bool :=
  (Z.of_nat (size (pending b)) <? max_entries b) &&
  (pending_bytes b + zlen payload <=? max_bytes b).

Definition push (b : ReorderBuf) (seq : Z) (payload : bytes) : PushResult * ReorderBuf :=
  if seq <? expected b then (mkPushResult [] false false, b)
  else if seq =? expected b then
    let b1 := mkReorderBuf (u64_succ (expected b)) (pending b) (pending_bytes b)
                (max_bytes b) (max_entries b) in
    let '(r, b2) := drain (S (size (pending b1))) b1 in
    (mkPushResult (payload :: r) true false, b2)
  else match pending b !! seq with
  | None =>
    if can_buffer b payload then
      (mkPushResult [] true false,
       mkReorderBuf (expected b) (<[seq := payload]> (pending b))
         (pending_bytes b + zlen payload) (max_bytes b) (max_entries b))
    else (mkPushResult [] false true, b)
  | Some _ => (mkPushResult [] false false, b)
  end.

Definition is_complete_through (b : ReorderBuf) (seq : Z) : bool := seq <=? expected b.

(** Any sequence of pushes: the chunks handed out, whether some push overflowed, and
    the final buffer. *)
Fixpoint push_all (b : ReorderBuf) (fs : list (Z * bytes)) : list bytes * bool * ReorderBuf :=
  match fs with
  | [] => ([], false, b)
  | (s, p) :: fs' =>
    let '(r, b1) := push b s p in
    let '(out, ov, b2) := push_all b1 fs' in
    (ready r ++ out, overflow r || ov, b2)
  end.

(** ** Well-formedness *)
Definition buffered (m : gmap Z bytes) : Z := sum_len (map_to_list m).*2.

Record reorder_wf (b : ReorderBuf) : Prop := {
  wf_expected : 0 <= expected b < 2 ^ 64;
  wf_keys k p : pending b !! k = Some p -> expected b < k < 2 ^ 64;
  wf_bytes : pending_bytes b = buffered (pending b);
  wf_max_bytes : pending_bytes b <= max_bytes b;
  wf_max_entries : Z.of_nat (size (pending b)) <= max_entries b;
}.

Lemma buffered_insert (m : gmap Z bytes) k p :
  m !! k = None -> buffered (<[k := p]> m) = zlen p + buffered m.
Proof.
  intros H. unfold buffered.
  rewrite (sum_len_perm _ ((k, p) :: map_to_list m).*2)
    by (apply fmap_Permutation, map_to_list_insert; done).
  done.
Qed.

Lemma buffered_delete (m : gmap Z bytes) k p :
  m !! k = Some p -> buffered (delete k m) = buffered m - zlen p.
Proof.
  intros H. rewrite <- (insert_delete_id m k p H) at 2.
  rewrite buffered_insert by apply lookup_delete_eq. lia.
Qed.

Lemma buffered_nonneg m : 0 <= buffered m.
Proof. apply sum_len_nonneg. Qed.

Lemma size_delete_lt (m : gmap Z bytes) k p :
  m !! k = Some p -> S (size (delete k m)) = size m.
Proof. intros H. rewrite <- (insert_delete_id m k p H) at 2.
  rewrite map_size_insert_None; [done|]. apply lookup_delete_eq. Qed.

Lemma with_limit_wf n : 0 <= n -> reorder_wf (with_limit n).
Proof.
  intros. constructor; simpl; try done; try lia.
  rewrite map_size_empty. unfold MAX_REORDER_WINDOW. lia.
Qed.

(** ** The drain loop *)

(** What [drain] needs: [expected] itself may be pending. *)
Definition drain_pre (b : ReorderBuf) : Prop :=
  0 <= expected b < 2 ^ 64 /\
  (forall k p, pending b !! k = Some p -> expected b <= k < 2 ^ 64) /\
  pending_bytes b = buffered (pending b) /\ pending_bytes b <= max_bytes b /\
  Z.of_nat (size (pending b)) <= max_entries b.

Lemma drain_pre_step b chunk :
  drain_pre b -> pending b !! expected b = Some chunk ->
  drain_pre (mkReorderBuf (u64_succ (expected b)) (delete (expected b) (pending b))
    (pending_bytes b - zlen chunk) (max_bytes b) (max_entries b)).
Proof.
  intros (He & Hk & Hb & Hm & Hn) Hc. unfold drain_pre; simpl.
  pose proof (size_delete_lt _ _ _ Hc). pose proof (zlen_nonneg chunk).
  rewrite (buffered_delete _ _ _ Hc).
  split; [by apply wrap_range|]. split; [|split; [lia|split; lia]].
  - intros k p [Hne Hp]%lookup_delete_Some. apply Hk in Hp.
    destruct (u64_succ_cases (expected b) He) as [[-> ?]|[-> ?]]; lia.
Qed.

Lemma drain_wf fuel b :
  drain_pre b -> (size (pending b) < fuel)%nat -> reorder_wf (drain fuel b).2.
Proof.
  revert b. induction fuel as [|fuel IH]; intros b Hpre Hf; [lia|]. cbn [drain].
  destruct (pending b !! expected b) as [chunk|] eqn:Hc.
  - specialize (IH _ (drain_pre_step _ _ Hpre Hc)). cbn [pending] in IH.
    pose proof (size_delete_lt _ _ _ Hc). destruct (drain fuel _) as [r b'].
    apply IH. lia.
  - destruct Hpre as (He & Hk & Hb & Hm & Hn). constructor; simpl; try done.
    intros k p Hp. pose proof (Hk _ _ Hp). assert (k <> expected b) by congruence. lia.
Qed.

(** Extra fuel changes nothing: [push] gives the loop enough. *)
Lemma drain_fuel n m b :
  (size (pending b) < n)%nat -> (size (pending b) < m)%nat -> drain n b = drain m b.
Proof.
  revert m b. induction n as [|n IH]; intros [|m] b Hn Hm; try lia. cbn [drain].
  destruct (pending b !! expected b) as [chunk|] eqn:Hc; [|done].
  pose proof (size_delete_lt _ _ _ Hc). rewrite (IH m); [done|simpl; lia..].
Qed.

Lemma drain_limits fuel b :
  max_bytes (drain fuel b).2 = max_bytes b /\ max_entries (drain fuel b).2 = max_entries b.
Proof.
  revert b. induction fuel as [|fuel IH]; intros b; [done|]. cbn [drain].
  destruct (pending b !! expected b); [|done].
  match goal with |- context [drain fuel ?x] => specialize (IH x); destruct (drain fuel x) end.
  done.
Qed.

Lemma push_wf b s p : reorder_wf b -> 0 <= s < 2 ^ 64 -> reorder_wf (push b s p).2.
Proof.
  intros Hwf Hs. unfold push.
  destruct (s <? expected b) eqn:E1; [done|]. destruct (s =? expected b) eqn:E2; zbool.
  - match goal with |- context [drain ?n ?x] =>
      pose proof (drain_wf n x) as D; destruct (drain n x) as [r b2] end.
    apply D; [|simpl; lia]. destruct Hwf as [He Hk Hb Hm Hn]. unfold drain_pre; simpl.
    split; [by apply wrap_range|]. split; [|done].
    intros k q Hq. apply Hk in Hq.
    destruct (u64_succ_cases (expected b) He) as [[-> ?]|[-> ?]]; lia.
  - destruct (pending b !! s) eqn:Hp; [done|]. destruct (can_buffer b p) eqn:C; [|done].
    unfold can_buffer in C. apply andb_true_iff in C as [C1 C2]. zbool.
    destruct Hwf as [He Hk Hb Hm Hn]. constructor; simpl; try done; try lia.
    + intros k q [[-> ->]|[? Hq]]%lookup_insert_Some; [lia|eauto].
    + rewrite buffered_insert by done. lia.
    + rewrite map_size_insert_None by done. lia.
Qed.

Lemma push_outcome b k p r b' :
  push b k p = (r, b') ->
  (accepted r = true /\ overflow r = false) \/ (accepted r = false /\ b' = b).
Proof.
  unfold push. intros H.
  destruct (k <? expected b); [simplify_eq; by right|].
  destruct (k =? expected b); [destruct (drain _ _); simplify_eq; by left|].
  destruct (pending b !! k); [simplify_eq; by right|].
  destruct (can_buffer b p); simplify_eq; [by left|by right].
Qed.

(** ** Delivery of a numbered stream

    [src k] is the payload its sender put in frame number [k]. *)
Section stream.
Variable src : Z -> bytes.

(** The chunks numbered [lo .. hi - 1]. *)
Definition chunks (lo hi : Z) : list bytes := src <$> seqZ lo (hi - lo).

(** Frames of that stream, numbered below the last [u64]. *)
Definition from_stream (fs : list (Z * bytes)) : Prop :=
  Forall (fun kp => 0 <= kp.1 < 2 ^ 64 - 1 /\ (1 <= kp.1 -> kp.2 = src kp.1)) fs.

Lemma chunks_nil e : chunks e e = [].
Proof. unfold chunks. by rewrite Z.sub_diag. Qed.

Lemma chunks_cons lo hi : lo < hi -> chunks lo hi = src lo :: chunks (lo + 1) hi.
Proof.
  intros. unfold chunks. rewrite seqZ_cons by lia. cbn [fmap list_fmap].
  replace (Z.succ lo) with (lo + 1) by lia.
  by replace (Z.pred (hi - lo)) with (hi - (lo + 1)) by lia.
Qed.

Lemma chunks_app lo mid hi : lo <= mid <= hi -> chunks lo hi = chunks lo mid ++ chunks mid hi.
Proof.
  intros. unfold chunks. rewrite <- fmap_app.
  replace (hi - lo) with ((mid - lo) + (hi - mid)) by lia.
  rewrite seqZ_app by lia. do 3 f_equal. lia.
Qed.

Lemma length_chunks lo hi : lo <= hi -> zlen (chunks lo hi) = hi - lo.
Proof. intros. unfold zlen, chunks. rewrite length_fmap, length_seqZ. lia. Qed.

(** The bytes of frames [1 .. e - 1]. *)
Definition upto (e : Z) : bytes := concat (chunks 1 e).

(** A frame of a stream of [n] frames, which ends in a FIN if [fin]. *)
Definition stream_frame (n : Z) (fin : bool) (f : Frame) : Prop :=
  if has_flag f FLAG_DATA then 1 <= seq f <= n /\ payload f = src (seq f)
  else if has_flag f FLAG_FIN then fin = true /\ seq f = n + 1 else True.

Lemma upto_app e e' : 1 <= e <= e' -> upto e' = upto e ++ concat (chunks e e').
Proof. intros. unfold upto. by rewrite (chunks_app 1 e e'), concat_app by lia. Qed.

Lemma upto_1 : upto 1 = [].
Proof. unfold upto. by rewrite chunks_nil. Qed.

Lemma chunks_take lo hi k :
  lo <= hi -> Z.of_nat k <= hi - lo -> take k (chunks lo hi) = chunks lo (lo + Z.of_nat k).
Proof.
  intros. rewrite (chunks_app lo (lo + Z.of_nat k) hi) by lia.
  rewrite take_app_length'; [done|].
  pose proof (length_chunks lo (lo + Z.of_nat k)). unfold zlen in *. lia.
Qed.

Lemma upto_prefix e e' : 1 <= e <= e' -> upto e `prefix_of` upto e'.
Proof. intros. rewrite (upto_app e e') by lia. by eexists. Qed.

(** State of the buffer after the frame numbers [seen] arrived. *)
Record stream_inv (seen : list Z) (b : ReorderBuf) : Prop := {
  si_wf : reorder_wf b;
  si_expected : 1 <= expected b <= 2 ^ 64 - 1;
  si_pending k p : pending b !! k = Some p -> p = src k /\ k < 2 ^ 64 - 1 /\ k ∈ seen;
  si_below k : 1 <= k < expected b -> k ∈ seen;
}.

Definition nothing_lost (seen : list Z) (b : ReorderBuf) : Prop :=
  forall k, k ∈ seen -> k < expected b \/ is_Some (pending b !! k).

(** One call of [drain] hands out the run of buffered frames at [expected]. *)
Lemma drain_stream fuel b r b' :
  (forall k p, pending b !! k = Some p -> p = src k /\ k < 2 ^ 64 - 1) ->
  0 <= expected b <= 2 ^ 64 - 1 -> (size (pending b) < fuel)%nat ->
  drain fuel b = (r, b') ->
  expected b <= expected b' <= 2 ^ 64 - 1 /\
  r = chunks (expected b) (expected b') /\
  pending b' !! expected b' = None /\
  (forall k p, pending b' !! k = Some p -> pending b !! k = Some p) /\
  (forall k, expected b <= k < expected b' -> is_Some (pending b !! k)) /\
  (forall k p, pending b !! k = Some p ->
    expected b <= k < expected b' \/ pending b' !! k = Some p).
Proof.
  revert b r. induction fuel as [|fuel IH]; intros b r Hp He Hf D; [lia|].
  cbn [drain] in D. destruct (pending b !! expected b) as [chunk|] eqn:Hc.
  2:{ simplify_eq. rewrite chunks_nil. split_and!; try done; try lia; eauto. }
  destruct (Hp _ _ Hc) as [-> Hlt]. pose proof (size_delete_lt _ _ _ Hc).
  destruct (drain fuel _) as [r1 b1] eqn:D1. simplify_eq.
  rewrite (u64_succ_small (expected b)) in D1 by lia.
  apply IH in D1; cbn [expected pending] in *; [| |lia|lia].
  2:{ intros k p [_ Hk]%lookup_delete_Some. eauto. }
  destruct D1 as (E1 & -> & N & Sub & Run & Keep).
  rewrite (chunks_cons (expected b)) by lia. split_and!; try done; try lia.
  - intros k p Hk. apply Sub in Hk. by apply lookup_delete_Some in Hk as [_ ?].
  - intros k Hk. destruct (decide (k = expected b)) as [->|]; [by eexists|].
    destruct (Run k) as [p [_ Hq]%lookup_delete_Some]; [lia|by eexists].
  - intros k p Hk. destruct (decide (k = expected b)) as [->|]; [left; lia|].
    destruct (Keep k p) as [?|?]; [by apply lookup_delete_Some|left; lia|by right].
Qed.

(** A frame that changes nothing. *)
Lemma stream_inv_seen seen b k :
  stream_inv seen b ->
  stream_inv (k :: seen) b /\
  (k < expected b \/ is_Some (pending b !! k) -> nothing_lost seen b -> nothing_lost (k :: seen) b).
Proof.
  intros [Hwf He Hp Hb]. split; [|intros ? H j [->|?]%elem_of_cons; [done|by apply H]].
  constructor; [done|done| |intros j Hj; apply elem_of_cons; right; by apply Hb].
  intros j q Hq. apply Hp in Hq as (? & ? & ?). by split_and!; [..|apply elem_of_cons; right].
Qed.

(** The frame that is due, with those behind it. *)
Lemma push_stream_due seen b p r b' :
  stream_inv seen b -> expected b < 2 ^ 64 - 1 -> p = src (expected b) ->
  push b (expected b) p = (r, b') -> reorder_wf b' ->
  stream_inv (expected b :: seen) b' /\ expected b <= expected b' /\
  ready r = chunks (expected b) (expected b') /\
  (nothing_lost seen b -> nothing_lost (expected b :: seen) b').
Proof.
  intros [Hwf He Hp Hb] Hk -> P Hwf'. unfold push in P. rewrite Z.ltb_irrefl, Z.eqb_refl in P.
  destruct (drain _ _) as [r1 b1] eqn:D. simplify_eq. rewrite (u64_succ_small (expected b)) in D by lia.
  apply drain_stream in D; cbn [expected pending] in *;
    [|intros j q Hq; apply Hp in Hq as (? & ? & _); split; assumption|lia|lia].
  destruct D as (E & -> & N & Sub & Run & Keep).
  rewrite (chunks_cons (expected b)) by lia. cbn [ready]. split; [|split; [lia|split; [done|]]].
  - constructor; [done|lia|..].
    + intros j q Hq. apply Sub, Hp in Hq as (? & ? & ?). by split_and!; [..|apply elem_of_cons; right].
    + intros j Hj. destruct (decide (j = expected b)) as [->|]; apply elem_of_cons; [by left|right].
      destruct (decide (j < expected b)); [apply Hb; lia|].
      destruct (Run j) as [q Hq]; [lia|]. by apply Hp in Hq as (_ & _ & ?).
  - intros HN j [->|Hj]%elem_of_cons; [left; lia|].
    destruct (HN j Hj) as [?|[q Hq]]; [left; lia|].
    destruct (Keep j q Hq); [left; lia|right; by eexists].
Qed.

Lemma push_stream seen b k p r b' :
  stream_inv seen b -> 0 <= k < 2 ^ 64 - 1 -> (1 <= k -> p = src k) ->
  push b k p = (r, b') ->
  stream_inv (k :: seen) b' /\ expected b <= expected b' /\
  ready r = chunks (expected b) (expected b') /\
  (overflow r = false -> nothing_lost seen b -> nothing_lost (k :: seen) b').
Proof.
  intros HI Hk Hsrc P. destruct (stream_inv_seen seen b k HI) as [Hsame Hlost]. pose proof HI as [Hwf He Hp Hb].
  pose proof (push_wf b k p Hwf ltac:(lia)) as Hwf'. rewrite P in Hwf'. cbn [snd] in Hwf'.
  destruct (decide (k = expected b)) as [->|Hne].
  { destruct (push_stream_due seen b p r b' HI ltac:(lia) (Hsrc ltac:(lia)) P Hwf') as (H1 & H2 & H3 & H4). auto. }
  unfold push in P. destruct (k <? expected b) eqn:E1; zbool.
  { simplify_eq. rewrite chunks_nil. split_and!; [done|lia|done|tauto]. }
  destruct (k =? expected b) eqn:E2; zbool; [done|]. destruct (pending b !! k) as [q|] eqn:Hq.
  { simplify_eq. rewrite chunks_nil. split_and!; [done|lia|done|eauto]. }
  destruct (can_buffer b p); simplify_eq; cbn [expected ready overflow]; rewrite chunks_nil; [|by split_and!].
  split; [|split; [done|split; [done|]]].
  - constructor; [done|done| |intros j Hj; apply elem_of_cons; right; by apply Hb]; cbn [pending].
    intros j q [[-> <-]|[? Hj]]%lookup_insert_Some.
    + split_and!; [apply Hsrc|..]; [lia..|apply elem_of_cons; by left].
    + apply Hp in Hj as (? & ? & ?). by split_and!; [..|apply elem_of_cons; right].
  - intros _ HN j [->|Hj]%elem_of_cons; cbn [pending expected].
    + right. rewrite lookup_insert_eq. by eexists.
    + destruct (HN j Hj) as [?|Hs]; [by left|right]. by apply lookup_insert_is_Some'; right.
Qed.

Lemma push_all_stream fs seen b out ov b' :
  stream_inv seen b -> from_stream fs -> push_all b fs = (out, ov, b') ->
  stream_inv (rev fs.*1 ++ seen) b' /\ expected b <= expected b' /\
  out = chunks (expected b) (expected b') /\
  (ov = false -> nothing_lost seen b -> nothing_lost (rev fs.*1 ++ seen) b').
Proof.
  revert seen b out ov. induction fs as [|[k p] fs IH]; intros seen b out ov Hi Hs P.
  { simpl in P. simplify_eq. rewrite chunks_nil. by split_and!. }
  apply Forall_cons_1 in Hs as [[Hk Hp] Hs]. cbn [push_all] in P.
  destruct (push b k p) as [r b1] eqn:P1. destruct (push_all b1 fs) as [[o1 ov1] b2] eqn:P2.
  simplify_eq. apply (push_stream seen) in P1; [|done..].
  destruct P1 as (I1 & E1 & R1 & N1). apply (IH (k :: seen)) in P2; [|done..].
  destruct P2 as (I2 & E2 & -> & N2). cbn [fmap list_fmap rev fst].
  rewrite <- app_assoc, R1, <- chunks_app by lia. split_and!; try done; [lia|].
  intros [O1 O2]%orb_false_iff HN. by apply N2, N1.
Qed.
End stream.

Lemma with_limit_stream_inv src n : 0 <= n -> stream_inv src [] (with_limit n).
Proof.
  intros. constructor; [by apply with_limit_wf|simpl; lia|done|simpl; lia].
Qed.

(** ** The window *)

(** Every arriving frame number is less than [w] ahead of the next expected one, and
    no payload is longer than [c]: the skew of a sender with at most [w] frames of [c]
    bytes under way. *)
Fixpoint windowed (w c : Z) (b : ReorderBuf) (fs : list (Z * bytes)) : Prop :=
  match fs with
  | [] => True
  | (k, p) :: fs' =>
    0 <= k < 2 ^ 64 - 1 /\ k < expected b + w /\ zlen p <= c /\ windowed w c (push b k p).2 fs'
  end.

Lemma sum_len_le c l : Forall (fun b => zlen b <= c) l -> sum_len l <= zlen l * c.
Proof.
  induction 1 as [|b l Hb Hl IH]; [done|]. rewrite zlen_cons.
  unfold sum_len in *; cbn [foldr]. lia.
Qed.

Lemma buffered_le c m :
  map_Forall (fun _ p => zlen p <= c) m -> buffered m <= Z.of_nat (size m) * c.
Proof.
  intros H. unfold buffered. rewrite <- length_map_to_list, <- (length_fmap snd).
  apply sum_len_le, Forall_fmap, Forall_forall. intros [k p] Hin.
  apply elem_of_map_to_list in Hin. by apply (H k).
Qed.

Lemma size_in_window (m : gmap Z bytes) e w s :
  (forall k p, m !! k = Some p -> e < k < e + w) -> e < s < e + w -> m !! s = None ->
  Z.of_nat (size m) <= w - 2.
Proof.
  intros Hm Hs Hn.
  assert (size (<[s := []]> m) = S (size m)) as E by by apply map_size_insert_None.
  assert (dom (<[s := []]> m) ⊆ list_to_set (C := gset Z) (seqZ (e + 1) (w - 1))) as Sub.
  { intros k [p Hk]%elem_of_dom. apply elem_of_list_to_set, elem_of_seqZ.
    apply lookup_insert_Some in Hk as [[<- _]|[_ Hk]]; [lia|]. apply Hm in Hk. lia. }
  apply subseteq_size in Sub. rewrite size_dom, size_list_to_set in Sub by apply NoDup_seqZ.
  rewrite length_seqZ in Sub. lia.
Qed.

Definition in_window (w c : Z) (b : ReorderBuf) : Prop :=
  expected b <= 2 ^ 64 - 1 /\
  map_Forall (fun k p => k < expected b + w /\ k < 2 ^ 64 - 1 /\ zlen p <= c) (pending b).

Lemma push_in_window w c b k p :
  reorder_wf b -> in_window w c b -> 0 <= k < 2 ^ 64 - 1 -> k < expected b + w -> zlen p <= c ->
  in_window w c (push b k p).2.
Proof.
  intros Hwf [He Hw] Hk Hkw Hp. unfold push.
  destruct (k <? expected b) eqn:E1; [done|]. destruct (k =? expected b) eqn:E2; zbool.
  - destruct (drain _ _) as [r b'] eqn:D. cbn [snd pending] in *.
    rewrite (u64_succ_small (expected b)) in D by (destruct Hwf; lia).
    apply (drain_stream (fun j => default [] (pending b !! j))) in D;
      cbn [expected pending] in *; [| |destruct Hwf; lia|lia].
    + destruct D as (E & _ & _ & Sub & _). split; [lia|].
      intros j q Hj. apply Sub, Hw in Hj. lia.
    + intros j q Hj. rewrite Hj. split; [done|]. by apply Hw in Hj as (_ & ? & _).
  - destruct (pending b !! k) eqn:Hq; [done|]. destruct (can_buffer b p); [|done].
    split; [done|]. cbn [snd pending expected]. intros j q [[<- <-]|[_ Hj]]%lookup_insert_Some; [lia|].
    by apply Hw in Hj.
Qed.

Lemma push_window_ok w c b k p :
  reorder_wf b -> in_window w c b -> k < expected b + w -> zlen p <= c -> 0 <= c ->
  w - 1 <= max_entries b -> (w - 1) * c <= max_bytes b ->
  overflow (push b k p).1 = false.
Proof.
  intros Hwf [He Hw] Hk Hp Hc Hn Hm. unfold push.
  destruct (k <? expected b) eqn:E1; [done|]. destruct (k =? expected b) eqn:E2; zbool.
  { by destruct (drain _ _). }
  destruct (pending b !! k) eqn:Hq; [done|].
  destruct (can_buffer b p) eqn:C; [done|]. exfalso.
  assert (Z.of_nat (size (pending b)) <= w - 2) as S.
  { apply (size_in_window _ (expected b) w k); [|lia|done]. intros j q Hj.
    pose proof (wf_keys b Hwf j q Hj). apply Hw in Hj. lia. }
  assert (buffered (pending b) <= Z.of_nat (size (pending b)) * c).
  { apply buffered_le. by intros j q (_ & _ & ?)%Hw. }
  assert (Z.of_nat (size (pending b)) * c <= (w - 2) * c) by (apply Z.mul_le_mono_nonneg_r; lia).
  unfold can_buffer in C. rewrite (wf_bytes b Hwf) in C.
  apply andb_false_iff in C as [C|C]; zbool; lia.
Qed.

Lemma push_limits b k p :
  max_bytes (push b k p).2 = max_bytes b /\ max_entries (push b k p).2 = max_entries b.
Proof.
  unfold push. repeat case_match; try done.
  match goal with H : drain ?n ?x = _ |- _ => pose proof (drain_limits n x) as L; rewrite H in L end.
  done.
Qed.

Lemma push_overflow b k p :
  overflow (push b k p).1 = true ->
  expected b < k /\ pending b !! k = None /\ can_buffer b p = false.
Proof.
  unfold push. destruct (k <? expected b) eqn:E1; [done|].
  destruct (k =? expected b) eqn:E2; [by destruct (drain _ _)|]. zbool.
  destruct (pending b !! k); [done|]. destruct (can_buffer b p); [done|]. intros _.
  split_and!; [lia|done..].
Qed.

(** Nothing enters the buffer but pushed payloads. *)
Lemma drain_pending P fuel b :
  map_Forall (fun _ q => P q) (pending b) -> map_Forall (fun _ q => P q) (pending (drain fuel b).2).
Proof.
  revert b. induction fuel as [|fuel IH]; intros b H; [done|]. cbn [drain].
  destruct (pending b !! expected b); [|done].
  match goal with |- context [drain fuel ?x] => specialize (IH x); destruct (drain fuel x) end.
  apply IH. by apply map_Forall_delete.
Qed.

Lemma push_pending (P : bytes -> Prop) b k p :
  map_Forall (fun _ q => P q) (pending b) -> P p ->
  map_Forall (fun _ q => P q) (pending (push b k p).2).
Proof.
  intros H Hp. unfold push. destruct (k <? expected b); [done|].
  destruct (k =? expected b).
  - match goal with |- context [drain ?n ?x] =>
      pose proof (drain_pending P n x H) as D; destruct (drain n x) end. done.
  - destruct (pending b !! k); [done|]. destruct (can_buffer b p); [|done].
    by apply map_Forall_insert_2.
Qed.

Lemma push_all_pending (P : bytes -> Prop) fs b :
  map_Forall (fun _ q => P q) (pending b) -> Forall (fun kp => P kp.2) fs ->
  map_Forall (fun _ q => P q) (pending (push_all b fs).2).
Proof.
  intros H Hfs. revert b H. induction Hfs as [|[k p] fs Hp Hfs IH]; intros b H; [done|].
  cbn [push_all]. pose proof (push_pending P b k p H Hp) as H1.
  destruct (push b k p) as [r b1]. specialize (IH b1 H1). by destruct (push_all b1 fs) as [[??]?].
Qed.

Lemma push_all_wf fs b0 :
  Forall (fun kp => 0 <= kp.1 < 2 ^ 64) fs -> reorder_wf b0 ->
  let b := (push_all b0 fs).2 in
  reorder_wf b /\ max_bytes b = max_bytes b0 /\ max_entries b = max_entries b0.
Proof.
  intros Hfs. revert b0. induction Hfs as [|[k p] fs Hk Hfs IH]; intros b0 Hwf; [done|].
  cbn [push_all]. pose proof (push_wf b0 k p Hwf Hk) as Hwf1.
  pose proof (push_limits b0 k p) as [L1 L2]. destruct (push b0 k p) as [r b1].
  specialize (IH b1 Hwf1). destruct (push_all b1 fs) as [[o v] b2]. cbn [snd] in *.
  by rewrite <- L1, <- L2.
Qed.

Lemma buffered_eq c (m : gmap Z bytes) :
  map_Forall (fun _ p => zlen p = c) m -> buffered m = Z.of_nat (size m) * c.
Proof.
  induction m as [|k p m Hk IH] using map_ind; [done|]. intros H.
  apply map_Forall_insert in H as [Hp H]; [|done].
  rewrite buffered_insert, map_size_insert_None, IH by done. lia.
Qed.

(** The run of pushes as a whole. *)
Lemma push_all_prefix src limit fs out ov b :
  0 <= limit -> from_stream src fs -> push_all (with_limit limit) fs = (out, ov, b) ->
  1 <= expected b /\ out = chunks src 1 (expected b) /\
  (forall k, 1 <= k < expected b -> k ∈ fs.*1) /\ (ov = false -> expected b ∉ fs.*1).
Proof.
  intros Hl Hs P. apply (push_all_stream src fs []) in P; [|by apply with_limit_stream_inv|done].
  destruct P as ([Hwf He Hp Hb] & E & -> & Hn). rewrite app_nil_r in *.
  split; [lia|]. split; [done|]. split.
  - intros k Hk. apply Hb in Hk. by rewrite elem_of_rev in Hk.
  - intros -> Hin. destruct (Hn eq_refl ltac:(by intros ? ?%elem_of_nil) (expected b)) as [?|[p Hp']].
    + by apply elem_of_rev.
    + lia.
    + apply (wf_keys b Hwf) in Hp'. lia.
Qed.

Lemma push_all_unique src limit1 limit2 fs1 fs2 out1 out2 b1 b2 :
  0 <= limit1 -> 0 <= limit2 -> from_stream src fs1 -> from_stream src fs2 ->
  (forall k, k ∈ fs1.*1 <-> k ∈ fs2.*1) ->
  push_all (with_limit limit1) fs1 = (out1, false, b1) ->
  push_all (with_limit limit2) fs2 = (out2, false, b2) -> expected b1 = expected b2.
Proof.
  intros L1 L2 S1 S2 K P1 P2.
  destruct (push_all_prefix _ _ _ _ _ _ L1 S1 P1) as (E1 & _ & A1 & B1).
  destruct (push_all_prefix _ _ _ _ _ _ L2 S2 P2) as (E2 & _ & A2 & B2).
  specialize (B1 eq_refl). specialize (B2 eq_refl).
  destruct (Z.lt_trichotomy (expected b1) (expected b2)) as [?|[?|?]]; [|done|].
  - destruct B1. apply K, A2. lia.
  - destruct B2. apply K, A1. lia.
Qed.

(** ** Properties *)

(** C9: whatever the arrival order and however often frames are repeated, the chunks
    handed out are frames 1, 2, 3, ... of the stream in order and once each; and unless
    a push overflowed, the buffer has handed out the longest gapless prefix of what
    arrived. *)
Theorem reorder_exactly_once src limit fs out ov b :
  0 <= limit -> from_stream src fs -> push_all (with_limit limit) fs = (out, ov, b) ->
  out = chunks src 1 (expected b) /\
  (forall k, 1 <= k < expected b -> k ∈ fs.*1) /\
  (ov = false -> expected b ∉ fs.*1).
Proof. intros L S P. by destruct (push_all_prefix _ _ _ _ _ _ L S P) as (_ & ?). Qed.

Lemma reorder_exactly_once_witness :
  push_all (with_limit 100) [(3, [x63]); (1, [x61]); (3, [x63]); (2, [x62]); (1, [x61])] =
    ([[x61]; [x62]; [x63]], false, mkReorderBuf 4 ∅ 0 100 512) /\
  [[x61]; [x62]; [x63]] =
    chunks (fun k => [byte_of_Z (96 + k)]) 1 4.
Proof.
  split; [vm_compute; reflexivity|].
  apply (reorder_exactly_once (fun k => [byte_of_Z (96 + k)]) 100
    [(3, [x63]); (1, [x61]); (3, [x63]); (2, [x62]); (1, [x61])] _ false
    (mkReorderBuf 4 ∅ 0 100 512)).
  - lia.
  - repeat apply Forall_cons_2; try apply Forall_nil_2; (split; [simpl; lia|intros _; reflexivity]).
  - vm_compute. reflexivity.
Defined.

(** C26: two arrival orders of the same frames that both avoid an overflow hand out the
    same bytes and agree on every [is_complete_through] question; this is what lets the
    splitter spread one connection over several tunnels. *)
Theorem reorder_order_independent src limit1 limit2 fs1 fs2 out1 out2 b1 b2 :
  0 <= limit1 -> 0 <= limit2 -> from_stream src fs1 -> from_stream src fs2 ->
  (forall k, k ∈ fs1.*1 <-> k ∈ fs2.*1) ->
  push_all (with_limit limit1) fs1 = (out1, false, b1) ->
  push_all (with_limit limit2) fs2 = (out2, false, b2) ->
  out1 = out2 /\ forall s, is_complete_through b1 s = is_complete_through b2 s.
Proof.
  intros L1 L2 S1 S2 K P1 P2.
  pose proof (push_all_unique _ _ _ _ _ _ _ _ _ L1 L2 S1 S2 K P1 P2) as E.
  unfold is_complete_through. rewrite E. split; [|done].
  destruct (push_all_prefix _ _ _ _ _ _ L1 S1 P1) as (_ & -> & _).
  destruct (push_all_prefix _ _ _ _ _ _ L2 S2 P2) as (_ & -> & _). by rewrite E.
Qed.

Lemma reorder_order_independent_witness :
  [[x61]; [x62]] = [[x61]; [x62]] /\
  forall s, is_complete_through (mkReorderBuf 3 ∅ 0 9 512) s =
            is_complete_through (mkReorderBuf 3 ∅ 0 7 512) s.
Proof.
  apply (reorder_order_independent (fun k => [byte_of_Z (96 + k)]) 9 7
    [(2, [x62]); (1, [x61])] [(1, [x61]); (1, [x61]); (2, [x62])]).
  - lia.
  - lia.
  - repeat apply Forall_cons_2; try apply Forall_nil_2; (split; [simpl; lia|intros _; reflexivity]).
  - repeat apply Forall_cons_2; try apply Forall_nil_2; (split; [simpl; lia|intros _; reflexivity]).
  - intros k. cbn. rewrite !elem_of_cons, elem_of_nil. tauto.
  - vm_compute. reflexivity.
  - vm_compute. reflexivity.
Defined.

(** [push] on every branch.  A frame below [expected] or already buffered is dropped
    without any effect; the expected frame is handed out first and never overflows; any
    other frame is buffered when both limits allow it, and otherwise rejected with
    [overflow] and no effect. *)
Theorem push_spec b s p :
  let '(r, b') := push b s p in
  if s <? expected b then r = mkPushResult [] false false /\ b' = b
  else if s =? expected b then
    accepted r = true /\ overflow r = false /\ head (ready r) = Some p
  else match pending b !! s with
  | Some _ => r = mkPushResult [] false false /\ b' = b
  | None =>
    if (Z.of_nat (size (pending b)) <? max_entries b) &&
       (pending_bytes b + zlen p <=? max_bytes b)
    then r = mkPushResult [] true false /\ expected b' = expected b /\
         pending b' = <[s := p]> (pending b)
    else r = mkPushResult [] false true /\ b' = b
  end.
Proof.
  unfold push, can_buffer. destruct (s <? expected b); [done|].
  destruct (s =? expected b); [by destruct (drain _ _)|].
  destruct (pending b !! s); [done|]. by destruct (_ && _).
Qed.

(** C39: memory stays bounded whatever the peer sends: after any sequence of pushes of
    64-bit sequence numbers the byte counter is exactly the number of buffered bytes,
    it is at most the configured limit, the entry count is at most its cap, and only
    frames above [expected] are buffered. *)
Theorem reorder_memory_bounded limit fs :
  0 <= limit -> Forall (fun kp => 0 <= kp.1 < 2 ^ 64) fs ->
  let b := (push_all (with_limit limit) fs).2 in
  pending_bytes b = buffered (pending b) /\ 0 <= pending_bytes b <= limit /\
  Z.of_nat (size (pending b)) <= Z.max (limit / MAX_PAYLOAD) MAX_REORDER_WINDOW /\
  forall k, is_Some (pending b !! k) -> expected b < k < 2 ^ 64.
Proof.
  intros Hl Hfs.
  destruct (push_all_wf _ _ Hfs (with_limit_wf limit Hl)) as ([He Hk Hb Hm Hn] & Lb & Ln).
  cbn zeta. rewrite Lb in Hm. rewrite Ln in Hn. split; [done|].
  split; [split; [rewrite Hb; apply buffered_nonneg|done]|].
  split; [done|]. intros k [p Hp]. by eapply Hk.
Qed.

Lemma reorder_memory_bounded_witness :
  let b := (push_all (with_limit 3) [(5, [x61; x62]); (7, [x61; x62]); (9, [x61])]).2 in
  pending_bytes b = 3 /\ 0 <= pending_bytes b <= 3.
Proof.
  pose proof (reorder_memory_bounded 3 [(5, [x61; x62]); (7, [x61; x62]); (9, [x61])]) as H.
  destruct H as (H1 & H2 & _).
  - lia.
  - repeat apply Forall_cons_2; try apply Forall_nil_2; simpl; lia.
  - split; [rewrite H1; vm_compute; reflexivity|exact H2].
Defined.

(** A window that covers the sender's skew never overflows: if every frame arrives
    less than [w] numbers ahead of the next expected one and carries at most [c] bytes,
    then a byte limit of [(w - 1) * c] and an entry cap of [w - 1] are enough for any
    arrival order. *)
Theorem reorder_window_sufficient limit w c fs :
  0 <= limit -> 0 <= c -> (w - 1) * c <= limit ->
  w - 1 <= Z.max (limit / MAX_PAYLOAD) MAX_REORDER_WINDOW ->
  windowed w c (with_limit limit) fs ->
  (push_all (with_limit limit) fs).1.2 = false.
Proof.
  intros Hl Hc Hb Hn. assert (forall b, reorder_wf b -> in_window w c b ->
    w - 1 <= max_entries b -> (w - 1) * c <= max_bytes b -> windowed w c b fs ->
    (push_all b fs).1.2 = false) as G.
  { induction fs as [|[k p] fs IH]; intros b Hwf Hw Be Bb H; [done|]. cbn [push_all].
    destruct H as (Hk & Hkw & Hp & Hrest).
    pose proof (push_wf b k p Hwf ltac:(lia)) as Hwf1.
    pose proof (push_in_window w c b k p Hwf Hw Hk Hkw Hp) as Hw1.
    pose proof (push_window_ok w c b k p Hwf Hw Hkw Hp Hc Be Bb) as Ho.
    pose proof (push_limits b k p) as [L1 L2]. destruct (push b k p) as [r b1].
    cbn [fst snd] in *. specialize (IH b1 Hwf1 Hw1). rewrite L1, L2 in IH.
    specialize (IH Be Bb Hrest). destruct (push_all b1 fs) as [[o v] b2]. simpl in *.
    by rewrite Ho, IH. }
  intros H. apply G; [by apply with_limit_wf| |done..].
  split; [simpl; lia|]. intros k p Hk. done.
Qed.

(** With the default 64 MiB limit: 8 tunnels of 128 queued frames of 65535 bytes. *)
Lemma reorder_window_sufficient_witness :
  (push_all reorder_new [(1025, [x61]); (2, [x62]); (1, [x63])]).1.2 = false.
Proof.
  apply (reorder_window_sufficient MAX_REORDER_BYTES (8 * 128 + 1) MAX_PAYLOAD).
  - zcompute.
  - zcompute.
  - zcompute.
  - zcompute.
  - vm_compute. repeat split; discriminate.
Defined.

(** With full-size frames the entry cap never binds before the byte budget: if only
    65535-byte frames were ever pushed and one more overflows, then buffering it would
    have exceeded the byte limit. *)
Theorem entry_cap_follows_byte_budget limit fs s p :
  0 <= limit -> Forall (fun kp => 0 <= kp.1 < 2 ^ 64) fs ->
  Forall (fun kp => zlen kp.2 = MAX_PAYLOAD) fs -> zlen p = MAX_PAYLOAD ->
  let b := (push_all (with_limit limit) fs).2 in
  overflow (push b s p).1 = true -> pending_bytes b + zlen p > limit.
Proof.
  intros Hl Hk Hf Hp b Ho.
  destruct (push_all_wf _ _ Hk (with_limit_wf limit Hl)) as (Hwf & Lb & Ln).
  pose proof (push_all_pending (fun q => zlen q = MAX_PAYLOAD) _ (with_limit limit)
    (map_Forall_empty _) Hf) as HF.
  fold b in Hwf, Lb, Ln, HF. apply push_overflow in Ho as (_ & _ & Hc).
  cbn [with_limit max_entries max_bytes] in *.
  unfold can_buffer in Hc. apply andb_false_iff in Hc as [Hc|Hc]; zbool; [|lia].
  rewrite (wf_bytes b Hwf), (buffered_eq _ _ HF), Hp.
  pose proof (Z.mul_succ_div_gt limit MAX_PAYLOAD). unfold MAX_PAYLOAD in *. lia.
Qed.

Lemma entry_cap_follows_byte_budget_witness :
  pending_bytes (push_all (with_limit 131069) [(2, repeat x00 (Z.to_nat MAX_PAYLOAD))]).2 +
    zlen (repeat x01 (Z.to_nat MAX_PAYLOAD)) > 131069.
Proof.
  apply (entry_cap_follows_byte_budget 131069 [(2, repeat x00 (Z.to_nat MAX_PAYLOAD))] 3).
  - lia.
  - apply Forall_cons_2; [split; zcompute|apply Forall_nil_2].
  - apply Forall_cons_2; [zcompute|apply Forall_nil_2].
  - vm_compute. reflexivity.
  - vm_compute. reflexivity.
Defined.
