(* ===== verification/Tunnel.v ===== *)
(** * Tunnel links, the tunnel pool and the drain task

    Models [src/src/tunnel.rs].  An [Arc<TunnelLink>] is a link identifier; the links
    live in the store [arcs], shared by the pool and by the reader and drain tasks, so
    [Arc::ptr_eq] is equality of identifiers and a link that [compact] dropped from the
    pool is still there for its tasks.  Rates are IEEE 754 doubles ([spec_float]). *)
From Stdlib Require Import ZArith Lia SpecFloat.
From Stdlib Require Import Strings.Byte.
From stdpp Require Import base numbers list option fin_maps gmap.
From S2P Require Import Prelude Runtime Frames.
Local Open Scope Z_scope.

(** ** Doubles *)
Abbreviation f64 := spec_float.
Definition f64_add : f64 -> f64 -> f64 := SFadd 53 1024.
Definition f64_sub : f64 -> f64 -> f64 := SFsub 53 1024.
Definition f64_mul : f64 -> f64 -> f64 := SFmul 53 1024.
Definition f64_div : f64 -> f64 -> f64 := SFdiv 53 1024.
Definition f64_of_Z (z : Z) : f64 := binary_normalize 53 1024 z 0 false.
Definition f64_zero : f64 := S754_zero false.
Definition f64_one : f64 := f64_of_Z 1.

(** [f64::max]: the other operand when one is not a number. *)
Definition f64_max (a b : f64) : f64 :=
  match a, b with
  | S754_nan, _ => b
  | _, S754_nan => a
  | _, _ => if SFltb a b then b else a
  end.

Definition f64_sum (l : list f64) : f64 := fold_left f64_add l f64_zero.

(** ** Constants *)
Definition TUNNEL_CHANNEL_CAP : Z := 128.
Definition LINK_IDLE_TIMEOUT_MS : Z := 600 * 1000.
(** [0.05] as a double. *)
Definition FLOOR_SHARE : f64 := S754_finite false 7205759403792794 (-57).
(** [2.5] as a double. *)
Definition RATE_EWMA_TAU_SECS : f64 := f64_div (f64_of_Z 5) (f64_of_Z 2).
Definition WEIGHT_GRID : Z := 1024.

Section tunnel.
Context {T : Tokio}.

Record TunnelLink : Type := mkTunnelLink {
  tx : chan Frame;
  alive : bool;
  bytes_sent : Z;
  bytes_recv : Z;
  frames_sent : Z;
  frames_recv : Z;
  stop : notify;
  writer_died : notify;
  last_active_ms : Z;
  lost_frames : list Frame;
  rate_bps : f64;
}.

(** The link both sides create for a new tunnel connection. *)
Definition new_link (now_ms : Z) : TunnelLink :=
  mkTunnelLink (chan_new TUNNEL_CHANNEL_CAP) true 0 0 0 0 notify_new notify_new now_ms []
    f64_zero.

Definition set_tx (c : chan Frame) (l : TunnelLink) : TunnelLink :=
  mkTunnelLink c (alive l) (bytes_sent l) (bytes_recv l) (frames_sent l) (frames_recv l)
    (stop l) (writer_died l) (last_active_ms l) (lost_frames l) (rate_bps l).
Definition set_alive (b : bool) (l : TunnelLink) : TunnelLink :=
  mkTunnelLink (tx l) b (bytes_sent l) (bytes_recv l) (frames_sent l) (frames_recv l)
    (stop l) (writer_died l) (last_active_ms l) (lost_frames l) (rate_bps l).
Definition set_stop (n : notify) (l : TunnelLink) : TunnelLink :=
  mkTunnelLink (tx l) (alive l) (bytes_sent l) (bytes_recv l) (frames_sent l) (frames_recv l)
    n (writer_died l) (last_active_ms l) (lost_frames l) (rate_bps l).
Definition set_writer_died (n : notify) (l : TunnelLink) : TunnelLink :=
  mkTunnelLink (tx l) (alive l) (bytes_sent l) (bytes_recv l) (frames_sent l) (frames_recv l)
    (stop l) n (last_active_ms l) (lost_frames l) (rate_bps l).
Definition set_lost_frames (fs : list Frame) (l : TunnelLink) : TunnelLink :=
  mkTunnelLink (tx l) (alive l) (bytes_sent l) (bytes_recv l) (frames_sent l) (frames_recv l)
    (stop l) (writer_died l) (last_active_ms l) fs (rate_bps l).
(** A frame of [n] payload bytes was written at [now_ms]. *)
Definition count_sent (n now_ms : Z) (l : TunnelLink) : TunnelLink :=
  mkTunnelLink (tx l) (alive l) (wrap 64 (bytes_sent l + n)) (bytes_recv l)
    (wrap 64 (frames_sent l + 1)) (frames_recv l)
    (stop l) (writer_died l) now_ms (lost_frames l) (rate_bps l).
(** A frame of [n] payload bytes was received at [now_ms] (both read loops). *)
Definition count_recv (n now_ms : Z) (l : TunnelLink) : TunnelLink :=
  mkTunnelLink (tx l) (alive l) (bytes_sent l) (wrap 64 (bytes_recv l + n))
    (frames_sent l) (wrap 64 (frames_recv l + 1))
    (stop l) (writer_died l) now_ms (lost_frames l) (rate_bps l).
Definition set_rate (r : f64) (l : TunnelLink) : TunnelLink :=
  mkTunnelLink (tx l) (alive l) (bytes_sent l) (bytes_recv l) (frames_sent l) (frames_recv l)
    (stop l) (writer_died l) (last_active_ms l) (lost_frames l) r.

(** ** The pool *)
Record TunnelPool : Type := mkTunnelPool {
  arcs : gmap nat TunnelLink;
  links : list nat;
  rr : Z;
}.

Definition pool_new : TunnelPool := mkTunnelPool ∅ [] 0.

Definition link_alive (a : gmap nat TunnelLink) (i : nat) : bool :=
  match a !! i with Some l => alive l | None => false end.

(** [add]: [i] is the identifier of the new [Arc]. *)
Definition pool_add (i : nat) (l : TunnelLink) (p : TunnelPool) : TunnelPool :=
  mkTunnelPool (<[i := l]> (arcs p)) (links p ++ [i]) (rr p).

Definition link_count (p : TunnelPool) : Z := zlen (links p).

Definition alive_links (p : TunnelPool) : list nat :=
  filter (fun i => link_alive (arcs p) i) (links p).

Definition alive_count (p : TunnelPool) : Z := zlen (alive_links p).

Definition compact (p : TunnelPool) : TunnelPool :=
  let kept := alive_links p in
  mkTunnelPool (arcs p) kept (if zlen kept =? link_count p then rr p else 0).

(** The body of the loop of [sweep_idle] for one link. *)
Definition sweep_one (now_ms idle_limit_ms : Z) (l : TunnelLink) : bool * TunnelLink :=
  if alive l && (sat_sub now_ms (last_active_ms l) >? idle_limit_ms)
  then (true, set_stop (notify_one (stop l)) (set_alive false l))
  else (false, l).

Fixpoint sweep_links (now_ms idle_limit_ms : Z) (ids : list nat) (a : gmap nat TunnelLink)
  : Z * gmap nat TunnelLink :=
  match ids with
  | [] => (0, a)
  | i :: ids' =>
    match a !! i with
    | None => sweep_links now_ms idle_limit_ms ids' a
    | Some l =>
      let '(s, l') := sweep_one now_ms idle_limit_ms l in
      let '(n, a') := sweep_links now_ms idle_limit_ms ids' (<[i := l']> a) in
      ((if s then 1 else 0) + n, a')
    end
  end.

Definition sweep_idle (now_ms idle_limit_ms : Z) (p : TunnelPool) : Z * TunnelPool :=
  let '(n, a) := sweep_links now_ms idle_limit_ms (links p) (arcs p) in
  (n, mkTunnelPool a (links p) (rr p)).

Definition pool_stats (p : TunnelPool) : Z * Z := (alive_count p, link_count p).

Definition queue_depth (p : TunnelPool) : Z :=
  foldr (fun i s => match arcs p !! i with
                    | Some l => (TUNNEL_CHANNEL_CAP - capacity (tx l)) + s
                    | None => s end) 0 (alive_links p).

(** ** Control frames: [send] *)

(** The loop of [send] over the links in rotation order. *)
Fixpoint send_loop (f : Frame) (ids : list nat) (a : gmap nat TunnelLink)
  : bool * gmap nat TunnelLink :=
  match ids with
  | [] => (false, a)
  | i :: ids' =>
    match a !! i with
    | None => send_loop f ids' a
    | Some l =>
      if alive l then
        match try_send f (tx l) with
        | (None, c) => (true, <[i := set_tx c l]> a)
        | (Some Closed, c) => send_loop f ids' (<[i := set_alive false (set_tx c l)]> a)
        | (Some Full, c) => send_loop f ids' (<[i := set_tx c l]> a)
        end
      else send_loop f ids' a
    end
  end.

(** [links[(start + i) % len]] for [i] from 0. *)
Definition rotation (start : Z) (ids : list nat) : list nat :=
  let k := Z.to_nat (start mod zlen ids) in drop k ids ++ take k ids.

Definition send (f : Frame) (p : TunnelPool) : bool * TunnelPool :=
  match links p with
  | [] => (false, p)
  | _ =>
    let '(ok, a) := send_loop f (rotation (rr p) (links p)) (arcs p) in
    (ok, mkTunnelPool a (links p) (u64_succ (rr p)))
  end.

(** ** DATA frames: [weighted_pick] and [send_async] *)
Definition link_rate (a : gmap nat TunnelLink) (i : nat) : f64 :=
  match a !! i with Some l => f64_max (rate_bps l) f64_zero | None => f64_zero end.

(** The weights of the candidate links from their measured rates. *)
Definition pick_weights (raw : list f64) : list f64 :=
  let n := f64_of_Z (zlen raw) in
  let total := f64_sum raw in
  if SFltb f64_zero total then
    let mean := f64_div total n in
    let floor := f64_mul FLOOR_SHARE total in
    map (fun r => f64_max (if SFltb f64_zero r then r else mean) floor) raw
  else map (fun _ => f64_one) raw.

(** The scan of the accumulated weights; the last link is the rounding fallback. *)
Fixpoint pick_scan (anchor acc : f64) (cands : list (nat * f64)) (last : nat) : nat :=
  match cands with
  | [] => last
  | (i, w) :: cands' =>
    let acc' := f64_add acc w in
    if SFltb anchor acc' then i else pick_scan anchor acc' cands' last
  end.

Definition candidates (skip : list nat) (p : TunnelPool) : list nat :=
  filter (fun i => i ∉ skip) (alive_links p).

Definition weighted_pick (skip : list nat) (p : TunnelPool) : option nat * TunnelPool :=
  match last (candidates skip p) with
  | None => (None, p)
  | Some lst =>
    let alive := candidates skip p in
    let weights := pick_weights (map (link_rate (arcs p)) alive) in
    let total := f64_sum weights in
    let anchor := f64_mul (f64_div (f64_of_Z (rr p mod WEIGHT_GRID)) (f64_of_Z WEIGHT_GRID))
                    total in
    (Some (pick_scan anchor f64_zero (combine alive weights) lst),
     mkTunnelPool (arcs p) (links p) (u64_succ (rr p)))
  end.

(** One pass of the loop of [send_async]: the frame went out, the loop goes on at once,
    it sleeps 1 ms with an empty [full] set, or it waits for a link to be added. *)
Inductive async_step : Type :=
| AsyncSent
| AsyncAgain (full : list nat)
| AsyncSleep
| AsyncWaitAdded.

Definition send_async_pass (f : Frame) (full : list nat) (p : TunnelPool)
  : async_step * TunnelPool :=
  match weighted_pick full p with
  | (Some i, p') =>
    match arcs p' !! i with
    | None => (AsyncAgain full, p')
    | Some l =>
      match try_send f (tx l) with
      | (None, c) => (AsyncSent, mkTunnelPool (<[i := set_tx c l]> (arcs p')) (links p') (rr p'))
      | (Some Closed, c) =>
        (AsyncAgain full,
         mkTunnelPool (<[i := set_alive false (set_tx c l)]> (arcs p')) (links p') (rr p'))
      | (Some Full, c) =>
        (AsyncAgain (full ++ [i]),
         mkTunnelPool (<[i := set_tx c l]> (arcs p')) (links p') (rr p'))
      end
    end
  | (None, p') =>
    match alive_links p' with
    | [] => (AsyncWaitAdded, p')
    | _ => (AsyncSleep, p')
    end
  end.

(** [send_async] up to its next await point ([None]: out of fuel). *)
Fixpoint send_async (fuel : nat) (f : Frame) (full : list nat) (p : TunnelPool)
  : option async_step * TunnelPool :=
  match fuel with
  | O => (None, p)
  | S fuel' =>
    match send_async_pass f full p with
    | (AsyncAgain full', p') => send_async fuel' f full' p'
    | (r, p') => (Some r, p')
    end
  end.
End tunnel.

(** ** The drain task *)

(** [f64::exp] is a library function of unspecified rounding: a parameter. *)
Definition ewma_rate (f64_exp : f64 -> f64) (prev inst dt_secs : f64) : f64 :=
  let alpha := f64_sub f64_one (f64_exp (f64_div (SFopp dt_secs) RATE_EWMA_TAU_SECS)) in
  f64_add (f64_mul prev (f64_sub f64_one alpha)) (f64_mul inst alpha).

(** Where the task is: in its loop at the outer [select!], at the inner one writing the
    encoded frame, in the [try_recv] loop, past it (shutting the socket down), or
    returned, which drops the receiver. *)
Inductive drain_phase : Type :=
| Running
| Writing (f : Frame) (enc : bytes)
| Flushing
| ShuttingDown
| Returned.

(** What can happen next to the task and its link.  [rx.recv()] never returns [None]:
    the link itself holds a sender. *)
Inductive drain_event : Type :=
| EvSend (f : Frame)          (** another task calls [try_send] on the link *)
| EvNotifyStop                (** another task calls [stop.notify_one()] *)
| EvStop                      (** a [link.stop.notified()] arm *)
| EvRecv                      (** [rx.recv()] returned the oldest frame *)
| EvWritten (dt : f64) (now_ms : Z) (** [write_all] completed, [dt] after the last one *)
| EvWriteFailed               (** it failed or stalled past [TUNNEL_WRITE_TIMEOUT] *)
| EvFlush                     (** one [rx.try_recv()] after the loop *)
| EvReturn.                   (** [wr.shutdown()] completed *)

Section drain.
Context {T : Tokio}.

(** The task with its link; [d_rate] is the local [rate] and [d_wire] the frames written
    whole to the socket.  The last four fields are history: the frames accepted by the
    channel, written completely, dequeued for a write that failed, and still queued when
    the receiver was dropped. *)
Record DrainState : Type := mkDrainState {
  d_link : TunnelLink;
  d_phase : drain_phase;
  d_rate : f64;
  d_wire : bytes;
  h_sent : list Frame;
  h_written : list Frame;
  h_failed : list Frame;
  h_stranded : list Frame;
}.

Definition drain_init (l : TunnelLink) : DrainState :=
  mkDrainState l Running f64_zero [] [] [] [] [].

Definition drain_to (ph : drain_phase) (l : TunnelLink) (s : DrainState) : DrainState :=
  mkDrainState l ph (d_rate s) (d_wire s) (h_sent s) (h_written s) (h_failed s)
    (h_stranded s).

Context {B : BufMut} (f64_exp : f64 -> f64).

(** [write_all] succeeded: counters, activity and the measured rate. *)
Definition drain_written (f : Frame) (enc : bytes) (dt : f64) (now_ms : Z) (s : DrainState)
  : DrainState :=
  let n := zlen (payload f) in
  let l1 := count_sent n now_ms (d_link s) in
  let '(rate, l2) :=
    if SFltb f64_zero dt then
      let r := ewma_rate f64_exp (d_rate s) (f64_div (f64_of_Z n) dt) dt in
      (r, set_rate r l1)
    else (d_rate s, l1) in
  mkDrainState l2 Running rate (d_wire s ++ enc) (h_sent s) (h_written s ++ [f])
    (h_failed s) (h_stranded s).

(** One event; [None] when the task is not at a point where it can happen. *)
Definition drain_step (e : drain_event) (s : DrainState) : option DrainState :=
  let l := d_link s in
  let lose f l := set_lost_frames (lost_frames l ++ [f]) l in
  match e, d_phase s with
  | EvSend f, ph =>
    let '(r, c) := try_send f (tx l) in
    Some (mkDrainState (set_tx c l) ph (d_rate s) (d_wire s)
            (h_sent s ++ match r with None => [f] | Some _ => [] end)
            (h_written s) (h_failed s) (h_stranded s))
  | EvNotifyStop, ph => Some (drain_to ph (set_stop (notify_one (stop l)) l) s)
  | EvStop, Running =>
    if has_permit (stop l) then Some (drain_to Flushing (set_stop (notify_take (stop l)) l) s)
    else None
  | EvStop, Writing f _ =>
    if has_permit (stop l)
    then Some (drain_to Flushing (lose f (set_stop (notify_take (stop l)) l)) s) else None
  | EvRecv, Running =>
    match try_recv (tx l) with
    | (None, _) => None
    | (Some f, c) =>
      match encode_into f [] with
      | Err _ => Some (drain_to Flushing (lose f (set_tx c l)) s)
      | Ok enc => Some (drain_to (Writing f enc) (set_tx c l) s)
      end
    end
  | EvWritten dt now_ms, Writing f enc => Some (drain_written f enc dt now_ms s)
  | EvWriteFailed, Writing f _ =>
    Some (mkDrainState l Flushing (d_rate s) (d_wire s) (h_sent s) (h_written s)
            (h_failed s ++ [f]) (h_stranded s))
  | EvFlush, Flushing =>
    match try_recv (tx l) with
    | (Some f, c) => Some (drain_to Flushing (lose f (set_tx c l)) s)
    | (None, c) =>
      Some (drain_to ShuttingDown
              (set_writer_died (notify_one (writer_died l)) (set_tx c l)) s)
    end
  | EvReturn, ShuttingDown =>
    Some (mkDrainState (set_tx (chan_close (tx l)) l) Returned (d_rate s) (d_wire s)
            (h_sent s) (h_written s) (h_failed s) (queued (tx l)))
  | _, _ => None
  end.

Fixpoint drain_run (es : list drain_event) (s : DrainState) : option DrainState :=
  match es with
  | [] => Some s
  | e :: es' => match drain_step e s with Some s' => drain_run es' s' | None => None end
  end.
End drain.

(** ** The pool: invariant and functional behaviour *)
Section pool_facts.
Context {T : Tokio} {TL : TokioLaws T}.

(** Every link of the pool is in the store, once; the cursor is a [usize]. *)
Record pool_wf (p : TunnelPool) : Prop := {
  wf_nodup : NoDup (links p);
  wf_links i : i ∈ links p -> is_Some (arcs p !! i);
  wf_rr : 0 <= rr p < 2 ^ 64;
}.

(** The link would take a frame now: alive, receiver present, queue not full. *)
Definition link_accepts (l : TunnelLink) : bool :=
  alive l && negb (is_closed (tx l)) && (zlen (queued (tx l)) <? max_capacity (tx l)).

Definition accepts (a : gmap nat TunnelLink) (i : nat) : bool :=
  match a !! i with Some l => link_accepts l | None => false end.

(** What a failed attempt leaves behind: a live link whose receiver is gone is marked
    dead, any other link is unchanged. *)
Definition mark_closed (l : TunnelLink) : TunnelLink :=
  if alive l && is_closed (tx l) then set_alive false l else l.

(** A pass delivered [f] to link [i] and at most marked closed links dead. *)
Definition delivered (f : Frame) (i : nat) (a a' : gmap nat TunnelLink) : Prop :=
  exists l c, a !! i = Some l /\ link_accepts l = true /\
    a' !! i = Some (set_tx c l) /\ queued c = queued (tx l) ++ [f] /\
    forall j, j <> i -> a' !! j = a !! j \/ a' !! j = mark_closed <$> a !! j.

Lemma set_tx_id l : set_tx (tx l) l = l.
Proof. by destruct l. Qed.

Lemma mark_closed_accepts l : link_accepts (mark_closed l) = link_accepts l.
Proof.
  unfold mark_closed, link_accepts. destruct l as [c al ? ? ? ? ? ? ? ? ?]; cbn.
  destruct al, (is_closed c) eqn:E; cbn; by rewrite ?E.
Qed.

Lemma mark_closed_idem l : mark_closed (mark_closed l) = mark_closed l.
Proof.
  unfold mark_closed. destruct l as [c al ? ? ? ? ? ? ? ? ?]; cbn.
  destruct al, (is_closed c) eqn:E; cbn; rewrite ?E; done.
Qed.

(** [try_send] on a live link, in terms of [link_accepts]. *)
Lemma try_send_alive f l :
  alive l = true ->
  (link_accepts l = true /\ exists c, try_send f (tx l) = (None, c) /\
     queued c = queued (tx l) ++ [f]) \/
  (link_accepts l = false /\ is_closed (tx l) = true /\
     try_send f (tx l) = (Some Closed, tx l)) \/
  (link_accepts l = false /\ is_closed (tx l) = false /\
     try_send f (tx l) = (Some Full, tx l)).
Proof.
  intros Ha. unfold link_accepts. rewrite Ha.
  destruct (try_send_cases f (tx l)) as [[-> E]|[(->&L&E)|(->&L&c&E&Q&_)]]; cbn.
  - by right; left.
  - right; right. split_and!; [by apply Z.ltb_ge|done|done].
  - left. split; [by apply Z.ltb_lt|]. eauto.
Qed.

Lemma mark_dead_eq l :
  alive l = true -> is_closed (tx l) = true ->
  set_alive false (set_tx (tx l) l) = mark_closed l.
Proof. intros Ha Hc. by rewrite set_tx_id; unfold mark_closed; rewrite Ha, Hc. Qed.

Lemma mark_closed_open l :
  alive l = false \/ is_closed (tx l) = false -> mark_closed l = l.
Proof. unfold mark_closed. intros [->| ->]; by rewrite ?andb_false_r. Qed.

(** What the loop of [send] does over [pre ++ post]: the links of [pre] do not accept the
    frame, and the first of [post] takes it. *)
Record send_split (f : Frame) (a a' : gmap nat TunnelLink) (pre post : list nat) : Prop := {
  ss_pre : Forall (fun i => accepts a i = false) pre;
  ss_passed j : j ∈ pre -> a' !! j = mark_closed <$> a !! j;
  ss_others j : j ∉ pre -> head post <> Some j -> a' !! j = a !! j;
  ss_loop : match post with
            | [] => send_loop f (pre ++ post) a = (false, a')
            | i :: _ => send_loop f (pre ++ post) a = (true, a') /\
              exists l c, a !! i = Some l /\ link_accepts l = true /\
                a' !! i = Some (set_tx c l) /\ queued c = queued (tx l) ++ [f]
            end;
}.

(** A link that is passed over. *)
Lemma send_split_skip f a a' i l pre post :
  NoDup (i :: pre ++ post) -> a !! i = Some l -> link_accepts l = false ->
  send_loop f (i :: pre ++ post) a = send_loop f (pre ++ post) (<[i := mark_closed l]> a) ->
  send_split f (<[i := mark_closed l]> a) a' pre post -> send_split f a a' (i :: pre) post.
Proof.
  intros [Hi Hnd]%NoDup_cons Hl Hacc Hloop [H1 H2 H3 H5].
  assert (Hne : forall j, j ∈ pre ++ post -> <[i := mark_closed l]> a !! j = a !! j).
  { intros j Hj. rewrite lookup_insert_ne; set_solver. }
  split.
  - apply Forall_cons_2; [unfold accepts; by rewrite Hl|].
    rewrite Forall_forall in *. intros j Hj. rewrite <- (H1 j) by done.
    unfold accepts. rewrite Hne; set_solver.
  - intros j [->|Hj]%elem_of_cons.
    + rewrite H3, lookup_insert_eq, Hl; [done|set_solver|].
      destruct post; [done|]. intros [= ->]. set_solver.
    + rewrite H2, Hne; set_solver.
  - intros j [? ?]%not_elem_of_cons Hp. by rewrite H3, lookup_insert_ne by done.
  - cbn [app]. rewrite Hloop. destruct post as [|i' post]; [done|]. rewrite Hne in H5 by set_solver. done.
Qed.

Lemma send_loop_spec f ids a :
  NoDup ids -> (forall i, i ∈ ids -> is_Some (a !! i)) ->
  exists pre post a', ids = pre ++ post /\ send_split f a a' pre post.
Proof.
  revert a. induction ids as [|i ids IH]; intros a Hnd Hsome.
  { exists [], [], a. split; [done|]. split; try done. set_solver. }
  pose proof Hnd as [Hi Hnd']%NoDup_cons.
  destruct (Hsome i) as [l Hl]; [set_solver|].
  assert (skip : link_accepts l = false ->
    send_loop f (i :: ids) a = send_loop f ids (<[i := mark_closed l]> a) ->
    exists pre post a', i :: ids = pre ++ post /\ send_split f a a' pre post).
  { intros Hacc Hloop. destruct (IH (<[i := mark_closed l]> a) Hnd') as (pre & post & a' & -> & Hsp).
    { intros j Hj. rewrite lookup_insert_ne by set_solver. apply Hsome. set_solver. }
    exists (i :: pre), post, a'. split; [done|]. by apply (send_split_skip f a a' i l). }
  destruct (alive l) eqn:Hal.
  - destruct (try_send_alive f l Hal) as [[Hacc (c & E & Q)]|[(Hacc & Hc & E)|(Hacc & Hc & E)]].
    + exists [], (i :: ids), (<[i := set_tx c l]> a). split; [done|]. split; try done.
      * set_solver.
      * intros j _ Hj. rewrite lookup_insert_ne; [done|]. intros ->. by apply Hj.
      * cbn [send_loop app]. rewrite Hl, Hal, E. split; [done|]. exists l, c. by rewrite lookup_insert_eq.
    + apply skip; [done|]. cbn [send_loop]. rewrite Hl, Hal, E. by rewrite mark_dead_eq.
    + apply skip; [done|]. cbn [send_loop]. rewrite Hl, Hal, E. by rewrite set_tx_id, mark_closed_open by tauto.
  - apply skip; [by unfold link_accepts; rewrite Hal|].
    cbn [send_loop]. rewrite Hl, Hal, mark_closed_open by tauto. by rewrite insert_id.
Qed.

Lemma rotation_perm start ids : rotation start ids ≡ₚ ids.
Proof.
  unfold rotation. rewrite Permutation_app_comm. by rewrite take_drop.
Qed.

Lemma accepts_Some a i :
  accepts a i = true <-> exists l, a !! i = Some l /\ link_accepts l = true.
Proof.
  unfold accepts. destruct (a !! i) as [l|]; [|by split; [|intros (?&?&?)]].
  split; [by eauto|]. by intros (? & [= ->] & ?).
Qed.

Lemma send_nonempty f p :
  links p <> [] ->
  send f p = let '(ok, a) := send_loop f (rotation (rr p) (links p)) (arcs p) in
             (ok, mkTunnelPool a (links p) (u64_succ (rr p))).
Proof. unfold send. by destruct (links p). Qed.

(** C28: [TunnelPool::send] (the control-frame path) tries each link once, in rotation
    order from the cursor.  It returns true exactly when some live link has a receiver
    and room; then the frame is appended to the queue of the first such link and to no
    other.  Links whose receiver is gone and that it tried are marked dead, nothing
    else changes, and the cursor advances. *)
Theorem send_spec f p b p' :
  pool_wf p -> send f p = (b, p') ->
  links p' = links p /\ rr p' = (if decide (links p = []) then rr p else u64_succ (rr p)) /\
  b = existsb (accepts (arcs p)) (links p) /\
  exists pre post,
    rotation (rr p) (links p) = pre ++ post /\
    Forall (fun i => accepts (arcs p) i = false) pre /\
    (forall j, j ∈ pre -> arcs p' !! j = mark_closed <$> arcs p !! j) /\
    (forall j, j ∉ pre -> head post <> Some j -> arcs p' !! j = arcs p !! j) /\
    match post with
    | [] => b = false
    | i :: _ => b = true /\ delivered f i (arcs p) (arcs p')
    end.
Proof.
  intros [Hnd Hin Hrr] Hs. destruct (decide (links p = [])) as [El|El].
  { unfold send in Hs. rewrite El in *. simplify_eq. rewrite El. split_and!; try done.
    exists [], []. unfold rotation. rewrite drop_nil, take_nil.
    split_and!; try done. intros j Hj. by apply elem_of_nil in Hj. }
  rewrite send_nonempty in Hs by done.
  destruct (send_loop_spec f (rotation (rr p) (links p)) (arcs p))
    as (pre & post & a' & Hsplit & [H1 H2 H3 H5]).
  { by rewrite rotation_perm. }
  { intros i Hi. apply Hin. by rewrite <- (rotation_perm (rr p)). }
  assert (Hrot : forall j, j ∈ links p <-> j ∈ pre ++ post).
  { intros j. by rewrite <- Hsplit, rotation_perm. }
  rewrite <- Hsplit in H5. destruct (send_loop f _ _) as [b0 a0]. simplify_eq. cbn.
  assert (a0 = a') as -> by (destruct post; [by simplify_eq|destruct H5; by simplify_eq]).
  rewrite Forall_forall in H1. split_and!; [done|done| |].
  - symmetry. destruct post as [|i post].
    + simplify_eq. apply not_true_is_false. intros (j & Hj & Ha)%existsb_exists.
      apply list_elem_of_In, Hrot in Hj. rewrite app_nil_r in Hj. by rewrite H1 in Ha.
    + destruct H5 as [[= ->] (l & c & ? & ? & _)]. apply existsb_exists. exists i.
      split; [apply list_elem_of_In, Hrot, elem_of_app; right; apply elem_of_cons; by left|].
      apply accepts_Some. eauto.
  - exists pre, post. rewrite Forall_forall. split_and!; try done.
    destruct post as [|i post]; [by simplify_eq|].
    destruct H5 as [[= ->] (l & c & ? & ? & ? & ?)]. split; [done|].
    exists l, c. split_and!; try done. intros j Hj.
    destruct (decide (j ∈ pre)); [right; by apply H2|left; apply H3; [done|]].
    intros [= ->]. done.
Qed.

(** *** Weighted choice *)
Lemma elem_of_candidates skip p i :
  i ∈ candidates skip p <-> i ∈ links p /\ link_alive (arcs p) i = true /\ i ∉ skip.
Proof.
  unfold candidates, alive_links. rewrite !list_elem_of_filter.
  rewrite Is_true_true. tauto.
Qed.

Lemma pick_scan_in anchor acc cands lst (ids : list nat) :
  (forall i w, (i, w) ∈ cands -> i ∈ ids) -> lst ∈ ids ->
  pick_scan anchor acc cands lst ∈ ids.
Proof.
  revert acc. induction cands as [|[i w] cands IH]; intros acc Hc Hl; cbn; [done|].
  destruct (SFltb _ _).
  - apply (Hc i w). apply elem_of_cons. by left.
  - apply IH; [|done]. intros j v Hj. apply (Hc j v). apply elem_of_cons. by right.
Qed.

Lemma weighted_pick_cases skip p :
  (candidates skip p = [] /\ weighted_pick skip p = (None, p)) \/
  (exists i, i ∈ candidates skip p /\
     weighted_pick skip p = (Some i, mkTunnelPool (arcs p) (links p) (u64_succ (rr p)))).
Proof.
  unfold weighted_pick. destruct (last (candidates skip p)) as [lst|] eqn:E.
  - right. eexists. split; [|done]. apply pick_scan_in.
    + intros i w Hiw%list_elem_of_In%in_combine_l. by apply list_elem_of_In.
    + by apply last_Some_elem_of.
  - left. split; [by apply last_None|done].
Qed.

Lemma nodup_shrink (i : nat) k l :
  NoDup k -> i ∈ l -> (forall x, x ∈ k -> x ∈ l /\ x <> i) -> (length k < length l)%nat.
Proof.
  intros Hk Hi H. apply (submseteq_length (i :: k)), NoDup_submseteq.
  - apply NoDup_cons. split; [|done]. intros Hx. by apply H in Hx as [_ []].
  - intros x [->|Hx]%elem_of_cons; [done|]. by apply H.
Qed.

Lemma candidates_nodup skip p : pool_wf p -> NoDup (candidates skip p).
Proof. intros [? _ _]. by apply NoDup_filter, NoDup_filter. Qed.

(** The store differs from [a] only by closed links marked dead. *)
Definition only_marked (a a' : gmap nat TunnelLink) : Prop :=
  forall j, a' !! j = a !! j \/ a' !! j = mark_closed <$> a !! j.

Lemma only_marked_accepts a a' i : only_marked a a' -> accepts a' i = accepts a i.
Proof.
  intros H. unfold accepts. destruct (H i) as [-> | ->]; [done|].
  destruct (a !! i) as [l|]; [|done]. apply mark_closed_accepts.
Qed.

Lemma only_marked_mark a a' i l :
  only_marked a a' -> a' !! i = Some l -> only_marked a (<[i := mark_closed l]> a').
Proof.
  intros H Hi j. destruct (decide (j = i)) as [->|].
  - rewrite lookup_insert_eq. right. destruct (H i) as [E|E]; rewrite Hi in E.
    + by rewrite <- E.
    + destruct (a !! i) as [l0|]; [|done]. cbn in *. simplify_eq.
      by rewrite mark_closed_idem.
  - rewrite lookup_insert_ne by done. apply H.
Qed.

Lemma only_marked_same a a' i l :
  only_marked a a' -> a' !! i = Some l -> only_marked a (<[i := l]> a').
Proof. intros H Hi. by rewrite insert_id. Qed.

(** One pass: it delivers, or shrinks the candidates, or finds none. *)
Inductive pass_outcome (f : Frame) (full : list nat) (p : TunnelPool)
  : async_step * TunnelPool -> Prop :=
| PassSent i l c p' :
    i ∈ links p -> arcs p !! i = Some l -> link_accepts l = true ->
    queued c = queued (tx l) ++ [f] -> arcs p' = <[i := set_tx c l]> (arcs p) ->
    links p' = links p -> pass_outcome f full p (AsyncSent, p')
| PassAgain full' p' :
    only_marked (arcs p) (arcs p') -> links p' = links p -> 0 <= rr p' < 2 ^ 64 ->
    (length (candidates full' p') < length (candidates full p))%nat ->
    (forall i, i ∈ full' -> i ∈ full \/ accepts (arcs p) i = false) ->
    pass_outcome f full p (AsyncAgain full', p')
| PassNone :
    candidates full p = [] ->
    pass_outcome f full p
      (if decide (alive_links p = []) then AsyncWaitAdded else AsyncSleep, p).

Lemma send_async_pass_cases f full p :
  pool_wf p -> pass_outcome f full p (send_async_pass f full p).
Proof.
  intros Hwf. unfold send_async_pass.
  destruct (weighted_pick_cases full p) as [[Hc ->]|(i & Hi & ->)].
  { replace (match alive_links p with [] => _ | _ => _ end)
      with (if decide (alive_links p = []) then AsyncWaitAdded else AsyncSleep, p);
      [by apply PassNone|]. case_decide as E; [by rewrite E|by destruct (alive_links p)]. }
  pose proof (candidates_nodup full p Hwf) as Hnd.
  destruct (proj1 (elem_of_candidates _ _ _) Hi) as (Hil & Hal & Hif). cbn [arcs].
  assert (Hrr : 0 <= u64_succ (rr p) < 2 ^ 64) by (by apply wrap_range).
  unfold link_alive in Hal. destruct (arcs p !! i) as [l|] eqn:Hl; [|done].
  assert (Hshrink : forall full' p', pool_wf p' -> 
    links p' = links p -> (forall j, j <> i -> arcs p' !! j = arcs p !! j) ->
    (link_alive (arcs p') i = false \/ i ∈ full') -> (forall j, j ∈ full -> j ∈ full') ->
    (length (candidates full' p') < length (candidates full p))%nat).
  { intros full' p' Hwf' El Ea Hgone Hsub.
    apply (nodup_shrink i); [by apply candidates_nodup|done|].
    intros x (Hx1 & Hx2 & Hx3)%elem_of_candidates. rewrite elem_of_candidates.
    assert (x <> i) as Hxi by (intros ->; destruct Hgone; congruence).
    unfold link_alive in *. rewrite Ea in Hx2 by done. rewrite El in Hx1.
    split_and!; auto. }
  destruct Hwf as [Hnd' Hin _].
  destruct (try_send_alive f l Hal) as [[Hacc (c & E & Q)]|[(Hacc & Hc & E)|(Hacc & Hc & E)]];
    rewrite E.
  - by eapply PassSent.
  - rewrite mark_dead_eq by done. apply PassAgain; [|done|done| |auto].
    + apply only_marked_mark; [|done]. by left.
    + apply Hshrink; cbn; try done.
      * split; cbn; [done| |done]. intros j Hj. destruct (decide (j = i)) as [->|].
        { by rewrite lookup_insert_eq. } rewrite lookup_insert_ne by done. by apply Hin.
      * intros j Hj. by rewrite lookup_insert_ne.
      * left. unfold link_alive. rewrite lookup_insert_eq. unfold mark_closed.
        by rewrite Hal, Hc.
  - rewrite set_tx_id, insert_id by done. apply PassAgain; [|done|done| |].
    + by left.
    + apply Hshrink; cbn; try done; set_solver.
    + intros j [Hj|Hj%list_elem_of_singleton]%elem_of_app; [by left|]. subst j. right.
      unfold accepts. by rewrite Hl.
Qed.

Lemma pass_pool_wf f full p full' p' :
  pool_wf p -> only_marked (arcs p) (arcs p') -> links p' = links p ->
  0 <= rr p' < 2 ^ 64 -> send_async_pass f full p = (AsyncAgain full', p') -> pool_wf p'.
Proof.
  intros [Hnd Hin _] Hom El Hrr _. split; rewrite ?El; [done| |done].
  intros i Hi%Hin. destruct (Hom i) as [-> | ->]; [done|]. by apply fmap_is_Some.
Qed.

Lemma only_marked_trans a b c : only_marked a b -> only_marked b c -> only_marked a c.
Proof.
  intros H1 H2 j. destruct (H2 j) as [-> | ->]; [done|].
  destruct (H1 j) as [-> | ->]; [by right|]. right.
  destruct (a !! j); [|done]. cbn. by rewrite mark_closed_idem.
Qed.

(** The result of [send_async] at its next await point. *)
Definition async_result (f : Frame) (p : TunnelPool) (r : async_step) (p' : TunnelPool)
  : Prop :=
  links p' = links p /\
  match r with
  | AsyncSent => exists i, i ∈ links p /\ delivered f i (arcs p) (arcs p')
  | AsyncAgain _ => False
  | AsyncSleep => only_marked (arcs p) (arcs p') /\ alive_links p' <> [] /\
      existsb (accepts (arcs p)) (links p) = false
  | AsyncWaitAdded => only_marked (arcs p) (arcs p') /\ alive_links p' = []
  end.

Lemma only_marked_lookup a a' i l :
  only_marked a a' -> a' !! i = Some l -> link_accepts l = true -> a !! i = Some l.
Proof.
  intros Hom Hi Hacc. destruct (Hom i) as [E|E]; rewrite Hi in E; [done|].
  destruct (a !! i) as [l0|]; [|done]. cbn in E. simplify_eq.
  rewrite mark_closed_accepts in Hacc. rewrite mark_closed_open; [done|].
  unfold link_accepts in Hacc. destruct (is_closed (tx l0)); [|by right].
  by rewrite andb_false_r in Hacc.
Qed.

Lemma no_candidates p0 p full :
  only_marked (arcs p0) (arcs p) -> links p = links p0 ->
  (forall i, i ∈ full -> accepts (arcs p0) i = false) -> candidates full p = [] ->
  existsb (accepts (arcs p0)) (links p0) = false.
Proof.
  intros Hom El Hfull Hc. apply not_true_is_false.
  intros (i & Hi%list_elem_of_In & Ha)%existsb_exists.
  destruct (decide (i ∈ full)) as [Hf|Hf]; [by rewrite Hfull in Ha|].
  assert (i ∈ candidates full p) as Hin.
  { apply elem_of_candidates. split_and!; [by rewrite El| |done].
    rewrite <- (only_marked_accepts _ _ _ Hom) in Ha. apply accepts_Some in Ha as (l & Hl & Ha).
    unfold link_alive. rewrite Hl. unfold link_accepts in Ha. by destruct (alive l). }
  rewrite Hc in Hin. by apply elem_of_nil in Hin.
Qed.

Lemma send_async_from fuel f full p0 p :
  pool_wf p -> only_marked (arcs p0) (arcs p) -> links p = links p0 ->
  (forall i, i ∈ full -> accepts (arcs p0) i = false) ->
  (length (candidates full p) < fuel)%nat ->
  exists r p', send_async fuel f full p = (Some r, p') /\ async_result f p0 r p'.
Proof.
  revert full p. induction fuel as [|fuel IH]; intros full p Hwf Hom El Hfull Hfuel; [lia|].
  cbn [send_async]. pose proof (send_async_pass_cases f full p Hwf) as Ho.
  destruct (send_async_pass f full p) as [r p'] eqn:Ep.
  inversion Ho as [i l c p1 Hi Hl Hacc Hq Ha El'|full' p1 Hom' El' Hrr Hlen Hf'|Hnone];
    subst r p'.
  - exists AsyncSent, p1. split; [done|]. split; [congruence|].
    exists i. split; [by rewrite <- El|].
    exists l, c. rewrite Ha. split_and!; [|done|by rewrite lookup_insert_eq|done|].
    + by eapply only_marked_lookup.
    + intros j Hj. rewrite lookup_insert_ne by done. apply Hom.
  - apply IH; [by eapply pass_pool_wf|by eapply only_marked_trans|congruence| |lia].
    intros i [Hi|Hi]%Hf'; [by apply Hfull|]. by rewrite (only_marked_accepts _ _ _ Hom) in Hi.
  - case_decide as Ha.
    + exists AsyncWaitAdded, p. by split.
    + exists AsyncSleep, p. split; [done|]. split; [done|].
      split_and!; [done|done|]. by eapply no_candidates.
Qed.

(** C27: [TunnelPool::send_async] (the DATA path) needs at most one pass per live link to
    reach its next await point: with more fuel than links it always returns.  It sent
    the frame, to one link that accepted, or no link of the pool accepts it and it
    sleeps 1 ms (every live link is full) or waits for a link to be added (none is
    alive).  In particular it never blocks on a full link while another can take the
    frame. *)
Theorem send_async_delivers fuel f p :
  pool_wf p -> (length (links p) < fuel)%nat ->
  exists r p', send_async fuel f [] p = (Some r, p') /\ async_result f p r p' /\
    (existsb (accepts (arcs p)) (links p) = true -> r = AsyncSent).
Proof.
  intros Hwf Hfuel. destruct (send_async_from fuel f [] p p) as (r & p' & E & H); try done.
  - by left.
  - intros i Hi. by apply elem_of_nil in Hi.
  - eapply Nat.le_lt_trans; [|done]. unfold candidates, alive_links.
    etrans; apply length_filter.
  - exists r, p'. split_and!; [done|done|]. intros Hex. destruct H as [El H].
    destruct r; [done|done| |].
    + by destruct H as (_ & _ & H); rewrite H in Hex.
    + destruct H as [Hom Hdead]. exfalso.
      assert (existsb (accepts (arcs p)) (links p) = false); [|congruence].
      apply (no_candidates p p' []); try done.
      * intros i Hi. by apply elem_of_nil in Hi.
      * unfold candidates. by rewrite Hdead.
Qed.

(** *** Idle links *)
Definition idle (now_ms idle_limit_ms : Z) (l : TunnelLink) : bool :=
  alive l && (now_ms - last_active_ms l >? idle_limit_ms).

Lemma sweep_one_spec now lim l :
  0 <= lim ->
  sweep_one now lim l =
    (idle now lim l,
     if idle now lim l then set_stop (notify_one (stop l)) (set_alive false l) else l).
Proof.
  intros. unfold sweep_one, idle, sat_sub.
  replace (Z.max 0 (now - last_active_ms l) >? lim)
    with (now - last_active_ms l >? lim); [by destruct (alive l && _)|].
  apply eq_true_iff_eq. zbool. lia.
Qed.


(** The link [i] of the store satisfies [P]. *)
Definition at_link (P : TunnelLink -> bool) (a : gmap nat TunnelLink) (i : nat) : bool :=
  match a !! i with Some l => P l | None => false end.

Definition swept (l : TunnelLink) : TunnelLink :=
  set_stop (notify_one (stop l)) (set_alive false l).

Lemma sweep_links_spec now lim ids a :
  0 <= lim -> NoDup ids -> (forall i, i ∈ ids -> is_Some (a !! i)) ->
  exists a', sweep_links now lim ids a = (zlen (filter (at_link (idle now lim) a) ids), a') /\
    forall j, a' !! j = if decide (j ∈ ids /\ at_link (idle now lim) a j = true)
                        then swept <$> a !! j else a !! j.
Proof.
  intros Hlim. revert a. induction ids as [|i ids IH]; intros a Hnd Hsome.
  { exists a. split; [done|]. intros j. rewrite decide_False; [done|].
    intros [Hj _]. by apply elem_of_nil in Hj. }
  apply NoDup_cons in Hnd as [Hi Hnd]. cbn [sweep_links].
  destruct (Hsome i) as [l Hl]; [apply elem_of_cons; by left|].
  rewrite Hl, sweep_one_spec by done.
  set (l' := if idle now lim l then _ else l).
  assert (Hat : forall j, j ∈ ids -> at_link (idle now lim) (<[i := l']> a) j
                                     = at_link (idle now lim) a j).
  { intros j Hj. unfold at_link. rewrite lookup_insert_ne; [done|]. by intros ->. }
  destruct (IH (<[i := l']> a) Hnd) as (a' & -> & Ha').
  { intros j Hj. rewrite lookup_insert_ne by (by intros ->). apply Hsome. by apply elem_of_cons; right. }
  exists a'. split.
  - f_equal. rewrite filter_cons, (filter_bool_ext _ (at_link (idle now lim) a)) by done.
    assert (at_link (idle now lim) a i = idle now lim l) as Hati by (unfold at_link; by rewrite Hl).
    case_decide as Hd; rewrite Hati in Hd; destruct (idle now lim l); try done;
      autorewrite with rr_len; lia.
  - intros j. rewrite Ha'. destruct (decide (j = i)) as [->|Hji].
    + rewrite decide_False by tauto. rewrite lookup_insert_eq, Hl.
      unfold at_link. rewrite Hl. subst l'. destruct (idle now lim l).
      * rewrite decide_True; [done|]. split; [apply elem_of_cons; by left|done].
      * by rewrite decide_False by (by intros [_ ?]).
    + unfold at_link. rewrite lookup_insert_ne by done.
      apply decide_ext. rewrite elem_of_cons. tauto.
Qed.

(** The heartbeat's [sweep_idle] recycles exactly the live links of the pool that
    were silent longer than the limit: it marks them dead, leaves a permit in their
    [stop] and returns how many; every other link is untouched.  The [compact] that
    follows keeps, in order, exactly the live links that were not idle. *)
Theorem sweep_idle_spec now lim p n p' :
  pool_wf p -> 0 <= lim -> sweep_idle now lim p = (n, p') ->
  links p' = links p /\ rr p' = rr p /\
  n = zlen (filter (at_link (idle now lim) (arcs p)) (links p)) /\
  (forall j, arcs p' !! j =
    if decide (j ∈ links p /\ at_link (idle now lim) (arcs p) j = true)
    then swept <$> arcs p !! j else arcs p !! j) /\
  links (compact p') =
    filter (at_link (fun l => alive l && negb (idle now lim l)) (arcs p)) (links p).
Proof.
  intros [Hnd Hin Hrr] Hlim Hs. unfold sweep_idle in Hs.
  destruct (sweep_links_spec now lim (links p) (arcs p)) as (a' & E & Ha'); try done.
  rewrite E in Hs. simplify_eq. cbn. split_and!; try done.
  apply filter_bool_ext. intros j Hj. unfold link_alive, at_link in *. cbn. rewrite Ha'.
  destruct (Hin j Hj) as [l Hl]. rewrite Hl. unfold idle.
  destruct (alive l) eqn:Hal; cbn.
  - destruct (_ >? _); [rewrite decide_True by done|rewrite decide_False by (by intros [? ?])];
      cbn; [done|by rewrite Hal].
  - rewrite decide_False by (by intros [? ?]). by rewrite Hal.
Qed.

Lemma only_marked_delivered f i a a' :
  delivered f i a a' -> forall j, is_Some (a !! j) -> is_Some (a' !! j).
Proof.
  intros (l & c & Hl & _ & Hi & _ & Hj) j Hs. destruct (decide (j = i)) as [->|]; [by rewrite Hi|].
  destruct (Hj j) as [-> | ->]; [done|done|by apply fmap_is_Some].
Qed.


(** *** Shares over a cycle of the cursor *)

(** The position [weighted_pick] chooses for the weights [ws] at cursor [r]. *)
Definition pick_index (ws : list f64) (r : Z) : nat :=
  pick_scan
    (f64_mul (f64_div (f64_of_Z (r mod WEIGHT_GRID)) (f64_of_Z WEIGHT_GRID)) (f64_sum ws))
    f64_zero (combine (List.seq 0 (length ws)) ws) (length ws - 1)%nat.

(** [n] consecutive picks with no other event in between. *)
Fixpoint picks (n : nat) (skip : list nat) (p : TunnelPool) : list (option nat) :=
  match n with
  | O => []
  | S n' => let '(o, p') := weighted_pick skip p in o :: picks n' skip p'
  end.

Definition count_at (k : nat) (l : list nat) : Z := zlen (filter (fun j => j = k) l).

(** The grid positions a full cycle goes through. *)
Definition grid : list Z := map Z.of_nat (List.seq 0 1024).

Lemma pick_scan_map (g : nat -> nat) anchor acc ids ws lst :
  pick_scan anchor acc (combine (map g ids) ws) (g lst) =
  g (pick_scan anchor acc (combine ids ws) lst).
Proof.
  revert acc ws. induction ids as [|i ids IH]; intros acc [|w ws]; cbn; try done.
  by destruct (SFltb _ _).
Qed.

Lemma map_lookup_total_seq (ids : list nat) :
  map (fun k => ids !!! k) (List.seq 0 (length ids)) = ids.
Proof.
  apply list_eq. intros i. destruct (decide (i < length ids)%nat) as [Hi|Hi].
  - change (map ?f ?l) with (f <$> l). rewrite list_lookup_fmap, lookup_seq_lt by done.
    cbn. by rewrite list_lookup_lookup_total_lt.
  - rewrite !lookup_ge_None_2; [done|lia|]. rewrite length_map, length_seq. lia.
Qed.

Lemma length_pick_weights raw : length (pick_weights raw) = length raw.
Proof. unfold pick_weights. destruct (SFltb _ _); by rewrite length_map. Qed.

Lemma weighted_pick_index skip p :
  candidates skip p <> [] ->
  (weighted_pick skip p).1 =
    Some (candidates skip p !!!
          pick_index (pick_weights (map (link_rate (arcs p)) (candidates skip p))) (rr p)).
Proof.
  intros Hne. unfold weighted_pick. set (ids := candidates skip p) in *.
  destruct (last ids) as [lst|] eqn:El; [|by apply last_None in El].
  cbn. f_equal. set (ws := pick_weights _).
  assert (length ws = length ids) as Hlen.
  { unfold ws. by rewrite length_pick_weights, length_map. }
  unfold pick_index. symmetry. etrans; [symmetry; apply (pick_scan_map (fun k => ids !!! k))|].
  rewrite Hlen, map_lookup_total_seq. f_equal. rewrite last_lookup in El. apply list_lookup_total_correct.
  rewrite <- El. f_equal. lia.
Qed.

Lemma pick_index_congr ws r r' :
  r mod WEIGHT_GRID = r' mod WEIGHT_GRID -> pick_index ws r = pick_index ws r'.
Proof. unfold pick_index. by intros ->. Qed.

Lemma u64_succ_grid r j : (u64_succ r + j) mod WEIGHT_GRID = (r + (1 + j)) mod WEIGHT_GRID.
Proof.
  unfold u64_succ, wrap. rewrite (Z.mod_eq (r + 1)) by done.
  replace (r + 1 - 2 ^ 64 * ((r + 1) / 2 ^ 64) + j)
    with (r + (1 + j) + (- 2 ^ 54 * ((r + 1) / 2 ^ 64)) * WEIGHT_GRID); [apply Z_mod_plus_full|].
  unfold WEIGHT_GRID. set (q := (r + 1) / _). lia.
Qed.

Lemma picks_spec n skip p :
  candidates skip p <> [] ->
  let ids := candidates skip p in
  let ws := pick_weights (map (link_rate (arcs p)) ids) in
  picks n skip p = map (fun r => Some (ids !!! pick_index ws r)) (seqZ (rr p) (Z.of_nat n)).
Proof.
  intros Hne ids ws.
  assert (forall r0 p0, arcs p0 = arcs p -> links p0 = links p ->
    r0 mod WEIGHT_GRID = rr p0 mod WEIGHT_GRID ->
    picks n skip p0 = map (fun r => Some (ids !!! pick_index ws r)) (seqZ r0 (Z.of_nat n)))
    as H; [|by apply H].
  induction n as [|n IH]; intros r0 p0 Ea El Hr; [done|].
  assert (candidates skip p0 = ids) as Hc.
  { unfold ids, candidates, alive_links. by rewrite Ea, El. }
  cbn [picks]. rewrite seqZ_cons, Nat2Z.inj_succ, Z.pred_succ by lia. cbn [map].
  destruct (weighted_pick_cases skip p0) as [[Hn _]|(i & _ & E)]; [by rewrite Hc in Hn|].
  pose proof (weighted_pick_index skip p0) as Hi. rewrite E, Hc, Ea in Hi. cbn in Hi.
  rewrite E. f_equal.
  - rewrite Hi by done. by rewrite (pick_index_congr _ r0 (rr p0)).
  - apply IH; [done|done|]. cbn. rewrite <- (Z.add_0_r (u64_succ _)), u64_succ_grid.
    rewrite Z.add_0_r, <- Z.add_1_r, (Z.add_mod r0), Hr, <- Z.add_mod; done.
Qed.

(** A periodic function visits the same values over any full period. *)
Lemma full_period {A} (g : Z -> A) r :
  (forall x, g (x + WEIGHT_GRID) = g x) -> 0 <= r ->
  map g (seqZ r WEIGHT_GRID) ≡ₚ map g (seqZ 0 WEIGHT_GRID).
Proof.
  intros Hg. revert r. apply natlike_ind; [done|]. intros r Hr <-.
  rewrite (seqZ_cons r) by done.
  replace WEIGHT_GRID with (Z.pred WEIGHT_GRID + 1) at 1 by done.
  rewrite seqZ_app by done. unfold Z.succ. rewrite map_app. cbn [map seqZ].
  change (seqZ (r + 1 + Z.pred WEIGHT_GRID) 1) with [r + 1 + Z.pred WEIGHT_GRID]. cbn [map].
  replace (r + 1 + Z.pred WEIGHT_GRID) with (r + WEIGHT_GRID) by (unfold WEIGHT_GRID; lia).
  rewrite Hg. symmetry. apply Permutation_cons_append.
Qed.

Lemma f64_sum_zeros n : f64_sum (replicate n f64_zero) = f64_zero.
Proof. unfold f64_sum. by induction n. Qed.

(** Nothing measured yet: every weight is one. *)
Lemma cold_weights (a : gmap nat TunnelLink) ids :
  (forall i l, i ∈ ids -> a !! i = Some l -> rate_bps l = f64_zero) ->
  pick_weights (map (link_rate a) ids) = replicate (length ids) f64_one.
Proof.
  intros H. assert (map (link_rate a) ids = replicate (length ids) f64_zero) as ->.
  { induction ids as [|i ids IH]; cbn; [done|]. f_equal.
    - unfold link_rate. destruct (a !! i) as [l|] eqn:E; [|done].
      rewrite (H i l); [done|apply elem_of_cons; by left|done].
    - apply IH. intros j l Hj. apply H. apply elem_of_cons. by right. }
  unfold pick_weights. rewrite f64_sum_zeros. cbn.
  induction (length ids); cbn; by f_equal.
Qed.

(** How many picks of a full cycle go to the link at position [k]. *)
Definition pick_share (ws : list f64) (k : nat) : Z :=
  count_at k (map (pick_index ws) (seqZ 0 WEIGHT_GRID)).

Definition picked (i : nat) (l : list (option nat)) : Z :=
  zlen (filter (fun o => o = Some i) l).

Lemma pick_index_lt ws r : ws <> [] -> (pick_index ws r < length ws)%nat.
Proof.
  intros Hne. assert (length ws <> 0%nat) as Hpos by (by destruct ws).
  assert (pick_index ws r ∈ List.seq 0 (length ws)) as H.
  { apply pick_scan_in.
    - intros k w Hk%list_elem_of_In%in_combine_l. by apply list_elem_of_In.
    - apply elem_of_seq. lia. }
  apply elem_of_seq in H. lia.
Qed.

Lemma picked_perm i l l' : l ≡ₚ l' -> picked i l = picked i l'.
Proof. intros Hp. unfold picked, zlen. by rewrite Hp. Qed.

Lemma picked_count ids ws k i rs :
  NoDup ids -> ids !! k = Some i -> length ws = length ids ->
  picked i (map (fun r => Some (ids !!! pick_index ws r)) rs) =
  count_at k (map (pick_index ws) rs).
Proof.
  intros Hnd Hk Hlen. unfold picked, count_at, zlen. f_equal.
  assert (ws <> []) as Hws by (destruct ws; [destruct ids; done|done]).
  induction rs as [|r rs IH]; cbn [map]; [done|]. rewrite !filter_cons.
  pose proof (pick_index_lt ws r Hws) as Hlt. rewrite Hlen in Hlt.
  apply list_lookup_lookup_total_lt in Hlt.
  destruct (decide (pick_index ws r = k)) as [Heq|Hne].
  - rewrite decide_True; [cbn [length]; by rewrite IH|].
    by rewrite Heq, (list_lookup_total_correct _ _ _ Hk).
  - rewrite decide_False; [done|].
    intros [= E]. apply Hne. rewrite E in Hlt. by eapply NoDup_lookup.
Qed.

Lemma pick_period (ids : list nat) ws r :
  Some (ids !!! pick_index ws (r + WEIGHT_GRID)) = Some (ids !!! pick_index ws r).
Proof.
  do 2 f_equal. rewrite <- (Z.mul_1_l WEIGHT_GRID). apply pick_index_congr, Z_mod_plus_full.
Qed.

(** Cold-start shares, checked by computation for up to [n] links. *)
Definition cold_shares_ok (n : nat) : bool :=
  let ps := map (pick_index (replicate n f64_one)) (seqZ 0 WEIGHT_GRID) in
  forallb (fun k => (WEIGHT_GRID / Z.of_nat n <=? count_at k ps) &&
                    (count_at k ps <=? WEIGHT_GRID / Z.of_nat n + 1)) (List.seq 0 n).

Lemma cold_shares_9 : forallb cold_shares_ok (List.seq 1 9) = true.
Proof. vm_compute. reflexivity. Qed.

Lemma cold_share_bounds n k :
  (k < n <= 9)%nat ->
  WEIGHT_GRID / Z.of_nat n <= pick_share (replicate n f64_one) k
    <= WEIGHT_GRID / Z.of_nat n + 1.
Proof.
  intros Hk. pose proof cold_shares_9 as H. rewrite forallb_forall in H.
  specialize (H n ltac:(apply in_seq; lia)). unfold cold_shares_ok in H.
  rewrite forallb_forall in H. specialize (H k ltac:(apply in_seq; lia)).
  apply andb_true_iff in H as [H1 H2]. zbool. done.
Qed.

End pool_facts.

(** ** The drain task: no frame disappears unnoticed, except two *)
Section drain_facts.
Context {T : Tokio} {TL : TokioLaws T} {B : BufMut} (f64_exp : f64 -> f64).

Definition in_flight (ph : drain_phase) : list Frame :=
  match ph with Writing f _ => [f] | _ => [] end.

Definition in_loop (ph : drain_phase) : bool :=
  match ph with Running | Writing _ _ => true | _ => false end.

Definition writer_ended (ph : drain_phase) : bool :=
  match ph with ShuttingDown | Returned => true | _ => false end.

(** The frames still in the channel; the receiver's drop empties it. *)
Definition backlog (s : DrainState) : list Frame :=
  match d_phase s with Returned => h_stranded s | _ => queued (tx (d_link s)) end.

Record drain_inv (s : DrainState) : Prop := {
  di_sent : h_sent s = h_written s ++ h_failed s ++ lost_frames (d_link s) ++
                       in_flight (d_phase s) ++ backlog s;
  di_loop : in_loop (d_phase s) = true -> h_failed s = [] /\ lost_frames (d_link s) = [];
  di_failed : (length (h_failed s) <= 1)%nat;
  di_open : is_closed (tx (d_link s)) = match d_phase s with Returned => true | _ => false end;
  di_wire : exists encs, Forall2 (fun f e => encode_into f [] = Ok e) (h_written s) encs /\
              d_wire s = concat encs;
  di_enc : match d_phase s with Writing f e => encode_into f [] = Ok e | _ => True end;
}.

Lemma drain_init_inv l :
  lost_frames l = [] -> queued (tx l) = [] -> is_closed (tx l) = false ->
  drain_inv (drain_init l).
Proof.
  intros Hl Hq Ho. split; cbn; try done; unfold backlog; cbn.
  - by rewrite Hl, Hq.
  - lia.
  - exists []. by split; [constructor|].
Qed.

(** Events that change neither the history nor the channel. *)
Lemma drain_send_inv f s :
  drain_inv s -> forall s', drain_step f64_exp (EvSend f) s = Some s' -> drain_inv s'.
Proof.
  intros [H1 H2 H3 H4 H5 H6] s' Hs. unfold drain_step in Hs.
  destruct (try_send_cases f (tx (d_link s))) as [[Hc E]|[(Hc & _ & E)|(Hc & _ & c & E & Q & Hc' & _)]];
    rewrite E in Hs; simplify_eq.
  1,2: rewrite set_tx_id, app_nil_r; split; cbn; rewrite ?Hc in *; done.
  split; cbn; try done; unfold backlog in *; cbn.
  - rewrite H1. rewrite Hc in H4. destruct (d_phase s); rewrite ?Q, <- ?app_assoc; done.
  - rewrite Hc in H4. by rewrite Hc', <- H4.
Qed.

Lemma drain_recv_inv s s' :
  drain_inv s -> drain_step f64_exp EvRecv s = Some s' -> drain_inv s'.
Proof.
  intros [H1 H2 H3 H4 H5 H6] Hs. unfold drain_step in Hs.
  destruct (d_phase s) eqn:Eph; try done. unfold backlog in *. rewrite Eph in *.
  destruct (H2 eq_refl) as [Hf Hl]. rewrite Hf, Hl in *. cbn in H1.
  destruct (try_recv_cases (tx (d_link s))) as [[Q E]|(f & q & c & Q & E & Q' & Hc)];
    rewrite E in Hs; [done|].
  destruct (encode_into f []) as [enc|e] eqn:Ee; simplify_eq;
    split; cbn; rewrite ?Hf, ?Hl, ?Hc; cbn; try done; try lia;
    rewrite H1, Q; unfold backlog; cbn; done.
Qed.

Lemma drain_written_eq f enc dt now s :
  exists l2 r,
    drain_written f64_exp f enc dt now s =
      mkDrainState l2 Running r (d_wire s ++ enc) (h_sent s) (h_written s ++ [f]) (h_failed s)
        (h_stranded s) /\
    lost_frames l2 = lost_frames (d_link s) /\ tx l2 = tx (d_link s) /\
    writer_died l2 = writer_died (d_link s).
Proof. unfold drain_written. destruct (SFltb _ _); by do 2 eexists. Qed.

Lemma drain_writing_inv e s f enc s' :
  d_phase s = Writing f enc -> e <> EvNotifyStop -> (forall g, e <> EvSend g) ->
  drain_inv s -> drain_step f64_exp e s = Some s' -> drain_inv s'.
Proof.
  intros Eph Hn Hg [H1 H2 H3 H4 H5 H6] Hs. unfold drain_step in Hs.
  unfold backlog in *. rewrite Eph in *. destruct (H2 eq_refl) as [Hf Hl].
  rewrite Hf, Hl in *. cbn in H1. destruct e as [g| | | |dt now| | |]; try done.
  - by destruct (Hg g).
  - destruct (has_permit (stop (d_link s))); [simplify_eq|done].
    split; cbn; rewrite ?Hf, ?Hl; unfold backlog; cbn; try done; try lia.
  - simplify_eq. destruct (drain_written_eq f enc dt now s) as (l2 & r & -> & Hl2 & Ht2 & _).
    rewrite Hl in Hl2.
    split; cbn; rewrite ?Hf, ?Hl2, ?Ht2; unfold backlog; cbn; try done; try lia.
    + by rewrite H1, <- app_assoc.
    + destruct H5 as (encs & Hfa & ->). exists (encs ++ [enc]). split.
      * apply Forall2_app; [done|]. by constructor.
      * by rewrite concat_app; cbn; rewrite app_nil_r.
  - simplify_eq. split; cbn; rewrite ?Hf, ?Hl; unfold backlog; cbn; try done; try lia.
Qed.

Lemma drain_notify_inv s s' :
  drain_inv s -> drain_step f64_exp EvNotifyStop s = Some s' -> drain_inv s'.
Proof.
  intros [H1 H2 H3 H4 H5 H6] Hs. unfold drain_step in Hs.
  destruct (d_phase s) eqn:Eph; simplify_eq; unfold backlog in *; rewrite Eph in *;
    by split.
Qed.

Lemma drain_ending_inv e s s' :
  in_loop (d_phase s) = false -> (e = EvFlush \/ e = EvReturn) ->
  drain_inv s -> drain_step f64_exp e s = Some s' -> drain_inv s'.
Proof.
  intros Eph He [H1 H2 H3 H4 H5 H6] Hs. unfold drain_step in Hs. unfold backlog in *.
  destruct (d_phase s); try done; destruct He as [-> | ->]; try done.
  - destruct (try_recv_cases (tx (d_link s))) as [[Q E]|(f & q & c & Q & E & Q' & Hc)];
      rewrite E in Hs; simplify_eq; split; cbn; unfold backlog; cbn; try done.
    + by rewrite H1, Q, <- !app_assoc.
    + by rewrite Hc.
  - simplify_eq. split; cbn; unfold backlog; cbn; try done. apply is_closed_close.
Qed.

Lemma drain_stop_inv s s' :
  d_phase s = Running -> drain_inv s -> drain_step f64_exp EvStop s = Some s' -> drain_inv s'.
Proof.
  intros Eph [H1 H2 H3 H4 H5 H6] Hs. unfold drain_step in Hs. unfold backlog in *.
  rewrite Eph in *. destruct (has_permit (stop (d_link s))); [simplify_eq|done].
  by split.
Qed.

Lemma drain_step_inv e s s' :
  drain_inv s -> drain_step f64_exp e s = Some s' -> drain_inv s'.
Proof.
  intros Hi Hs. destruct e as [g| | | |dt now| | |].
  1: by eapply drain_send_inv.
  1: by eapply drain_notify_inv.
  2: by eapply drain_recv_inv.
  all: destruct (d_phase s) eqn:Eph; try (by unfold drain_step in Hs; rewrite Eph in Hs);
    try (by refine (drain_writing_inv _ s _ _ s' Eph _ _ Hi Hs)).
  - by eapply drain_stop_inv.
  - refine (drain_ending_inv _ s s' _ _ Hi Hs); [by rewrite Eph|by left].
  - refine (drain_ending_inv _ s s' _ _ Hi Hs); [by rewrite Eph|by right].
Qed.

Lemma drain_run_inv es s s' :
  drain_inv s -> drain_run f64_exp es s = Some s' -> drain_inv s'.
Proof.
  revert s. induction es as [|e es IH]; intros s Hi Hr; cbn in Hr; [by simplify_eq|].
  destruct (drain_step f64_exp e s) as [s1|] eqn:Es; [|done].
  eauto using drain_step_inv.
Qed.

(** The permit that releases the read loop is there once the loop has ended for good. *)
Definition died_signalled (s : DrainState) : Prop :=
  writer_ended (d_phase s) = true -> has_permit (writer_died (d_link s)) = true.

Lemma drain_step_died e s s' :
  died_signalled s -> drain_step f64_exp e s = Some s' -> died_signalled s'.
Proof.
  unfold died_signalled, drain_step. intros H Hs. destruct e as [f| | | |dt now| | |].
  - destruct (try_send f _) as [r c]. by injection Hs as <-.
  - by injection Hs as <-.
  - destruct (d_phase s); try done; (destruct (has_permit (stop _)); [|done]); by injection Hs as <-.
  - destruct (d_phase s); try done. destruct (try_recv _) as [[f|] c]; [|done].
    by destruct (encode_into f []); injection Hs as <-.
  - destruct (d_phase s); try done. injection Hs as <-.
    by destruct (drain_written_eq f enc dt now s) as (l2 & r & -> & _).
  - destruct (d_phase s); try done. by injection Hs as <-.
  - destruct (d_phase s); try done. destruct (try_recv _) as [[f|] c]; injection Hs as <-; [done|].
    intros _. apply has_permit_one.
  - destruct (d_phase s) eqn:E; try done. injection Hs as <-. intros _. cbn. by apply H.
Qed.

Lemma drain_run_died es s s' :
  died_signalled s -> drain_run f64_exp es s = Some s' -> died_signalled s'.
Proof.
  revert s. induction es as [|e es IH]; intros s Hd Hr; cbn in Hr; [by injection Hr as <-|].
  destruct (drain_step f64_exp e s) as [s1|] eqn:Es; [|done]. eauto using drain_step_died.
Qed.

(** C23: the drain task of a fresh link never reorders, duplicates or invents frames: at
    every moment the accepted frames are, in order, those written whole (whose
    encodings are the bytes on the socket), at most one whose write failed, those
    reported in [lost_frames], the one being written and those still queued; nothing
    is reported lost while the loop runs, and once it has ended for good
    [writer_died] holds a permit, so the read loop is released. *)
Theorem drain_conservation l es s :
  lost_frames l = [] -> queued (tx l) = [] -> is_closed (tx l) = false ->
  drain_run f64_exp es (drain_init l) = Some s ->
  h_sent s = h_written s ++ h_failed s ++ lost_frames (d_link s) ++
             in_flight (d_phase s) ++ backlog s /\
  (length (h_failed s) <= 1)%nat /\
  (in_loop (d_phase s) = true -> h_failed s = [] /\ lost_frames (d_link s) = []) /\
  (exists encs, Forall2 (fun f e => encode_into f [] = Ok e) (h_written s) encs /\
     d_wire s = concat encs) /\
  (writer_ended (d_phase s) = true -> has_permit (writer_died (d_link s)) = true).
Proof.
  intros Hl Hq Ho Hr. assert (died_signalled s) as Hd by (eapply drain_run_died; [|exact Hr]; done).
  by destruct (drain_run_inv _ _ _ (drain_init_inv l Hl Hq Ho) Hr).
Qed.
End drain_facts.

(** ** Concrete pools and runs *)
#[local] Existing Instance RefTokio.
#[local] Existing Instance RefBufMut.

Definition demo_frame (seq : Z) : Frame := frame_data 7 seq [Byte.x61].
Definition with_chan (c : ref_chan Frame) : TunnelLink := set_tx c (new_link 0).

(** Three live links: a receiver that is gone, a full queue, and room. *)
Definition demo_pool : TunnelPool :=
  mkTunnelPool
    (<[1%nat := with_chan (RefChan [] 128 true)]>
      (<[2%nat := with_chan (RefChan [demo_frame 1] 1 false)]>
        (<[3%nat := with_chan (RefChan [] 128 false)]> ∅)))
    [1; 2; 3]%nat (2 ^ 64 - 1).

Lemma demo_pool_wf : pool_wf demo_pool.
Proof.
  split.
  - apply (bool_decide_unpack _). vm_compute. exact I.
  - intros i Hi. cbn in Hi. repeat (apply elem_of_cons in Hi as [->|Hi]; [by eexists|]).
    by apply elem_of_nil in Hi.
  - by cbn.
Qed.

Lemma send_spec_witness :
  pool_wf demo_pool /\ (send (demo_frame 2) demo_pool).1 = true /\
  (send (demo_frame 2) demo_pool).1 = existsb (accepts (arcs demo_pool)) (links demo_pool).
Proof.
  split; [apply demo_pool_wf|]. split; [vm_compute; reflexivity|].
  apply (send_spec (demo_frame 2) demo_pool _ (send (demo_frame 2) demo_pool).2);
    [apply demo_pool_wf|by destruct (send _ _)].
Defined.

Lemma send_async_delivers_witness :
  pool_wf demo_pool /\
  exists r p', send_async 4 (demo_frame 2) [] demo_pool = (Some r, p') /\
    async_result (demo_frame 2) demo_pool r p' /\ r = AsyncSent.
Proof.
  split; [apply demo_pool_wf|].
  destruct (send_async_delivers 4 (demo_frame 2) demo_pool demo_pool_wf) as (r & p' & E & H & Hs).
  - cbn. lia.
  - exists r, p'. split; [exact E|]. split; [exact H|]. apply Hs. vm_compute. reflexivity.
Defined.

Lemma sweep_idle_spec_witness :
  pool_wf demo_pool /\ exists n p', sweep_idle 700000 LINK_IDLE_TIMEOUT_MS demo_pool = (n, p') /\
    n = 3 /\ links (compact p') = [] /\ links p' = links demo_pool.
Proof.
  split; [apply demo_pool_wf|].
  destruct (sweep_idle 700000 LINK_IDLE_TIMEOUT_MS demo_pool) as [n p'] eqn:E.
  exists n, p'. split; [done|].
  destruct (sweep_idle_spec 700000 LINK_IDLE_TIMEOUT_MS demo_pool n p' demo_pool_wf)
    as (H1 & _ & H3 & _ & H5); [done|exact E|].
  split_and!; [rewrite H3; vm_compute; reflexivity|rewrite H5; vm_compute; reflexivity|exact H1].
Defined.



(** One frame written, then a failed write with one frame queued behind it and one
    more accepted while the socket shuts down. *)
Definition failing_run : list drain_event :=
  [EvSend (demo_frame 1); EvSend (demo_frame 2); EvSend (demo_frame 3);
   EvRecv; EvWritten f64_one 5; EvRecv; EvWriteFailed; EvFlush; EvFlush;
   EvSend (demo_frame 4); EvReturn].

Lemma drain_conservation_witness :
  exists s, drain_run (fun x => x) failing_run (drain_init (new_link 0)) = Some s /\
    h_sent s = map demo_frame [1; 2; 3; 4] /\
    h_sent s = h_written s ++ h_failed s ++ lost_frames (d_link s) ++
                 in_flight (d_phase s) ++ backlog s.
Proof.
  destruct (drain_run (fun x => x) failing_run (drain_init (new_link 0))) as [s|] eqn:E;
    [|vm_compute in E; discriminate].
  exists s. split; [reflexivity|]. split.
  - vm_compute in E. injection E as <-. reflexivity.
  - apply (drain_conservation (fun x => x) (new_link 0) failing_run s);
      [reflexivity|reflexivity|reflexivity|exact E].
Defined.

(** D1 recovery does not see every undelivered frame.  A frame whose write fails or
    stalls is dropped without being pushed to [lost_frames], and a frame accepted
    between the last [try_recv] and the return of the task is dropped with the
    receiver: here frames 2 and 4 of four accepted frames are neither on the wire nor
    reported, only frame 3 is. *)
Theorem drain_loses_in_flight :
  exists s, drain_run (fun x => x) failing_run (drain_init (new_link 0)) = Some s /\
    d_phase s = Returned /\
    h_sent s = map demo_frame [1; 2; 3; 4] /\ h_written s = [demo_frame 1] /\
    encode_into (demo_frame 1) [] = Ok (d_wire s) /\
    lost_frames (d_link s) = [demo_frame 3] /\
    h_failed s = [demo_frame 2] /\ h_stranded s = [demo_frame 4].
Proof. eexists. split; [vm_compute; reflexivity|]. vm_compute. repeat split. Qed.
