(* ===== verification/Wire.v ===== *)
(** * One tunnel connection, from the channel of the link to the frames at its other end

    Puts together the drain task of [src/src/tunnel.rs], the socket it writes to, and the
    decoder of the read loop at the other end ([FrameDecoder::try_next] of
    [src/src/frame.rs]).  The socket is a byte stream: a read returns some of the bytes
    that were given to [write_all] and not read yet, also bytes of a frame that is still
    being written or whose write fails later. *)
From Stdlib Require Import ZArith Lia.
From Stdlib Require Import Strings.Byte.
From stdpp Require Import base numbers list option fin_maps gmap.
From S2P Require Import Prelude Runtime Frames Tunnel.
Local Open Scope Z_scope.

(** ** Frames in a byte stream *)

(** The encodings are a prefix code. *)
Lemma frame_bytes_prefix fs gs x y :
  Forall frame_ok fs -> Forall frame_ok gs ->
  concat (map frame_bytes fs) ++ x = concat (map frame_bytes gs) ++ y ->
  (length y < 15)%nat \/ y = [] -> fs `prefix_of` gs.
Proof.
  intros Hf. revert gs. induction Hf as [|f fs Hf Hfs IH]; intros gs Hg E Hy; [apply prefix_nil|].
  destruct Hg as [|g gs Hg Hgs]; cbn [map concat] in E.
  - apply (f_equal length) in E. rewrite !length_app, length_frame_bytes in E. cbn [length] in E.
    destruct Hy as [?| ->]; cbn in E; lia.
  - rewrite <- !app_assoc in E. pose proof (parse_frame_bytes f (concat (map frame_bytes fs) ++ x) Hf) as P.
    rewrite E, parse_frame_bytes in P by done. injection P as -> E'.
    apply prefix_cons, IH; done.
Qed.

Lemma encode_ok_bytes {B : BufMut} {BL : BufMutLaws B} f enc :
  frame_typed f -> encode_into f [] = Ok enc -> frame_ok f /\ enc = frame_bytes f.
Proof.
  intros Ht. rewrite encode_into_spec. case_match; [done|]. intros [= <-]. zbool. split; [by split|done].
Qed.

Section wire.
Context {T : Tokio} {B : BufMut} (f64_exp : f64 -> f64).

(** [wi_part]: the encoded frame given to [write_all] last, if that call did not
    succeed; [wi_taken]: how many bytes were read; [wi_buf]: the buffer of the decoder;
    [wi_frames]: the frames it returned. *)
Record Wire : Type := mkWire {
  wi_drain : DrainState;
  wi_part : bytes;
  wi_taken : nat;
  wi_buf : bytes;
  wi_frames : list Frame;
}.

Definition wire_init (l : TunnelLink) : Wire := mkWire (drain_init l) [] 0 [] [].

(** The bytes the other end can read. *)
Definition wi_bytes (w : Wire) : bytes := d_wire (wi_drain w) ++ wi_part w.

(** After a step of the drain task. *)
Definition wi_with_drain (d : DrainState) (w : Wire) : Wire :=
  mkWire d (match d_phase d with Writing _ enc => enc | Running => [] | _ => wi_part w end)
    (wi_taken w) (wi_buf w) (wi_frames w).

(** One call of [try_next] at the other end that awaits at most one read: the read, if it
    needs one, returns up to [n] bytes. *)
Definition wire_read (n : nat) (w : Wire) : next_outcome * Wire :=
  let bs := take n (drop (wi_taken w) (wi_bytes w)) in
  match try_next (wi_buf w) (if decide (bs = []) then [] else [ReadOk bs]) with
  | (o, buf, reads) =>
    (o, mkWire (wi_drain w) (wi_part w)
          (if decide (reads = []) then wi_taken w + length bs else wi_taken w)%nat buf
          (wi_frames w ++ match o with NextFrame f => [f] | _ => [] end))
  end.

Inductive wire_event : Type :=
| WiDrain (e : drain_event)
| WiRead (n : nat).

Definition wire_step (e : wire_event) (w : Wire) : option Wire :=
  match e with
  | WiDrain e =>
    match drain_step f64_exp e (wi_drain w) with Some d => Some (wi_with_drain d w) | None => None end
  | WiRead n => Some (wire_read n w).2
  end.

Fixpoint wire_run (es : list wire_event) (w : Wire) : option Wire :=
  match es with
  | [] => Some w
  | e :: es' => match wire_step e w with Some w' => wire_run es' w' | None => None end
  end.

(** The link changed by other tasks, which queued more frames or set its flags. *)
Definition drain_sync (l : TunnelLink) (d : DrainState) : DrainState :=
  mkDrainState l (d_phase d) (d_rate d) (d_wire d)
    (h_sent d ++ drop (length (queued (tx (d_link d)))) (queued (tx l)))
    (h_written d) (h_failed d) (h_stranded d).
Definition wire_sync (l : TunnelLink) (w : Wire) : Wire :=
  mkWire (drain_sync l (wi_drain w)) (wi_part w) (wi_taken w) (wi_buf w) (wi_frames w).
End wire.

(** ** Invariant *)
Section wire_facts.
Context {T : Tokio} {TL : TokioLaws T} {B : BufMut} {BL : BufMutLaws B} (f64_exp : f64 -> f64).

(** What is on the socket: the frames written, then the whole encoding of at most one
    more, which was accepted after them. *)
Definition part_ok (d : DrainState) (part : bytes) : Prop :=
  match d_phase d with
  | Running => part = []
  | Writing _ enc => part = enc
  | _ => part = [] \/ exists f, encode_into f [] = Ok part /\ h_written d ++ [f] `prefix_of` h_sent d
  end.

Record wire_inv (w : Wire) : Prop := {
  wv_drain : drain_inv (wi_drain w);
  wv_typed : Forall frame_typed (h_sent (wi_drain w));
  wv_part : part_ok (wi_drain w) (wi_part w);
  wv_taken : (wi_taken w <= length (wi_bytes w))%nat;
  wv_read : take (wi_taken w) (wi_bytes w) = concat (map frame_bytes (wi_frames w)) ++ wi_buf w;
  wv_frames : Forall frame_ok (wi_frames w);
}.

Lemma wire_init_inv l :
  lost_frames l = [] -> queued (tx l) = [] -> is_closed (tx l) = false -> wire_inv (wire_init l).
Proof. intros. split; cbn; try done. by apply drain_init_inv. Qed.

(** The frame that follows the written ones, when its bytes are on the socket. *)
Lemma part_frame d part :
  drain_inv d -> part_ok d part ->
  part = [] \/ exists f, encode_into f [] = Ok part /\ h_written d ++ [f] `prefix_of` h_sent d.
Proof.
  intros HI Hp. unfold part_ok in Hp. destruct (d_phase d) as [|f enc| | |] eqn:E; auto. subst part. right.
  pose proof (di_enc _ HI) as He. rewrite E in He. exists f. split; [done|].
  pose proof (di_sent _ HI) as Hs. destruct (di_loop _ HI) as [Hf Hl]; [by rewrite E|].
  rewrite Hs, Hf, Hl, E. cbn. eexists. by rewrite <- app_assoc.
Qed.

Lemma encs_concat fs encs :
  Forall frame_typed fs -> Forall2 (fun f e => encode_into f [] = Ok e) fs encs ->
  Forall frame_ok fs /\ concat encs = concat (map frame_bytes fs).
Proof.
  intros Ht H. induction H as [|f e fs encs H H2 IH]; [done|]. apply Forall_cons_1 in Ht as [Ht1 Ht].
  destruct (encode_ok_bytes f e Ht1 H) as [Hok ->], (IH Ht) as [IH1 IH2]. cbn. split; [by constructor|congruence].
Qed.

(** The bytes on the socket are whole encodings of the first accepted frames. *)
Lemma wi_bytes_frames w :
  wire_inv w -> exists fs, fs `prefix_of` h_sent (wi_drain w) /\ Forall frame_ok fs /\
    wi_bytes w = concat (map frame_bytes fs) /\ (wi_part w = [] -> fs = h_written (wi_drain w)).
Proof.
  intros [HI Ht Hp _ _ _]. unfold wi_bytes. destruct (di_wire _ HI) as (encs & He & ->).
  assert (h_written (wi_drain w) `prefix_of` h_sent (wi_drain w)) as Hw by (rewrite (di_sent _ HI); by eexists).
  destruct Hw as [rest Hw]. pose proof Ht as Ht'. rewrite Hw in Ht'. apply Forall_app in Ht' as [Htw _].
  destruct (encs_concat _ _ Htw He) as [Hok Hc]. rewrite Hc.
  destruct (part_frame _ _ HI Hp) as [->|(f & Hf & Hpre)].
  - exists (h_written (wi_drain w)). rewrite app_nil_r. split; [by eexists|done].
  - assert (frame_typed f) as Htf.
    { destruct Hpre as [k Hk]. rewrite Hk in Ht. apply Forall_app in Ht as [Ht _].
      apply Forall_app in Ht as [_ Ht]. by apply Forall_cons_1 in Ht as [? _]. }
    destruct (encode_ok_bytes f _ Htf Hf) as [Hokf Ep]. exists (h_written (wi_drain w) ++ [f]). split_and!; [done| | |].
    + apply Forall_app. split; [done|by constructor].
    + rewrite map_app, concat_app. cbn. by rewrite app_nil_r, Ep.
    + intros E. rewrite Ep in E. apply (f_equal length) in E. rewrite length_frame_bytes in E. cbn in E. lia.
Qed.

(** The frames decoded are the first ones accepted. *)
Lemma wi_frames_prefix w : wire_inv w -> wi_frames w `prefix_of` h_sent (wi_drain w).
Proof.
  intros HI. destruct (wi_bytes_frames w HI) as (fs & Hfs & Hok & Hb & _). etrans; [|exact Hfs].
  apply (frame_bytes_prefix (wi_frames w) fs (wi_buf w ++ drop (wi_taken w) (wi_bytes w)) []);
    [apply HI|done| |by right].
  rewrite app_assoc, <- (wv_read _ HI), take_drop, app_nil_r. exact Hb.
Qed.

(** *** The sender's side *)

(** The bytes on the socket only grow. *)
Lemma drain_bytes_grow e w d :
  wire_inv w -> drain_step f64_exp e (wi_drain w) = Some d ->
  part_ok d (wi_part (wi_with_drain d w)) /\ wi_bytes w `prefix_of` wi_bytes (wi_with_drain d w).
Proof.
  intros [HI _ Hp _ _ _] Hs. unfold wi_bytes, part_ok, wi_with_drain in *. cbn [wi_drain wi_part].
  unfold drain_step in Hs. destruct e as [f| | | |dt now| | |].
  - destruct (try_send f _) as [r c]. injection Hs as <-. cbn. destruct (d_phase (wi_drain w)); [by rewrite Hp|by rewrite Hp|..].
    all: split; [|done]; destruct Hp as [?|(g & ? & Hg)]; [by left|right].
    all: exists g; split; [done|]; etrans; [exact Hg|by eexists].
  - injection Hs as <-. cbn. by destruct (d_phase (wi_drain w)); [rewrite Hp|rewrite Hp|..].
  - pose proof (part_frame _ (wi_part w) HI) as Hf. unfold part_ok in Hf.
    destruct (d_phase (wi_drain w)) as [|f enc| | |]; try done;
      (destruct (has_permit _); [|done]; injection Hs as <-; cbn; split; [by apply Hf|done]).
  - destruct (d_phase (wi_drain w)); try done. rewrite Hp.
    destruct (try_recv _) as [[f|] c]; [|done]. destruct (encode_into f []); injection Hs as <-; cbn.
    + split; [done|]. rewrite app_nil_r. by eexists.
    + split; [by left|done].
  - destruct (d_phase (wi_drain w)) as [|f enc| | |]; try done. injection Hs as <-. rewrite Hp.
    destruct (drain_written_eq f64_exp f enc dt now (wi_drain w)) as (l2 & r & -> & _). cbn.
    split; [done|]. by rewrite app_nil_r.
  - pose proof (part_frame _ (wi_part w) HI) as Hf. unfold part_ok in Hf.
    destruct (d_phase (wi_drain w)) as [|f enc| | |]; try done. injection Hs as <-. cbn. split; [by apply Hf|done].
  - destruct (d_phase (wi_drain w)); try done. by destruct (try_recv _) as [[f|] c]; injection Hs as <-.
  - destruct (d_phase (wi_drain w)); try done. by injection Hs as <-.
Qed.

Lemma wire_grow w d part :
  wire_inv w -> drain_inv d -> Forall frame_typed (h_sent d) -> part_ok d part ->
  wi_bytes w `prefix_of` d_wire d ++ part ->
  wire_inv (mkWire d part (wi_taken w) (wi_buf w) (wi_frames w)).
Proof.
  intros [_ _ _ H4 H5 H6] HI Ht Hp Hb. unfold wi_bytes in Hb |- *. split; try done; unfold wi_bytes in *; cbn in *.
  - apply prefix_length in Hb. lia.
  - destruct Hb as [k ->]. by rewrite take_app_le.
Qed.

(** What a step of the drain task adds to the accepted frames. *)
Definition event_frames (e : drain_event) : list Frame := match e with EvSend f => [f] | _ => [] end.

Lemma drain_step_sent e d d' :
  drain_step f64_exp e d = Some d' ->
  exists fs, h_sent d' = h_sent d ++ fs /\ (fs = [] \/ fs = event_frames e).
Proof.
  intros Hs. unfold drain_step in Hs. destruct e as [f| | | |dt now| | |]; cbn [event_frames].
  - destruct (try_send f _) as [r c]. injection Hs as <-. cbn. eexists. split; [done|]. destruct r; auto.
  - injection Hs as <-. exists []. cbn. rewrite app_nil_r. auto.
  - exists []. rewrite app_nil_r. split; [|by left].
    destruct (d_phase d); try done; by destruct (has_permit _); [|done]; injection Hs as <-.
  - exists []. rewrite app_nil_r. split; [|by left].
    destruct (d_phase d); try done. destruct (try_recv _) as [[f|] c]; [|done].
    by destruct (encode_into f []); injection Hs as <-.
  - exists []. rewrite app_nil_r. split; [|by left]. destruct (d_phase d); try done. injection Hs as <-.
    by destruct (drain_written_eq f64_exp f enc dt now d) as (l2 & r & -> & _).
  - exists []. rewrite app_nil_r. split; [|by left]. destruct (d_phase d); try done. by injection Hs as <-.
  - exists []. rewrite app_nil_r. split; [|by left]. destruct (d_phase d); try done.
    by destruct (try_recv _) as [[f|] c]; injection Hs as <-.
  - exists []. rewrite app_nil_r. split; [|by left]. destruct (d_phase d); try done. by injection Hs as <-.
Qed.

Lemma wire_drain_inv e w d :
  wire_inv w -> Forall frame_typed (event_frames e) -> drain_step f64_exp e (wi_drain w) = Some d ->
  wire_inv (wi_with_drain d w).
Proof.
  intros HI He Hs. destruct (drain_bytes_grow e w d HI Hs) as [Hp Hb]. apply wire_grow; try done.
  - eapply drain_step_inv; [apply HI|exact Hs].
  - destruct (drain_step_sent e _ _ Hs) as (fs & -> & Hfs). apply Forall_app. split; [apply HI|].
    destruct Hfs as [-> | ->]; done.
Qed.

(** *** The receiver's side *)
Lemma try_next_one buf bs o buf' reads :
  try_next buf (if decide (bs = []) then [] else [ReadOk bs]) = (o, buf', reads) ->
  let got := if decide (reads = []) then bs else [] in
  match o with
  | NextFrame f => frame_ok f /\ buf ++ got = frame_bytes f ++ buf'
  | NextPending => buf' = buf ++ got /\ parse_frame buf' = None
  | _ => False
  end.
Proof.
  case_decide as Hbs; cbn [try_next].
  - subst. destruct (parse_frame buf) as [[[f r]|e]|] eqn:E; intros H.
    + injection H as <- <- <-. cbn. rewrite app_nil_r. by apply parse_frame_iff.
    + by destruct (parse_frame_no_err buf e).
    + rewrite (parse_frame_has_space _ E) in H. injection H as <- <- <-. cbn. by rewrite app_nil_r.
  - destruct (parse_frame buf) as [[[f r]|e]|] eqn:E; intros H.
    + injection H as <- <- <-. cbn. rewrite app_nil_r. by apply parse_frame_iff.
    + by destruct (parse_frame_no_err buf e).
    + rewrite (parse_frame_has_space _ E) in H. destruct (Z.eqb_spec (zlen bs) 0) as [E0|_]; [by apply zlen_0_nil in E0|].
      destruct (parse_frame (buf ++ bs)) as [[[f r]|e]|] eqn:E2.
      * injection H as <- <- <-. cbn. by apply parse_frame_iff.
      * by destruct (parse_frame_no_err (buf ++ bs) e).
      * rewrite (parse_frame_has_space _ E2) in H. by injection H as <- <- <-.
Qed.

Lemma take_more {A} n m (l : list A) : take n l ++ take m (drop n l) = take (n + m) l.
Proof. revert l. induction n as [|n IH]; intros [|x l]; cbn; rewrite ?take_nil; [done..|]. by rewrite IH. Qed.

Lemma wire_read_inv n w : wire_inv w -> wire_inv (wire_read n w).2.
Proof.
  intros [H1 H2 H3 H4 H5 H6]. unfold wire_read. set (bs := take n (drop (wi_taken w) (wi_bytes w))).
  destruct (try_next (wi_buf w) _) as [[o buf] reads] eqn:E. apply try_next_one in E. cbn zeta in E.
  assert (length bs <= length (wi_bytes w) - wi_taken w)%nat as Hl.
  { unfold bs. rewrite length_take, length_drop. lia. }
  assert (take (if decide (reads = []) then wi_taken w + length bs else wi_taken w)%nat (wi_bytes w) =
          take (wi_taken w) (wi_bytes w) ++ (if decide (reads = []) then bs else [])) as Ht.
  { case_decide; [|by rewrite app_nil_r]. rewrite <- take_more. f_equal. unfold bs.
    rewrite length_take, <- take_take. f_equal. rewrite firstn_all2; [done|lia]. }
  cbn [snd]. split; cbn [wi_drain wi_part wi_taken wi_buf wi_frames]; try done.
  - change (wi_bytes (mkWire _ _ _ _ _)) with (wi_bytes w). case_decide; lia.
  - change (wi_bytes (mkWire _ _ _ _ _)) with (wi_bytes w). rewrite Ht, H5, <- app_assoc.
    destruct o as [f| |e|]; try done.
    + destruct E as [_ ->]. rewrite map_app, concat_app. cbn. by rewrite app_nil_r, <- app_assoc.
    + destruct E as [-> _]. by rewrite app_nil_r.
  - apply Forall_app. split; [done|]. destruct o as [f| |e|]; [|done|done|constructor].
    constructor; [apply E|constructor].
Qed.

(** *** Changes of the link by others *)
Lemma drain_sync_sent l d fs :
  queued (tx l) = queued (tx (d_link d)) ++ fs -> h_sent (drain_sync l d) = h_sent d ++ fs.
Proof. intros Hq. unfold drain_sync. cbn. by rewrite Hq, drop_app_length. Qed.

Lemma drain_sync_inv l d fs :
  drain_inv d -> queued (tx l) = queued (tx (d_link d)) ++ fs -> (is_closed (tx (d_link d)) = true -> fs = []) ->
  is_closed (tx l) = is_closed (tx (d_link d)) -> lost_frames l = lost_frames (d_link d) ->
  drain_inv (drain_sync l d).
Proof.
  intros [H1 H2 H3 H4 H5 H6] Hq Hc Ec El. pose proof (drain_sync_sent l d fs Hq) as Hs.
  split; rewrite ?Hs; unfold backlog in *; cbn; rewrite ?El, ?Ec, ?Hq; try done.
  rewrite H1. destruct (d_phase d); rewrite <- ?app_assoc; try done.
  rewrite (Hc H4), app_nil_r. done.
Qed.

Lemma wire_sync_inv l w fs :
  wire_inv w -> queued (tx l) = queued (tx (d_link (wi_drain w))) ++ fs -> Forall frame_typed fs ->
  (is_closed (tx (d_link (wi_drain w))) = true -> fs = []) ->
  is_closed (tx l) = is_closed (tx (d_link (wi_drain w))) ->
  lost_frames l = lost_frames (d_link (wi_drain w)) -> wire_inv (wire_sync l w).
Proof.
  intros HI Hq Ht Hc Ec El. pose proof (drain_sync_sent _ _ _ Hq) as Hs. apply wire_grow; try done.
  - by eapply drain_sync_inv; [apply HI|..].
  - rewrite Hs. apply Forall_app. split; [apply HI|done].
  - pose proof (wv_part _ HI) as Hp. unfold part_ok in *. rewrite Hs. cbn.
    destruct (d_phase (wi_drain w)); try done;
      (destruct Hp as [?|(g & ? & Hg)]; [by left|right]; exists g; split; [done|]; etrans; [exact Hg|by eexists]).
Qed.

(** ** Properties *)
Definition wire_event_frames (e : wire_event) : list Frame :=
  match e with WiDrain e => event_frames e | WiRead _ => [] end.

Lemma wire_run_inv es w w' :
  Forall (fun e => Forall frame_typed (wire_event_frames e)) es -> wire_inv w ->
  wire_run f64_exp es w = Some w' -> wire_inv w'.
Proof.
  intros Hes. revert w. induction Hes as [|e es He Hes IH]; intros w HI Hr; cbn in Hr; [by injection Hr as <-|].
  destruct (wire_step f64_exp e w) as [w1|] eqn:Es; [|done]. apply (IH w1); [|done].
  destruct e as [e|n]; cbn in Es; [|injection Es as <-; by apply wire_read_inv].
  destruct (drain_step f64_exp e (wi_drain w)) as [d|] eqn:Ed; [|done]. injection Es as <-.
  by eapply wire_drain_inv.
Qed.

(** When nothing is on its way any more, all was decoded. *)
Lemma wire_all_read w :
  wire_inv w -> d_phase (wi_drain w) = Running -> queued (tx (d_link (wi_drain w))) = [] ->
  wi_taken w = length (wi_bytes w) -> parse_frame (wi_buf w) = None ->
  wi_frames w = h_sent (wi_drain w) /\ wi_buf w = [].
Proof.
  intros HI Hp Hq Ht Hb. destruct (wi_bytes_frames w HI) as (fs & Hfs & Hok & Hbytes & Hw).
  pose proof (wv_part _ HI) as Hpart. unfold part_ok in Hpart. rewrite Hp in Hpart. specialize (Hw Hpart). subst fs.
  pose proof (di_sent _ (wv_drain _ HI)) as Hs. destruct (di_loop _ (wv_drain _ HI)) as [Hf Hl]; [by rewrite Hp|].
  rewrite Hf, Hl in Hs. unfold backlog in Hs. rewrite Hp in Hs. cbn in Hs. rewrite Hq, app_nil_r in Hs.
  destruct (wi_frames_prefix w HI) as [rest Hr]. rewrite Hs in Hr.
  pose proof (wv_read _ HI) as R. rewrite Ht, Hbytes, firstn_all, Hr, map_app, concat_app in R.
  apply app_inv_head in R. rewrite Hs, Hr. destruct rest as [|f rest]; [by rewrite app_nil_r|]. exfalso.
  rewrite Hr in Hok. apply Forall_app in Hok as [_ Hok]. apply Forall_cons_1 in Hok as [Hok _].
  cbn [map concat] in R. rewrite <- R, parse_frame_bytes in Hb; done.
Qed.

End wire_facts.

(** ** Witness *)
#[local] Existing Instance RefTokio.
#[local] Existing Instance RefBufMut.

(** Two frames; the first is read in three pieces, the last with the start of the second,
    whose bytes are read before the write of it completes. *)
Definition demo_wire_run : list wire_event :=
  [WiDrain (EvSend (demo_frame 1)); WiRead 9; WiDrain EvRecv; WiRead 7; WiDrain (EvSend (demo_frame 2)); WiRead 4;
   WiDrain (EvWritten f64_one 3); WiDrain EvRecv; WiRead 10; WiRead 20; WiRead 20; WiDrain (EvWritten f64_one 4)].

