(* ===== verification/PoolSends.v ===== *)
(** * What an operation puts into the tunnels

    [pool_gets P p p'] says that from [p] to [p'] every link of the store kept what it
    had queued and got only frames that satisfy [P], at the end of its queue.  It holds of
    every operation of [TunnelPool]. *)
From Stdlib Require Import ZArith Lia.
From Stdlib Require Import Strings.Byte.
From stdpp Require Import base numbers list option fin_maps gmap.
From S2P Require Import Prelude Runtime Frames Tunnel.
Local Open Scope Z_scope.

(** A [u32]. *)
Definition is_u32 (c : Z) : Prop := 0 <= c < 2 ^ 32.

(** [P] holds of the resets. *)
Definition allows_resets (P : Frame -> Prop) : Prop := forall c, is_u32 c -> P (frame_rst c).

(** The frames that clients and targets are behind. *)
Definition carries (f : Frame) : bool := has_flag f FLAG_SYN || (has_flag f FLAG_DATA || has_flag f FLAG_FIN).

(** Typed frames, whose SYN, DATA and FIN satisfy [own]. *)
Definition vouched (own : Frame -> Prop) (f : Frame) : Prop :=
  frame_typed f /\ (carries f = true -> own f).

Lemma vouched_resets own : allows_resets (vouched own).
Proof. intros c Hc. split; [by split|done]. Qed.

Lemma vouched_typed own f : vouched own f -> frame_typed f.
Proof. by intros [H _]. Qed.

Lemma vouched_u32 own f : vouched own f -> is_u32 (conn_id f).
Proof. intros [(H & _) _]. exact H. Qed.

Lemma vouched_mono (P Q : Frame -> Prop) f : (P f -> Q f) -> vouched P f -> vouched Q f.
Proof. intros H [Ht Ho]. split; auto. Qed.

Section pool_sends.
Context {T : Tokio} {TL : TokioLaws T}.

(** One link: [fs] more frames are queued, and what the drain task owns is untouched. *)
Record link_gets (P : Frame -> Prop) (l l' : TunnelLink) : Prop := {
  lg_queue : exists fs, queued (tx l') = queued (tx l) ++ fs /\ Forall P fs /\
               (is_closed (tx l) = true -> fs = []);
  lg_closed : is_closed (tx l') = is_closed (tx l);
  lg_lost : lost_frames l' = lost_frames l;
}.

Definition arcs_get (P : Frame -> Prop) (a a' : gmap nat TunnelLink) : Prop :=
  forall i, option_Forall2 (link_gets P) (a !! i) (a' !! i).

Definition pool_gets (P : Frame -> Prop) (p p' : TunnelPool) : Prop := arcs_get P (arcs p) (arcs p').

#[export] Instance link_gets_preorder P : PreOrder (link_gets P).
Proof.
  split.
  - intros l. split; try done. exists []. by rewrite app_nil_r.
  - intros l1 l2 l3 [(f1 & Q1 & P1 & C1) A1 B1] [(f2 & Q2 & P2 & C2) A2 B2]. split; [|congruence..].
    exists (f1 ++ f2). split_and!.
    + by rewrite Q2, Q1, app_assoc.
    + by apply Forall_app.
    + intros Hc. rewrite C1, C2 by congruence. done.
Qed.

#[export] Instance arcs_get_preorder P : PreOrder (arcs_get P).
Proof.
  split.
  - intros a i. destruct (a !! i); by constructor.
  - intros a1 a2 a3 H1 H2 i. specialize (H1 i). specialize (H2 i).
    destruct H1 as [l1 l2 G1|]; inversion H2; subst; constructor. by etrans.
Qed.

#[export] Instance pool_gets_preorder P : PreOrder (pool_gets P).
Proof. split; [intros p; by unfold pool_gets|intros p1 p2 p3 H1 H2; unfold pool_gets in *; by etrans]. Qed.

Lemma link_gets_mono (P Q : Frame -> Prop) l l' :
  (forall f, P f -> Q f) -> link_gets P l l' -> link_gets Q l l'.
Proof.
  intros H [(fs & Q1 & F1 & C1) A1 B1]. split; [|done..]. exists fs. split_and!; [done| |done].
  by eapply Forall_impl.
Qed.

Lemma pool_gets_mono (P Q : Frame -> Prop) p p' :
  (forall f, P f -> Q f) -> pool_gets P p p' -> pool_gets Q p p'.
Proof.
  intros H G i. specialize (G i). destruct G; constructor. by eapply link_gets_mono.
Qed.

Lemma pool_gets_arcs P p p' : arcs p' = arcs p -> pool_gets P p p'.
Proof. intros H. unfold pool_gets. by rewrite H. Qed.

(** One link changed. *)
Lemma arcs_get_insert P a i l l' :
  a !! i = Some l -> link_gets P l l' -> arcs_get P a (<[i := l']> a).
Proof.
  intros Hl Hg j. destruct (decide (j = i)) as [->|Hj].
  - rewrite Hl, lookup_insert_eq. by constructor.
  - rewrite lookup_insert_ne by done. destruct (a !! j); by constructor.
Qed.

(** A [try_send] on a link, whatever it does to the flag. *)
Lemma link_gets_try (P : Frame -> Prop) f l r c b :
  P f -> try_send f (tx l) = (r, c) -> link_gets P l (set_alive b (set_tx c l)).
Proof.
  intros Hf E. split; try done; cbn.
  - destruct (try_send_cases f (tx l)) as [[Hc E1]|[(Hc & _ & E1)|(Hc & _ & c' & E1 & Q & Hc' & _)]];
      rewrite E in E1; injection E1 as -> ->.
    + exists []. by rewrite app_nil_r.
    + exists []. by rewrite app_nil_r.
    + exists [f]. split_and!; [done|by constructor|congruence].
  - destruct (try_send_cases f (tx l)) as [[Hc E1]|[(Hc & _ & E1)|(Hc & _ & c' & E1 & Q & Hc' & _)]];
      rewrite E in E1; injection E1 as -> ->; congruence.
Qed.

Lemma link_gets_tx (P : Frame -> Prop) f l r c :
  P f -> try_send f (tx l) = (r, c) -> link_gets P l (set_tx c l).
Proof. intros Hf E. destruct (link_gets_try P f l r c (alive l) Hf E). by split. Qed.

Lemma link_gets_same P l l' :
  tx l' = tx l -> lost_frames l' = lost_frames l -> link_gets P l l'.
Proof. intros E1 E2. split; rewrite ?E1; try done. exists []. by rewrite app_nil_r. Qed.

(** A call that did not send put nothing into a link. *)
Lemma send_loop_gets (P : Frame -> Prop) f ids a :
  ((send_loop f ids a).1 = true -> P f) -> arcs_get P a (send_loop f ids a).2.
Proof.
  revert a. induction ids as [|j ids IH]; intros a; cbn [send_loop]; [done|].
  destruct (a !! j) as [l|] eqn:Hl; [|apply IH]. destruct (alive l); [|apply IH].
  destruct (try_send f (tx l)) as [[[]|] c] eqn:E; cbn [snd fst]; intros Hf.
  - etrans; [|by apply IH]. apply try_send_err in E as ->. by apply (arcs_get_insert P a j l), link_gets_same.
  - etrans; [|by apply IH]. apply try_send_err in E as ->. by apply (arcs_get_insert P a j l), link_gets_same.
  - apply (arcs_get_insert P a j l); [done|]. by eapply link_gets_tx; [apply Hf|].
Qed.

Lemma send_gets_if (P : Frame -> Prop) f p : ((send f p).1 = true -> P f) -> pool_gets P p (send f p).2.
Proof.
  intros Hf. destruct (decide (links p = [])) as [E|E].
  - unfold send. rewrite E. apply pool_gets_arcs. done.
  - rewrite send_nonempty in Hf |- * by done.
    pose proof (send_loop_gets P f (rotation (rr p) (links p)) (arcs p)) as G.
    destruct (send_loop f _ _) as [ok a]. by apply G.
Qed.

Lemma send_gets (P : Frame -> Prop) f p : P f -> pool_gets P p (send f p).2.
Proof. intros Hf. by apply send_gets_if. Qed.

Lemma send_async_pass_gets (P : Frame -> Prop) f full p :
  P f -> pool_gets P p (send_async_pass f full p).2.
Proof.
  intros Hf. unfold send_async_pass.
  destruct (weighted_pick_cases full p) as [[_ ->]|(i & _ & ->)].
  - destruct (alive_links p); done.
  - cbn [arcs links rr]. destruct (arcs p !! i) as [l|] eqn:Hl; [|by apply pool_gets_arcs].
    destruct (try_send f (tx l)) as [[[]|] c] eqn:E; cbn [snd]; apply (arcs_get_insert P _ i l); try done;
      by eapply link_gets_tx || by eapply link_gets_try.
Qed.

Lemma sweep_links_gets P now_ms limit ids a : arcs_get P a (sweep_links now_ms limit ids a).2.
Proof.
  revert a. induction ids as [|j ids IH]; intros a; cbn [sweep_links]; [done|].
  destruct (a !! j) as [l|] eqn:Hl; [|apply IH]. destruct (sweep_one now_ms limit l) as [s l'] eqn:Es.
  assert (link_gets P l l') as G.
  { unfold sweep_one in Es. destruct (alive l && _); injection Es as <- <-; [by apply link_gets_same|done]. }
  pose proof (IH (<[j := l']> a)) as G2. destruct (sweep_links _ _ ids _) as [n a']. cbn [snd] in *.
  etrans; [by apply (arcs_get_insert P a j l)|exact G2].
Qed.

Lemma sweep_gets P now_ms limit p : pool_gets P p (sweep_idle now_ms limit p).2.
Proof.
  unfold sweep_idle. pose proof (sweep_links_gets P now_ms limit (links p) (arcs p)) as G.
  by destruct (sweep_links _ _ _ _).
Qed.
End pool_sends.
