(* ===== verification/Wires.v ===== *)
(** * The links of a pool with their tunnels

    One side of all tunnel connections: the links of the store [arcs], each with its drain
    task, its socket and the decoder at the other end ([Wire]). *)
From Stdlib Require Import ZArith Lia.
From Stdlib Require Import Strings.Byte.
From stdpp Require Import base numbers list option fin_maps gmap.
From S2P Require Import Prelude Runtime Frames Tunnel Wire PoolSends.
Local Open Scope Z_scope.

Section wires.
Context {T : Tokio} {B : BufMut} (f64_exp : f64 -> f64).

Definition returned (ph : drain_phase) : bool := match ph with Returned => true | _ => false end.

(** The drain task works on the link in the store; once it has returned, the receiver is
    gone and the rest of the link is not its own. *)
Definition sync_wire (l : TunnelLink) (w : Wire) : Wire :=
  if returned (d_phase (wi_drain w)) then w else wire_sync l w.

(** After the links changed; a new link gets its tunnel. *)
Definition sync_wires (a : gmap nat TunnelLink) (ws : gmap nat Wire) : gmap nat Wire :=
  map_imap (fun i l => Some (match ws !! i with Some w => sync_wire l w | None => wire_init l end)) a.

(** The steps of the task itself. *)
Definition own_event (e : drain_event) : bool :=
  match e with EvSend _ | EvNotifyStop => false | _ => true end.

Definition drain_at (i : nat) (e : drain_event) (a : gmap nat TunnelLink) (ws : gmap nat Wire)
  : option (gmap nat TunnelLink * gmap nat Wire) :=
  match ws !! i with
  | None => None
  | Some w =>
    if own_event e then
      match drain_step f64_exp e (wi_drain w) with
      | Some d => Some (<[i := d_link d]> a, <[i := wi_with_drain d w]> ws)
      | None => None
      end
    else None
  end.

(** The read loop at the other end of tunnel [i]. *)
Definition read_at (i n : nat) (ws : gmap nat Wire) : option (next_outcome * gmap nat Wire) :=
  match ws !! i with
  | None => None
  | Some w => Some ((wire_read n w).1, <[i := (wire_read n w).2]> ws)
  end.
End wires.

Section wires_facts.
Context {T : Tokio} {TL : TokioLaws T} {B : BufMut} {BL : BufMutLaws B} (f64_exp : f64 -> f64).

(** A tunnel and its link: all frames it ever took satisfy [P]. *)
Record wire_at (P : Frame -> Prop) (l : TunnelLink) (w : Wire) : Prop := {
  wa_inv : wire_inv w;
  wa_sent : Forall P (h_sent (wi_drain w));
  wa_lost : Forall P (lost_frames l);
  wa_link : if returned (d_phase (wi_drain w)) then is_closed (tx l) = true else d_link (wi_drain w) = l;
}.

Definition wires_ok (P : Frame -> Prop) (a : gmap nat TunnelLink) (ws : gmap nat Wire) : Prop :=
  forall i, option_Forall2 (wire_at P) (a !! i) (ws !! i).

Lemma wires_ok_mono (P Q : Frame -> Prop) a ws :
  (forall f, P f -> Q f) -> wires_ok P a ws -> wires_ok Q a ws.
Proof.
  intros H HW i. specialize (HW i). destruct HW as [l w [W1 W2 W3 W4]|]; constructor.
  split; [done|by eapply Forall_impl..|done].
Qed.

Lemma wire_at_sync (P : Frame -> Prop) l l' w :
  (forall f, P f -> frame_typed f) -> wire_at P l w -> link_gets P l l' -> wire_at P l' (sync_wire l' w).
Proof.
  intros HP [W1 W2 W3 W4] [(fs & Hq & Hf & Hc) Ec El]. unfold sync_wire.
  destruct (returned (d_phase (wi_drain w))) eqn:Er.
  - split; rewrite ?El, ?Ec, ?Er; done.
  - subst l. split.
    + eapply wire_sync_inv; [done|exact Hq| |done..]. by eapply Forall_impl.
    + cbn [wire_sync wi_drain]. rewrite (drain_sync_sent _ _ _ Hq). by apply Forall_app.
    + by rewrite El.
    + cbn. by rewrite Er.
Qed.

(** A link as [TunnelPool::add] gets it. *)
Definition fresh_link (l : TunnelLink) : Prop :=
  lost_frames l = [] /\ queued (tx l) = [] /\ is_closed (tx l) = false.

Lemma wire_at_init P l : fresh_link l -> wire_at P l (wire_init l).
Proof. intros (H1 & H2 & H3). split; cbn; rewrite ?H1; try done. by apply wire_init_inv. Qed.

Lemma new_link_fresh now_ms : fresh_link (new_link now_ms).
Proof. split_and!; [done|apply queued_new|apply is_closed_new]. Qed.

(** What other tasks did to the links: they sent frames, set flags, or added a link. *)
Definition arcs_step (P : Frame -> Prop) (a a' : gmap nat TunnelLink) : Prop :=
  forall i, match a !! i, a' !! i with
            | Some l, Some l' => link_gets P l l'
            | None, Some l' => fresh_link l'
            | None, None => True
            | Some _, None => False
            end.

Lemma arcs_step_gets P a a' : arcs_get P a a' -> arcs_step P a a'.
Proof. intros H i. specialize (H i). by destruct H. Qed.

Lemma arcs_step_add P a i l : a !! i = None -> fresh_link l -> arcs_step P a (<[i := l]> a).
Proof.
  intros Hi Hl j. destruct (decide (j = i)) as [->|Hj].
  - by rewrite Hi, lookup_insert_eq.
  - rewrite lookup_insert_ne by done. by destruct (a !! j).
Qed.

Lemma wires_sync_ok (P : Frame -> Prop) a a' ws :
  (forall f, P f -> frame_typed f) -> wires_ok P a ws -> arcs_step P a a' -> wires_ok P a' (sync_wires a' ws).
Proof.
  intros HP HW HA i. specialize (HW i). specialize (HA i). unfold sync_wires. rewrite map_lookup_imap.
  destruct (a' !! i) as [l'|]; cbn; [|by constructor].
  destruct HW as [l w W|]; constructor; [by eapply wire_at_sync|by apply wire_at_init].
Qed.

(** Only the frames a dead link lost were taken. *)
Lemma wires_ok_taken P a ws i l :
  wires_ok P a ws -> a !! i = Some l -> (forall w, ws !! i = Some w -> returned (d_phase (wi_drain w)) = true) ->
  wires_ok P (<[i := set_lost_frames [] l]> a) ws.
Proof.
  intros HW Hl Hr j. destruct (decide (j = i)) as [->|Hj].
  - specialize (HW i). rewrite lookup_insert_eq. rewrite Hl in HW. inversion HW as [? w [W1 W2 W3 W4] E1 E2|].
    constructor. split; [done..|constructor|]. by rewrite Hr in W4 |- *.
  - by rewrite lookup_insert_ne.
Qed.

Lemma drain_at_ok (P : Frame -> Prop) i e a ws a' ws' :
  wires_ok P a ws -> drain_at f64_exp i e a ws = Some (a', ws') -> wires_ok P a' ws'.
Proof.
  unfold drain_at. intros HW Hs. destruct (ws !! i) as [w|] eqn:Hw; [|done].
  destruct (own_event e) eqn:He; [|done]. destruct (drain_step f64_exp e (wi_drain w)) as [d|] eqn:Ed; [|done].
  injection Hs as <- <-. intros j. pose proof (HW j) as Hj. destruct (decide (j = i)) as [->|Hne].
  - rewrite !lookup_insert_eq. rewrite Hw in Hj. inversion Hj as [l ? [W1 W2 W3 W4] E1|]. subst. constructor.
    assert (event_frames e = []) as Hev by by destruct e.
    assert (h_sent d = h_sent (wi_drain w)) as Hs.
    { destruct (drain_step_sent f64_exp e _ _ Ed) as (fs & -> & Hfs). rewrite Hev in Hfs.
      destruct Hfs as [-> | ->]; by rewrite app_nil_r. }
    assert (wire_inv (wi_with_drain d w)) as HI by (eapply wire_drain_inv; [done|by rewrite Hev|exact Ed]).
    split; [done|by cbn; rewrite Hs| |].
    + pose proof (di_sent _ (wv_drain _ HI)) as Hd. cbn in Hd. rewrite <- Hs, Hd in W2.
      rewrite !Forall_app in W2. apply W2.
    + cbn. destruct (returned (d_phase d)) eqn:Er; [|done]. pose proof (di_open _ (wv_drain _ HI)) as Ho.
      cbn in Ho. rewrite Ho. by destruct (d_phase d).
  - by rewrite !lookup_insert_ne.
Qed.

(** What is decoded was sent. *)
Lemma read_at_ok (P : Frame -> Prop) i n a ws o ws' :
  wires_ok P a ws -> read_at i n ws = Some (o, ws') ->
  wires_ok P a ws' /\ match o with NextFrame f => frame_ok f /\ P f | NextPending => True | _ => False end.
Proof.
  unfold read_at. intros HW Hs. destruct (ws !! i) as [w|] eqn:Hw; [|done]. injection Hs as <- <-.
  pose proof (HW i) as Hi. rewrite Hw in Hi. inversion Hi as [l ? [W1 W2 W3 W4] E1|]. subst.
  pose proof (wire_read_inv n w W1) as HI. assert (wi_drain (wire_read n w).2 = wi_drain w) as Ed.
  { unfold wire_read. by destruct (try_next _ _) as [[o buf] reads]. }
  split.
  - intros j. destruct (decide (j = i)) as [->|Hne]; [|by rewrite lookup_insert_ne].
    rewrite lookup_insert_eq, <- E1. constructor. by split; rewrite ?Ed.
  - pose proof (wi_frames_prefix _ HI) as [rest Hp]. rewrite Ed in Hp. rewrite Hp in W2.
    apply Forall_app in W2 as [W2 _]. pose proof (wv_frames _ HI) as Hok. revert W2 Hok. unfold wire_read.
    destruct (try_next _ _) as [[o buf] reads] eqn:E. apply try_next_one in E. cbn [snd fst wi_frames].
    destruct o as [f| |e|]; try done. rewrite !Forall_app, !Forall_singleton. by intros [_ ?] [_ ?].
Qed.
End wires_facts.
