(* ===== verification/Net.v ===== *)
(** * Socket addresses of the standard library

    The parsers and printers of [std::net] the program uses: [Ipv4Addr::from_str],
    [Ipv6Addr::from_str], [IpAddr::from_str] and the [Display] of both families.  An
    address is its octets in network order; text is its UTF-8 bytes. *)
From Stdlib Require Import ZArith Lia.
From Stdlib Require Import Strings.Byte.
From stdpp Require Import base numbers list option.
From S2P Require Import Prelude.
Local Open Scope Z_scope.

Inductive IpAddr : Type :=
| V4 (octets : bytes)
| V6 (octets : bytes).

#[export] Instance IpAddr_eq_dec : EqDecision IpAddr.
Proof. solve_decision. Defined.

Record SocketAddr : Type := mkSocketAddr { sa_ip : IpAddr; sa_port : Z }.

#[export] Instance SocketAddr_eq_dec : EqDecision SocketAddr.
Proof. solve_decision. Defined.

Definition ip_ok (ip : IpAddr) : bool :=
  match ip with V4 o => (length o =? 4)%nat | V6 o => (length o =? 16)%nat end.

(** [is_unspecified]: all octets are zero. *)
Definition is_unspecified (ip : IpAddr) : bool :=
  match ip with V4 o | V6 o => forallb (fun b => byte_to_Z b =? 0) o end.

(** ** Characters *)
Definition chr (z : Z) : byte := byte_of_Z z.
Definition COLON : byte := chr 58.
Definition DOT : byte := chr 46.
Definition ZERO_CH : byte := chr 48.

(** [char::to_digit]. *)
Definition to_digit (radix : Z) (b : byte) : option Z :=
  let z := byte_to_Z b in
  let d := if (48 <=? z) && (z <=? 57) then z - 48
           else if (97 <=? z) && (z <=? 102) then z - 87
           else if (65 <=? z) && (z <=? 70) then z - 55
           else 16 in
  if d <? radix then Some d else None.

Definition digit_char (d : Z) : byte := chr (if d <? 10 then 48 + d else 87 + d).

(** ** Parsing *)

(** The digits at the head of [s], at most [n] of them ([None]: there are more). *)
Fixpoint read_digits (radix : Z) (n : nat) (acc : Z) (s : bytes) : option (Z * nat * bytes) :=
  match s with
  | [] => Some (acc, 0%nat, [])
  | b :: s' =>
    match to_digit radix b with
    | None => Some (acc, 0%nat, s)
    | Some d =>
      match n with
      | O => None
      | S n' =>
        match read_digits radix n' (acc * radix + d) s' with
        | Some (v, k, r) => Some (v, S k, r)
        | None => None
        end
      end
    end
  end.

(** [Parser::read_number] at a width whose values are below [bound]. *)
Definition read_number (radix : Z) (max_digits : nat) (allow_zero_prefix : bool) (bound : Z)
    (s : bytes) : option (Z * bytes) :=
  match read_digits radix max_digits 0 s with
  | None => None
  | Some (v, k, r) =>
    let leading_zero := match s with b :: _ => bool_decide (b = ZERO_CH) | [] => false end in
    if (k =? 0)%nat then None
    else if negb allow_zero_prefix && leading_zero && (1 <? k)%nat then None
    else if v <? bound then Some (v, r) else None
  end.

Definition read_char (c : byte) (s : bytes) : option bytes :=
  match s with b :: s' => if bool_decide (b = c) then Some s' else None | [] => None end.

(** [Parser::read_separator]. *)
Definition read_separator {A} (c : byte) (index : nat) (inner : bytes -> option (A * bytes))
    (s : bytes) : option (A * bytes) :=
  match index with
  | O => inner s
  | S _ => match read_char c s with Some s' => inner s' | None => None end
  end.

Fixpoint read_v4_groups (n index : nat) (s : bytes) : option (bytes * bytes) :=
  match n with
  | O => Some ([], s)
  | S n' =>
    match read_separator DOT index (read_number 10 3 false 256) s with
    | None => None
    | Some (v, s1) =>
      match read_v4_groups n' (S index) s1 with
      | Some (o, s2) => Some (chr v :: o, s2)
      | None => None
      end
    end
  end.

Definition read_ipv4_addr (s : bytes) : option (bytes * bytes) := read_v4_groups 4 0 s.

(** [read_groups]: [left] slots remain from slot [index] on; the octets read, whether
    they end in an embedded IPv4 address, and the rest. *)
Fixpoint read_groups (left index : nat) (s : bytes) : bytes * bool * bytes :=
  match left with
  | O => ([], false, s)
  | S left' =>
    match (if (1 <? left)%nat then read_separator COLON index read_ipv4_addr s else None) with
    | Some (o, s1) => (o, true, s1)
    | None =>
      match read_separator COLON index (read_number 16 4 true 65536) s with
      | None => ([], false, s)
      | Some (g, s1) =>
        let '(o, v4, s2) := read_groups left' (S index) s1 in (be_bytes 2 g ++ o, v4, s2)
      end
    end
  end.

Definition read_ipv6_addr (s : bytes) : option (bytes * bytes) :=
  let '(head, head_v4, s1) := read_groups 8 0 s in
  if (length head =? 16)%nat then Some (head, s1)
  else if head_v4 then None
  else
    match read_char COLON s1 with
    | None => None
    | Some s2 =>
      match read_char COLON s2 with
      | None => None
      | Some s3 =>
        let '(tail, _, s4) := read_groups (8 - (length head / 2 + 1)) 0 s3 in
        Some (head ++ replicate (16 - length head - length tail) Byte.x00 ++ tail, s4)
      end
    end.

Definition all_read {A} (r : option (A * bytes)) : option A :=
  match r with Some (a, []) => Some a | _ => None end.

Definition parse_ipv4 (s : bytes) : option bytes :=
  if zlen s >? 15 then None else all_read (read_ipv4_addr s).
Definition parse_ipv6 (s : bytes) : option bytes := all_read (read_ipv6_addr s).
Definition parse_ip (s : bytes) : option IpAddr :=
  match read_ipv4_addr s with
  | Some (o, r) => all_read (Some (V4 o, r))
  | None => V6 <$> parse_ipv6 s
  end.

(** ** Printing *)
Fixpoint digits (fuel : nat) (radix z : Z) : bytes :=
  match fuel with
  | O => []
  | S f => if z <? radix then [digit_char z]
           else digits f radix (z / radix) ++ [digit_char (z mod radix)]
  end.
(** Enough for the values below [2 ^ 32] at any radix from 4 on. *)
Definition show (radix z : Z) : bytes := digits 17 radix z.

Fixpoint join (sep : bytes) (l : list bytes) : bytes :=
  match l with
  | [] => []
  | [x] => x
  | x :: l' => x ++ sep ++ join sep l'
  end.

(** [format!("{}.{}.{}.{}", ..)], also the [Display] of [Ipv4Addr]. *)
Definition show_ipv4 (o : bytes) : bytes := join [DOT] (map (fun b => show 10 (byte_to_Z b)) o).

(** [format!("{:02x}{:02x}", ..)] of the chunks of two octets. *)
Definition hex2 (b : byte) : bytes :=
  [digit_char (byte_to_Z b / 16); digit_char (byte_to_Z b mod 16)].
Fixpoint hex_groups (o : bytes) : list bytes :=
  match o with
  | a :: b :: o' => (hex2 a ++ hex2 b) :: hex_groups o'
  | [a] => [hex2 a]
  | [] => []
  end.
Definition show_ipv6_full (o : bytes) : bytes := join [COLON] (hex_groups o).

(** The 16-bit segments of an IPv6 address. *)
Fixpoint segments (o : bytes) : list Z :=
  match o with a :: b :: o' => be_value [a; b] :: segments o' | _ => [] end.

(** The first longest run of zero segments: its start and length. *)
Fixpoint zero_runs (segs : list Z) (i start len : nat) : list (nat * nat) :=
  match segs with
  | [] => [(start, len)]
  | z :: segs' =>
    if z =? 0 then zero_runs segs' (S i) (if (len =? 0)%nat then i else start) (S len)
    else (start, len) :: zero_runs segs' (S i) 0 0
  end.
Definition longest_run (l : list (nat * nat)) : nat * nat :=
  fold_left (fun best r => if (best.2 <? r.2)%nat then r else best) l (0, 0)%nat.

Definition to_ipv4_mapped (o : bytes) : option bytes :=
  if decide (take 12 o = replicate 10 Byte.x00 ++ [Byte.xff; Byte.xff]) then Some (drop 12 o)
  else None.

(** [Display] of [Ipv6Addr]. *)
Definition show_ipv6 (o : bytes) : bytes :=
  match to_ipv4_mapped o with
  | Some v4 => [COLON; COLON; chr 102; chr 102; chr 102; chr 102; COLON] ++ show_ipv4 v4
  | None =>
    let segs := segments o in
    let '(start, len) := longest_run (zero_runs segs 0 0 0) in
    let hex l := join [COLON] (map (show 16) l) in
    if (1 <? len)%nat then hex (take start segs) ++ [COLON; COLON] ++ hex (drop (start + len) segs)
    else hex segs
  end.

Definition show_ip (ip : IpAddr) : bytes :=
  match ip with V4 o => show_ipv4 o | V6 o => show_ipv6 o end.
