(* ===== verification/NetFacts.v ===== *)
(** * Parsing and printing of addresses

    Text that [Ipv4Addr::from_str] accepts is its [Display]; the full form of an IPv6
    address that [socks5.rs] prints is read back as that address. *)
From Stdlib Require Import ZArith Lia.
From Stdlib Require Import Strings.Byte.
From stdpp Require Import base numbers list option.
From S2P Require Import Prelude Net.
Local Open Scope Z_scope.

(** ** Digits *)
Lemma to_digit_10 b d : to_digit 10 b = Some d -> 0 <= d < 10 /\ b = digit_char d.
Proof. destruct b; vm_compute; intros [= <-]; by repeat split. Qed.

Lemma to_digit_10_range b : to_digit 10 b = None \/ exists d, to_digit 10 b = Some d.
Proof. destruct (to_digit 10 b); eauto. Qed.

Lemma forall_lt16 (P : Z -> Prop) :
  Forall P [0;1;2;3;4;5;6;7;8;9;10;11;12;13;14;15] -> forall d, 0 <= d < 16 -> P d.
Proof.
  intros H d Hd. rewrite Forall_forall in H. apply H. cbn. lia.
Qed.

Lemma to_digit_char d : 0 <= d < 16 -> to_digit 16 (digit_char d) = Some d.
Proof. revert d. apply forall_lt16. repeat constructor. Qed.

(** A hexadecimal digit is a decimal one, or ends a decimal number. *)
Lemma to_digit_10_char d : 0 <= d < 16 ->
  to_digit 10 (digit_char d) = (if d <? 10 then Some d else None) /\
  digit_char d <> DOT /\ digit_char d <> COLON.
Proof. revert d. apply forall_lt16. repeat constructor; discriminate. Qed.

Lemma digit_char_zero d : 0 <= d < 10 -> digit_char d = ZERO_CH -> d = 0.
Proof.
  intros Hd. assert (0 <= d < 16) as Hd' by lia. destruct Hd as [_ Hd]. revert d Hd' Hd.
  apply (forall_lt16 (fun d => d < 10 -> digit_char d = ZERO_CH -> d = 0)).
  repeat (apply Forall_cons_2; [intros _ H; first [reflexivity | discriminate H]|]). apply Forall_nil_2.
Qed.

Lemma show_10_small d : 0 <= d < 10 -> show 10 d = [digit_char d].
Proof. intros. unfold show. cbn [digits]. by rewrite (proj2 (Z.ltb_lt d 10)) by lia. Qed.

Lemma digits_step f z : 10 <= z ->
  digits (S f) 10 z = digits f 10 (z / 10) ++ [digit_char (z mod 10)].
Proof. intros. cbn [digits]. by rewrite (proj2 (Z.ltb_ge z 10)) by lia. Qed.

Lemma digits_last f z : 0 <= z < 10 -> digits (S f) 10 z = [digit_char z].
Proof. intros. cbn [digits]. by rewrite (proj2 (Z.ltb_lt z 10)) by lia. Qed.

Lemma show_10_two a b : 1 <= a < 10 -> 0 <= b < 10 ->
  show 10 (a * 10 + b) = [digit_char a; digit_char b].
Proof.
  intros. unfold show. rewrite digits_step by lia.
  replace ((a * 10 + b) / 10) with a by (Z.to_euclidean_division_equations; lia).
  replace ((a * 10 + b) mod 10) with b by (Z.to_euclidean_division_equations; lia).
  by rewrite digits_last by lia.
Qed.

Lemma show_10_three a b c : 1 <= a < 10 -> 0 <= b < 10 -> 0 <= c < 10 ->
  show 10 ((a * 10 + b) * 10 + c) = [digit_char a; digit_char b; digit_char c].
Proof.
  intros. unfold show. rewrite !digits_step by (Z.to_euclidean_division_equations; lia).
  replace (((a * 10 + b) * 10 + c) / 10) with (a * 10 + b) by (Z.to_euclidean_division_equations; lia).
  replace (((a * 10 + b) * 10 + c) mod 10) with c by (Z.to_euclidean_division_equations; lia).
  replace ((a * 10 + b) / 10) with a by (Z.to_euclidean_division_equations; lia).
  replace ((a * 10 + b) mod 10) with b by (Z.to_euclidean_division_equations; lia).
  by rewrite digits_last by lia.
Qed.

(** ** IPv4 *)

#[local] Arguments show : simpl never.

(** A decimal octet without leading zeros is its own [Display]. *)
Lemma read_octet_show s v r :
  read_number 10 3 false 256 s = Some (v, r) -> s = show 10 v ++ r /\ 0 <= v < 256.
Proof.
  unfold read_number.
  destruct s as [|b1 s]; [done|]. cbn [read_digits].
  destruct (to_digit 10 b1) as [d1|] eqn:E1; [|done]. apply to_digit_10 in E1 as [R1 ->].
  replace (0 * 10 + d1) with d1 by lia.
  destruct s as [|b2 s]; cbn [read_digits].
  { cbn. case_bool_decide; cbn; (destruct (Z.ltb_spec d1 256); [|lia]); intros; simplify_eq;
      rewrite show_10_small by lia; (split; [done|lia]). }
  destruct (to_digit 10 b2) as [d2|] eqn:E2.
  2:{ cbn. case_bool_decide; cbn; (destruct (Z.ltb_spec d1 256); [|lia]); intros; simplify_eq;
      rewrite show_10_small by lia; (split; [done|lia]). }
  apply to_digit_10 in E2 as [R2 ->].
  assert (d1 <> 0 -> show 10 (d1 * 10 + d2) = [digit_char d1; digit_char d2]) as S2.
  { intros. apply show_10_two; lia. }
  assert (digit_char d1 <> ZERO_CH -> d1 <> 0) as Z1 by (intros H ->; by apply H).
  destruct s as [|b3 s]; cbn [read_digits].
  { cbn. case_bool_decide as Hz; cbn; [done|].
    destruct (Z.ltb_spec (d1 * 10 + d2) 256); [|done]. intros; simplify_eq.
    rewrite S2 by auto. split; [done|lia]. }
  destruct (to_digit 10 b3) as [d3|] eqn:E3.
  2:{ cbn. case_bool_decide as Hz; cbn; [done|].
    destruct (Z.ltb_spec (d1 * 10 + d2) 256); [|done]. intros; simplify_eq.
    rewrite S2 by auto. split; [done|lia]. }
  apply to_digit_10 in E3 as [R3 ->].
  destruct s as [|b4 s]; [|destruct (to_digit 10 b4); [done|]];
    (cbn; case_bool_decide as Hz; cbn; [done|];
     destruct (Z.ltb_spec ((d1 * 10 + d2) * 10 + d3) 256); [|done]; intros; simplify_eq;
     specialize (Z1 Hz); rewrite show_10_three by lia; split; [done|lia]).
Qed.

Lemma read_char_inv c s s' : read_char c s = Some s' -> s = c :: s'.
Proof. destruct s; cbn; [done|]. case_bool_decide; intros; by simplify_eq. Qed.

Lemma read_v4_groups_show n index s o r :
  read_v4_groups n index s = Some (o, r) ->
  length o = n /\
  s = match index with O => [] | S _ => if (n =? 0)%nat then [] else [DOT] end ++
      join [DOT] (map (fun b => show 10 (byte_to_Z b)) o) ++ r.
Proof.
  revert index s o. induction n as [|n IH]; intros index s o H; cbn in H.
  { simplify_eq. split; [done|]. by destruct index. }
  destruct (read_separator DOT index (read_number 10 3 false 256) s) as [[v s1]|] eqn:E; [|done].
  destruct (read_v4_groups n (S index) s1) as [[o' s2]|] eqn:E2; [|done]. simplify_eq.
  apply IH in E2 as [<- ->]. split; [done|]. cbn [Nat.eqb].
  assert (exists s0, s = match index with O => [] | S _ => [DOT] end ++ s0 /\
    read_number 10 3 false 256 s0 = Some (v, match length o' with O => [] | S _ => [DOT] end ++
       join [DOT] (map (fun b => show 10 (byte_to_Z b)) o') ++ r)) as (s0 & -> & Hn).
  { destruct index; cbn in E.
    - exists s. split; [done|]. rewrite E. by destruct (length o').
    - destruct (read_char DOT s) as [s0|] eqn:Ec; [|done]. apply read_char_inv in Ec as ->.
      exists s0. split; [done|]. rewrite E. by destruct (length o'). }
  apply read_octet_show in Hn as [-> Hv].
  assert (byte_to_Z (chr v) = v) as Hb.
  { unfold chr. rewrite byte_to_of_Z. by rewrite Z.mod_small by lia. }
  cbn [map]. destruct o' as [|b o']; cbn [map length join]; rewrite Hb; [done|].
  by rewrite <- !app_assoc.
Qed.

Lemma parse_ipv4_show s o : parse_ipv4 s = Some o -> show_ipv4 o = s /\ length o = 4%nat.
Proof.
  unfold parse_ipv4. destruct (_ >? _); [done|]. unfold read_ipv4_addr, all_read.
  destruct (read_v4_groups 4 0 s) as [[o' [|]]|] eqn:E; [|done|done]. intros; simplify_eq.
  apply read_v4_groups_show in E as [? ->]. by rewrite app_nil_r.
Qed.

(** ** IPv6 *)
Lemma read_groups_S left index s :
  read_groups (S left) index s =
    match (if (1 <? S left)%nat then read_separator COLON index read_ipv4_addr s else None) with
    | Some (o, s1) => (o, true, s1)
    | None =>
      match read_separator COLON index (read_number 16 4 true 65536) s with
      | None => ([], false, s)
      | Some (g, s1) =>
        let '(o, v4, s2) := read_groups left (S index) s1 in (be_bytes 2 g ++ o, v4, s2)
      end
    end.
Proof. reflexivity. Qed.

Lemma read_groups_length left index s :
  (length (read_groups left index s).1.1 <= 2 * left)%nat.
Proof.
  revert index s. induction left as [|left IH]; intros index s; [cbn; lia|]. rewrite read_groups_S.
  destruct (if (1 <? S left)%nat then read_separator COLON index read_ipv4_addr s else None)
    as [[o s1]|] eqn:E4.
  - destruct (Nat.ltb_spec 1 (S left)) as [Hl|]; [|done]. cbn.
    assert (length o = 4%nat); [|lia].
    assert (forall s, read_ipv4_addr s = Some (o, s1) -> length o = 4%nat) as H.
    { intros s' H. by apply read_v4_groups_show in H as [? _]. }
    destruct index; cbn in E4; [by eapply H|]. destruct (read_char COLON s); [by eapply H|done].
  - destruct (read_separator COLON index (read_number 16 4 true 65536) s) as [[g s1]|]; [|cbn; lia].
    specialize (IH (S index) s1). destruct (read_groups left (S index) s1) as [[o v4] s2].
    cbn [fst] in *. rewrite length_app, length_be_bytes. lia.
Qed.

Lemma parse_ipv6_length s o : parse_ipv6 s = Some o -> length o = 16%nat.
Proof.
  unfold parse_ipv6, read_ipv6_addr. pose proof (read_groups_length 8 0 s) as Hh.
  destruct (read_groups 8 0 s) as [[head head_v4] s1]. cbn [fst] in Hh.
  destruct (Nat.eqb_spec (length head) 16) as [E|E].
  { cbn. destruct s1; [|done]. intros; by simplify_eq. }
  destruct head_v4; [done|]. destruct (read_char COLON s1) as [s2|]; [|done].
  destruct (read_char COLON s2) as [s3|]; [|done].
  pose proof (read_groups_length (8 - (length head / 2 + 1)) 0 s3) as Ht.
  destruct (read_groups _ 0 s3) as [[tail ?] s4]. cbn [fst] in Ht. cbn.
  destruct s4; [|done]. intros; simplify_eq.
  rewrite !length_app, length_replicate.
  pose proof (Nat.div_mod_eq (length head) 2). pose proof (Nat.mod_upper_bound (length head) 2). lia.
Qed.

(** Four hexadecimal digits, at the end of the text or before a colon. *)
Definition hex_end (s : bytes) : Prop := s = [] \/ exists s', s = COLON :: s'.

Section hex_group.
Variables d1 d2 d3 d4 : Z.
Hypotheses (H1 : 0 <= d1 < 16) (H2 : 0 <= d2 < 16) (H3 : 0 <= d3 < 16) (H4 : 0 <= d4 < 16).

Definition hex_text : bytes := [digit_char d1; digit_char d2; digit_char d3; digit_char d4].

Lemma read_hex_group s : hex_end s ->
  read_number 16 4 true 65536 (hex_text ++ s) = Some (((d1 * 16 + d2) * 16 + d3) * 16 + d4, s).
Proof.
  intros Hs. unfold read_number, hex_text.
  destruct Hs as [->|[s' ->]]; cbn [app read_digits]; rewrite !to_digit_char by done;
    [|change (to_digit 16 COLON) with (@None Z)]; cbn [Nat.eqb negb andb];
    replace (0 * 16 + d1) with d1 by lia;
    (destruct (Z.ltb_spec (((d1 * 16 + d2) * 16 + d3) * 16 + d4) 65536); [done|lia]).
Qed.

(** It does not start an IPv4 address. *)
Lemma read_ipv4_hex s : read_ipv4_addr (hex_text ++ s) = None.
Proof.
  unfold read_ipv4_addr. cbn [read_v4_groups read_separator].
  destruct (read_number 10 3 false 256 (hex_text ++ s)) as [[v r]|] eqn:E; [|done].
  assert (exists d, 0 <= d < 16 /\ exists r', r = digit_char d :: r') as (d & Hd & r' & ->).
  { unfold read_number, hex_text in E. cbn [app read_digits] in E.
    destruct (to_digit_10_char d1 H1) as [E1 _]. rewrite E1 in E. destruct (d1 <? 10); [|done].
    destruct (to_digit_10_char d2 H2) as [E2 _]. rewrite E2 in E.
    destruct (to_digit_10_char d3 H3) as [E3 _]. rewrite E3 in E.
    destruct (to_digit_10_char d4 H4) as [E4 _]. rewrite E4 in E.
    destruct (d2 <? 10); [destruct (d3 <? 10); [destruct (d4 <? 10)|]|]; cbn in E;
      repeat (case_match; try done); simplify_eq; eauto. }
  assert (read_char DOT (digit_char d :: r') = None) as Hc.
  { cbn. destruct (to_digit_10_char d Hd) as (_ & Hn & _). by case_bool_decide. }
  cbn [read_v4_groups read_separator]. by rewrite Hc.
Qed.
End hex_group.

Lemma hex_group_bytes a b :
  exists d1 d2 d3 d4, (0 <= d1 < 16 /\ 0 <= d2 < 16 /\ 0 <= d3 < 16 /\ 0 <= d4 < 16) /\
    hex2 a ++ hex2 b = hex_text d1 d2 d3 d4 /\ be_bytes 2 (((d1 * 16 + d2) * 16 + d3) * 16 + d4) = [a; b].
Proof.
  exists (byte_to_Z a / 16), (byte_to_Z a mod 16), (byte_to_Z b / 16), (byte_to_Z b mod 16).
  pose proof (byte_to_Z_range a). pose proof (byte_to_Z_range b).
  split; [split_and!; try apply Z.mod_pos_bound; try lia;
    first [apply Z.div_pos; lia | apply Z.div_lt_upper_bound; lia]|].
  split; [done|]. rewrite <- (be_bytes_be_value [a; b]). cbn [length]. f_equal. cbn [be_value length].
  change (256 ^ Z.of_nat 1) with 256. change (256 ^ Z.of_nat 0) with 1.
  pose proof (Z.div_mod (byte_to_Z a) 16). pose proof (Z.div_mod (byte_to_Z b) 16). lia.
Qed.

Lemma read_groups_full k index (o : bytes) :
  length o = (2 * k)%nat ->
  read_groups k index
    (match index with O => [] | S _ => if (k =? 0)%nat then [] else [COLON] end ++
     join [COLON] (hex_groups o)) = (o, false, []).
Proof.
  revert index o. induction k as [|k IH]; intros index o Hl.
  { destruct o; [|cbn in Hl; lia]. by destruct index. }
  destruct o as [|a [|b o]]; [cbn in Hl; lia..|]. cbn [length] in Hl.
  assert (length o = (2 * k)%nat) as Hl' by lia. rewrite read_groups_S. cbn [Nat.eqb hex_groups].
  destruct (hex_group_bytes a b) as (d1 & d2 & d3 & d4 & (R1 & R2 & R3 & R4) & Eh & Eb). rewrite Eh.
  set (rest := match k with O => [] | S _ => [COLON] end ++ join [COLON] (hex_groups o)).
  assert (join [COLON] (hex_text d1 d2 d3 d4 :: hex_groups o) = hex_text d1 d2 d3 d4 ++ rest) as ->.
  { unfold rest. destruct o as [|a' [|b' o]]; cbn in Hl'; [by destruct k; [rewrite app_nil_r|lia]|lia|].
    destruct k; [lia|]. done. }
  assert (hex_end rest) as Hr.
  { unfold rest, hex_end. destruct k; [left|right; by eexists]. by destruct o; [|cbn in Hl'; lia]. }
  assert (forall s, read_separator COLON index read_ipv4_addr
    (match index with O => [] | S _ => [COLON] end ++ hex_text d1 d2 d3 d4 ++ s) = None) as H4.
  { intros s. destruct index; cbn [read_separator app]; [|rewrite (eq_refl : read_char COLON (COLON :: _) = Some _)];
      by apply read_ipv4_hex. }
  assert (read_separator COLON index (read_number 16 4 true 65536)
    (match index with O => [] | S _ => [COLON] end ++ hex_text d1 d2 d3 d4 ++ rest) =
    Some (((d1 * 16 + d2) * 16 + d3) * 16 + d4, rest)) as H6.
  { destruct index; cbn [read_separator app]; [|rewrite (eq_refl : read_char COLON (COLON :: _) = Some _)];
      by apply read_hex_group. }
  rewrite H4, H6. assert (forall A (x y : A), (if (1 <? S k)%nat then x else y) = x \/
    (if (1 <? S k)%nat then x else y) = y) as Hif by (intros; destruct (1 <? S k)%nat; auto).
  destruct (Hif _ (@None (bytes * bytes)) None) as [-> | ->];
    (specialize (IH (S index) o Hl'); replace (if (k =? 0)%nat then [] else [COLON]) with
       (match k with O => [] | S _ => [COLON] end) in IH by (by destruct k);
     fold rest in IH; rewrite IH, Eb; done).
Qed.

(** The text [socks5.rs] prints for an IPv6 address is read back as that address. *)
Lemma parse_ipv6_full o : length o = 16%nat -> parse_ipv6 (show_ipv6_full o) = Some o.
Proof.
  intros Hl. unfold parse_ipv6, read_ipv6_addr, show_ipv6_full.
  pose proof (read_groups_full 8 0 o Hl) as H. cbn [app] in H. rewrite H, Hl. done.
Qed.
