(* ===== verification/Socks5.v ===== *)
(** * SOCKS5: server handshake, client connect, UDP datagram codec

    Models [src/src/socks5.rs].  A TCP stream is the bytes still to be read and the
    bytes written so far, threaded by the monad [SIO]; a peer that closes early makes
    [read_exact] fail.  Each [bail!] and each failing call is a constructor of
    [Socks5Error]. *)
From Stdlib Require Import ZArith Lia.
From Stdlib Require Import Strings.Byte.
From stdpp Require Import base numbers list option.
From S2P Require Import Prelude Runtime Frames Net.
Local Open Scope Z_scope.

Definition SOCKS_VERSION : Z := 5.
Definition AUTH_NONE : Z := 0.
Definition CMD_CONNECT : Z := 1.
Definition CMD_UDP_ASSOCIATE : Z := 3.
Definition ATYP_IPV4 : Z := 1.
Definition ATYP_DOMAIN : Z := 3.
Definition ATYP_IPV6 : Z := 4.
Definition REP_SUCCESS : Z := 0.
Definition REP_CMD_NOT_SUPPORTED : Z := 7.

(** A literal of [u8]s. *)
Definition octets_of (l : list Z) : bytes := map byte_of_Z l.

Definition REPLY_GENERAL_FAILURE : bytes :=
  octets_of [SOCKS_VERSION; 1; 0; ATYP_IPV4; 0; 0; 0; 0; 0; 0].

Record TargetAddr : Type := mkTargetAddr { t_address : bytes; t_port : Z }.

Inductive Socks5Error : Type :=
| SkRead                      (** [read_exact] failed *)
| SkVersion (v : Z)           (** not SOCKS5 *)
| SkNoMethods                 (** invalid nmethods: 0 *)
| SkAuthRequired              (** client requires auth *)
| SkRequestVersion            (** bad SOCKS5 request version *)
| SkUnsupportedCmd (cmd : Z)
| SkUnsupportedAtyp (atyp : Z)
| SkUtf8                      (** [String::from_utf8] failed *)
| SkBind                      (** [local_addr] or [UdpSocket::bind] failed *)
| SkProxyAuth (m : Z)
| SkReplyVersion
| SkConnectFailed (rep : Z)
| SkDomainTooLong (len : Z)
| SkDatagramTooShort
| SkFragmented
| SkTruncatedV4
| SkTruncatedDomain
| SkZeroDomain
| SkTruncatedDomainData
| SkTruncatedV6.

(** ** The stream monad *)
Definition SIO (A : Type) : Type :=
  bytes -> bytes -> result Socks5Error A * bytes * bytes.

#[export] Instance SIO_ret : MRet SIO := fun A a inp out => (Ok a, inp, out).
#[export] Instance SIO_bind : MBind SIO := fun A B f m inp out =>
  match m inp out with
  | (Ok a, inp', out') => f a inp' out'
  | (Err e, inp', out') => (Err e, inp', out')
  end.

Definition bail {A} (e : Socks5Error) : SIO A := fun inp out => (Err e, inp, out).
Definition read_exact (n : nat) : SIO bytes := fun inp out =>
  if (n <=? length inp)%nat then (Ok (take n inp), drop n inp, out) else (Err SkRead, [], out).
Definition write_all (b : bytes) : SIO () := fun inp out => (Ok (), inp, out ++ b).

(** The [i]-th octet of a buffer as a [u8]. *)
Definition at_ (b : bytes) (i : nat) : Z := match b !! i with Some x => byte_to_Z x | None => 0 end.

(** ** Addresses *)
Definition read_address (atyp : Z) : SIO TargetAddr :=
  if atyp =? ATYP_IPV4 then
    buf ← read_exact 6;
    mret (mkTargetAddr (show_ipv4 (take 4 buf)) (be_value (drop 4 buf)))
  else if atyp =? ATYP_DOMAIN then
    len ← read_exact 1;
    addr ← read_exact (Z.to_nat (at_ len 0));
    port_buf ← read_exact 2;
    if utf8_valid addr then mret (mkTargetAddr addr (be_value port_buf)) else bail SkUtf8
  else if atyp =? ATYP_IPV6 then
    buf ← read_exact 18;
    mret (mkTargetAddr (show_ipv6_full (take 16 buf)) (be_value (drop 16 buf)))
  else bail (SkUnsupportedAtyp atyp).

Definition drain_address (atyp : Z) : SIO () :=
  if atyp =? ATYP_IPV4 then _ ← read_exact 6; mret ()
  else if atyp =? ATYP_DOMAIN then
    len ← read_exact 1; _ ← read_exact (Z.to_nat (at_ len 0) + 2); mret ()
  else if atyp =? ATYP_IPV6 then _ ← read_exact 18; mret ()
  else bail (SkUnsupportedAtyp atyp).

Definition encode_address (host : bytes) (port : Z) : result Socks5Error bytes :=
  match parse_ipv4 host with
  | Some o => Ok (octets_of [ATYP_IPV4] ++ o ++ be_bytes 2 port)
  | None =>
    match parse_ipv6 host with
    | Some o => Ok (octets_of [ATYP_IPV6] ++ o ++ be_bytes 2 port)
    | None =>
      if zlen host >? 255 then Err (SkDomainTooLong (zlen host))
      else Ok (octets_of [ATYP_DOMAIN; zlen host] ++ host ++ be_bytes 2 port)
    end
  end.

(** ** Server side *)
Inductive Socks5Result : Type :=
| Connect (target : TargetAddr)
| UdpAssociate (relay : SocketAddr) (client_addr : option SocketAddr).

Definition udp_associate_client_addr (addr : TargetAddr) : option SocketAddr :=
  if t_port addr =? 0 then None
  else
    match parse_ip (t_address addr) with
    | Some ip => if is_unspecified ip then None else Some (mkSocketAddr ip (t_port addr))
    | None => None
    end.

Definition encode_reply (rep : Z) (addr : SocketAddr) : bytes :=
  octets_of [SOCKS_VERSION; rep; 0] ++
  match sa_ip addr with
  | V4 o => octets_of [ATYP_IPV4] ++ o
  | V6 o => octets_of [ATYP_IPV6] ++ o
  end ++ be_bytes 2 (sa_port addr).

(** The request after the greeting; [relay] is the address of the freshly bound UDP
    socket, [None] when the operating system refuses. *)
Definition server_request (relay : option SocketAddr) : SIO (Socks5Result * bytes) :=
  req ← read_exact 4;
  if negb (at_ req 0 =? SOCKS_VERSION) then bail SkRequestVersion
  else if at_ req 1 =? CMD_CONNECT then
    target ← read_address (at_ req 3);
    mret (Connect target, octets_of [SOCKS_VERSION; REP_SUCCESS; 0; ATYP_IPV4; 0; 0; 0; 0; 0; 0])
  else if at_ req 1 =? CMD_UDP_ASSOCIATE then
    client_addr ← read_address (at_ req 3);
    match relay with
    | None => bail SkBind
    | Some relay_addr =>
      mret (UdpAssociate relay_addr (udp_associate_client_addr client_addr),
            encode_reply REP_SUCCESS relay_addr)
    end
  else
    _ ← write_all (octets_of [SOCKS_VERSION; REP_CMD_NOT_SUPPORTED; 0; ATYP_IPV4; 0; 0; 0; 0; 0; 0]);
    bail (SkUnsupportedCmd (at_ req 1)).

Definition socks5_server_accept (relay : option SocketAddr) : SIO (Socks5Result * bytes) :=
  hdr ← read_exact 2;
  if negb (at_ hdr 0 =? SOCKS_VERSION) then bail (SkVersion (at_ hdr 0))
  else if at_ hdr 1 =? 0 then bail SkNoMethods
  else
    methods ← read_exact (Z.to_nat (at_ hdr 1));
    if negb (existsb (fun m => byte_to_Z m =? AUTH_NONE) methods) then
      _ ← write_all (octets_of [SOCKS_VERSION; 255]); bail SkAuthRequired
    else
      _ ← write_all (octets_of [SOCKS_VERSION; AUTH_NONE]); server_request relay.

(** ** Client side: CONNECT through a proxy, once the TCP connection is up *)
Definition socks5_client_connect (target : bytes) (port : Z) : SIO () :=
  _ ← write_all (octets_of [SOCKS_VERSION; 1; AUTH_NONE]);
  resp ← read_exact 2;
  if negb (at_ resp 0 =? SOCKS_VERSION) then bail (SkVersion (at_ resp 0))
  else if negb (at_ resp 1 =? AUTH_NONE) then bail (SkProxyAuth (at_ resp 1))
  else
    match encode_address target port with
    | Err e => bail e
    | Ok addr_bytes =>
      _ ← write_all (octets_of [SOCKS_VERSION; CMD_CONNECT; 0] ++ addr_bytes);
      head ← read_exact 4;
      if negb (at_ head 0 =? SOCKS_VERSION) then bail SkReplyVersion
      else if negb (at_ head 1 =? REP_SUCCESS) then bail (SkConnectFailed (at_ head 1))
      else drain_address (at_ head 3)
    end.

(** ** UDP datagrams *)
Definition encode_udp_datagram `{BufMut} (target : TargetAddr) (data : bytes)
  : result Socks5Error bytes :=
  match encode_address (t_address target) (t_port target) with
  | Err e => Err e
  | Ok addr => Ok (put_slice data (put_slice addr (put_u8 0 (put_u16 0 []))))
  end.

Definition parse_udp_address (atyp : Z) (data : bytes) : result Socks5Error (bytes * Z * nat) :=
  if atyp =? ATYP_IPV4 then
    if zlen data <? 7 then Err SkTruncatedV4
    else Ok (show_ipv4 (take 4 (drop 1 data)), be_value (take 2 (drop 5 data)), 7%nat)
  else if atyp =? ATYP_DOMAIN then
    if zlen data <? 2 then Err SkTruncatedDomain
    else
      let len := Z.to_nat (at_ data 1) in
      if (len =? 0)%nat then Err SkZeroDomain
      else if (length data <? 4 + len)%nat then Err SkTruncatedDomainData
      else
        let addr := take len (drop 2 data) in
        if utf8_valid addr then Ok (addr, be_value (take 2 (drop (2 + len) data)), (4 + len)%nat)
        else Err SkUtf8
  else if atyp =? ATYP_IPV6 then
    if zlen data <? 19 then Err SkTruncatedV6
    else Ok (show_ipv6_full (take 16 (drop 1 data)), be_value (take 2 (drop 17 data)), 19%nat)
  else Err (SkUnsupportedAtyp atyp).

Definition decode_udp_datagram (payload : bytes) : result Socks5Error (TargetAddr * bytes) :=
  if zlen payload <? 4 then Err SkDatagramTooShort
  else if negb (at_ payload 2 =? 0) then Err SkFragmented
  else
    match parse_udp_address (at_ payload 3) (drop 3 payload) with
    | Err e => Err e
    | Ok (addr, port, consumed) => Ok (mkTargetAddr addr port, drop (3 + consumed) payload)
    end.
