(* ===== verification/Socks5Facts.v ===== *)
(** * Correctness of the SOCKS5 codecs

    Addresses survive encoding, the two ends of the handshake agree, and UDP relay
    datagrams decode to what was encoded. *)
From Stdlib Require Import ZArith Lia.
From Stdlib Require Import Strings.Byte.
From stdpp Require Import base numbers list option.
From S2P Require Import Prelude Runtime Frames Net NetFacts Socks5.
Local Open Scope Z_scope.

(** [a] names the host [host] names: the same text, or the same IPv6 address. *)
Definition same_host (host a : bytes) : Prop :=
  a = host \/ exists o, parse_ipv6 host = Some o /\ parse_ipv6 a = Some o.

(** ** Octets *)
Lemma at_octet z b : 0 <= z < 256 -> at_ (byte_of_Z z :: b) 0 = z.
Proof. intros. unfold at_. cbn. rewrite byte_to_of_Z. by rewrite Z.mod_small. Qed.

Lemma octets_of_one z b : octets_of [z] ++ b = byte_of_Z z :: b.
Proof. done. Qed.

Lemma port_bytes port : 0 <= port < 65536 -> be_value (be_bytes 2 port) = port.
Proof. intros. rewrite be_value_be_bytes. cbn. by rewrite Z.mod_small. Qed.

Lemma cons_eq_inv {A} (x y : A) l k : x :: l = y :: k -> x = y /\ l = k.
Proof. by intros [= -> ->]. Qed.

(** What [encode_address] produces. *)
Inductive address_encoding (host : bytes) (port : Z) : bytes -> Prop :=
| EncV4 o : parse_ipv4 host = Some o ->
    address_encoding host port (byte_of_Z ATYP_IPV4 :: o ++ be_bytes 2 port)
| EncV6 o : parse_ipv6 host = Some o ->
    address_encoding host port (byte_of_Z ATYP_IPV6 :: o ++ be_bytes 2 port)
| EncDomain : zlen host <= 255 ->
    address_encoding host port (byte_of_Z ATYP_DOMAIN :: byte_of_Z (zlen host) :: host ++ be_bytes 2 port).

Lemma encode_address_cases host port :
  match encode_address host port with
  | Ok bs => address_encoding host port bs
  | Err e => e = SkDomainTooLong (zlen host) /\ 255 < zlen host /\
             parse_ipv4 host = None /\ parse_ipv6 host = None
  end.
Proof.
  unfold encode_address. destruct (parse_ipv4 host) as [o|] eqn:E4; [by constructor|].
  destruct (parse_ipv6 host) as [o|] eqn:E6; [by constructor|].
  destruct (zlen host >? 255) eqn:E; zbool; [done|]. apply EncDomain. lia.
Qed.

Lemma read_exact_app n a rest out :
  length a = n -> read_exact n (a ++ rest) out = (Ok a, rest, out).
Proof.
  intros <-. unfold read_exact. rewrite length_app.
  destruct (Nat.leb_spec (length a) (length a + length rest)); [|lia].
  by rewrite take_app_length, drop_app_length.
Qed.

(** [read_address] inverts [encode_address]. *)
Lemma read_address_encoding host port bs atyp body rest out :
  address_encoding host port bs -> bs = byte_of_Z atyp :: body -> 0 <= atyp < 256 ->
  utf8_valid host = true -> 0 <= port < 65536 ->
  exists a, read_address atyp (body ++ rest) out = (Ok (mkTargetAddr a port), rest, out) /\
    same_host host a.
Proof.
  intros He Hb Ha Hu Hp. pose proof (port_bytes port Hp) as Hport.
  assert (forall z, 0 <= z < 256 -> byte_of_Z z = byte_of_Z atyp -> atyp = z) as Hinj.
  { intros z Hz E. apply (f_equal byte_to_Z) in E. rewrite !byte_to_of_Z, !Z.mod_small in E by lia. done. }
  destruct He as [o H4|o H6|Hl]; apply cons_eq_inv in Hb as [Et <-]; (apply Hinj in Et as ->; [|by (zcompute || (split; zcompute))]);
    unfold read_address; cbn [Z.eqb].
  - destruct (parse_ipv4_show _ _ H4) as [Hs Hlen]. exists host. split; [|by left].
    change (ATYP_IPV4 =? ATYP_IPV4) with true. cbn iota. unfold mbind, SIO_bind.
    rewrite read_exact_app by (rewrite length_app, length_be_bytes; lia).
    unfold mret, SIO_ret. rewrite take_app_length', drop_app_length' by done. by rewrite Hs, Hport.
  - apply parse_ipv6_length in H6 as Hlen. exists (show_ipv6_full o).
    split; [|right; exists o; split; [done|by apply parse_ipv6_full]].
    change (ATYP_IPV6 =? ATYP_IPV4) with false. change (ATYP_IPV6 =? ATYP_DOMAIN) with false.
    change (ATYP_IPV6 =? ATYP_IPV6) with true. cbn iota. unfold mbind, SIO_bind.
    rewrite read_exact_app by (rewrite length_app, length_be_bytes; lia).
    unfold mret, SIO_ret. rewrite take_app_length', drop_app_length' by done. by rewrite Hport.
  - exists host. split; [|by left].
    change (ATYP_DOMAIN =? ATYP_IPV4) with false. change (ATYP_DOMAIN =? ATYP_DOMAIN) with true.
    cbn iota. unfold mbind, SIO_bind. pose proof (zlen_nonneg host).
    change (byte_of_Z (zlen host) :: host ++ be_bytes 2 port)
      with ([byte_of_Z (zlen host)] ++ host ++ be_bytes 2 port).
    rewrite <- !app_assoc, (read_exact_app 1) by done. rewrite at_octet by lia.
    rewrite read_exact_app by (unfold zlen; lia).
    rewrite read_exact_app by apply length_be_bytes. rewrite Hu. unfold mret, SIO_ret. by rewrite Hport.
Qed.

(** The same for the address inside a datagram. *)
Lemma parse_udp_encoding host port bs data :
  address_encoding host port bs -> utf8_valid host = true -> 0 <= port < 65536 -> host <> [] ->
  exists a, parse_udp_address (at_ (bs ++ data) 0) (bs ++ data) = Ok (a, port, length bs) /\
    same_host host a.
Proof.
  intros He Hu Hp Hne. pose proof (port_bytes port Hp) as Hport.
  destruct He as [o H4|o H6|Hl]; rewrite <- app_comm_cons, at_octet by (split; zcompute);
    unfold parse_udp_address.
  - destruct (parse_ipv4_show _ _ H4) as [Hs Hlen]. exists host. split; [|by left].
    change (ATYP_IPV4 =? ATYP_IPV4) with true. cbn iota.
    destruct o as [|o1 [|o2 [|o3 [|o4 [|]]]]]; try done.
    unfold zlen. rewrite <- !app_assoc. cbn [app length]. rewrite !length_app, length_be_bytes.
    destruct (Z.ltb_spec (Z.of_nat (S (S (S (S (S (2 + length data))))))) 7); [lia|].
    cbn [drop take]. rewrite take_0, drop_0, (take_app_length' (be_bytes 2 port)) by (symmetry; apply length_be_bytes). by rewrite Hs, Hport.
  - apply parse_ipv6_length in H6 as Hlen. exists (show_ipv6_full o).
    split; [|right; exists o; split; [done|by apply parse_ipv6_full]].
    change (ATYP_IPV6 =? ATYP_IPV4) with false. change (ATYP_IPV6 =? ATYP_DOMAIN) with false.
    change (ATYP_IPV6 =? ATYP_IPV6) with true. cbn iota.
    rewrite <- !app_assoc, zlen_cons, !zlen_app. unfold zlen. rewrite length_be_bytes, Hlen.
    destruct (Z.ltb_spec (Z.of_nat 16 + (Z.of_nat 2 + Z.of_nat (length data)) + 1) 19); [lia|].
    change 17%nat with (S 16). cbn [drop]. rewrite drop_0, take_app_length', drop_app_length' by done.
    rewrite (take_app_length' (be_bytes 2 port)) by (symmetry; apply length_be_bytes). rewrite Hport.
    cbn [length]. by rewrite length_app, Hlen, length_be_bytes.
  - exists host. split; [|by left].
    change (ATYP_DOMAIN =? ATYP_IPV4) with false. change (ATYP_DOMAIN =? ATYP_DOMAIN) with true.
    cbn iota. rewrite <- !app_comm_cons, <- !app_assoc, !zlen_cons.
    pose proof (zlen_nonneg (host ++ be_bytes 2 port ++ data)). pose proof (zlen_nonneg host).
    destruct (Z.ltb_spec (zlen (host ++ be_bytes 2 port ++ data) + 1 + 1) 2); [lia|].
    change (at_ (byte_of_Z ATYP_DOMAIN :: byte_of_Z (zlen host) :: host ++ be_bytes 2 port ++ data) 1)
      with (at_ (byte_of_Z (zlen host) :: host ++ be_bytes 2 port ++ data) 0).
    rewrite at_octet by lia. assert (Z.to_nat (zlen host) = length host) as -> by (unfold zlen; lia).
    destruct (Nat.eqb_spec (length host) 0) as [E|_]; [by destruct host|].
    cbn [length]. rewrite !length_app, length_be_bytes.
    destruct (Nat.ltb_spec (S (S (length host + (2 + length data)))) (4 + length host)); [lia|].
    cbn [drop Nat.add]. rewrite drop_0, take_app_length, drop_app_length, Hu.
    rewrite (take_app_length' (be_bytes 2 port)) by (symmetry; apply length_be_bytes). rewrite Hport.
    do 3 f_equal. lia.
Qed.

(** An empty host has no datagram form the decoder accepts. *)
Lemma parse_udp_empty port bs data :
  address_encoding [] port bs ->
  parse_udp_address (at_ (bs ++ data) 0) (bs ++ data) = Err SkZeroDomain.
Proof.
  intros He. inversion He as [o H|o H|Hl]; [discriminate H|discriminate H|].
  rewrite <- app_comm_cons, at_octet by (split; zcompute). unfold parse_udp_address.
  change (ATYP_DOMAIN =? ATYP_IPV4) with false. change (ATYP_DOMAIN =? ATYP_DOMAIN) with true.
  cbn iota. cbn [app]. rewrite !zlen_cons. pose proof (zlen_nonneg (be_bytes 2 port ++ data)).
  by destruct (Z.ltb_spec (zlen (be_bytes 2 port ++ data) + 1 + 1) 2); [lia|].
Qed.

Section udp_codec.
Context {B : BufMut} {BL : BufMutLaws B}.

Lemma encode_udp_bytes t data :
  encode_udp_datagram t data =
    match encode_address (t_address t) (t_port t) with
    | Ok bs => Ok ([Byte.x00; Byte.x00; Byte.x00] ++ bs ++ data)
    | Err e => Err e
    end.
Proof.
  unfold encode_udp_datagram. destruct (encode_address _ _) as [bs|e]; [|done].
  by rewrite !put_slice_spec, put_u8_spec, put_u16_spec, <- !app_assoc.
Qed.

Lemma decode_udp_bytes bs data :
  bs <> [] ->
  decode_udp_datagram ([Byte.x00; Byte.x00; Byte.x00] ++ bs ++ data) =
    match parse_udp_address (at_ (bs ++ data) 0) (bs ++ data) with
    | Err e => Err e
    | Ok (addr, port, consumed) => Ok (mkTargetAddr addr port, drop consumed (bs ++ data))
    end.
Proof.
  intros Hne. destruct bs as [|b bs]; [done|]. unfold decode_udp_datagram.
  rewrite zlen_app. change (zlen [Byte.x00; Byte.x00; Byte.x00]) with 3. rewrite <- app_comm_cons, zlen_cons.
  pose proof (zlen_nonneg (bs ++ data)). destruct (Z.ltb_spec (3 + (zlen (bs ++ data) + 1)) 4); [lia|].
  cbn [app]. change (at_ (Byte.x00 :: Byte.x00 :: Byte.x00 :: b :: bs ++ data) 2) with 0.
  change (at_ (Byte.x00 :: Byte.x00 :: Byte.x00 :: b :: bs ++ data) 3) with (at_ (b :: bs ++ data) 0).
  cbn [Z.eqb negb]. change (drop 3 (Byte.x00 :: Byte.x00 :: Byte.x00 :: b :: bs ++ data)) with (b :: bs ++ data).
  by destruct (parse_udp_address _ _) as [[[addr p] n]|e].
Qed.

(** ** Properties *)

(** C32: a UDP relay datagram decodes to what was encoded: the same data, the same port,
    and a host that names the same endpoint (an IPv6 literal comes back in full form).
    Encoding fails exactly for a host longer than 255 bytes that is not an address; an
    empty host is encoded, but the decoder refuses it. *)
Theorem udp_datagram_roundtrip host port data :
  utf8_valid host = true -> 0 <= port < 65536 ->
  match encode_udp_datagram (mkTargetAddr host port) data with
  | Err e => e = SkDomainTooLong (zlen host) /\ 255 < zlen host /\
             parse_ipv4 host = None /\ parse_ipv6 host = None
  | Ok p => if decide (host = []) then decode_udp_datagram p = Err SkZeroDomain
            else exists a, decode_udp_datagram p = Ok (mkTargetAddr a port, data) /\ same_host host a
  end.
Proof.
  intros Hu Hp. rewrite encode_udp_bytes. cbn [t_address t_port].
  pose proof (encode_address_cases host port) as He.
  destruct (encode_address host port) as [bs|e]; [|done].
  assert (bs <> []) as Hbs by (by destruct He).
  rewrite decode_udp_bytes by done. case_decide as Hh.
  - subst host. by rewrite (parse_udp_empty port).
  - destruct (parse_udp_encoding host port bs data He Hu Hp Hh) as (a & -> & Ha).
    exists a. split; [|done]. by rewrite drop_app_length.
Qed.
End udp_codec.

(** ** The handshake *)
Lemma bind_Ok {A C} (m : SIO A) (f : A -> SIO C) inp out a inp' out' :
  m inp out = (Ok a, inp', out') -> (m ≫= f) inp out = f a inp' out'.
Proof. intros H. unfold mbind, SIO_bind. by rewrite H. Qed.

(** The success reply of [server_request] to a CONNECT. *)
Definition connect_reply : bytes :=
  octets_of [SOCKS_VERSION; REP_SUCCESS; 0; ATYP_IPV4; 0; 0; 0; 0; 0; 0].

Lemma encoding_head host port bs :
  address_encoding host port bs ->
  exists atyp body, bs = byte_of_Z atyp :: body /\ 0 <= atyp < 256.
Proof. by destruct 1; eexists _, _; (split; [done|split; zcompute]). Qed.

Lemma server_request_connect relay host port bs more out :
  address_encoding host port bs -> utf8_valid host = true -> 0 <= port < 65536 ->
  exists a,
    server_request relay (octets_of [SOCKS_VERSION; CMD_CONNECT; 0] ++ bs ++ more) out =
      (Ok (Connect (mkTargetAddr a port), connect_reply), more, out) /\ same_host host a.
Proof.
  intros He Hu Hp. destruct (encoding_head _ _ _ He) as (atyp & body & -> & Ha).
  destruct (read_address_encoding host port _ atyp body more out He eq_refl Ha Hu Hp) as (a & Hr & Hs).
  exists a. split; [|done]. unfold server_request.
  change (octets_of [SOCKS_VERSION; CMD_CONNECT; 0] ++ (byte_of_Z atyp :: body) ++ more)
    with ((octets_of [SOCKS_VERSION; CMD_CONNECT; 0] ++ [byte_of_Z atyp]) ++ body ++ more).
  erewrite bind_Ok by (by apply read_exact_app).
  change (at_ _ 0) with SOCKS_VERSION. change (at_ _ 1) with CMD_CONNECT.
  change (at_ (octets_of [SOCKS_VERSION; CMD_CONNECT; 0] ++ [byte_of_Z atyp]) 3)
    with (at_ [byte_of_Z atyp] 0). rewrite at_octet by done. rewrite !Z.eqb_refl. cbn [negb].
  by erewrite bind_Ok by exact Hr.
Qed.

(** ** What the server side accepts *)

(** A client that sent [hello] asked for [r]; [rest] follows its request. *)
Definition requests (hello : bytes) (r : Socks5Result) (rest : bytes) : Prop :=
  exists relay reply out, socks5_server_accept relay hello [] = (Ok (r, reply), rest, out).

Lemma bind_Ok_inv {A C} (m : SIO A) (f : A -> SIO C) inp out c inp' out' :
  (m ≫= f) inp out = (Ok c, inp', out') ->
  exists a inp1 out1, m inp out = (Ok a, inp1, out1) /\ f a inp1 out1 = (Ok c, inp', out').
Proof.
  unfold mbind, SIO_bind. destruct (m inp out) as [[[a|e] inp1] out1]; [|done]. intros H. by exists a, inp1, out1.
Qed.

Lemma read_exact_Ok n inp out b inp' out' :
  read_exact n inp out = (Ok b, inp', out') -> length b = n /\ inp = b ++ inp' /\ out' = out.
Proof.
  unfold read_exact. destruct (Nat.leb_spec n (length inp)); [|done]. intros [= <- <- <-].
  by rewrite length_take, take_drop, Nat.min_l.
Qed.

(** ASCII text is UTF-8. *)
Definition ascii (b : byte) : bool := in_range b 0 127.
Lemma utf8_ascii l : forallb ascii l = true -> utf8_valid l = true.
Proof. induction l as [|b l IH]; [done|]. cbn. intros [H1 H2]%andb_true_iff. unfold ascii in H1. by rewrite H1, IH. Qed.

Lemma ascii_join sep l : forallb ascii sep = true -> forallb (forallb ascii) l = true -> forallb ascii (join sep l) = true.
Proof.
  intros Hs. induction l as [|x l IH]; [done|]. cbn [forallb]. intros [H1 H2]%andb_true_iff. specialize (IH H2).
  destruct l as [|y l]; [done|]. change (join sep (x :: y :: l)) with (x ++ sep ++ join sep (y :: l)).
  by rewrite !forallb_app, H1, Hs.
Qed.

Lemma show_ipv4_utf8 o : utf8_valid (show_ipv4 o) = true.
Proof.
  apply utf8_ascii, ascii_join; [done|]. induction o as [|b o IH]; [done|]. cbn [map forallb]. rewrite IH, andb_true_r.
  by destruct b.
Qed.

Lemma hex2_ascii b : forallb ascii (hex2 b) = true.
Proof. by destruct b. Qed.

Lemma hex_groups_ascii n : forall o, (length o <= n)%nat -> forallb (forallb ascii) (hex_groups o) = true.
Proof.
  induction n as [|n IH]; intros [|a [|b o]] Hn; cbn in Hn; try lia; try done; cbn [hex_groups forallb].
  - by rewrite hex2_ascii.
  - by rewrite forallb_app, !hex2_ascii, IH by lia.
Qed.

Lemma show_ipv6_full_utf8 o : utf8_valid (show_ipv6_full o) = true.
Proof. apply utf8_ascii, ascii_join; [done|]. by apply (hex_groups_ascii (length o)). Qed.

Lemma port_range b : length b = 2%nat -> 0 <= be_value b < 2 ^ 16.
Proof. intros H. pose proof (be_value_range b) as R. by rewrite H in R. Qed.

Lemma read_address_typed atyp inp out t inp' out' :
  read_address atyp inp out = (Ok t, inp', out') ->
  utf8_valid (t_address t) = true /\ 0 <= t_port t < 2 ^ 16.
Proof.
  unfold read_address. intros H. destruct (atyp =? ATYP_IPV4); [|destruct (atyp =? ATYP_DOMAIN); [|destruct (atyp =? ATYP_IPV6); [|done]]].
  - apply bind_Ok_inv in H as (b & i1 & o1 & [Hb _]%read_exact_Ok & [= <- _ _]).
    split; [apply show_ipv4_utf8|]. apply port_range. by rewrite length_drop, Hb.
  - apply bind_Ok_inv in H as (l & i1 & o1 & _ & H). apply bind_Ok_inv in H as (a & i2 & o2 & _ & H).
    apply bind_Ok_inv in H as (b & i3 & o3 & [Hb _]%read_exact_Ok & H).
    destruct (utf8_valid a) eqn:Hu; [|done]. injection H as <- _ _. by split; [|apply port_range].
  - apply bind_Ok_inv in H as (b & i1 & o1 & [Hb _]%read_exact_Ok & [= <- _ _]).
    split; [apply show_ipv6_full_utf8|]. apply port_range. by rewrite length_drop, Hb.
Qed.

(** The target of a CONNECT is a [String] and a [u16]. *)
Lemma requests_typed hello target rest :
  requests hello (Connect target) rest -> utf8_valid (t_address target) = true /\ 0 <= t_port target < 2 ^ 16.
Proof.
  intros (relay & reply & out & H). unfold socks5_server_accept in H.
  apply bind_Ok_inv in H as (hdr & i1 & o1 & _ & H). destruct (negb _); [done|]. destruct (_ =? 0); [done|].
  apply bind_Ok_inv in H as (ms & i2 & o2 & _ & H). destruct (negb _).
  { by apply bind_Ok_inv in H as (? & ? & ? & _ & H). }
  apply bind_Ok_inv in H as (u & i3 & o3 & _ & H). unfold server_request in H.
  apply bind_Ok_inv in H as (req & i4 & o4 & _ & H). destruct (negb _); [done|]. destruct (_ =? CMD_CONNECT).
  { apply bind_Ok_inv in H as (t & i5 & o5 & Ht & [= <- _ _ _]). by eapply read_address_typed. }
  destruct (_ =? CMD_UDP_ASSOCIATE).
  - apply bind_Ok_inv in H as (t & i5 & o5 & _ & H). by destruct relay.
  - by apply bind_Ok_inv in H as (? & ? & ? & _ & H).
Qed.

(** C31: the two ends of the handshake understand each other.  What the client side
    writes to connect through a proxy, the server side accepts as a CONNECT to the same
    endpoint and port, leaving the bytes that follow unread; and the answers of the
    server side make the client side succeed, having read exactly those answers. *)
Theorem handshake_agrees relay host port bs more more' :
  encode_address host port = Ok bs -> utf8_valid host = true -> 0 <= port < 65536 ->
  let method := octets_of [SOCKS_VERSION; AUTH_NONE] in
  exists a reply sent,
    socks5_client_connect host port (method ++ reply ++ more') [] = (Ok (), more', sent) /\
    socks5_server_accept relay (sent ++ more) [] =
      (Ok (Connect (mkTargetAddr a port), reply), more, method) /\
    same_host host a.
Proof.
  intros Hb Hu Hp method.
  assert (address_encoding host port bs) as He.
  { pose proof (encode_address_cases host port) as H. by rewrite Hb in H. }
  destruct (server_request_connect relay host port bs more method He Hu Hp) as (a & Hr & Hs).
  exists a, connect_reply, (octets_of [SOCKS_VERSION; 1; AUTH_NONE] ++ octets_of [SOCKS_VERSION; CMD_CONNECT; 0] ++ bs).
  split; [|split; [|done]].
  - unfold socks5_client_connect. erewrite bind_Ok by done.
    erewrite bind_Ok by (by apply read_exact_app). rewrite Hb.
    change (at_ method 0) with SOCKS_VERSION. change (at_ method 1) with AUTH_NONE. rewrite ?Z.eqb_refl; cbn [negb Z.eqb].
    erewrite bind_Ok by done.
    change (connect_reply ++ more') with (take 4 connect_reply ++ drop 4 connect_reply ++ more').
    erewrite bind_Ok by (by apply read_exact_app).
    change (at_ _ 0) with SOCKS_VERSION. change (at_ _ 1) with REP_SUCCESS. change (at_ _ 3) with ATYP_IPV4.
    rewrite ?Z.eqb_refl; cbn [negb Z.eqb]. unfold drain_address. change (ATYP_IPV4 =? ATYP_IPV4) with true. cbn iota.
    erewrite bind_Ok by (by apply (read_exact_app 6 (drop 4 connect_reply))). done.
  - rewrite <- !app_assoc.
    change (octets_of [SOCKS_VERSION; 1; AUTH_NONE]) with (octets_of [SOCKS_VERSION; 1] ++ octets_of [AUTH_NONE]).
    rewrite <- app_assoc. unfold socks5_server_accept.
    erewrite bind_Ok by (by apply read_exact_app).
    change (at_ _ 0) with SOCKS_VERSION. change (at_ _ 1) with 1. rewrite ?Z.eqb_refl; cbn [negb Z.eqb].
    erewrite bind_Ok by (by apply read_exact_app).
    change (existsb _ _) with true. cbn [negb].
    erewrite bind_Ok by done. exact Hr.
Qed.

(** ** Witnesses *)
#[local] Existing Instance RefBufMut.

(** "[::1]" as text, and "a.b". *)
Definition demo_v6 : bytes := [COLON; COLON; chr 49].
Definition demo_name : bytes := [chr 97; DOT; chr 98].

Lemma udp_datagram_roundtrip_witness :
  exists a,
    decode_udp_datagram ([Byte.x00; Byte.x00; Byte.x00; byte_of_Z ATYP_IPV6] ++ replicate 15 Byte.x00 ++
      [Byte.x01; Byte.x00; Byte.x35; Byte.xff]) = Ok (mkTargetAddr a 53, [Byte.xff]) /\ same_host demo_v6 a.
Proof. apply (udp_datagram_roundtrip (BL := RefBufMut_laws) demo_v6 53 [Byte.xff]); [reflexivity|lia]. Defined.

Lemma handshake_agrees_witness :
  exists a reply sent,
    socks5_client_connect demo_name 80 (octets_of [5; 0] ++ reply ++ []) [] = (Ok (), [], sent) /\
    socks5_server_accept None (sent ++ [Byte.x47]) [] =
      (Ok (Connect (mkTargetAddr a 80), reply), [Byte.x47], octets_of [5; 0]) /\
    same_host demo_name a.
Proof.
  apply (handshake_agrees None demo_name 80
    (octets_of [ATYP_DOMAIN; 3] ++ demo_name ++ be_bytes 2 80) [Byte.x47] []); [reflexivity..|lia].
Defined.
