(* ===== verification/Reassembler.v ===== *)
(** * The reassembler: frame handler, pending buffer, half-close, heartbeat

    Models [src/src/reassembler.rs].  An [Arc<VirtConnDe>] is an identifier of the store
    [vcs]: the connection map, the egress tasks and the fallback timers of a connection
    share one [VirtConnDe], which survives its removal from the map.  [handle_frame] is
    cut at its await points; the handlers between two of them run atomically here, and
    [REvent]s interleave them. *)
From Stdlib Require Import ZArith Lia.
From Stdlib Require Import Strings.Byte.
From stdpp Require Import base numbers list option fin_maps gmap.
From S2P Require Import Prelude Runtime Frames Reorder Tunnel Net Socks5.
Local Open Scope Z_scope.

(** ** Constants (durations in milliseconds, unless named [_SECS]) *)
Definition EGRESS_CHANNEL_CAP : Z := 512.
Definition HALF_CLOSE_FALLBACK : Z := 10 * 1000.
Definition CLOSED_TTL : Z := 60 * 1000.
Definition MAX_TUNNEL_LINKS : Z := 64.
Definition HANDSHAKING_TTL : Z := 120 * 1000.
Definition MAX_CONCURRENT_SYN_HANDSHAKES : Z := 64.
Definition TCP_IDLE_TIMEOUT_SECS : Z := 300.
Definition UDP_IDLE_TIMEOUT_SECS : Z := 60.
Definition MAX_PENDING_FRAMES_PER_CID : Z := 256.
Definition PENDING_TTL_SECS : Z := 30.

(** [AtomicUsize::fetch_sub]. *)
Definition usize_sub (a b : Z) : Z := wrap 64 (a - b).

(** [Instant::elapsed().as_secs()]. *)
Definition elapsed_secs (now since : Z) : Z := sat_sub now since / 1000.

(** ** Data *)

(** [UdpPair]: the v4 socket is always there. *)
Record UdpPair : Type := mkUdpPair { has_v6 : bool }.

Section reassembler.
Context {T : Tokio}.

Record VirtConnDe : Type := mkVirtConnDe {
  egress : option (chan bytes);
  reorder : ReorderBuf;
  cancel : notify;
  cancel_writer : notify;
  half_close : notify;
  fin_received : bool;
  fin_seq : Z;
  half_close_state : Z;
  is_udp : bool;
  udp_sock : option UdpPair;
  egress_eof : bool;
  created_at : Z;
  last_active : Z;
  vc_bytes_sent : Z;
  vc_bytes_recv : Z;
  vc_frames_sent : Z;
  vc_frames_recv : Z;
}.

(** The connection the TCP and UDP branches of the SYN handler build. *)
Definition new_tcp_conn (window_bytes now : Z) : VirtConnDe :=
  mkVirtConnDe (Some (chan_new EGRESS_CHANNEL_CAP)) (with_limit window_bytes) notify_new notify_new
    notify_new false 0 0 false None false now now 0 0 0 0.
Definition new_udp_conn (window_bytes now : Z) (sock : UdpPair) : VirtConnDe :=
  mkVirtConnDe None (with_limit window_bytes) notify_new notify_new notify_new false 0 0 true
    (Some sock) false now now 0 0 0 0.

Definition set_stream (e : option (chan bytes)) (r : ReorderBuf) (v : VirtConnDe) : VirtConnDe :=
  mkVirtConnDe e r (cancel v) (cancel_writer v) (half_close v) (fin_received v) (fin_seq v)
    (half_close_state v) (is_udp v) (udp_sock v) (egress_eof v) (created_at v) (last_active v)
    (vc_bytes_sent v) (vc_bytes_recv v) (vc_frames_sent v) (vc_frames_recv v).
Definition set_fin (b : bool) (sq : Z) (v : VirtConnDe) : VirtConnDe :=
  mkVirtConnDe (egress v) (reorder v) (cancel v) (cancel_writer v) (half_close v) b sq
    (half_close_state v) (is_udp v) (udp_sock v) (egress_eof v) (created_at v) (last_active v)
    (vc_bytes_sent v) (vc_bytes_recv v) (vc_frames_sent v) (vc_frames_recv v).
Definition set_half (hc : notify) (st : Z) (v : VirtConnDe) : VirtConnDe :=
  mkVirtConnDe (egress v) (reorder v) (cancel v) (cancel_writer v) hc (fin_received v) (fin_seq v)
    st (is_udp v) (udp_sock v) (egress_eof v) (created_at v) (last_active v)
    (vc_bytes_sent v) (vc_bytes_recv v) (vc_frames_sent v) (vc_frames_recv v).
Definition set_egress_eof (v : VirtConnDe) : VirtConnDe :=
  mkVirtConnDe (egress v) (reorder v) (cancel v) (cancel_writer v) (half_close v) (fin_received v)
    (fin_seq v) (half_close_state v) (is_udp v) (udp_sock v) true (created_at v) (last_active v)
    (vc_bytes_sent v) (vc_bytes_recv v) (vc_frames_sent v) (vc_frames_recv v).
(** Statistics of a received frame, and of a sent one, of [n] bytes. *)
Definition vc_count_recv (n now : Z) (v : VirtConnDe) : VirtConnDe :=
  mkVirtConnDe (egress v) (reorder v) (cancel v) (cancel_writer v) (half_close v) (fin_received v)
    (fin_seq v) (half_close_state v) (is_udp v) (udp_sock v) (egress_eof v) (created_at v) now
    (vc_bytes_sent v) (wrap 64 (vc_bytes_recv v + n)) (vc_frames_sent v)
    (wrap 64 (vc_frames_recv v + 1)).
Definition vc_count_sent (n now : Z) (v : VirtConnDe) : VirtConnDe :=
  mkVirtConnDe (egress v) (reorder v) (cancel v) (cancel_writer v) (half_close v) (fin_received v)
    (fin_seq v) (half_close_state v) (is_udp v) (udp_sock v) (egress_eof v) (created_at v) now
    (wrap 64 (vc_bytes_sent v + n)) (vc_bytes_recv v) (wrap 64 (vc_frames_sent v + 1))
    (vc_frames_recv v).

Definition signal_teardown (v : VirtConnDe) : VirtConnDe :=
  mkVirtConnDe (egress v) (reorder v) (notify_one (cancel v)) (notify_one (cancel_writer v))
    (half_close v) (fin_received v) (fin_seq v) (half_close_state v) (is_udp v) (udp_sock v)
    (egress_eof v) (created_at v) (last_active v)
    (vc_bytes_sent v) (vc_bytes_recv v) (vc_frames_sent v) (vc_frames_recv v).

(** [pe_cancel] names the [Notify] of the SYN handler in flight, if any. *)
Record PendingEntry : Type := mkPendingEntry {
  pe_frames : list Frame;
  pe_since : Z;
  pe_bytes : Z;
  pe_cancelled : bool;
  pe_cancel : option nat;
}.

Definition pending_new (now : Z) : PendingEntry := mkPendingEntry [] now 0 false None.

(** A SYN handler waiting at an await point. *)
Inductive SynTask : Type :=
| TaskUdpBind (cid : Z)
| TaskConnect (cid : Z) (target : SynTarget).

(** The maps and counters all tasks share, with the handlers in flight ([tasks], keyed
    by their [Notify], which lives in [hs_notifies]), the fallback timers armed by
    [start_half_close] and the datagrams handed to UDP sockets. *)
Record RState : Type := mkRState {
  vcs : gmap nat VirtConnDe;
  conns : gmap Z nat;
  pending : gmap Z PendingEntry;
  closed : gmap Z Z;
  handshaking : gmap Z Z;
  rpool : TunnelPool;
  pending_bytes : Z;
  resets : Z;
  hs_notifies : gmap nat notify;
  tasks : gmap nat SynTask;
  timers : list nat;
  udp_out : list (SocketAddr * bytes);
}.

Definition reassembler_init (p : TunnelPool) : RState :=
  mkRState ∅ ∅ ∅ ∅ ∅ p 0 0 ∅ ∅ [] [].

Definition with_vcs (x : gmap nat VirtConnDe) (s : RState) : RState :=
  mkRState x (conns s) (pending s) (closed s) (handshaking s) (rpool s) (pending_bytes s)
    (resets s) (hs_notifies s) (tasks s) (timers s) (udp_out s).
Definition with_conns (x : gmap Z nat) (s : RState) : RState :=
  mkRState (vcs s) x (pending s) (closed s) (handshaking s) (rpool s) (pending_bytes s)
    (resets s) (hs_notifies s) (tasks s) (timers s) (udp_out s).
Definition with_pending (x : gmap Z PendingEntry) (b : Z) (s : RState) : RState :=
  mkRState (vcs s) (conns s) x (closed s) (handshaking s) (rpool s) b
    (resets s) (hs_notifies s) (tasks s) (timers s) (udp_out s).
Definition with_closed (x : gmap Z Z) (s : RState) : RState :=
  mkRState (vcs s) (conns s) (pending s) x (handshaking s) (rpool s) (pending_bytes s)
    (resets s) (hs_notifies s) (tasks s) (timers s) (udp_out s).
Definition with_handshaking (x : gmap Z Z) (s : RState) : RState :=
  mkRState (vcs s) (conns s) (pending s) (closed s) x (rpool s) (pending_bytes s)
    (resets s) (hs_notifies s) (tasks s) (timers s) (udp_out s).
Definition with_rpool (x : TunnelPool) (s : RState) : RState :=
  mkRState (vcs s) (conns s) (pending s) (closed s) (handshaking s) x (pending_bytes s)
    (resets s) (hs_notifies s) (tasks s) (timers s) (udp_out s).
Definition with_resets (x : Z) (s : RState) : RState :=
  mkRState (vcs s) (conns s) (pending s) (closed s) (handshaking s) (rpool s) (pending_bytes s)
    x (hs_notifies s) (tasks s) (timers s) (udp_out s).
Definition with_notifies (x : gmap nat notify) (s : RState) : RState :=
  mkRState (vcs s) (conns s) (pending s) (closed s) (handshaking s) (rpool s) (pending_bytes s)
    (resets s) x (tasks s) (timers s) (udp_out s).
Definition with_tasks (x : gmap nat SynTask) (s : RState) : RState :=
  mkRState (vcs s) (conns s) (pending s) (closed s) (handshaking s) (rpool s) (pending_bytes s)
    (resets s) (hs_notifies s) x (timers s) (udp_out s).
Definition with_timers (x : list nat) (s : RState) : RState :=
  mkRState (vcs s) (conns s) (pending s) (closed s) (handshaking s) (rpool s) (pending_bytes s)
    (resets s) (hs_notifies s) (tasks s) x (udp_out s).
Definition with_udp_out (x : list (SocketAddr * bytes)) (s : RState) : RState :=
  mkRState (vcs s) (conns s) (pending s) (closed s) (handshaking s) (rpool s) (pending_bytes s)
    (resets s) (hs_notifies s) (tasks s) (timers s) x.

(** ** Small steps shared by the handlers *)
Definition upd_vc (g : VirtConnDe -> VirtConnDe) (i : nat) (s : RState) : RState :=
  with_vcs (alter g i (vcs s)) s.

Definition pool_send (f : Frame) (s : RState) : RState :=
  with_rpool (send f (rpool s)).2 s.

(** [closed.insert(cid, Instant::now())]. *)
Definition tombstone (cid now : Z) (s : RState) : RState :=
  with_closed (<[cid := now]> (closed s)) s.

(** [handshaking.remove(&cid)]. *)
Definition end_handshake (cid : Z) (s : RState) : RState :=
  with_handshaking (delete cid (handshaking s)) s.

(** [if let Some(notify) = &entry.cancel { notify.notify_one() }]. *)
Definition notify_cancel (c : option nat) (s : RState) : RState :=
  match c with
  | Some n => with_notifies (alter notify_one n (hs_notifies s)) s
  | None => s
  end.

(** [if let Some((_, vc)) = conns.remove(&cid) { signal_teardown(&vc) }]. *)
Definition remove_conn (cid : Z) (s : RState) : RState :=
  match conns s !! cid with
  | Some i => upd_vc signal_teardown i (with_conns (delete cid (conns s)) s)
  | None => s
  end.

(** The reset of a connection whose stream broke: tombstone, remove, RST, count. *)
Definition reset_conn_de (cid now : Z) (s : RState) : RState :=
  let s1 := remove_conn cid (tombstone cid now s) in
  let s2 := pool_send (frame_rst cid) s1 in
  with_resets (wrap 64 (resets s2 + 1)) s2.

(** ** The pending buffer *)
Definition remove_pending (cid : Z) (s : RState) : option PendingEntry * RState :=
  match pending s !! cid with
  | Some e => (Some e, with_pending (delete cid (pending s)) (usize_sub (pending_bytes s) (pe_bytes e)) s)
  | None => (None, s)
  end.

Definition cancel_entry (e : PendingEntry) : PendingEntry :=
  mkPendingEntry (pe_frames e) (pe_since e) (pe_bytes e) true (pe_cancel e).

(** The [get_mut] part of [fail_pending_conn], also run by an RST. *)
Definition cancel_pending (cid : Z) (s : RState) : RState :=
  match pending s !! cid with
  | Some e => notify_cancel (pe_cancel e)
                (with_pending (<[cid := cancel_entry e]> (pending s)) (pending_bytes s) s)
  | None => s
  end.

Definition fail_pending_conn (cid now : Z) (s : RState) : RState :=
  pool_send (frame_rst cid) (tombstone cid now (cancel_pending cid s)).

Context {D : DashIter}.

(** [iter().filter(key != exclude).min_by_key(since)]: the first minimum. *)
Definition oldest_entry (exclude : option Z) (m : gmap Z PendingEntry)
  : option (Z * PendingEntry) :=
  fold_left (fun best e =>
    if decide (Some e.1 = exclude) then best
    else match best with
         | None => Some e
         | Some b => if pe_since e.2 <? pe_since b.2 then Some e else Some b
         end) (dash_iter m) None.

(** The eviction of [try_reserve_pending]. *)
Definition evict (key : Z) (e : PendingEntry) (now : Z) (s : RState) : RState :=
  let s1 := with_pending (delete key (pending s)) (usize_sub (pending_bytes s) (pe_bytes e)) s in
  pool_send (frame_rst key) (tombstone key now (notify_cancel (pe_cancel e) s1)).

(** [try_reserve_pending]; [None] when the fuel runs out. *)
Fixpoint try_reserve_pending (fuel : nat) (exclude : option Z) (need now : Z) (s : RState)
  : option bool * RState :=
  if pending_bytes s + need <=? MAX_PENDING_BYTES
  then (Some true, with_pending (pending s) (pending_bytes s + need) s)
  else
    match oldest_entry exclude (pending s) with
    | None => (Some false, s)
    | Some (key, e) =>
      match fuel with
      | O => (None, s)
      | S fuel' => try_reserve_pending fuel' exclude need now (evict key e now s)
      end
    end.

(** One eviction per pending entry is enough. *)
Definition reserve (exclude : option Z) (need now : Z) (s : RState) : option bool * RState :=
  try_reserve_pending (size (pending s)) exclude need now s.

(** [sweep_stale_pending]: the [retain] pass, then one RST per swept entry. *)
Definition stale (now : Z) (e : PendingEntry) : bool :=
  negb (elapsed_secs now (pe_since e) <? PENDING_TTL_SECS).

Definition sweep_reset (now : Z) (s : RState) (ke : Z * PendingEntry) : RState :=
  pool_send (frame_rst ke.1) (tombstone ke.1 now (notify_cancel (pe_cancel ke.2) s)).

Definition sweep_stale_pending (now : Z) (s : RState) : RState :=
  let swept := filter (fun ke => stale now ke.2) (dash_iter (pending s)) in
  let freed := zsum (map (fun ke => pe_bytes ke.2) swept) in
  fold_left (sweep_reset now) swept
    (with_pending (filter (fun ke => negb (stale now ke.2)) (pending s))
       (usize_sub (pending_bytes s) freed) s).

(** ** Half-close *)
Definition force_close (v : VirtConnDe) : VirtConnDe :=
  if half_close_state v =? 2 then v else set_half (notify_one (half_close v)) 2 v.

(** The normal close, at the grain of its atomic accesses: the compare-exchange 0 -> 1,
    the completeness check, and the final store or the roll-back compare-exchange
    1 -> 0. *)
Definition close_begin (v : VirtConnDe) : option VirtConnDe :=
  if half_close_state v =? 0 then Some (set_half (half_close v) 1 v) else None.
Definition close_check (v : VirtConnDe) : bool := is_complete_through (reorder v) (fin_seq v).
Definition close_commit (complete : bool) (v : VirtConnDe) : VirtConnDe :=
  if complete then set_half (notify_one (half_close v)) 2 v
  else if half_close_state v =? 1 then set_half (half_close v) 0 v else v.

Definition close_write_half (force : bool) (v : VirtConnDe) : VirtConnDe :=
  if force then force_close v
  else match close_begin v with
       | None => v
       | Some v1 => close_commit (close_check v1) v1
       end.

Definition start_half_close (i : nat) (fseq : Z) (s : RState) : RState :=
  match vcs s !! i with
  | None => s
  | Some v =>
    if fin_received v then s
    else upd_vc (fun v => close_write_half false (set_fin true fseq v)) i
           (with_timers (timers s ++ [i]) s)
  end.

Definition conn_done (v : VirtConnDe) : bool :=
  fin_received v && egress_eof v && negb (half_close_state v <? 2).

Definition finish_if_done (i : nat) (cid now : Z) (s : RState) : RState :=
  match vcs s !! i with
  | None => s
  | Some v =>
    if conn_done v then
      let s1 := tombstone cid now s in with_conns (delete cid (conns s1)) s1
    else s
  end.

(** ** UDP datagrams *)
Context (lookup_host : bytes -> Z -> option IpAddr).

(** [UdpPair::send_to]: the datagram the socket of the right family sends, if any. *)
Definition udp_send_to (sock : UdpPair) (host : bytes) (port : Z) (data : bytes)
  : option (SocketAddr * bytes) :=
  match match parse_ip host with Some ip => Some ip | None => lookup_host host port end with
  | None => None
  | Some ip =>
    match ip with
    | V4 _ => Some (mkSocketAddr ip port, data)
    | V6 _ => if has_v6 sock then Some (mkSocketAddr ip port, data) else None
    end
  end.

Definition forward_udp_datagram (v : VirtConnDe) (payload : bytes) (s : RState) : RState :=
  match decode_udp_datagram payload with
  | Err _ => s
  | Ok (target, data) =>
    match udp_sock v with
    | None => s
    | Some sock =>
      match udp_send_to sock (t_address target) (t_port target) data with
      | Some d => with_udp_out (udp_out s ++ [d]) s
      | None => s
      end
    end
  end.

(** ** DATA *)

(** [for chunk in ready { egress().write(chunk) }] until one fails. *)
Fixpoint egress_write_all (ready : list bytes) (c : chan bytes) : bool * chan bytes :=
  match ready with
  | [] => (true, c)
  | b :: ready' =>
    match try_send b c with
    | (None, c') => egress_write_all ready' c'
    | (Some _, c') => (false, c')
    end
  end.

Inductive deliver_outcome : Set := Delivered | Duplicate | Broken.

(** Push one DATA frame and write what became ready, under the reorder lock. *)
Definition deliver (sq : Z) (p : bytes) (v : VirtConnDe) : deliver_outcome * VirtConnDe :=
  let '(r, ro) := push (reorder v) sq p in
  if accepted r then
    match egress v with
    | None => (Broken, set_stream None ro v)
    | Some c =>
      let '(ok, c') := egress_write_all (ready r) c in
      (if ok then Delivered else Broken, set_stream (Some c') ro v)
    end
  else (if overflow r then Broken else Duplicate, set_stream (egress v) ro v).

(** DATA for an established connection. *)
Definition data_conn (i : nat) (f : Frame) (now : Z) (s : RState) : RState :=
  let cid := conn_id f in
  match vcs s !! i with
  | None => s
  | Some v =>
    let plen := zlen (payload f) in
    if is_udp v then
      upd_vc (vc_count_recv plen now) i (forward_udp_datagram v (payload f) s)
    else
      match deliver (seq f) (payload f) v with
      | (Broken, v') => reset_conn_de cid now (upd_vc (fun _ => v') i s)
      | (Duplicate, v') => upd_vc (fun _ => v') i s
      | (Delivered, v') =>
        let v2 := vc_count_recv plen now v' in
        if fin_received v2
        then finish_if_done i cid now (upd_vc (fun _ => close_write_half false v2) i s)
        else upd_vc (fun _ => v2) i s
      end
  end.

(** DATA for a cid without a connection: late, before its SYN, or dropped.  [true]: the
    entry vanished and a connection is there now, the frame is delivered again. *)
Definition push_pending (f : Frame) (n : Z) (e : PendingEntry) : PendingEntry :=
  mkPendingEntry (pe_frames e ++ [f]) (pe_since e) (pe_bytes e + n) (pe_cancelled e) (pe_cancel e).

Definition data_unknown (f : Frame) (now : Z) (s : RState) : bool * RState :=
  let cid := conn_id f in
  let plen := zlen (payload f) in
  if decide (is_Some (closed s !! cid)) then (false, pool_send (frame_rst cid) s)
  else if decide (is_Some (pending s !! cid)) then
    match reserve (Some cid) plen now s with
    | (Some true, s1) =>
      let refunded := with_pending (pending s1) (usize_sub (pending_bytes s1) plen) s1 in
      match pending s1 !! cid with
      | Some e =>
        if zlen (pe_frames e) <? MAX_PENDING_FRAMES_PER_CID
        then (false, with_pending (<[cid := push_pending f plen e]> (pending s1)) (pending_bytes s1) s1)
        else (false, fail_pending_conn cid now refunded)
      | None => (bool_decide (is_Some (conns s1 !! cid)), refunded)
      end
    | (_, s1) => (false, fail_pending_conn cid now s1)
    end
  else if Z.of_nat (size (pending s)) <? MAX_PENDING_CIDS then
    match reserve None plen now s with
    | (Some true, s1) =>
      (false, with_pending (<[cid := push_pending f plen (pending_new now)]> (pending s1))
                (pending_bytes s1) s1)
    | (_, s1) => (false, fail_pending_conn cid now s1)
    end
  else (false, fail_pending_conn cid now s).

Definition handle_data (f : Frame) (now : Z) (s : RState) : RState :=
  match conns s !! conn_id f with
  | Some i => data_conn i f now s
  | None =>
    let '(again, s') := data_unknown f now s in
    match again, conns s' !! conn_id f with
    | true, Some i => data_conn i f now s'
    | _, _ => s'
    end
  end.

(** ** FIN and RST *)
Definition handle_fin (f : Frame) (now : Z) (s : RState) : RState :=
  let cid := conn_id f in
  match conns s !! cid with
  | Some i =>
    match vcs s !! i with
    | None => s
    | Some v =>
      if is_udp v then s else finish_if_done i cid now (start_half_close i (seq f) s)
    end
  | None =>
    if decide (is_Some (closed s !! cid)) then s
    else
      match pending s !! cid with
      | Some e =>
        if zlen (pe_frames e) <? MAX_PENDING_FRAMES_PER_CID
        then with_pending (<[cid := push_pending f 0 e]> (pending s)) (pending_bytes s) s
        else fail_pending_conn cid now s
      | None =>
        if Z.of_nat (size (pending s)) <? MAX_PENDING_CIDS
        then with_pending (<[cid := push_pending f 0 (pending_new now)]> (pending s)) (pending_bytes s) s
        else fail_pending_conn cid now s
      end
  end.

Definition handle_rst (cid now : Z) (s : RState) : RState :=
  match conns s !! cid with
  | Some _ =>
    let s1 := remove_conn cid (tombstone cid now s) in
    with_resets (wrap 64 (resets s1 + 1)) s1
  | None => tombstone cid now (cancel_pending cid s)
  end.

(** ** SYN *)

(** Every failure of the handshake: drop the pending frames, tombstone, RST. *)
Definition syn_fail (cid now : Z) (s : RState) : RState :=
  pool_send (frame_rst cid)
    (tombstone cid now (end_handshake cid (remove_pending cid s).2)).

(** The SYN handler up to its first await; [n] names its cancel [Notify]. *)
Definition handle_syn (f : Frame) (n : nat) (now : Z) (s : RState) : RState :=
  let cid := conn_id f in
  if decide (is_Some (conns s !! cid)) then s
  else
    let already := bool_decide (is_Some (handshaking s !! cid)) in
    let s1 := with_handshaking (<[cid := now]> (handshaking s)) s in
    if already then s1
    else
      let e := default (pending_new now) (pending s1 !! cid) in
      let e' := mkPendingEntry (pe_frames e) (pe_since e) (pe_bytes e) (pe_cancelled e) (Some n) in
      let s2 := with_notifies (<[n := notify_new]> (hs_notifies s1))
                  (with_pending (<[cid := e']> (pending s1)) (pending_bytes s1) s1) in
      if decide (is_Some (closed s2 !! cid)) then end_handshake cid (remove_pending cid s2).2
      else
        match syn_target_decode (payload f) with
        | Err _ => syn_fail cid now s2
        | Ok t =>
          if negb (proto t =? PROTO_TCP) && negb (proto t =? PROTO_UDP) then syn_fail cid now s2
          else
            with_tasks (<[n := if proto t =? PROTO_UDP then TaskUdpBind cid else TaskConnect cid t]>
                          (tasks s2)) s2
        end.

(** After [bind_udp_pair().await]. *)
Definition install_conn (i : nat) (v : VirtConnDe) (cid : Z) (s : RState) : RState :=
  with_conns (<[cid := i]> (conns s)) (with_vcs (<[i := v]> (vcs s)) s).

Definition drop_cancelled (cid now : Z) (s : RState) : RState :=
  end_handshake cid (tombstone cid now (remove_conn cid s)).

Definition syn_udp (window_bytes cid : Z) (i : nat) (bound : option UdpPair) (now : Z) (s : RState)
  : RState :=
  match bound with
  | None => syn_fail cid now s
  | Some sock =>
    let v := new_udp_conn window_bytes now sock in
    let s1 := install_conn i v cid s in
    match remove_pending cid s1 with
    | (Some e, s2) =>
      if pe_cancelled e then drop_cancelled cid now s2
      else
        end_handshake cid
          (fold_left (fun st f => if has_flag f FLAG_DATA
                                  then forward_udp_datagram v (payload f) st else st)
             (pe_frames e) s2)
    | (None, s2) => end_handshake cid s2
    end
  end.

(** The replay of the frames that arrived during the connect: whether the stream broke,
    the FIN seen, the connection. *)
Fixpoint replay (fs : list Frame) (fin : option Z) (v : VirtConnDe)
  : bool * option Z * VirtConnDe :=
  match fs with
  | [] => (false, fin, v)
  | f :: fs' =>
    if has_flag f FLAG_DATA then
      match deliver (seq f) (payload f) v with
      | (Broken, v') => (true, fin, v')
      | (Duplicate, v') => replay fs' fin v'
      | (Delivered, v') =>
        replay fs' fin (if fin_received v' then close_write_half false v' else v')
      end
    else if has_flag f FLAG_FIN then replay fs' (Some (seq f)) v
    else replay fs' fin v
  end.

Definition syn_drain (cid : Z) (i : nat) (now : Z) (s : RState) : RState :=
  match remove_pending cid s with
  | (None, s1) => end_handshake cid s1
  | (Some e, s1) =>
    if pe_cancelled e then drop_cancelled cid now s1
    else
      match vcs s1 !! i with
      | None => end_handshake cid s1
      | Some v =>
        let '(broken, fin, v') := replay (pe_frames e) None v in
        let s2 := upd_vc (fun _ => v') i s1 in
        if broken then end_handshake cid (reset_conn_de cid now s2)
        else
          end_handshake cid
            match fin with
            | Some sq => finish_if_done i cid now (start_half_close i sq s2)
            | None => s2
            end
      end
  end.

Inductive connect_outcome : Set := ConnectOk | ConnectErr | ConnectTimeout | ConnectCancelled.

(** After the connect: [i] is the identifier of the new [Arc]. *)
Definition syn_connected (window_bytes cid : Z) (i : nat) (o : connect_outcome) (now : Z)
    (s : RState) : RState :=
  match o with
  | ConnectErr | ConnectTimeout => syn_fail cid now s
  | ConnectCancelled => tombstone cid now (end_handshake cid (remove_pending cid s).2)
  | ConnectOk =>
    if decide (is_Some (closed s !! cid)) then end_handshake cid (remove_pending cid s).2
    else syn_drain cid i now (install_conn i (new_tcp_conn window_bytes now) cid s)
  end.

(** [handle_frame] up to its first await, in the order of the code's tests. *)
Definition handle_frame (f : Frame) (n : nat) (now : Z) (s : RState) : RState :=
  if has_flag f FLAG_SYN then handle_syn f n now s
  else if has_flag f FLAG_DATA then handle_data f now s
  else if has_flag f FLAG_FIN then handle_fin f now s
  else if has_flag f FLAG_RST then handle_rst (conn_id f) now s
  else s.

(** [dispatch_frame]: whether the SYN runs on its own task, and the free permits. *)
Definition dispatch_frame (f : Frame) (permits : Z) : bool * Z :=
  if has_flag f FLAG_SYN && (0 <? permits) then (true, permits - 1) else (false, permits).

(** ** UDP responses *)
Definition normalize_ip (ip : IpAddr) : bytes :=
  match ip with
  | V6 o => match to_ipv4_mapped o with Some v4 => show_ipv4 v4 | None => show_ipv6 o end
  | V4 o => show_ipv4 o
  end.

(** One datagram received by the response reader of [cid]; [sq] is its next seq. *)
Definition udp_response `{BufMut} (cid sq : Z) (src : SocketAddr) (data : bytes) (now : Z)
    (s : RState) : Z * RState :=
  match encode_udp_datagram (mkTargetAddr (normalize_ip (sa_ip src)) (sa_port src)) data with
  | Err _ => (sq, s)
  | Ok dgram =>
    if zlen dgram >? MAX_PAYLOAD then (sq, s)
    else
      let '(sent, p) := send (frame_data cid sq dgram) (rpool s) in
      let s1 := with_rpool p s in
      if sent then
        (u64_succ sq,
         match conns s1 !! cid with
         | Some i => upd_vc (vc_count_sent (zlen dgram) now) i s1
         | None => s1
         end)
      else (sq, s1)
  end.

(** ** The egress reader *)

(** The task: its connection, the next DATA seq, whether it returned. *)
Record EgressReader : Type := mkEgressReader {
  rd_cid : Z; rd_vc : nat; rd_seq : Z; rd_done : bool
}.

(** [read_from_egress] starts. *)
Definition egress_reader_init (cid : Z) (i : nat) : EgressReader := mkEgressReader cid i 1 false.

(** How the race of a send against [cancel] and the timeout ended. *)
Inductive send_race : Set := RaceSent | RaceTimeout | RaceCancelled.

Inductive reader_event : Type :=
| RdCancel                            (** [cancel.notified()] *)
| RdChunk (chunk : bytes) (r : send_race) (p : TunnelPool) (** a read; the pool after the send *)
| RdEof (r : send_race) (p : TunnelPool).  (** a read of 0 bytes or an error, and the FIN *)

Definition reader_step (e : reader_event) (now : Z) (t : EgressReader) (s : RState)
  : EgressReader * RState :=
  let cid := rd_cid t in
  let return_ := mkEgressReader cid (rd_vc t) (rd_seq t) true in
  match e with
  | RdCancel => (return_, s)
  | RdChunk chunk r p =>
    let s1 := with_rpool p s in
    match r with
    | RaceSent =>
      (mkEgressReader cid (rd_vc t) (u64_succ (rd_seq t)) false,
       upd_vc (vc_count_sent (zlen chunk) now) (rd_vc t) s1)
    | RaceCancelled => (return_, s1)
    | RaceTimeout =>
      (return_, pool_send (frame_rst cid) (remove_conn cid (tombstone cid now s1)))
    end
  | RdEof r p =>
    let s1 := with_rpool p s in
    let s2 := match r with RaceSent => s1 | _ => pool_send (frame_rst cid) s1 end in
    (return_, finish_if_done (rd_vc t) cid now (upd_vc set_egress_eof (rd_vc t) s2))
  end.

(** ** Heartbeat and link death *)
Definition conn_idle (now : Z) (v : VirtConnDe) : bool :=
  elapsed_secs now (last_active v) >?
    (if is_udp v then UDP_IDLE_TIMEOUT_SECS else TCP_IDLE_TIMEOUT_SECS).

Definition sweep_conn (now : Z) (s : RState) (e : Z * nat) : RState :=
  match vcs s !! e.2 with
  | Some v =>
    if conn_idle now v
    then pool_send (frame_rst e.1) (remove_conn e.1 (tombstone e.1 now s))
    else s
  | None => s
  end.

Definition heartbeat (now now_ms : Z) (s : RState) : RState :=
  let s1 := with_rpool (sweep_idle now_ms LINK_IDLE_TIMEOUT_MS (compact (rpool s))).2 s in
  let s2 := fold_left (sweep_conn now) (dash_iter (conns s1)) s1 in
  let s3 := with_closed (filter (fun ci => sat_sub now ci.2 < CLOSED_TTL) (closed s2)) s2 in
  let s4 := with_handshaking
              (filter (fun ci => sat_sub now ci.2 < HANDSHAKING_TTL) (handshaking s3)) s3 in
  with_resets 0 (sweep_stale_pending now s4).

(** After [drain_frames] returned on the reassembler side: control frames are sent again,
    a lost DATA frame resets its connection. *)
Definition recover_lost_de (lost : list Frame) (s : RState) : RState :=
  fold_left (fun s f =>
    if negb (Z.land (flags f) (Z.lor FLAG_SYN (Z.lor FLAG_FIN FLAG_RST)) =? 0)
    then pool_send f s else pool_send (frame_rst (conn_id f)) s) lost s.

(** A connection accepted by [run_tunnel_listener]; [i] names the new link. *)
Definition accept_tunnel (i : nat) (now_ms : Z) (s : RState) : RState :=
  if alive_count (rpool s) >=? MAX_TUNNEL_LINKS then s
  else with_rpool (pool_add i (new_link now_ms) (rpool s)) s.

(** ** Events *)
Inductive REvent : Type :=
| EvFrame (f : Frame) (n : nat)                  (** a frame reached [handle_frame] *)
| EvUdpBound (n i : nat) (bound : option UdpPair)
| EvConnected (n i : nat) (o : connect_outcome)
| EvFallback (i : nat)                           (** a fallback timer fired *)
| EvReader (t : EgressReader) (e : reader_event)
| EvUdpResponse (cid sq : Z) (src : SocketAddr) (data : bytes)
| EvHeartbeat (now_ms : Z)
| EvLost (lost : list Frame)
| EvAccept (i : nat) (now_ms : Z).

Context {B : BufMut} (window_bytes : Z).

(** The waiting SYN handler [n] resumes. *)
Definition resume (n : nat) (g : SynTask -> option (RState -> RState)) (s : RState)
  : option RState :=
  match tasks s !! n with
  | None => None
  | Some t => match g t with
              | Some h => Some (h (with_tasks (delete n (tasks s)) s))
              | None => None
              end
  end.

(** One event at time [now]; [None] when it cannot happen in this state. *)
Definition rstep (e : REvent) (now : Z) (s : RState) : option RState :=
  match e with
  | EvFrame f n =>
    if decide (hs_notifies s !! n = None) then Some (handle_frame f n now s) else None
  | EvUdpBound n i bound =>
    if decide (vcs s !! i = None) then
      resume n (fun t => match t with
                         | TaskUdpBind cid => Some (syn_udp window_bytes cid i bound now)
                         | TaskConnect _ _ => None
                         end) s
    else None
  | EvConnected n i o =>
    if decide (vcs s !! i = None) then
      resume n (fun t => match t with
                         | TaskConnect cid _ => Some (syn_connected window_bytes cid i o now)
                         | TaskUdpBind _ => None
                         end) s
    else None
  | EvFallback i =>
    if decide (i ∈ timers s) then Some (upd_vc (close_write_half true) i s) else None
  | EvReader t ev => if rd_done t then None else Some (reader_step ev now t s).2
  | EvUdpResponse cid sq src data => Some (udp_response cid sq src data now s).2
  | EvHeartbeat now_ms => Some (heartbeat now now_ms s)
  | EvLost lost => Some (recover_lost_de lost s)
  | EvAccept i now_ms =>
    if decide (arcs (rpool s) !! i = None) then Some (accept_tunnel i now_ms s) else None
  end.

Fixpoint rrun (es : list (REvent * Z)) (s : RState) : option RState :=
  match es with
  | [] => Some s
  | (e, now) :: es' => match rstep e now s with Some s' => rrun es' s' | None => None end
  end.
End reassembler.
