(* ===== verification/ReassemblerPending.v ===== *)
(** * The pending buffer of the reassembler

    Frames that arrive before their SYN finished its handshake.  The budget accounting
    of [Reassembler] is exact and bounded on every path, eviction terminates and is
    oldest first, and no cid whose frames were dropped survives untombstoned. *)
From Stdlib Require Import ZArith Lia.
From Stdlib Require Import Strings.Byte.
From stdpp Require Import base numbers list option fin_maps gmap.
From S2P Require Import Prelude Runtime Frames Reorder Tunnel Net Socks5 Reassembler.
Local Open Scope Z_scope.

Section pending_facts.
Context {T : Tokio} {TL : TokioLaws T} {D : DashIter} {DL : DashIterLaws D}.

(** ** The invariant *)
Definition data_len (f : Frame) : Z := if has_flag f FLAG_DATA then zlen (payload f) else 0.

(** What the decoder guarantees of a frame. *)
Definition wire_frame (f : Frame) : Prop :=
  0 <= seq f < 2 ^ 64 /\ zlen (payload f) <= MAX_PAYLOAD.

Record entry_ok (e : PendingEntry) : Prop := {
  eo_bytes : pe_bytes e = zsum (map data_len (pe_frames e));
  eo_count : zlen (pe_frames e) <= MAX_PENDING_FRAMES_PER_CID;
  eo_frames : Forall wire_frame (pe_frames e);
}.

(** [m] with the counter at [b], of which [held] is reserved for a frame in hand. *)
Record pend_ok (held : Z) (m : gmap Z PendingEntry) (b : Z) : Prop := {
  po_total : b = map_total pe_bytes m + held;
  po_budget : b <= MAX_PENDING_BYTES;
  po_entries : map_Forall (fun _ e => entry_ok e) m;
}.

Definition pending_inv (s : RState) : Prop := pend_ok 0 (pending s) (pending_bytes s).

Lemma data_len_nonneg f : 0 <= data_len f.
Proof. unfold data_len. destruct (has_flag _ _); [apply zlen_nonneg|lia]. Qed.

Lemma entry_ok_nonneg e : entry_ok e -> 0 <= pe_bytes e.
Proof.
  intros [-> _ _]. apply zsum_nonneg, Forall_forall.
  intros x (f & -> & _)%list_elem_of_fmap. apply data_len_nonneg.
Qed.

Lemma entries_nonneg (m : gmap Z PendingEntry) :
  map_Forall (fun _ e => entry_ok e) m -> map_Forall (fun _ e => 0 <= pe_bytes e) m.
Proof. intros H k e Hk. by apply entry_ok_nonneg, (H k). Qed.

Lemma usize_sub_small a b : 0 <= b <= a -> a <= MAX_PENDING_BYTES -> usize_sub a b = a - b.
Proof.
  intros Hb Ha. apply wrap_small. split; [lia|].
  apply Z.le_lt_trans with MAX_PENDING_BYTES; [lia|zcompute].
Qed.

Lemma pend_ok_delete h m b k e :
  0 <= h -> pend_ok h m b -> m !! k = Some e ->
  pend_ok h (delete k m) (usize_sub b (pe_bytes e)).
Proof.
  intros Hh [Ht Hb He] Hk.
  pose proof (map_total_ge pe_bytes m k e (entries_nonneg m He) Hk).
  pose proof (entry_ok_nonneg e (He k e Hk)).
  rewrite usize_sub_small by lia. split.
  - rewrite (map_total_delete _ _ _ _ Hk). lia.
  - lia.
  - by apply map_Forall_delete.
Qed.

Lemma pend_ok_refund h m b :
  0 <= h -> pend_ok h m b -> pend_ok 0 m (usize_sub b h).
Proof.
  intros Hh [Ht Hb He]. pose proof (map_total_nonneg pe_bytes m (entries_nonneg m He)).
  rewrite usize_sub_small by lia. split; [lia|lia|done].
Qed.

Lemma pend_ok_insert h m b k e0 e :
  pend_ok h m b -> m !! k = Some e0 -> entry_ok e -> pe_bytes e = pe_bytes e0 + h ->
  pend_ok 0 (<[k := e]> m) b.
Proof.
  intros [Ht Hb He] Hk Hok Hby. split.
  - rewrite (map_total_insert _ _ _ _ _ Hk). lia.
  - done.
  - by apply map_Forall_insert_2.
Qed.

Lemma pend_ok_insert_new h m b k e :
  pend_ok h m b -> m !! k = None -> entry_ok e -> pe_bytes e = h ->
  pend_ok 0 (<[k := e]> m) b.
Proof.
  intros [Ht Hb He] Hk Hok Hby. split.
  - rewrite map_total_insert_new by done. lia.
  - done.
  - by apply map_Forall_insert_2.
Qed.

Lemma pending_new_ok now : entry_ok (pending_new now).
Proof. by split. Qed.

Lemma push_pending_ok f n e :
  entry_ok e -> n = data_len f -> zlen (pe_frames e) < MAX_PENDING_FRAMES_PER_CID ->
  wire_frame f -> entry_ok (push_pending f n e).
Proof.
  intros [Hb Hc Hf] -> Hl Hp. split; cbn; [| |by apply Forall_app_2; [|apply Forall_singleton]].
  - rewrite map_app, zsum_app, Hb. unfold zsum. cbn. lia.
  - rewrite zlen_app. unfold zlen at 2. cbn. lia.
Qed.

(** ** Frame conditions: what leaves the pending buffer alone *)
Definition same_pending (s s' : RState) : Prop :=
  pending s' = pending s /\ pending_bytes s' = pending_bytes s.

Lemma same_pending_notify c s : same_pending s (notify_cancel c s).
Proof. by destruct c. Qed.
Lemma same_pending_remove_conn cid s : same_pending s (remove_conn cid s).
Proof. unfold remove_conn. by destruct (conns s !! cid). Qed.
Lemma same_pending_inv s s' : same_pending s s' -> pending_inv s -> pending_inv s'.
Proof. unfold pending_inv. by intros [-> ->]. Qed.
Lemma same_pending_trans s1 s2 s3 :
  same_pending s1 s2 -> same_pending s2 s3 -> same_pending s1 s3.
Proof. unfold same_pending. intros [-> ->] [-> ->]. done. Qed.

(** ** Eviction *)
Lemma oldest_fold ex (l : list (Z * PendingEntry)) best :
  let r := fold_left (fun best e =>
    if decide (Some e.1 = ex) then best
    else match best with
         | None => Some e
         | Some b => if pe_since e.2 <? pe_since b.2 then Some e else Some b
         end) l best in
  match r with
  | None => best = None /\ forall e, e ∈ l -> Some e.1 = ex
  | Some b => (best = Some b \/ b ∈ l /\ Some b.1 <> ex) /\
      (forall b0, best = Some b0 -> pe_since b.2 <= pe_since b0.2) /\
      forall e, e ∈ l -> Some e.1 <> ex -> pe_since b.2 <= pe_since e.2
  end.
Proof.
  revert best. induction l as [|x l IH]; intros best; cbn [fold_left].
  { destruct best as [b|]; [|split; [done|]; intros e He; by apply elem_of_nil in He].
    split_and!; [by left|intros ? [= ->]; lia|]. intros e He. by apply elem_of_nil in He. }
  case_decide as Hx.
  - specialize (IH best). cbv zeta in IH |- *. destruct (fold_left _ l best) as [b|].
    + destruct IH as (H1 & H2 & H3). split_and!; [|done|].
      * destruct H1 as [?|[? ?]]; [by left|right]. split; [by apply elem_of_cons; right|done].
      * intros e [->|He]%elem_of_cons Hne; [done|auto].
    + destruct IH as [-> H2]. split; [done|]. intros e [->|He]%elem_of_cons; auto.
  - set (best' := match best with None => _ | Some b => _ end).
    assert (Hb' : exists b', best' = Some b' /\ (best = Some b' \/ b' = x) /\
      pe_since b'.2 <= pe_since x.2 /\ forall b0, best = Some b0 -> pe_since b'.2 <= pe_since b0.2).
    { unfold best'. destruct best as [b|]; [destruct (Z.ltb_spec (pe_since x.2) (pe_since b.2))|].
      - exists x. split_and!; [done|by right|lia|]. intros ? [= ->]. lia.
      - exists b. split_and!; [done|by left|lia|]. intros ? [= ->]. lia.
      - exists x. split_and!; [done|by right|lia|done]. }
    destruct Hb' as (b' & -> & Hfrom & Hx' & Hold).
    specialize (IH (Some b')). cbv zeta in IH |- *. destruct (fold_left _ l (Some b')) as [b|].
    + destruct IH as (H1 & H2 & H3). specialize (H2 b' eq_refl). split_and!.
      * destruct H1 as [[= <-]|[? ?]].
        -- destruct Hfrom as [?| ->]; [by left|right]. split; [apply elem_of_cons; by left|done].
        -- right. split; [by apply elem_of_cons; right|done].
      * intros b0 Hb0. specialize (Hold b0 Hb0). lia.
      * intros e [->|He]%elem_of_cons Hne; [lia|auto].
    + by destruct IH.
Qed.

Lemma oldest_entry_Some ex m k e :
  oldest_entry ex m = Some (k, e) ->
  m !! k = Some e /\ Some k <> ex /\
  forall k' e', m !! k' = Some e' -> Some k' <> ex -> pe_since e <= pe_since e'.
Proof.
  intros H. unfold oldest_entry in H. pose proof (oldest_fold ex (dash_iter m) None) as Ho.
  cbv zeta in Ho. rewrite H in Ho. destruct Ho as ([?|[Hin Hne]] & _ & Hmin); [done|].
  split_and!; [by apply elem_of_dash_iter|done|].
  intros k' e' Hk' Hne'. apply (Hmin (k', e')); [by apply elem_of_dash_iter|done].
Qed.

Lemma oldest_entry_None ex m :
  oldest_entry ex m = None -> forall k e, m !! k = Some e -> Some k = ex.
Proof.
  intros H k e Hk. unfold oldest_entry in H. pose proof (oldest_fold ex (dash_iter m) None) as Ho.
  cbv zeta in Ho. rewrite H in Ho. destruct Ho as [_ Ho].
  apply (Ho (k, e)). by apply elem_of_dash_iter.
Qed.

(** The evictions one reservation makes: each while over budget, each the oldest entry
    that is not excluded. *)
Inductive evictions (ex : option Z) (need now : Z) : RState -> list Z -> RState -> Prop :=
| evict_none s : evictions ex need now s [] s
| evict_one s k e ks s' :
    MAX_PENDING_BYTES < pending_bytes s + need ->
    pending s !! k = Some e -> Some k <> ex ->
    (forall k' e', pending s !! k' = Some e' -> Some k' <> ex -> pe_since e <= pe_since e') ->
    evictions ex need now (evict k e now s) ks s' ->
    evictions ex need now s (k :: ks) s'.

Lemma evict_view k e now s :
  pending (evict k e now s) = delete k (pending s) /\
  pending_bytes (evict k e now s) = usize_sub (pending_bytes s) (pe_bytes e) /\
  closed (evict k e now s) = <[k := now]> (closed s) /\
  rpool (evict k e now s) = (send (frame_rst k) (rpool s)).2 /\
  conns (evict k e now s) = conns s /\ vcs (evict k e now s) = vcs s.
Proof. unfold evict. by destruct (pe_cancel e). Qed.

Lemma evict_inv k e now s :
  pending s !! k = Some e -> pending_inv s -> pending_inv (evict k e now s).
Proof.
  intros Hk Hi. unfold pending_inv.
  destruct (evict_view k e now s) as (-> & -> & _). by apply pend_ok_delete.
Qed.

(** What evictions do to each cid, and the resets they send. *)
Lemma evictions_effect ex need now s ks s' :
  evictions ex need now s ks s' ->
  NoDup ks /\
  (forall k, k ∈ ks -> is_Some (pending s !! k) /\ pending s' !! k = None /\
     closed s' !! k = Some now /\ Some k <> ex) /\
  (forall k, k ∉ ks -> pending s' !! k = pending s !! k /\ closed s' !! k = closed s !! k) /\
  rpool s' = fold_left (fun p k => (send (frame_rst k) p).2) ks (rpool s) /\
  conns s' = conns s /\ vcs s' = vcs s.
Proof.
  induction 1 as [s|s k e ks s' Hover Hk Hne Hold Hev (Hnd & H1 & H2 & H3 & H4 & H5)].
  { split_and!; try done; [constructor|]. intros k Hk. by apply elem_of_nil in Hk. }
  destruct (evict_view k e now s) as (Vp & _ & Vc & Vr & Vn & Vv).
  assert (Hnk : k ∉ ks).
  { intros Hin. destruct (H1 k Hin) as ([x Hx] & _). by rewrite Vp, lookup_delete_eq in Hx. }
  split_and!.
  - by apply NoDup_cons.
  - intros j [->|Hj]%elem_of_cons.
    + destruct (H2 k Hnk) as [-> ->]. rewrite Vp, Vc, lookup_delete_eq, lookup_insert_eq.
      split_and!; by try eexists.
    + destruct (H1 j Hj) as ([x Hx] & ? & ? & ?). split_and!; try done. exists x.
      rewrite Vp in Hx. by apply lookup_delete_Some in Hx as [_ Hx].
  - intros j [Hjk Hj]%not_elem_of_cons. destruct (H2 j Hj) as [-> ->].
    by rewrite Vp, Vc, lookup_delete_ne, lookup_insert_ne by done.
  - rewrite H3, Vr. done.
  - by rewrite H4.
  - by rewrite H5.
Qed.

Lemma try_reserve_spec fuel ex need now s :
  pending_inv s -> 0 <= need -> (size (pending s) <= fuel)%nat ->
  exists (ok : bool) ks s1,
    try_reserve_pending fuel ex need now s =
      (Some ok, if ok then with_pending (pending s1) (pending_bytes s1 + need) s1 else s1) /\
    evictions ex need now s ks s1 /\ pending_inv s1 /\
    (if ok then pending_bytes s1 + need <= MAX_PENDING_BYTES
     else MAX_PENDING_BYTES < pending_bytes s1 + need /\
          forall k e, pending s1 !! k = Some e -> Some k = ex).
Proof.
  revert s. induction fuel as [|fuel IH]; intros s Hi Hn Hf; cbn [try_reserve_pending];
    (destruct (Z.leb_spec (pending_bytes s + need) MAX_PENDING_BYTES) as [Hle|Hgt];
      [exists true, (@nil Z), s; split_and!; [done|constructor|done|done]|]);
    destruct (oldest_entry ex (pending s)) as [[k e]|] eqn:Eo;
    try (exists false, (@nil Z), s; split_and!; [done|constructor|done|done|by apply oldest_entry_None]);
    apply oldest_entry_Some in Eo as (Hk & Hne & Hold).
  - assert (size (pending s) = 0)%nat as Hz by lia. apply map_size_empty_inv in Hz.
    by rewrite Hz in Hk.
  - destruct (IH (evict k e now s)) as (ok & ks & s1 & E & Hev & Hi1 & Hok).
    + by apply evict_inv.
    + done.
    + destruct (evict_view k e now s) as (-> & _). rewrite map_size_delete, Hk. cbn. lia.
    + exists ok, (k :: ks), s1. split_and!; [done| |done|done]. by eapply evict_one.
Qed.

Lemma entry_bytes_bound e :
  entry_ok e -> pe_bytes e <= MAX_PENDING_FRAMES_PER_CID * MAX_PAYLOAD.
Proof.
  intros [-> Hc Hf].
  assert (zsum (map data_len (pe_frames e)) <= zlen (pe_frames e) * MAX_PAYLOAD) as H.
  { clear Hc. induction Hf as [|f fs [_ Hp] Hf IH]; [done|]. autorewrite with rr_len.
    unfold zsum in *. cbn [map foldr]. unfold data_len at 1.
    destruct (has_flag _ _); unfold MAX_PAYLOAD in *; lia. }
  unfold MAX_PENDING_FRAMES_PER_CID, MAX_PAYLOAD in *. lia.
Qed.

Lemma map_only_total (m : gmap Z PendingEntry) k :
  map_Forall (fun _ e => entry_ok e) m -> (forall k' e, m !! k' = Some e -> Some k' = Some k) ->
  map_total pe_bytes m <= MAX_PENDING_FRAMES_PER_CID * MAX_PAYLOAD.
Proof.
  intros He Honly. destruct (m !! k) as [e|] eqn:Hk.
  - pose proof (map_total_delete pe_bytes m k e Hk) as Ht.
    assert (delete k m = ∅) as Hd.
    { apply map_empty. intros j. destruct (decide (j = k)) as [->|]; [apply lookup_delete_eq|].
      rewrite lookup_delete_ne by done. apply eq_None_not_Some. intros [x Hx].
      apply Honly in Hx. congruence. }
    rewrite Hd, map_total_empty in Ht. pose proof (entry_bytes_bound e (He k e Hk)). lia.
  - assert (m = ∅) as ->; [|rewrite map_total_empty; zcompute].
    apply map_empty. intros j. apply eq_None_not_Some. intros [x Hx].
    pose proof (Honly _ _ Hx). congruence.
Qed.

(** C20: [try_reserve_pending] terminates within one eviction per pending entry, evicts
    only while over budget, always the oldest entry other than the excluded one, and
    tombstones and resets exactly the evicted cids.  With entries and a frame within
    the protocol's limits it always succeeds, so the "budget exhausted" branches of
    the DATA handler are never taken. *)
Theorem reserve_spec ex need now s :
  pending_inv s -> 0 <= need <= MAX_PAYLOAD ->
  exists ks s1,
    reserve ex need now s = (Some true, with_pending (pending s1) (pending_bytes s1 + need) s1) /\
    evictions ex need now s ks s1 /\ pending_inv s1 /\
    pending_bytes s1 + need <= MAX_PENDING_BYTES /\
    (forall k, k ∈ ks -> pending s1 !! k = None /\ closed s1 !! k = Some now /\ Some k <> ex) /\
    (forall k, k ∉ ks -> pending s1 !! k = pending s !! k /\ closed s1 !! k = closed s !! k) /\
    rpool s1 = fold_left (fun p k => (send (frame_rst k) p).2) ks (rpool s).
Proof.
  intros Hi Hn. destruct (try_reserve_spec (size (pending s)) ex need now s)
    as (ok & ks & s1 & E & Hev & Hi1 & Hok); [done|lia|done|].
  destruct (evictions_effect _ _ _ _ _ _ Hev) as (_ & H1 & H2 & H3 & _).
  destruct ok.
  - exists ks, s1. split_and!; try done. intros k Hk. by destruct (H1 k Hk) as (_ & ? & ? & ?).
  - exfalso. destruct Hok as [Hgt Honly]. destruct Hi1 as [Ht _ He].
    assert (map_total pe_bytes (pending s1) <= MAX_PENDING_FRAMES_PER_CID * MAX_PAYLOAD).
    { destruct ex as [x|]; [by eapply (map_only_total _ x)|].
      apply (map_only_total _ 0); [done|]. intros k e Hk. by apply Honly in Hk. }
    unfold MAX_PENDING_BYTES, MAX_PENDING_FRAMES_PER_CID, MAX_PAYLOAD in *. lia.
Qed.
(** ** The invariant over every event *)
Context {B : BufMut} (lookup_host : bytes -> Z -> option IpAddr) (window_bytes : Z).

Lemma same_pending_finish i cid now s : same_pending s (finish_if_done i cid now s).
Proof. unfold finish_if_done. destruct (vcs s !! i) as [v|]; [destruct (conn_done v)|]; done. Qed.

Lemma same_pending_reset cid now s : same_pending s (reset_conn_de cid now s).
Proof.
  unfold reset_conn_de. destruct (same_pending_remove_conn cid (tombstone cid now s)). by split.
Qed.

Lemma same_pending_start_half i sq s : same_pending s (start_half_close i sq s).
Proof. unfold start_half_close. destruct (vcs s !! i) as [v|]; [destruct (fin_received v)|]; done. Qed.

Lemma same_pending_forward v p s : same_pending s (forward_udp_datagram lookup_host v p s).
Proof.
  unfold forward_udp_datagram. destruct (decode_udp_datagram p) as [[t d]|]; [|done].
  destruct (udp_sock v); [|done]. by destruct (udp_send_to _ _ _ _ _).
Qed.

Lemma same_pending_data_conn i f now s : same_pending s (data_conn lookup_host i f now s).
Proof.
  unfold data_conn. destruct (vcs s !! i) as [v|]; [|done]. destruct (is_udp v).
  { destruct (same_pending_forward v (payload f) s). by split. }
  destruct (deliver _ _ v) as [[] v']; [|done|].
  - destruct (fin_received _); [|done].
    by destruct (same_pending_finish i (conn_id f) now
                   (upd_vc (fun _ => close_write_half false (vc_count_recv (zlen (payload f)) now v')) i s)).
  - by destruct (same_pending_reset (conn_id f) now (upd_vc (fun _ => v') i s)).
Qed.

Lemma cancel_pending_inv cid s : pending_inv s -> pending_inv (cancel_pending cid s).
Proof.
  intros Hi. unfold cancel_pending. destruct (pending s !! cid) as [e|] eqn:Hk; [|done].
  eapply same_pending_inv; [apply same_pending_notify|].
  pose proof (po_entries _ _ _ Hi cid e Hk) as [? ? ?].
  eapply (pend_ok_insert 0 _ _ cid e); [done|done|by split|]. cbn. lia.
Qed.

Lemma fail_pending_inv cid now s : pending_inv s -> pending_inv (fail_pending_conn cid now s).
Proof. apply cancel_pending_inv. Qed.

Lemma remove_pending_inv cid s : pending_inv s -> pending_inv (remove_pending cid s).2.
Proof.
  intros Hi. unfold remove_pending. destruct (pending s !! cid) as [e|] eqn:Hk; [|done].
  by apply pend_ok_delete.
Qed.

Lemma syn_fail_inv cid now s : pending_inv s -> pending_inv (syn_fail cid now s).
Proof. apply remove_pending_inv. Qed.

Lemma data_unknown_inv f now s :
  has_flag f FLAG_DATA = true -> wire_frame f ->
  pending_inv s -> pending_inv (data_unknown f now s).2.
Proof.
  intros Hf Hw Hi. unfold data_unknown. case_decide as Hc; [done|].
  destruct (Hw) as [_ Hp].
  pose proof (zlen_nonneg (payload f)) as Hn.
  assert (Hlen : zlen (payload f) = data_len f) by (unfold data_len; by rewrite Hf).
  case_decide as Hk.
  - destruct (reserve_spec (Some (conn_id f)) (zlen (payload f)) now s)
      as (ks & s1 & -> & _ & Hi1 & Hb & Hks & Hnks & _); [done|lia|].
    cbn [pending with_pending].
    assert (Hok : pend_ok (zlen (payload f)) (pending s1) (pending_bytes s1 + zlen (payload f))).
    { destruct Hi1 as [Ht _ He]. split; [lia|lia|done]. }
    destruct (pending s1 !! conn_id f) as [e|] eqn:E.
    + pose proof (po_entries _ _ _ Hi1 _ _ E) as He.
      destruct (Z.ltb_spec (zlen (pe_frames e)) MAX_PENDING_FRAMES_PER_CID).
      * eapply (pend_ok_insert (zlen (payload f))); [done|done| |done].
        by apply push_pending_ok.
      * apply fail_pending_inv. apply (pend_ok_refund (zlen (payload f))); done.
    + apply (pend_ok_refund (zlen (payload f))); done.
  - destruct (Z.of_nat (size (pending s)) <? MAX_PENDING_CIDS); [|by apply fail_pending_inv].
    destruct (reserve_spec None (zlen (payload f)) now s)
      as (ks & s1 & -> & _ & Hi1 & Hb & Hks & Hnks & _); [done|lia|].
    apply (pend_ok_insert_new (zlen (payload f))).
    + destruct Hi1 as [Ht _ He]. split; cbn; [lia|lia|done].
    + cbn. destruct (decide (conn_id f ∈ ks)) as [Hin|Hin].
      * by destruct (Hks _ Hin).
      * destruct (Hnks _ Hin) as [-> _]. by apply eq_None_not_Some.
    + apply push_pending_ok; [apply pending_new_ok|done|done|done].
    + done.
Qed.

Lemma handle_data_inv f now s :
  has_flag f FLAG_DATA = true -> wire_frame f ->
  pending_inv s -> pending_inv (handle_data lookup_host f now s).
Proof.
  intros Hf Hp Hi. unfold handle_data. destruct (conns s !! conn_id f) as [i|].
  { eapply same_pending_inv; [apply same_pending_data_conn|done]. }
  pose proof (data_unknown_inv f now s Hf Hp Hi) as Hd.
  destruct (data_unknown f now s) as [[] s']; [|done].
  destruct (conns s' !! conn_id f); [|done].
  eapply same_pending_inv; [apply same_pending_data_conn|done].
Qed.

Lemma handle_fin_inv f now s :
  has_flag f FLAG_DATA = false -> wire_frame f ->
  pending_inv s -> pending_inv (handle_fin f now s).
Proof.
  intros Hf Hp Hi. unfold handle_fin.
  assert (Hlen : 0 = data_len f) by (unfold data_len; by rewrite Hf).
  destruct (conns s !! conn_id f) as [i|].
  { destruct (vcs s !! i) as [v|]; [|done]. destruct (is_udp v); [done|].
    eapply same_pending_inv; [|done].
    eapply same_pending_trans; [apply same_pending_start_half|apply same_pending_finish]. }
  case_decide; [done|]. destruct (pending s !! conn_id f) as [e|] eqn:E.
  - destruct (Z.ltb_spec (zlen (pe_frames e)) MAX_PENDING_FRAMES_PER_CID);
      [|by apply fail_pending_inv].
    eapply (pend_ok_insert 0); [done|done| |done].
    apply push_pending_ok; [by apply (po_entries _ _ _ Hi (conn_id f))|done|done|done].
  - destruct (Z.of_nat (size (pending s)) <? MAX_PENDING_CIDS); [|by apply fail_pending_inv].
    apply (pend_ok_insert_new 0); [done|done| |done].
    apply push_pending_ok; [apply pending_new_ok|done|done|done].
Qed.

Lemma handle_rst_inv cid now s : pending_inv s -> pending_inv (handle_rst cid now s).
Proof.
  intros Hi. unfold handle_rst. destruct (conns s !! cid); [|by apply cancel_pending_inv].
  eapply same_pending_inv; [|done].
  destruct (same_pending_remove_conn cid (tombstone cid now s)). by split.
Qed.

Lemma handle_syn_inv f n now s : pending_inv s -> pending_inv (handle_syn f n now s).
Proof.
  intros Hi. unfold handle_syn. case_decide; [done|].
  destruct (bool_decide _); [done|]. cbn [pending with_handshaking].
  set (e' := mkPendingEntry _ _ _ _ _). set (s2 := with_notifies _ _).
  assert (Hi2 : pending_inv s2).
  { unfold s2, e'. unfold pending_inv. cbn.
    destruct (pending s !! conn_id f) as [e|] eqn:E; cbn.
    - pose proof (po_entries _ _ _ Hi _ _ E) as [? ? ?].
      eapply (pend_ok_insert 0); [done|done|by split|]. cbn. lia.
    - apply (pend_ok_insert_new 0); [done|done| |done]. by split. }
  case_decide; [by apply remove_pending_inv|].
  destruct (syn_target_decode _) as [t|]; [|by apply syn_fail_inv].
  destruct (negb _ && negb _); [by apply syn_fail_inv|]. exact Hi2.
Qed.
Lemma drop_cancelled_inv cid now s : pending_inv s -> pending_inv (drop_cancelled cid now s).
Proof.
  apply same_pending_inv. unfold drop_cancelled.
  destruct (same_pending_remove_conn cid s). by split.
Qed.

Lemma same_pending_fold {A} (g : RState -> A -> RState) (l : list A) s :
  (forall s x, same_pending s (g s x)) -> same_pending s (fold_left g l s).
Proof.
  intros Hg. revert s. induction l as [|x l IH]; intros s; cbn; [done|].
  eapply same_pending_trans; [apply Hg|apply IH].
Qed.

Lemma remove_pending_pair_inv cid s o s' :
  remove_pending cid s = (o, s') -> pending_inv s -> pending_inv s'.
Proof. intros E Hi. pose proof (remove_pending_inv cid s Hi) as H. by rewrite E in H. Qed.

Lemma syn_udp_inv cid i bound now s :
  pending_inv s -> pending_inv (syn_udp lookup_host window_bytes cid i bound now s).
Proof.
  intros Hi. unfold syn_udp. destruct bound as [sock|]; [|by apply syn_fail_inv].
  set (v := new_udp_conn _ _ _).
  assert (Hi1 : pending_inv (install_conn i v cid s)) by exact Hi.
  destruct (remove_pending cid (install_conn i v cid s)) as [[e|] s2] eqn:E;
    apply (remove_pending_pair_inv _ _ _ _ E) in Hi1; [|done].
  destruct (pe_cancelled e); [by apply drop_cancelled_inv|].
  eapply same_pending_inv; [|exact Hi1].
  apply (same_pending_fold _ (pe_frames e) s2). intros s0 f.
  destruct (has_flag f FLAG_DATA); [apply same_pending_forward|done].
Qed.

Lemma syn_drain_inv cid i now s :
  pending_inv s -> pending_inv (syn_drain cid i now s).
Proof.
  intros Hi. unfold syn_drain.
  destruct (remove_pending cid s) as [[e|] s1] eqn:E;
    apply (remove_pending_pair_inv _ _ _ _ E) in Hi; [|done].
  destruct (pe_cancelled e); [by apply drop_cancelled_inv|].
  destruct (vcs s1 !! i) as [v|]; [|done].
  destruct (replay (pe_frames e) None v) as [[[] [sq|]] v'];
    eapply same_pending_inv; try exact Hi; cbn.
  1,2: by destruct (same_pending_reset cid now (upd_vc (fun _ => v') i s1)).
  - destruct (same_pending_trans _ _ _
      (same_pending_start_half i sq (upd_vc (fun _ => v') i s1))
      (same_pending_finish i cid now (start_half_close i sq (upd_vc (fun _ => v') i s1)))).
    by split.
  - done.
Qed.

Lemma syn_connected_inv cid i o now s :
  pending_inv s -> pending_inv (syn_connected window_bytes cid i o now s).
Proof.
  intros Hi. unfold syn_connected. destruct o; try by apply syn_fail_inv.
  - case_decide; [by apply remove_pending_inv|by apply syn_drain_inv].
  - by apply remove_pending_inv.
Qed.

Lemma same_pending_reader e now t s : same_pending s (reader_step e now t s).2.
Proof.
  destruct e as [|chunk [] p|[] p]; cbn; try done.
  1: destruct (same_pending_remove_conn (rd_cid t) (tombstone (rd_cid t) now (with_rpool p s))); by split.
  all: match goal with |- same_pending _ (finish_if_done ?i ?c ?n ?x) =>
         destruct (same_pending_finish i c n x); by split end.
Qed.

Lemma same_pending_udp_response cid sq src data now s :
  same_pending s (udp_response cid sq src data now s).2.
Proof.
  unfold udp_response. destruct (encode_udp_datagram _ _) as [d|]; [|done].
  destruct (_ >? _); [done|]. destruct (send _ _) as [[] p]; [|done]. cbn.
  by destruct (conns s !! cid).
Qed.

Lemma same_pending_sweep_conn now s e : same_pending s (sweep_conn now s e).
Proof.
  unfold sweep_conn. destruct (vcs s !! e.2) as [v|]; [|done]. destruct (conn_idle now v); [|done].
  destruct (same_pending_remove_conn e.1 (tombstone e.1 now s)). by split.
Qed.

Lemma pend_ok_sweep (P : PendingEntry -> bool) (m : gmap Z PendingEntry) b l :
  l ≡ₚ map_to_list m -> pend_ok 0 m b ->
  pend_ok 0 (filter (fun ke => negb (P ke.2)) m)
    (usize_sub b (zsum (map (fun ke => pe_bytes ke.2) (filter (fun ke => P ke.2) l)))).
Proof.
  intros Hl [Ht Hb He].
  pose proof (zsum_filter (fun ke : Z * PendingEntry => P ke.2) (fun ke => pe_bytes ke.2) l) as Hs.
  rewrite <- (map_total_perm pe_bytes m l Hl) in Hs.
  assert (Hf : map_Forall (fun _ e => entry_ok e) (filter (fun ke => negb (P ke.2)) m)).
  { intros k e [Hk _]%map_lookup_filter_Some. by apply (He k). }
  assert (Hkept : map_total pe_bytes (filter (fun ke => negb (P ke.2)) m) =
    zsum (map (fun ke => pe_bytes ke.2) (filter (fun ke : Z * PendingEntry => negb (P ke.2)) l))).
  { apply map_total_perm. rewrite Hl. apply NoDup_Permutation.
    - apply NoDup_filter, NoDup_map_to_list.
    - apply NoDup_map_to_list.
    - intros [k e]. rewrite list_elem_of_filter, !elem_of_map_to_list, map_lookup_filter_Some.
      tauto. }
  pose proof (map_total_nonneg pe_bytes _ (entries_nonneg _ Hf)) as Hn.
  assert (0 <= zsum (map (fun ke => pe_bytes ke.2) (filter (fun ke : Z * PendingEntry => P ke.2) l))).
  { apply zsum_nonneg, Forall_forall. intros x ([k e] & -> & Hin)%list_elem_of_fmap.
    apply list_elem_of_filter in Hin as [_ Hin]. rewrite Hl in Hin.
    apply elem_of_map_to_list in Hin. by apply entry_ok_nonneg, (He k). }
  rewrite usize_sub_small by lia. split; [lia|lia|done].
Qed.

Lemma sweep_stale_inv now s : pending_inv s -> pending_inv (sweep_stale_pending now s).
Proof.
  intros Hi. unfold sweep_stale_pending. cbv zeta.
  eapply same_pending_inv; [apply same_pending_fold|].
  - intros s0 ke. unfold sweep_reset. destruct (same_pending_notify (pe_cancel ke.2) s0). by split.
  - apply (pend_ok_sweep (stale now) (pending s) (pending_bytes s) (dash_iter (pending s)));
      [apply dash_iter_perm|done].
Qed.

Lemma heartbeat_inv now now_ms s : pending_inv s -> pending_inv (heartbeat now now_ms s).
Proof.
  intros Hi. unfold heartbeat. cbv zeta.
  set (s1 := with_rpool _ s). set (s2 := fold_left _ _ s1).
  assert (Hi2 : pending_inv s2).
  { eapply same_pending_inv; [apply same_pending_fold, same_pending_sweep_conn|exact Hi]. }
  set (s4 := with_handshaking _ _).
  assert (pending_inv s4) as Hi4 by exact Hi2.
  exact (sweep_stale_inv now s4 Hi4).
Qed.

(** Frames that came through the decoder. *)
Definition event_ok (e : REvent) : Prop :=
  match e with EvFrame f _ => wire_frame f | _ => True end.

Lemma handle_frame_inv f n now s :
  wire_frame f -> pending_inv s ->
  pending_inv (handle_frame lookup_host f n now s).
Proof.
  intros Hp Hi. unfold handle_frame.
  destruct (has_flag f FLAG_SYN); [by apply handle_syn_inv|].
  destruct (has_flag f FLAG_DATA) eqn:Ed; [by apply handle_data_inv|].
  destruct (has_flag f FLAG_FIN); [by apply handle_fin_inv|].
  destruct (has_flag f FLAG_RST); [by apply handle_rst_inv|done].
Qed.

Lemma rstep_pending_inv e now s s' :
  event_ok e -> pending_inv s -> rstep lookup_host window_bytes e now s = Some s' ->
  pending_inv s'.
Proof.
  intros He Hi Hs. destruct e as [f n|n i bound|n i o|i|t ev|cid sq src data|now_ms|lost|i now_ms];
    unfold rstep, resume in Hs.
  - case_decide; simplify_eq. by apply handle_frame_inv.
  - case_decide; [|done]. destruct (tasks s !! n) as [[cid|cid t]|]; simplify_eq.
    by apply syn_udp_inv.
  - case_decide; [|done]. destruct (tasks s !! n) as [[cid|cid t]|]; simplify_eq.
    by apply syn_connected_inv.
  - case_decide; simplify_eq. done.
  - destruct (rd_done t); simplify_eq. eapply same_pending_inv; [apply same_pending_reader|done].
  - simplify_eq. eapply same_pending_inv; [apply same_pending_udp_response|done].
  - simplify_eq. by apply heartbeat_inv.
  - simplify_eq. eapply same_pending_inv; [apply same_pending_fold|done].
    intros s0 f. by destruct (negb _).
  - case_decide; simplify_eq. unfold accept_tunnel. by destruct (_ >=? _).
Qed.

Lemma rrun_pending_inv es s s' :
  Forall (fun e => event_ok e.1) es -> pending_inv s ->
  rrun lookup_host window_bytes es s = Some s' -> pending_inv s'.
Proof.
  revert s. induction es as [|[e now] es IH]; intros s He Hi Hr; cbn in Hr; [by simplify_eq|].
  apply Forall_cons_1 in He as [He Hes].
  destruct (rstep _ _ e now s) as [s1|] eqn:Es; [|done].
  eapply IH; [done| |done]. by eapply rstep_pending_inv.
Qed.

End pending_facts.

(** ** Concrete runs *)
#[local] Existing Instance RefTokio.
#[local] Existing Instance RefBufMut.
#[local] Existing Instance RefDashIter.

Definition no_dns (host : bytes) (port : Z) : option IpAddr := None.

(** One live tunnel. *)
Definition demo_tunnels : TunnelPool := pool_add 1 (new_link 0) pool_new.

Definition demo_syn (cid : Z) : Frame :=
  frame_syn cid (be_bytes 1 PROTO_TCP ++ be_bytes 2 1 ++ [Byte.x61] ++ be_bytes 2 80).
Definition demo_data (cid sq : Z) : Frame := frame_data cid sq [Byte.x61; Byte.x62].

(** DATA and FIN of cid 7 overtake its SYN. *)
Definition early_events : list (REvent * Z) :=
  [(EvFrame (demo_data 7 1) 0, 5); (EvFrame (frame_fin 7 2) 0, 6); (EvFrame (demo_data 9 4) 0, 7)].

Lemma early_events_ok : Forall (fun e => event_ok e.1) early_events.
Proof. repeat (apply Forall_cons_2; [split; cbn; zcompute || lia|]). apply Forall_nil_2. Qed.


Lemma reserve_spec_witness :
  exists s, rrun no_dns 1000 early_events (reassembler_init demo_tunnels) = Some s /\
    pending_inv s /\ exists s', reserve None 10 8 s = (Some true, s') /\ pending_bytes s' = 14.
Proof.
  destruct (rrun no_dns 1000 early_events (reassembler_init demo_tunnels)) as [s|] eqn:E;
    [|vm_compute in E; discriminate].
  assert (Hi : pending_inv s).
  { eapply rrun_pending_inv; [apply early_events_ok| |exact E]. by split. }
  exists s. split; [reflexivity|]. split; [exact Hi|].
  destruct (reserve_spec None 10 8 s Hi) as (ks & s1 & Hr & _); [unfold MAX_PAYLOAD; lia|].
  eexists. split; [exact Hr|]. vm_compute in E. injection E as <-.
  vm_compute in Hr. injection Hr as Hr. vm_compute. congruence.
Defined.
