(* ===== verification/ReassemblerConn.v ===== *)
(** * Connections of the reassembler

    The half-close state machine and the life of a connection from its SYN to its
    tombstone, over the definitions of [Reassembler]. *)
From Stdlib Require Import ZArith Lia.
From Stdlib Require Import Strings.Byte.
From stdpp Require Import base numbers list option fin_maps gmap.
From S2P Require Import Prelude Runtime Frames Reorder Tunnel Net Socks5 Reassembler ReassemblerPending.
Local Open Scope Z_scope.

Section conn_facts.
Context {T : Tokio} {TL : TokioLaws T} {D : DashIter} {DL : DashIterLaws D}.

(** ** One connection *)
Record vc_ok (v : VirtConnDe) : Prop := {
  vo_reorder : reorder_wf (reorder v);
  vo_egress : is_udp v = false <-> is_Some (egress v);
  vo_state : half_close_state v = 0 \/ half_close_state v = 2;
  vo_closed : half_close_state v = 2 -> fin_received v = true /\ has_permit (half_close v) = true;
  vo_prompt : fin_received v = true -> half_close_state v = 0 ->
              has_permit (cancel_writer v) = false -> close_check v = false;
}.

(** What any step may do to a connection: flags and permits only go up. *)
Record vc_evolve (v v' : VirtConnDe) : Prop := {
  ve_ok : vc_ok v -> vc_ok v';
  ve_udp : is_udp v' = is_udp v;
  ve_fin : fin_received v = true -> fin_received v' = true /\ fin_seq v' = fin_seq v;
  ve_half : half_close_state v = 2 -> half_close_state v' = 2;
  ve_eof : egress_eof v = true -> egress_eof v' = true;
  ve_cancel : has_permit (cancel_writer v) = true -> has_permit (cancel_writer v') = true;
}.

#[export] Instance vc_evolve_preorder : PreOrder vc_evolve.
Proof.
  split.
  - intros v. by split.
  - intros v1 v2 v3 [] []. split; auto; [congruence|].
    intros H. destruct (ve_fin0 H) as [H2 E]. destruct (ve_fin1 H2). split; congruence.
Qed.

Lemma new_tcp_ok w now : 0 <= w -> vc_ok (new_tcp_conn w now).
Proof.
  intros. split; cbn; try done.
  - by apply with_limit_wf.
  - by left.
Qed.

Lemma new_udp_ok w now sock : 0 <= w -> vc_ok (new_udp_conn w now sock).
Proof.
  intros. split; cbn; try done.
  - by apply with_limit_wf.
  - by left.
Qed.

Lemma evolve_count_recv n now v : vc_evolve v (vc_count_recv n now v).
Proof. split; try done. by intros []. Qed.
Lemma evolve_count_sent n now v : vc_evolve v (vc_count_sent n now v).
Proof. split; try done. by intros []. Qed.
Lemma evolve_eof v : vc_evolve v (set_egress_eof v).
Proof. split; try done. by intros []. Qed.

Lemma evolve_teardown v : vc_evolve v (signal_teardown v).
Proof.
  split; try done.
  - intros []. split; try done. cbn. intros _ _. by rewrite has_permit_one.
  - intros _. apply has_permit_one.
Qed.

Lemma evolve_close_normal v : fin_received v = true -> vc_evolve v (close_write_half false v).
Proof.
  intros Hf. unfold close_write_half, close_begin.
  destruct (Z.eqb_spec (half_close_state v) 0) as [H0|]; [|reflexivity].
  unfold close_commit, close_check. cbn.
  destruct (is_complete_through (reorder v) (fin_seq v)) eqn:E; split; try done; cbn.
  - intros []. split; cbn; try done; [by right|]. intros _. split; [done|apply has_permit_one].
  - intros []. split; cbn; try done; by left.
  - lia.
Qed.

Lemma evolve_close_force v : fin_received v = true -> vc_evolve v (close_write_half true v).
Proof.
  intros Hf. unfold close_write_half, force_close.
  destruct (Z.eqb_spec (half_close_state v) 2) as [H2|]; [reflexivity|].
  split; try done; cbn. intros []. split; cbn; try done; [by right|].
  intros _. split; [done|apply has_permit_one].
Qed.

(** After the normal close, the write half is closed unless a frame is missing. *)
Lemma close_normal_spec v :
  half_close_state v = 0 \/ half_close_state v = 2 ->
  half_close_state (close_write_half false v) =
    (if (half_close_state v =? 2) || close_check v then 2 else 0).
Proof.
  intros H. unfold close_write_half, close_begin, close_commit, close_check.
  destruct H as [-> | E]; cbn.
  - by destruct (is_complete_through _ _).
  - by rewrite E.
Qed.

Lemma push_rejected b sq p : accepted (push b sq p).1 = false -> (push b sq p).2 = b.
Proof.
  unfold push. destruct (sq <? expected b); [done|]. destruct (sq =? expected b).
  { by destruct (drain _ _). }
  destruct (_ !! sq); [done|]. by destruct (can_buffer b p).
Qed.

(** [deliver] touches only the reorder buffer and the egress queue. *)
Lemma deliver_view sq p v o v' :
  deliver sq p v = (o, v') ->
  v' = set_stream (egress v') (push (reorder v) sq p).2 v /\
  (is_Some (egress v) -> is_Some (egress v')) /\ (egress v = None -> egress v' = None) /\
  (o = Duplicate -> v' = v).
Proof.
  unfold deliver. pose proof (push_rejected (reorder v) sq p) as Hrej.
  destruct (push (reorder v) sq p) as [r ro]. cbn in *.
  destruct (accepted r).
  - destruct (egress v) as [c|]; [destruct (egress_write_all _ c) as [[] c']|]; intros ?; simplify_eq;
      split_and!; try done; by eexists.
  - rewrite Hrej by done. assert (set_stream (egress v) (reorder v) v = v) as Hid by by destruct v.
    destruct (overflow r); intros ?; simplify_eq; rewrite Hid; done.
Qed.

Lemma deliver_ok sq p v o v' :
  0 <= sq < 2 ^ 64 -> deliver sq p v = (o, v') -> vc_ok v ->
  reorder_wf (reorder v') /\ (is_udp v' = false <-> is_Some (egress v')).
Proof.
  intros Hsq Hd [Hr He _ _ _]. destruct (deliver_view _ _ _ _ _ Hd) as (Hv & Hs & Hn & _).
  rewrite Hv. cbn. split; [by apply push_wf|]. rewrite He.
  destruct (egress v) as [c|].
  - split; intros _; [by apply Hs; eexists|by eexists].
  - by rewrite (Hn eq_refl).
Qed.
(** ** The store of connections *)
Record conn_inv (s : RState) : Prop := {
  ci_ok i v : vcs s !! i = Some v -> vc_ok v;
  ci_conns cid i : conns s !! cid = Some i -> is_Some (vcs s !! i);
  ci_inj c1 c2 i : conns s !! c1 = Some i -> conns s !! c2 = Some i -> c1 = c2;
  ci_timers i v : vcs s !! i = Some v -> (i ∈ timers s <-> fin_received v = true);
  ci_timers_dom i : i ∈ timers s -> is_Some (vcs s !! i);
}.

(** What a handler running at [now] may do to the connections. *)
Record evolve (now : Z) (s s' : RState) : Prop := {
  ev_inv : conn_inv s -> conn_inv s';
  ev_vcs i v : vcs s !! i = Some v -> exists v', vcs s' !! i = Some v' /\ vc_evolve v v';
  ev_fresh i : vcs s !! i = None -> vcs s' !! i = None;
  ev_conns cid i : conns s' !! cid = Some i -> conns s !! cid = Some i;
  ev_removed cid i : conns s !! cid = Some i -> conns s' !! cid = None ->
                     closed s' !! cid = Some now;
  ev_closed cid : closed s !! cid = Some now -> closed s' !! cid = Some now;
  ev_timers i : i ∈ timers s -> i ∈ timers s';
}.

#[export] Instance evolve_preorder now : PreOrder (evolve now).
Proof.
  split.
  - intros s. split; try done.
    + intros i v Hv. by exists v.
    + intros cid i H1 H2. congruence.
  - intros s1 s2 s3 H1 H2. split.
    + intros Hi. by apply (ev_inv _ _ _ H2), (ev_inv _ _ _ H1).
    + intros i v Hv. destruct (ev_vcs _ _ _ H1 i v Hv) as (v2 & Hv2 & He).
      destruct (ev_vcs _ _ _ H2 i v2 Hv2) as (v3 & Hv3 & He3).
      exists v3. split; [done|]. by etrans.
    + intros i Hi. by apply (ev_fresh _ _ _ H2), (ev_fresh _ _ _ H1).
    + intros cid i Hc. by apply (ev_conns _ _ _ H1), (ev_conns _ _ _ H2).
    + intros cid i Hc Hn. destruct (conns s2 !! cid) as [j|] eqn:E.
      * by apply (ev_removed _ _ _ H2 cid j).
      * by apply (ev_closed _ _ _ H2), (ev_removed _ _ _ H1 cid i).
    + intros cid Hc. by apply (ev_closed _ _ _ H2), (ev_closed _ _ _ H1).
    + intros i Hi. by apply (ev_timers _ _ _ H2), (ev_timers _ _ _ H1).
Qed.

(** Steps that touch none of this. *)
Lemma evolve_frame now s s' :
  vcs s' = vcs s -> conns s' = conns s -> timers s' = timers s ->
  (forall cid, closed s !! cid = Some now -> closed s' !! cid = Some now) -> evolve now s s'.
Proof.
  intros Ev Ec Et Hcl. split; rewrite ?Ev, ?Ec, ?Et; try done.
  - intros []. split; rewrite ?Ev, ?Ec, ?Et; done.
  - intros i v Hv. by exists v.
  - intros cid i H1 H2. congruence.
Qed.

Lemma evolve_with_pending now m b s : evolve now s (with_pending m b s).
Proof. by apply evolve_frame. Qed.
Lemma evolve_pool_send now f s : evolve now s (pool_send f s).
Proof. by apply evolve_frame. Qed.
Lemma evolve_end_handshake now cid s : evolve now s (end_handshake cid s).
Proof. by apply evolve_frame. Qed.

Lemma evolve_tombstone now cid s : evolve now s (tombstone cid now s).
Proof.
  apply evolve_frame; try done. intros c Hc. cbn.
  destruct (decide (c = cid)) as [->|]; [by rewrite lookup_insert_eq|by rewrite lookup_insert_ne].
Qed.

(** A change of one connection that respects the timers. *)
Lemma evolve_upd_vc now i g s :
  (forall v, vcs s !! i = Some v -> vc_evolve v (g v)) ->
  (forall v, vcs s !! i = Some v -> fin_received (g v) = fin_received v) ->
  evolve now s (upd_vc g i s).
Proof.
  intros Hg Hf. split; try done.
  - intros [Hok Hc Hinj Ht Hd]. split; cbn; try done.
    + intros j v [[<- (v0 & Hv0 & ->)]|[Hj Hv]]%lookup_alter_Some; [|by apply (Hok j)].
      apply (ve_ok _ _ (Hg v0 Hv0)). by apply (Hok i).
    + intros cid j Hj. destruct (decide (j = i)) as [->|].
      * rewrite lookup_alter_eq. by apply fmap_is_Some, (Hc cid).
      * rewrite lookup_alter_ne by done. by apply (Hc cid).
    + intros j v [[<- (v0 & Hv0 & ->)]|[Hj Hv]]%lookup_alter_Some; [|by apply Ht].
      rewrite (Hf v0 Hv0). by apply Ht.
    + intros j Hj. destruct (decide (j = i)) as [->|].
      * rewrite lookup_alter_eq. by apply fmap_is_Some, Hd.
      * rewrite lookup_alter_ne by done. by apply Hd.
  - intros j v Hv. cbn. destruct (decide (j = i)) as [->|].
    + exists (g v). rewrite lookup_alter_eq, Hv. split; [done|by apply Hg].
    + exists v. rewrite lookup_alter_ne by done. done.
  - intros j Hj. cbn. destruct (decide (j = i)) as [->|].
    + by rewrite lookup_alter_eq, Hj.
    + by rewrite lookup_alter_ne.
  - intros cid j H1 H2. cbn in H2. congruence.
Qed.

(** Removing a tombstoned connection. *)
Lemma evolve_delete_conn now cid s :
  closed s !! cid = Some now -> evolve now s (with_conns (delete cid (conns s)) s).
Proof.
  intros Hc. split; try done; cbn.
  - intros [Hok Hcs Hinj Ht Hd]. split; cbn; try done.
    + intros c j [_ Hj]%lookup_delete_Some. by apply (Hcs c).
    + intros c1 c2 j [_ H1]%lookup_delete_Some [_ H2]%lookup_delete_Some. by apply (Hinj c1 c2 j).
  - intros j v Hv. by exists v.
  - intros c j [_ Hj]%lookup_delete_Some. done.
  - intros c j H1 H2%lookup_delete_None. destruct H2 as [->|H2]; [done|congruence].
Qed.

Lemma evolve_remove_conn now cid s :
  closed s !! cid = Some now -> evolve now s (remove_conn cid s).
Proof.
  intros Hc. unfold remove_conn. destruct (conns s !! cid) as [i|]; [|reflexivity].
  etrans; [by apply (evolve_delete_conn now cid)|].
  apply evolve_upd_vc; [intros v _; apply evolve_teardown|done].
Qed.

Lemma evolve_tombstone_remove now cid s :
  evolve now s (remove_conn cid (tombstone cid now s)).
Proof.
  etrans; [apply (evolve_tombstone now cid)|]. apply evolve_remove_conn.
  cbn. apply lookup_insert_eq.
Qed.

Lemma evolve_reset now cid s : evolve now s (reset_conn_de cid now s).
Proof.
  unfold reset_conn_de. etrans; [apply (evolve_tombstone_remove now cid)|].
  by apply evolve_frame.
Qed.

Lemma evolve_finish now i cid s : evolve now s (finish_if_done i cid now s).
Proof.
  unfold finish_if_done. destruct (vcs s !! i) as [v|]; [|reflexivity].
  destruct (conn_done v); [|reflexivity].
  etrans; [apply (evolve_tombstone now cid)|]. apply evolve_delete_conn. cbn.
  apply lookup_insert_eq.
Qed.

Lemma evolve_fold {A} now (g : RState -> A -> RState) (l : list A) s :
  (forall s x, evolve now s (g s x)) -> evolve now s (fold_left g l s).
Proof.
  intros Hg. revert s. induction l as [|x l IH]; intros s; cbn; [reflexivity|].
  etrans; [apply Hg|apply IH].
Qed.

Lemma evolve_notify now c s : evolve now s (notify_cancel c s).
Proof. by apply evolve_frame; destruct c. Qed.

Lemma evolve_cancel_pending now cid s : evolve now s (cancel_pending cid s).
Proof.
  unfold cancel_pending. destruct (pending s !! cid) as [e|]; [|reflexivity].
  etrans; [apply evolve_with_pending|apply evolve_notify].
Qed.

Lemma evolve_fail_pending now cid s : evolve now s (fail_pending_conn cid now s).
Proof.
  unfold fail_pending_conn. etrans; [apply (evolve_cancel_pending now cid)|].
  etrans; [apply (evolve_tombstone now cid)|]. apply evolve_pool_send.
Qed.

Lemma evolve_remove_pending now cid s : evolve now s (remove_pending cid s).2.
Proof. unfold remove_pending. destruct (pending s !! cid); by apply evolve_frame. Qed.

Lemma evolve_syn_fail now cid s : evolve now s (syn_fail cid now s).
Proof.
  unfold syn_fail. etrans; [apply (evolve_remove_pending now cid)|].
  etrans; [apply (evolve_end_handshake now cid)|].
  etrans; [apply (evolve_tombstone now cid)|apply evolve_pool_send].
Qed.

Lemma evolve_evict now k e s : evolve now s (evict k e now s).
Proof.
  unfold evict. etrans; [apply evolve_with_pending|].
  etrans; [apply (evolve_notify now (pe_cancel e))|].
  etrans; [apply (evolve_tombstone now k)|apply evolve_pool_send].
Qed.

Lemma evolve_try_reserve now fuel ex need s :
  evolve now s (try_reserve_pending fuel ex need now s).2.
Proof.
  revert s. induction fuel as [|fuel IH]; intros s; cbn [try_reserve_pending];
    (destruct (_ <=? _); [by apply evolve_frame|]);
    destruct (oldest_entry ex (pending s)) as [[k e]|]; try reflexivity.
  etrans; [apply (evolve_evict now k e)|apply IH].
Qed.
(** *** Delivering a frame *)

(** The frame went through: the normal close is retried when a FIN is known. *)
Definition settle (v : VirtConnDe) : VirtConnDe :=
  if fin_received v then close_write_half false v else v.

(** The part of [vc_ok] that survives new data. *)
Record vc_pre (v : VirtConnDe) : Prop := {
  vp_reorder : reorder_wf (reorder v);
  vp_egress : is_udp v = false <-> is_Some (egress v);
  vp_state : half_close_state v = 0 \/ half_close_state v = 2;
  vp_closed : half_close_state v = 2 -> fin_received v = true /\ has_permit (half_close v) = true;
}.

Lemma vc_ok_pre v : vc_ok v -> vc_pre v.
Proof. by intros []. Qed.

Lemma close_normal_view v :
  (half_close_state v <> 0 /\ close_write_half false v = v) \/
  (half_close_state v = 0 /\ close_check v = true /\
   close_write_half false v = set_half (notify_one (half_close v)) 2 v) \/
  (half_close_state v = 0 /\ close_check v = false /\
   close_write_half false v = set_half (half_close v) 0 v).
Proof.
  unfold close_write_half, close_begin.
  destruct (Z.eqb_spec (half_close_state v) 0) as [H0|]; [|by left]. right.
  unfold close_commit, close_check. cbn.
  destruct (is_complete_through _ _); [by left|by right].
Qed.

Lemma settle_ok v : vc_pre v -> vc_ok (settle v).
Proof.
  intros [Hr He Hs Hc]. unfold settle. destruct (fin_received v) eqn:Ef.
  - destruct (close_normal_view v) as [[Hn ->]|[(H0 & Hk & ->)|(H0 & Hk & ->)]];
      split; cbn; rewrite ?Ef; try done.
    + by right.
    + intros _. split; [done|apply has_permit_one].
    + by left.
  - split; rewrite ?Ef; done.
Qed.

Lemma settle_view v :
  exists hc st, settle v = set_half hc st v /\ (half_close_state v = 2 -> st = 2).
Proof.
  unfold settle. destruct (fin_received v).
  - destruct (close_normal_view v) as [[Hn ->]|[(H0 & Hk & ->)|(H0 & Hk & ->)]].
    + exists (half_close v), (half_close_state v). split; [by destruct v|done].
    + by do 2 eexists.
    + do 2 eexists. split; [done|lia].
  - exists (half_close v), (half_close_state v). split; [by destruct v|done].
Qed.

Lemma deliver_pre sq p v o v' :
  0 <= sq < 2 ^ 64 -> deliver sq p v = (o, v') -> vc_pre v -> vc_pre v'.
Proof.
  intros Hsq Hd [Hr He Hs Hc]. destruct (deliver_view _ _ _ _ _ Hd) as (Hv & Hsm & Hn & _).
  split; try (by rewrite Hv).
  - rewrite Hv. by apply push_wf.
  - rewrite Hv at 1. cbn. rewrite He. destruct (egress v) as [c|].
    + split; intros _; [by apply Hsm; eexists|by eexists].
    + by rewrite (Hn eq_refl).
Qed.

Lemma evolve_delivered sq p v v' :
  0 <= sq < 2 ^ 64 -> deliver sq p v = (Delivered, v') ->
  vc_evolve v (settle v') /\ fin_received (settle v') = fin_received v.
Proof.
  intros Hsq Hd. destruct (deliver_view _ _ _ _ _ Hd) as (Hv & _).
  destruct (settle_view v') as (hc & st & E & Hst).
  split; [|by rewrite E, Hv].
  split; try (by rewrite E, Hv).
  - intros Hok. apply settle_ok. apply (deliver_pre _ _ _ _ _ Hsq) in Hd; [done|].
    by apply vc_ok_pre.
  - rewrite E. cbn. intros H2. apply Hst. by rewrite Hv.
Qed.

Lemma settle_count n now v : settle (vc_count_recv n now v) = vc_count_recv n now (settle v).
Proof.
  unfold settle, close_write_half, close_begin, close_commit, close_check. cbn.
  destruct (fin_received v); [|done]. destruct (_ =? _); [|done]. cbn.
  by destruct (is_complete_through _ _).
Qed.

Lemma evolve_broken sq p v o v' :
  0 <= sq < 2 ^ 64 -> deliver sq p v = (o, v') ->
  vc_evolve v (signal_teardown v') /\ fin_received (signal_teardown v') = fin_received v.
Proof.
  intros Hsq Hd. destruct (deliver_view _ _ _ _ _ Hd) as (Hv & _).
  split; [|by rewrite Hv]. split; try (by rewrite Hv).
  - intros Hok. apply (deliver_pre _ _ _ _ _ Hsq) in Hd; [|by apply vc_ok_pre].
    destruct Hd. split; try done. cbn. intros _ _. by rewrite has_permit_one.
  - intros _. apply has_permit_one.
Qed.

(** The reset of a connection one of whose frames broke the stream. *)
Lemma evolve_break now cid i v v' s :
  conns s !! cid = Some i -> vcs s !! i = Some v ->
  vc_evolve v (signal_teardown v') -> fin_received (signal_teardown v') = fin_received v ->
  evolve now s (reset_conn_de cid now (upd_vc (fun _ => v') i s)).
Proof.
  intros Hc Hv He Hf. unfold reset_conn_de.
  etrans; [|apply (evolve_frame now (remove_conn cid (tombstone cid now (upd_vc (fun _ => v') i s))));
            done].
  set (s0 := upd_vc (fun _ => signal_teardown v') i (tombstone cid now s)).
  assert (remove_conn cid (tombstone cid now (upd_vc (fun _ => v') i s)) =
          with_conns (delete cid (conns s0)) s0) as ->.
  { unfold remove_conn. cbn [conns tombstone with_closed upd_vc with_vcs]. rewrite Hc.
    unfold s0, upd_vc, tombstone, with_conns, with_closed, with_vcs. cbn.
    by rewrite alter_alter_eq. }
  etrans; [apply (evolve_tombstone now cid)|].
  etrans; [|apply evolve_delete_conn; cbn; apply lookup_insert_eq].
  apply evolve_upd_vc; intros w Hw; cbn in Hw; congruence.
Qed.

Lemma evolve_same_pool now s p : evolve now s (with_rpool p s).
Proof. by apply evolve_frame. Qed.

Context {B : BufMut} (lookup_host : bytes -> Z -> option IpAddr) (window_bytes : Z).

Lemma evolve_forward now v p s : evolve now s (forward_udp_datagram lookup_host v p s).
Proof.
  unfold forward_udp_datagram. destruct (decode_udp_datagram p) as [[t d]|]; [|reflexivity].
  destruct (udp_sock v); [|reflexivity].
  by destruct (udp_send_to _ _ _ _ _); apply evolve_frame.
Qed.

Lemma evolve_data_conn i f now s :
  wire_frame f -> conns s !! conn_id f = Some i ->
  evolve now s (data_conn lookup_host i f now s).
Proof.
  intros [Hsq _] Hc. unfold data_conn. destruct (vcs s !! i) as [v|] eqn:Hv; [|reflexivity].
  destruct (is_udp v).
  { etrans; [apply (evolve_forward now v (payload f))|].
    apply evolve_upd_vc; [intros w _; apply evolve_count_recv|done]. }
  destruct (deliver (seq f) (payload f) v) as [o v'] eqn:Hd. destruct o.
  - destruct (evolve_delivered _ _ _ _ Hsq Hd) as [He Hf].
    assert (evolve now s (upd_vc (fun _ => settle (vc_count_recv (zlen (payload f)) now v')) i s)).
    { rewrite settle_count. apply evolve_upd_vc; intros w Hw; rewrite Hv in Hw; injection Hw as <-;
        [|done]. etrans; [exact He|apply evolve_count_recv]. }
    unfold settle in *. destruct (fin_received (vc_count_recv _ now v')); [|done].
    etrans; [done|apply evolve_finish].
  - destruct (deliver_view _ _ _ _ _ Hd) as (_ & _ & _ & Hdup).
    rewrite (Hdup eq_refl). apply evolve_upd_vc; intros w Hw; [|congruence].
    by simplify_eq.
  - destruct (evolve_broken _ _ _ _ _ Hsq Hd). by eapply evolve_break.
Qed.
(** *** FIN, RST, unknown DATA *)
Lemma evolve_start sq v :
  fin_received v = false -> vc_evolve v (close_write_half false (set_fin true sq v)).
Proof.
  intros Hf. change (close_write_half false (set_fin true sq v)) with (settle (set_fin true sq v)).
  destruct (settle_view (set_fin true sq v)) as (hc & st & E & Hst).
  split; try (by rewrite E).
  - intros [Hr He Hs Hc _]. apply settle_ok. split; try done. cbn. intros H2.
    destruct (Hc H2). congruence.
  - congruence.
Qed.

Lemma evolve_start_half now i sq s : evolve now s (start_half_close i sq s).
Proof.
  unfold start_half_close. destruct (vcs s !! i) as [v|] eqn:Hv; [|reflexivity].
  destruct (fin_received v) eqn:Hf; [reflexivity|].
  set (g := fun w : VirtConnDe => close_write_half false (set_fin true sq w)).
  assert (Hfin : fin_received (g v) = true).
  { change (g v) with (settle (set_fin true sq v)).
    by destruct (settle_view (set_fin true sq v)) as (hc & st & -> & _). }
  split; try done; cbn.
  - intros [Hok Hc Hinj Ht Hd]. split; cbn; try done.
    + intros j w [[<- (v0 & Hv0 & ->)]|[Hj Hw]]%lookup_alter_Some; [|by apply (Hok j)].
      rewrite Hv in Hv0. injection Hv0 as <-.
      apply (ve_ok _ _ (evolve_start sq v Hf)). by apply (Hok i).
    + intros cid j Hj. destruct (decide (j = i)) as [->|].
      * rewrite lookup_alter_eq. by apply fmap_is_Some, (Hc cid).
      * rewrite lookup_alter_ne by done. by apply (Hc cid).
    + intros j w [[<- (v0 & Hv0 & ->)]|[Hj Hw]]%lookup_alter_Some.
      * rewrite Hv in Hv0. injection Hv0 as <-. split; [by rewrite Hfin|]. intros _. apply elem_of_app. right.
        by apply list_elem_of_singleton.
      * rewrite elem_of_app, list_elem_of_singleton, (Ht j w Hw).
        split; [intros [?| ->]; done|by left].
    + intros j [Hj| ->%list_elem_of_singleton]%elem_of_app.
      * destruct (decide (j = i)) as [->|]; [by rewrite lookup_alter_eq, Hv; eexists|].
        rewrite lookup_alter_ne by done. by apply Hd.
      * rewrite lookup_alter_eq, Hv. by eexists.
  - intros j w Hw. destruct (decide (j = i)) as [->|].
    + rewrite Hv in Hw. injection Hw as <-. exists (g v). rewrite lookup_alter_eq, Hv.
      split; [done|].
      by apply evolve_start.
    + exists w. rewrite lookup_alter_ne by done. done.
  - intros j Hj. destruct (decide (j = i)) as [->|]; [congruence|by rewrite lookup_alter_ne].
  - intros cid j H1 H2. congruence.
  - intros j Hj. apply elem_of_app. by left.
Qed.

Lemma evolve_handle_fin f now s : evolve now s (handle_fin f now s).
Proof.
  unfold handle_fin. destruct (conns s !! conn_id f) as [i|].
  { destruct (vcs s !! i) as [v|]; [|reflexivity]. destruct (is_udp v); [reflexivity|].
    etrans; [apply (evolve_start_half now i (seq f))|apply evolve_finish]. }
  case_decide; [reflexivity|]. destruct (pending s !! conn_id f) as [e|].
  - destruct (_ <? _); [apply evolve_with_pending|apply evolve_fail_pending].
  - destruct (_ <? _); [apply evolve_with_pending|apply evolve_fail_pending].
Qed.

Lemma evolve_handle_rst cid now s : evolve now s (handle_rst cid now s).
Proof.
  unfold handle_rst. destruct (conns s !! cid).
  - etrans; [apply (evolve_tombstone_remove now cid)|]. by apply evolve_frame.
  - etrans; [apply (evolve_cancel_pending now cid)|apply evolve_tombstone].
Qed.

Lemma evolve_data_unknown f now s : evolve now s (data_unknown f now s).2.
Proof.
  unfold data_unknown. case_decide; [apply evolve_pool_send|].
  pose proof (evolve_try_reserve now (size (pending s))) as Hr. unfold reserve.
  case_decide.
  - specialize (Hr (Some (conn_id f)) (zlen (payload f)) s).
    destruct (try_reserve_pending _ _ _ _ _) as [[[]|] s1]; cbn in *;
      try (etrans; [exact Hr|apply evolve_fail_pending]).
    etrans; [exact Hr|]. destruct (pending s1 !! conn_id f) as [e|]; [|apply evolve_with_pending].
    destruct (_ <? _); cbn; [apply evolve_with_pending|].
    etrans; [apply evolve_with_pending|apply evolve_fail_pending].
  - destruct (_ <? MAX_PENDING_CIDS); [|apply evolve_fail_pending].
    specialize (Hr None (zlen (payload f)) s).
    destruct (try_reserve_pending _ _ _ _ _) as [[[]|] s1]; cbn in *;
      (etrans; [exact Hr|]); try apply evolve_fail_pending. apply evolve_with_pending.
Qed.

Lemma evolve_handle_data f now s : wire_frame f -> evolve now s (handle_data lookup_host f now s).
Proof.
  intros Hf. unfold handle_data. destruct (conns s !! conn_id f) as [i|] eqn:Hc.
  { by apply evolve_data_conn. }
  pose proof (evolve_data_unknown f now s) as Hd.
  destruct (data_unknown f now s) as [[] s']; [|done]. cbn in Hd.
  destruct (conns s' !! conn_id f) as [i|] eqn:Hc'; [|done].
  etrans; [exact Hd|]. by apply evolve_data_conn.
Qed.

Lemma evolve_handle_syn f n now s : evolve now s (handle_syn f n now s).
Proof.
  unfold handle_syn. case_decide; [reflexivity|]. destruct (bool_decide _); [by apply evolve_frame|].
  set (s2 := with_notifies _ _).
  assert (evolve now s s2) as H2 by by apply evolve_frame.
  etrans; [exact H2|]. cbv zeta. case_decide.
  { etrans; [apply (evolve_remove_pending now (conn_id f))|apply evolve_end_handshake]. }
  destruct (syn_target_decode _) as [t|]; [|apply evolve_syn_fail].
  destruct (negb _ && negb _); [apply evolve_syn_fail|by apply evolve_frame].
Qed.

Lemma evolve_handle_frame f n now s :
  wire_frame f -> evolve now s (handle_frame lookup_host f n now s).
Proof.
  intros Hf. unfold handle_frame. destruct (has_flag f FLAG_SYN); [apply evolve_handle_syn|].
  destruct (has_flag f FLAG_DATA); [by apply evolve_handle_data|].
  destruct (has_flag f FLAG_FIN); [apply evolve_handle_fin|].
  destruct (has_flag f FLAG_RST); [apply evolve_handle_rst|reflexivity].
Qed.
(** *** The end of the SYN handshake *)
Lemma install_inv i v cid s :
  conn_inv s -> vcs s !! i = None -> vc_ok v -> fin_received v = false ->
  conn_inv (install_conn i v cid s).
Proof.
  intros [Hok Hc Hinj Ht Hd] Hi Hv Hf.
  assert (Hni : forall c, conns s !! c <> Some i).
  { intros c E. destruct (Hc c i E). congruence. }
  split; cbn.
  - intros j w [[<- <-]|[_ Hw]]%lookup_insert_Some; [done|by apply (Hok j)].
  - intros c j [[<- <-]|[_ Hj]]%lookup_insert_Some; [by rewrite lookup_insert_eq; eexists|].
    rewrite lookup_insert_ne; [by apply (Hc c)|]. intros ->. by apply (Hni c).
  - intros c1 c2 j [[<- <-]|[_ H1]]%lookup_insert_Some [[<- E]|[_ H2]]%lookup_insert_Some;
      [done|by apply Hni in H2|subst j; by apply Hni in H1|by apply (Hinj c1 c2 j)].
  - intros j w [[<- <-]|[_ Hw]]%lookup_insert_Some; [|by apply Ht]. rewrite Hf.
    split; [|done]. intros Hin. destruct (Hd i Hin). congruence.
  - intros j Hj. destruct (decide (j = i)) as [->|]; [by rewrite lookup_insert_eq; eexists|].
    rewrite lookup_insert_ne by done. by apply Hd.
Qed.

Lemma replay_evolve fs fin v b fin' v' :
  Forall wire_frame fs -> replay fs fin v = (b, fin', v') ->
  let w := if b then signal_teardown v' else v' in
  vc_evolve v w /\ fin_received w = fin_received v.
Proof.
  intros Hw. revert fin v. induction Hw as [|f fs [Hsq _] Hw IH]; intros fin v Hr; cbn [replay] in Hr.
  { simplify_eq. cbn. by split. }
  destruct (has_flag f FLAG_DATA).
  - destruct (deliver (seq f) (payload f) v) as [o w] eqn:Hd. destruct o.
    + destruct (evolve_delivered _ _ _ _ Hsq Hd) as [He Hf].
      fold (settle w) in Hr. apply IH in Hr as [He2 Hf2]. split; [by etrans|congruence].
    + destruct (deliver_view _ _ _ _ _ Hd) as (_ & _ & _ & Hdup).
      rewrite (Hdup eq_refl) in Hr. by apply IH in Hr.
    + simplify_eq. by eapply evolve_broken.
  - destruct (has_flag f FLAG_FIN); by apply IH in Hr.
Qed.

Lemma evolve_drop_cancelled cid now s :
  evolve now s (drop_cancelled cid now s).
Proof.
  unfold drop_cancelled.
  assert (tombstone cid now (remove_conn cid s) = remove_conn cid (tombstone cid now s)) as ->.
  { unfold remove_conn. cbn. by destruct (conns s !! cid). }
  etrans; [apply (evolve_tombstone_remove now cid)|apply evolve_end_handshake].
Qed.

Lemma evolve_syn_drain cid i now s :
  pending_inv s -> conns s !! cid = Some i -> evolve now s (syn_drain cid i now s).
Proof.
  intros Hp Hc. unfold syn_drain.
  pose proof (evolve_remove_pending now cid s) as Hrm.
  assert (Hview : conns (remove_pending cid s).2 = conns s /\ vcs (remove_pending cid s).2 = vcs s).
  { unfold remove_pending. by destruct (pending s !! cid). }
  assert (Hfr : forall e, (remove_pending cid s).1 = Some e -> Forall wire_frame (pe_frames e)).
  { unfold remove_pending. destruct (pending s !! cid) as [e|] eqn:E; intros ? [= <-].
    apply (po_entries _ _ _ Hp cid e E). }
  destruct (remove_pending cid s) as [[e|] s1]; cbn in *; destruct Hview as [Ec Ev];
    (etrans; [exact Hrm|]); [|apply evolve_end_handshake].
  destruct (pe_cancelled e).
  { apply evolve_drop_cancelled. }
  destruct (vcs s1 !! i) as [v|] eqn:Hv; [|apply evolve_end_handshake].
  destruct (replay (pe_frames e) None v) as [[b fin] v'] eqn:Hr.
  apply replay_evolve in Hr as [He Hf]; [|by apply Hfr]. rewrite <- Ec in Hc. destruct b.
  - etrans; [|apply evolve_end_handshake]. by eapply evolve_break.
  - assert (evolve now s1 (upd_vc (fun _ => v') i s1)) as Hu.
    { apply evolve_upd_vc; intros w Hw; rewrite Hv in Hw; by injection Hw as <-. }
    etrans; [exact Hu|]. etrans; [|apply evolve_end_handshake].
    destruct fin as [sq|]; [|reflexivity].
    etrans; [apply (evolve_start_half now i sq)|apply evolve_finish].
Qed.
(** *** Every event *)

(** The state an event's effect evolves from: the current one, or the current one with
    the new connection of a completed handshake. *)
Inductive origin (s : RState) : option (Z * nat) -> RState -> Prop :=
| origin_same : origin s None s
| origin_new cid i v m :
    vcs s !! i = None -> vc_ok v -> fin_received v = false ->
    origin s (Some (cid, i)) (install_conn i v cid (with_tasks m s)).

Lemma origin_inv s o s0 : origin s o s0 -> conn_inv s -> conn_inv s0.
Proof.
  intros [|cid i v m Hi Hv Hf] H; [done|]. apply install_inv; try done.
  destruct H as [H1 H2 H3 H4 H5]. by split.
Qed.

Context (window_nonneg : 0 <= window_bytes).

Lemma evolve_with_tasks now m s : evolve now s (with_tasks m s).
Proof. by apply evolve_frame. Qed.

Lemma evolve_syn_udp now cid i sock s :
  evolve now (install_conn i (new_udp_conn window_bytes now sock) cid s)
    (syn_udp lookup_host window_bytes cid i (Some sock) now s).
Proof.
  unfold syn_udp. set (v := new_udp_conn _ _ _). set (s1 := install_conn i v cid s).
  pose proof (evolve_remove_pending now cid s1) as Hrm.
  destruct (remove_pending cid s1) as [[e|] s2]; cbn in Hrm; (etrans; [exact Hrm|]).
  - destruct (pe_cancelled e); [apply evolve_drop_cancelled|].
    etrans; [|apply evolve_end_handshake]. apply (evolve_fold now _ (pe_frames e) s2).
    intros s0 f. destruct (has_flag f FLAG_DATA); [apply evolve_forward|reflexivity].
  - apply evolve_end_handshake.
Qed.

Lemma evolve_reader e now t s : evolve now s (reader_step e now t s).2.
Proof.
  destruct e as [|chunk r p|r p]; cbn; [reflexivity| |].
  - etrans; [apply (evolve_same_pool now s p)|]. destruct r; cbn; [|..|reflexivity].
    + apply evolve_upd_vc; [intros v _; apply evolve_count_sent|done].
    + etrans; [apply (evolve_tombstone_remove now (rd_cid t))|apply evolve_pool_send].
  - etrans; [apply (evolve_same_pool now s p)|].
    match goal with |- evolve _ _ (finish_if_done _ _ _ (upd_vc _ _ ?x)) =>
      assert (evolve now (with_rpool p s) x) as Hx by (destruct r; [reflexivity|apply evolve_pool_send..]) end.
    etrans; [exact Hx|]. etrans; [|apply evolve_finish].
    apply evolve_upd_vc; [intros v _; apply evolve_eof|done].
Qed.

Lemma evolve_udp_response now cid sq src data s : evolve now s (udp_response cid sq src data now s).2.
Proof.
  unfold udp_response. destruct (encode_udp_datagram _ _) as [d|]; [|reflexivity].
  destruct (_ >? _); [reflexivity|]. destruct (send _ _) as [[] p]; cbn; [|apply evolve_same_pool].
  etrans; [apply (evolve_same_pool now s p)|]. cbn.
  destruct (conns s !! cid) as [i|]; [|reflexivity].
  apply evolve_upd_vc; [intros v _; apply evolve_count_sent|done].
Qed.

Lemma evolve_heartbeat now now_ms s : evolve now s (heartbeat now now_ms s).
Proof.
  unfold heartbeat. cbv zeta. set (s1 := with_rpool _ s).
  etrans; [apply (evolve_same_pool now s : forall p, evolve now s (with_rpool p s))|].
  fold s1. etrans; [apply (evolve_fold now (sweep_conn now) (dash_iter (conns s1)) s1)|].
  { intros s0 e. unfold sweep_conn. destruct (vcs s0 !! e.2); [|reflexivity].
    destruct (conn_idle now _); [|reflexivity].
    etrans; [apply (evolve_tombstone_remove now e.1)|apply evolve_pool_send]. }
  set (s2 := fold_left _ _ s1). set (s3 := with_closed _ s2).
  assert (evolve now s2 s3) as H3.
  { apply evolve_frame; try done. intros c Hc. apply map_lookup_filter_Some. split; [done|].
    cbn. unfold sat_sub, CLOSED_TTL. lia. }
  etrans; [exact H3|]. set (s4 := with_handshaking _ s3).
  assert (evolve now s3 s4) as H4 by by apply evolve_frame.
  etrans; [exact H4|]. unfold sweep_stale_pending. cbv zeta.
  set (s6 := fold_left (sweep_reset now) _ _).
  assert (evolve now s4 s6) as H6; [|etrans; [exact H6|by apply evolve_frame]].
  etrans; [apply evolve_with_pending|]. apply evolve_fold. intros s0 ke. unfold sweep_reset.
  etrans; [apply (evolve_notify now (pe_cancel ke.2))|].
  etrans; [apply (evolve_tombstone now ke.1)|apply evolve_pool_send].
Qed.
(** What an event does to the state: at most one new connection, by an event that makes
    one, then an evolution. *)
Definition evolves_by (e : REvent) (now : Z) (s s' : RState) : Prop :=
  exists o s0, origin s o s0 /\ evolve now s0 s' /\
    (forall cid i, o = Some (cid, i) ->
       (exists n, e = EvConnected n i ConnectOk) /\ closed s !! cid = None \/
       exists n sock, e = EvUdpBound n i (Some sock)).

Lemma evolves_same e now s s' : evolve now s s' -> evolves_by e now s s'.
Proof. intros Hev. exists None, s. split_and!; [constructor|done|done]. Qed.

Lemma evolves_connected n i o now cid s :
  pending_inv s -> vcs s !! i = None ->
  evolves_by (EvConnected n i o) now s
    (syn_connected window_bytes cid i o now (with_tasks (delete n (tasks s)) s)).
Proof.
  intros Hp Hfr. set (s1 := with_tasks (delete n (tasks s)) s).
  assert (evolve now s s1) as H1 by apply evolve_with_tasks.
  destruct o; unfold syn_connected.
  - case_decide as Hcl.
    + apply evolves_same. etrans; [exact H1|].
      etrans; [apply (evolve_remove_pending now cid)|apply evolve_end_handshake].
    + exists (Some (cid, i)), (install_conn i (new_tcp_conn window_bytes now) cid s1).
      split; [apply origin_new; [done|by apply new_tcp_ok|done]|].
      split; [apply evolve_syn_drain; [exact Hp|cbn; apply lookup_insert_eq]|].
      intros ? ? [= <- <-]. left. split; [eauto|]. by apply eq_None_not_Some.
  - apply evolves_same. etrans; [exact H1|apply evolve_syn_fail].
  - apply evolves_same. etrans; [exact H1|apply evolve_syn_fail].
  - apply evolves_same. etrans; [exact H1|]. etrans; [apply (evolve_remove_pending now cid)|].
    etrans; [apply (evolve_end_handshake now cid)|apply evolve_tombstone].
Qed.

Lemma rstep_evolve e now s s' :
  event_ok e -> pending_inv s -> conn_inv s ->
  rstep lookup_host window_bytes e now s = Some s' -> evolves_by e now s s'.
Proof.
  intros He Hp Hci Hs.
  destruct e as [f n|n i bound|n i o|i|t ev|cid sq src data|now_ms|lost|i now_ms];
    unfold rstep, resume in Hs.
  - case_decide; simplify_eq. apply evolves_same. by apply evolve_handle_frame.
  - case_decide as Hfr; [|done]. destruct (tasks s !! n) as [[cid|cid t]|]; simplify_eq.
    destruct bound as [sock|].
    + exists (Some (cid, i)), (install_conn i (new_udp_conn window_bytes now sock) cid
                                 (with_tasks (delete n (tasks s)) s)).
      split; [apply origin_new; [done|by apply new_udp_ok|done]|].
      split; [apply evolve_syn_udp|]. intros ? ? [= <- <-]. eauto.
    + apply evolves_same. etrans; [apply (evolve_with_tasks now (delete n (tasks s)))|].
      apply evolve_syn_fail.
  - case_decide as Hfr; [|done]. destruct (tasks s !! n) as [[cid|cid t]|]; simplify_eq.
    by apply evolves_connected.
  - case_decide as Hin; simplify_eq. apply evolves_same.
    assert (forall v, vcs s !! i = Some v -> fin_received v = true) as Hf.
    { intros v Hv. by apply (ci_timers _ Hci i v Hv). }
    apply evolve_upd_vc; intros v Hv; [by apply evolve_close_force, Hf|].
    unfold close_write_half, force_close. by destruct (_ =? _).
  - destruct (rd_done t); simplify_eq. apply evolves_same, evolve_reader.
  - simplify_eq. apply evolves_same, evolve_udp_response.
  - simplify_eq. apply evolves_same, evolve_heartbeat.
  - simplify_eq. apply evolves_same. apply evolve_fold. intros s0 f. destruct (negb _); apply evolve_pool_send.
  - case_decide; simplify_eq. apply evolves_same. unfold accept_tunnel.
    destruct (_ >=? _); [reflexivity|apply evolve_same_pool].
Qed.

Lemma init_conn_inv p : conn_inv (reassembler_init p).
Proof.
  split; cbn; try done. intros i Hi. by apply elem_of_nil in Hi.
Qed.

Lemma rstep_inv e now s s' :
  event_ok e -> pending_inv s -> conn_inv s ->
  rstep lookup_host window_bytes e now s = Some s' -> pending_inv s' /\ conn_inv s'.
Proof.
  intros He Hp Hc Hs. split; [by eapply rstep_pending_inv|].
  destruct (rstep_evolve e now s s' He Hp Hc Hs) as (o & s0 & Ho & Hev & _).
  eapply ev_inv; [exact Hev|]. by eapply origin_inv.
Qed.

Lemma rrun_inv es s s' :
  Forall (fun e => event_ok e.1) es -> pending_inv s -> conn_inv s ->
  rrun lookup_host window_bytes es s = Some s' -> pending_inv s' /\ conn_inv s'.
Proof.
  revert s. induction es as [|[e now] es IH]; intros s He Hp Hc Hr; cbn in Hr; [by simplify_eq|].
  apply Forall_cons_1 in He as [He Hes].
  destruct (rstep _ _ e now s) as [s1|] eqn:Es; [|done].
  destruct (rstep_inv e now s s1 He Hp Hc Es). by eapply IH.
Qed.

Lemma reachable_inv p es s :
  Forall (fun e => event_ok e.1) es ->
  rrun lookup_host window_bytes es (reassembler_init p) = Some s -> pending_inv s /\ conn_inv s.
Proof.
  intros He Hr. eapply rrun_inv; [done| |apply init_conn_inv|done]. by split.
Qed.

(** [start_half_close] publishes [fin_received] before [fin_seq].  A DATA frame
    delivered in between sees a FIN with seq 0, finds the stream complete and closes
    the write half for good, although frames below the real FIN are still missing:
    the target sees EOF on a truncated request. *)
Theorem fin_seq_race (sq : Z) (v : VirtConnDe) :
  reorder_wf (reorder v) -> half_close_state v = 0 -> fin_seq v = 0 ->
  let swapped := set_fin true (fin_seq v) v in
  let closed := close_write_half false swapped in
  let stored := set_fin true sq closed in
  half_close_state stored = 2 /\ has_permit (half_close stored) = true /\
  close_check stored = is_complete_through (reorder v) sq.
Proof.
  intros Hwf H0 Hz. cbv zeta.
  destruct (close_normal_view (set_fin true (fin_seq v) v)) as [[Hn _]|[(_ & _ & ->)|(_ & Hk & _)]].
  - by cbn in Hn.
  - cbn. by rewrite has_permit_one.
  - unfold close_check, is_complete_through in Hk. cbn in Hk. rewrite Hz in Hk.
    pose proof (wf_expected _ Hwf). zbool. lia.
Qed.

End conn_facts.

(** ** Concrete runs *)
#[local] Existing Instance RefTokio.
#[local] Existing Instance RefBufMut.
#[local] Existing Instance RefDashIter.

(** SYN, connect, frame 1, then FIN 3: frame 2 is missing. *)
Definition gap_events : list (REvent * Z) :=
  [(EvFrame (demo_syn 7) 0, 1); (EvConnected 0 10 ConnectOk, 2);
   (EvFrame (demo_data 7 1) 1, 3); (EvFrame (frame_fin 7 3) 1, 4)].

Definition run_demo (es : list (REvent * Z)) : option RState :=
  rrun no_dns 100000 es (reassembler_init demo_tunnels).

Lemma gap_events_ok : Forall (fun e => event_ok e.1) gap_events.
Proof.
  repeat (apply Forall_cons_2; [try exact I; split; cbn; zcompute || lia|]). apply Forall_nil_2.
Qed.



(** ** What interleavings below the grain of a handler do *)

(** A FIN and the last missing frame, on two tunnels, can lose the close.  The
    FIN's task moves the state to "closing" and finds frame 2 missing; the other task
    then delivers frame 2 and finds a close already in progress; the first task rolls
    back to "open".  Now every frame is delivered, no further frame will come, and the
    write half is open: only the 10 s fallback closes it. *)
Theorem lost_close_race :
  let v := set_fin true 3 (deliver 1 [Byte.x61] (new_tcp_conn 1000 0)).2 in
  let v1 := default v (close_begin v) in
  let r := deliver 2 [Byte.x62] v1 in
  let v3 := close_commit (close_check v1) r.2 in
  is_Some (close_begin v) /\ close_check v1 = false /\
  r.1 = Delivered /\ close_begin r.2 = None /\
  fin_received v3 = true /\ close_check v3 = true /\ half_close_state v3 = 0 /\
  has_permit (half_close v3) = false.
Proof. cbv zeta. split; [by eexists|]. repeat split; vm_compute; reflexivity. Qed.

Lemma fin_seq_race_witness :
  let v := new_tcp_conn 1000 0 in
  half_close_state v = 0 /\
  half_close_state (set_fin true 3 (close_write_half false (set_fin true (fin_seq v) v))) = 2.
Proof.
  split; [reflexivity|].
  apply (fin_seq_race 3 (new_tcp_conn 1000 0)); [by apply with_limit_wf|reflexivity|reflexivity].
Defined.

(** The DATA handler looked [conns] up before the SYN handler of its cid finished. *)
Definition before_connect : list (REvent * Z) := take 1 gap_events.
Definition after_connect : list (REvent * Z) := take 2 gap_events.

(** A DATA frame can be stranded next to its own connection.  Its handler finds no
    connection; the SYN handler then installs it and drains the pending entry; the
    DATA handler goes on, finds no pending entry and makes one that nobody will drain.
    The connection never sees frame 1, and the heartbeat 30 s later resets the cid
    towards the splitter while the connection is still in the map. *)
Theorem data_syn_race_strands_frame :
  match run_demo before_connect, run_demo after_connect with
  | Some s0, Some s1 =>
    let '(again, s2) := data_unknown (demo_data 7 1) 3 s1 in
    let s3 := heartbeat 40000 0 s2 in
    conns s0 !! 7 = None /\ again = false /\
    conns s2 !! 7 = Some 10%nat /\ (expected ∘ reorder <$> vcs s2 !! 10%nat) = Some 1 /\
    (pe_frames <$> pending s2 !! 7) = Some [demo_data 7 1] /\
    conns s3 !! 7 = Some 10%nat /\ closed s3 !! 7 = Some 40000 /\ pending s3 !! 7 = None
  | _, _ => False
  end.
Proof. vm_compute. repeat split. Qed.

(** After a forced close nobody looks at [finish_if_done] again.  The target's EOF
    came first, then the fallback timer closed the write half: both directions are
    finished, and the connection stays in the map (until the 300 s idle sweep). *)
Theorem forced_close_leaves_conn :
  match run_demo (gap_events ++
    [(EvReader (egress_reader_init 7 10) (RdEof RaceSent demo_tunnels), 5);
     (EvFallback 10, 10004)]) with
  | Some s =>
    (conn_done <$> vcs s !! 10%nat) = Some true /\ conns s !! 7 = Some 10%nat /\
    closed s !! 7 = None
  | None => False
  end.
Proof. vm_compute. repeat split. Qed.
