(* ===== verification/EgressWriter.v ===== *)
(** * The egress writer task of the reassembler

    Models [write_to_egress] of [src/src/reassembler.rs] as a machine, one step per arm
    taken by its [select!]s, and one connection around it: the DATA frames and the FIN
    delivered to it, the forced close and the teardown, interleaved with the task. *)
From Stdlib Require Import ZArith Lia.
From Stdlib Require Import Strings.Byte.
From stdpp Require Import base numbers list option fin_maps gmap.
From S2P Require Import Prelude Runtime Frames Reorder Tunnel Net Socks5 Reassembler.
Local Open Scope Z_scope.

(** Why the task left its loop. *)
Inductive writer_exit : Set := ExCancelled | ExChannelClosed | ExFailed | ExHalfClosed.

Inductive writer_phase : Type :=
| WSelect                       (** at the outer [select!] *)
| WWrite (chunk : bytes)        (** awaiting [write_all(&chunk)] *)
| WDrain                        (** in the [try_recv] loop after the half-close signal *)
| WDrainWrite (chunk : bytes)
| WShutdown (why : writer_exit) (** awaiting [wr.shutdown()] *)
| WReturned (why : writer_exit).

Record EgressWriter : Type := mkEgressWriter {
  w_phase : writer_phase;
  w_out : bytes;  (** everything the socket accepted *)
}.

Definition writer_start : EgressWriter := mkEgressWriter WSelect [].

(** [n] bytes of the chunk may have gone out before a write failed or was dropped. *)
Inductive writer_event : Set :=
| WvPoll (senders_gone : bool)
| WvNext
| WvWritten
| WvFailed (n : nat)
| WvCancelled (n : nat)
| WvShutdown.

Section writer.
Context {T : Tokio}.

Definition set_egress (c : chan bytes) (v : VirtConnDe) : VirtConnDe :=
  set_stream (Some c) (reorder v) v.
Definition take_half_close (v : VirtConnDe) : VirtConnDe :=
  set_half (notify_take (half_close v)) (half_close_state v) v.
Definition take_cancel_writer (v : VirtConnDe) : VirtConnDe :=
  mkVirtConnDe (egress v) (reorder v) (cancel v) (notify_take (cancel_writer v)) (half_close v)
    (fin_received v) (fin_seq v) (half_close_state v) (is_udp v) (udp_sock v) (egress_eof v)
    (created_at v) (last_active v) (vc_bytes_sent v) (vc_bytes_recv v) (vc_frames_sent v)
    (vc_frames_recv v).

(** One step; [None]: the event is not possible there. *)
Definition writer_step (e : writer_event) (w : EgressWriter) (v : VirtConnDe)
  : option (EgressWriter * VirtConnDe) :=
  match egress v with
  | None => None
  | Some c =>
    let out := w_out w in
    match e, w_phase w with
    | WvPoll gone, WSelect =>
      if has_permit (cancel_writer v)
      then Some (mkEgressWriter (WShutdown ExCancelled) out, take_cancel_writer v)
      else match try_recv c with
           | (Some chunk, c') => Some (mkEgressWriter (WWrite chunk) out, set_egress c' v)
           | (None, _) =>
             if gone then Some (mkEgressWriter (WShutdown ExChannelClosed) out, v)
             else if has_permit (half_close v)
             then Some (mkEgressWriter WDrain out, take_half_close v)
             else None
           end
    | WvWritten, WWrite chunk =>
      if has_permit (cancel_writer v) then None
      else Some (mkEgressWriter WSelect (out ++ chunk), v)
    | WvFailed n, WWrite chunk =>
      Some (mkEgressWriter (WShutdown ExFailed) (out ++ take n chunk), v)
    | WvCancelled n, WWrite chunk =>
      if has_permit (cancel_writer v)
      then Some (mkEgressWriter (WShutdown ExCancelled) (out ++ take n chunk), take_cancel_writer v)
      else None
    | WvNext, WDrain =>
      match try_recv c with
      | (Some chunk, c') => Some (mkEgressWriter (WDrainWrite chunk) out, set_egress c' v)
      | (None, _) => Some (mkEgressWriter (WShutdown ExHalfClosed) out, v)
      end
    | WvWritten, WDrainWrite chunk =>
      if has_permit (cancel_writer v) then None
      else Some (mkEgressWriter WDrain (out ++ chunk), v)
    | WvFailed n, WDrainWrite chunk =>
      Some (mkEgressWriter (WShutdown ExFailed) (out ++ take n chunk), v)
    | WvCancelled n, WDrainWrite chunk =>
      if has_permit (cancel_writer v)
      then Some (mkEgressWriter (WReturned ExCancelled) (out ++ take n chunk),
                 set_egress (chan_close c) (take_cancel_writer v))
      else None
    | WvShutdown, WShutdown why =>
      Some (mkEgressWriter (WReturned why) out, set_egress (chan_close c) v)
    | _, _ => None
    end
  end.

(** ** One connection with its writer *)

(** [ev_live]: the connection is in the map, so frames still reach it. *)
Record EgressConn : Type := mkEgressConn {
  ev_vc : VirtConnDe;
  ev_writer : EgressWriter;
  ev_live : bool;
}.

Inductive egress_event : Type :=
| EgData (sq : Z) (p : bytes) (now : Z)
| EgFin (sq : Z)
| EgForce                          (** the fallback timer fires *)
| EgTeardown                       (** RST, sweep: removed and signalled *)
| EgWriter (e : writer_event).

(** What [data_conn] does to the connection the frame belongs to. *)
Definition conn_data (sq : Z) (p : bytes) (now : Z) (v : VirtConnDe) : bool * VirtConnDe :=
  match deliver sq p v with
  | (Broken, v') => (false, signal_teardown v')
  | (Duplicate, v') => (true, v')
  | (Delivered, v') =>
    let v2 := vc_count_recv (zlen p) now v' in
    (true, if fin_received v2 then close_write_half false v2 else v2)
  end.

(** What [start_half_close] does to it. *)
Definition conn_fin (sq : Z) (v : VirtConnDe) : VirtConnDe :=
  if fin_received v then v else close_write_half false (set_fin true sq v).

Definition egress_step (e : egress_event) (s : EgressConn) : option EgressConn :=
  let v := ev_vc s in
  match e with
  | EgData sq p now =>
    if ev_live s then
      let '(ok, v') := conn_data sq p now v in Some (mkEgressConn v' (ev_writer s) ok)
    else Some s
  | EgFin sq => if ev_live s then Some (mkEgressConn (conn_fin sq v) (ev_writer s) true) else Some s
  | EgForce => Some (mkEgressConn (close_write_half true v) (ev_writer s) (ev_live s))
  | EgTeardown =>
    if ev_live s then Some (mkEgressConn (signal_teardown v) (ev_writer s) false) else Some s
  | EgWriter we =>
    match writer_step we (ev_writer s) v with
    | Some (w', v') => Some (mkEgressConn v' w' (ev_live s))
    | None => None
    end
  end.

Fixpoint egress_run (es : list egress_event) (s : EgressConn) : option EgressConn :=
  match es with
  | [] => Some s
  | e :: es' => match egress_step e s with Some s' => egress_run es' s' | None => None end
  end.

Definition egress_start (window_bytes now : Z) : EgressConn :=
  mkEgressConn (new_tcp_conn window_bytes now) writer_start true.
End writer.
