(* ===== verification/EgressFacts.v ===== *)
(** * What reaches the target

    The bytes [write_to_egress] writes, for any interleaving of the frames of a client's
    stream, its FIN, the fallback timer, a teardown and the steps of the writer task. *)
From Stdlib Require Import ZArith Lia.
From Stdlib Require Import Strings.Byte.
From stdpp Require Import base numbers list option fin_maps gmap.
From S2P Require Import Prelude Runtime Frames Reorder Tunnel Net Socks5 Reassembler EgressWriter.
Local Open Scope Z_scope.

Section egress_facts.
Context {T : Tokio} {TL : TokioLaws T}.

(** ** The connection step is the reassembler's *)
Lemma finish_if_done_vcs i cid now s : vcs (finish_if_done i cid now s) = vcs s.
Proof. unfold finish_if_done. destruct (vcs s !! i); [|done]. by destruct (conn_done _). Qed.

Lemma data_conn_spec i f now (s : RState) v lookup_host :
  conns s !! conn_id f = Some i -> vcs s !! i = Some v -> is_udp v = false ->
  let '(ok, v') := conn_data (seq f) (payload f) now v in
  let s' := data_conn lookup_host i f now s in
  vcs s' !! i = Some v' /\ (ok = false -> conns s' !! conn_id f = None).
Proof.
  intros Hc Hv Hu. unfold conn_data, data_conn. rewrite Hv, Hu.
  destruct (deliver (seq f) (payload f) v) as [[| |] v'].
  - destruct (fin_received _).
    + split; [|done]. rewrite finish_if_done_vcs. cbn. rewrite lookup_alter_eq, Hv. done.
    + split; [|done]. cbn. by rewrite lookup_alter_eq, Hv.
  - split; [|done]. cbn. by rewrite lookup_alter_eq, Hv.
  - unfold reset_conn_de, remove_conn. cbn. rewrite Hc. cbn.
    split; [by rewrite !lookup_alter_eq, Hv|by rewrite lookup_delete_eq].
Qed.

(** ** The channel under a delivery *)
Lemma egress_write_all_spec bs c ok c' :
  egress_write_all bs c = (ok, c') ->
  is_closed c' = is_closed c /\
  exists k, (k <= length bs)%nat /\ queued c' = queued c ++ take k bs /\ (ok = true -> k = length bs).
Proof.
  revert c. induction bs as [|b bs IH]; intros c H; cbn in H.
  { simplify_eq. split; [done|]. exists 0%nat. cbn. by rewrite app_nil_r. }
  destruct (try_send b c) as [[e|] c1] eqn:E.
  - apply try_send_err in E as ->. simplify_eq. split; [done|].
    exists 0%nat. cbn. rewrite app_nil_r. by split_and!; [lia|..].
  - apply try_send_None in E as (E1 & _ & E2 & E3 & _).
    apply IH in H as (Hc & k & Hk & Hq & Hok). split; [congruence|].
    exists (S k). split_and!; [cbn; lia| |intros H; cbn; by rewrite Hok].
    rewrite Hq, E2. cbn. by rewrite <- app_assoc.
Qed.

(** ** A stream delivered to the connection *)
Section stream_bytes.
Variable src : Z -> bytes.

(** ** The invariant *)
Definition in_flight (ph : writer_phase) : bytes :=
  match ph with WWrite chunk | WDrainWrite chunk => chunk | _ => [] end.

(** What the task and the channel hold of the stream, of which [e - 1] frames were
    written to the channel. *)
Definition holds_stream (c : chan bytes) (w : EgressWriter) (fs e : Z) : Prop :=
  match w_phase w with
  | WShutdown why | WReturned why =>
    w_out w `prefix_of` upto src e /\
    (why = ExHalfClosed -> exists e1, fs <= e1 <= e /\ 1 <= e1 /\ w_out w = upto src e1)
  | ph => w_out w ++ in_flight ph ++ concat (queued c) = upto src e
  end.

(** The task took the half-close signal. *)
Definition half_seen (ph : writer_phase) : Prop :=
  match ph with
  | WDrain | WDrainWrite _ | WShutdown ExHalfClosed | WReturned ExHalfClosed => True
  | _ => False
  end.

Definition fin_bound (forced : bool) (v : VirtConnDe) : Z := if forced then 0 else fin_seq v.

Record eg_pre (forced : bool) (seen : list Z) (s : EgressConn) (e : Z) : Prop := {
  ei_stream : stream_inv src seen (reorder (ev_vc s));
  ei_e : 1 <= e <= expected (reorder (ev_vc s));
  ei_live : ev_live s = true ->
    e = expected (reorder (ev_vc s)) /\ nothing_lost seen (reorder (ev_vc s));
  ei_chan : exists c, egress (ev_vc s) = Some c /\
    holds_stream c (ev_writer s) (fin_bound forced (ev_vc s)) e;
  ei_half : (half_close_state (ev_vc s) = 0 /\ has_permit (half_close (ev_vc s)) = false /\
              ~ half_seen (w_phase (ev_writer s))) \/ half_close_state (ev_vc s) = 2;
  ei_closed : forced = false -> half_close_state (ev_vc s) = 2 ->
    fin_received (ev_vc s) = true /\ fin_seq (ev_vc s) <= e;
}.

Definition eg_inv (forced : bool) (seen : list Z) (s : EgressConn) (e : Z) : Prop :=
  eg_pre forced seen s e /\
  (ev_live s = true -> fin_received (ev_vc s) = true ->
   fin_seq (ev_vc s) <= expected (reorder (ev_vc s)) -> half_close_state (ev_vc s) = 2).

Lemma eg_inv_start limit now : 0 <= limit -> eg_inv false [] (egress_start limit now) 1.
Proof.
  intros Hl. split; [|done]. constructor; cbn; try done.
  - by apply with_limit_stream_inv.
  - intros _. split; [done|]. by intros k ?%elem_of_nil.
  - eexists. split; [done|]. unfold holds_stream. cbn. by rewrite queued_new, upto_1.
  - left. rewrite has_permit_new. split_and!; [done|done|by intros []].
Qed.

Lemma holds_stream_grow c c' w fs e e' bs :
  1 <= e <= e' -> queued c' = queued c ++ bs -> concat bs = concat (chunks src e e') ->
  holds_stream c w fs e -> holds_stream c' w fs e'.
Proof.
  intros He Hq Hb. unfold holds_stream. pose proof (upto_prefix src e e' He) as Hp.
  destruct (w_phase w) as [|chunk| |chunk|why|why]; cbn [in_flight];
    try (intros H; rewrite Hq, concat_app, !app_assoc, <- (app_assoc (w_out w)), H, Hb, (upto_app src e e') by lia; done).
  all: intros [H1 H2]; split; [by etrans|]; intros Hw; destruct (H2 Hw) as (e1 & ? & ? & ?);
    exists e1; split_and!; try done; lia.
Qed.

(** A normal close that runs to its end. *)
Lemma close_normal_effect v :
  half_close_state v = 0 \/ half_close_state v = 2 ->
  let v' := close_write_half false v in
  egress v' = egress v /\ reorder v' = reorder v /\ fin_received v' = fin_received v /\
  fin_seq v' = fin_seq v /\
  ((half_close_state v' = 2 /\ (half_close_state v = 2 \/ fin_seq v <= expected (reorder v))) \/
   (half_close_state v = 0 /\ half_close_state v' = 0 /\ half_close v' = half_close v /\
    expected (reorder v) < fin_seq v)).
Proof.
  intros Hs. unfold close_write_half, close_begin.
  destruct (Z.eqb_spec (half_close_state v) 0) as [E|E]; cbn; [|by destruct Hs; naive_solver].
  unfold close_check, is_complete_through. cbn.
  destruct (Z.leb_spec (fin_seq v) (expected (reorder v))); cbn; [naive_solver|].
  split_and!; try done. right. by split_and!.
Qed.

Lemma eg_pre_close forced seen v w e :
  eg_pre forced seen (mkEgressConn v w true) e -> fin_received v = true ->
  eg_inv forced seen (mkEgressConn (close_write_half false v) w true) e.
Proof.
  intros [H1 H2 H3 H4 H5 H6] Hf. cbn in H1, H2, H3, H4, H5, H6. destruct (H3 eq_refl) as [He Hl].
  destruct (close_normal_effect v) as (E1 & E2 & E3 & E4 & E5); [tauto|].
  set (v' := close_write_half false v) in *. clearbody v'.
  split; [constructor|]; cbn; unfold fin_bound in *; rewrite ?E1, ?E2, ?E3, ?E4; try done.
  - destruct E5 as [[? _]|(E5 & E6 & -> & _)]; [by right|]. left.
    destruct H5 as [?|?]; [by intuition|congruence].
  - intros Hfo Hst. split; [done|]. destruct E5 as [[_ [?|?]]|(_ & ? & _)]; [|lia|congruence].
    by apply H6.
  - intros _ _ Hle. destruct E5 as [[? _]|(_ & _ & _ & ?)]; [done|lia].
Qed.

(** ** The steps *)
Lemma eg_inv_data forced seen v w e k p now :
  eg_inv forced seen (mkEgressConn v w true) e -> 0 <= k < 2 ^ 64 - 1 -> (1 <= k -> p = src k) ->
  exists e', eg_inv forced (k :: seen)
    (mkEgressConn (conn_data k p now v).2 w (conn_data k p now v).1) e'.
Proof.
  intros [[H1 H2 H3 (c & Hc & Hh) H5 H6] H7] Hk Hp. cbn in H1, H2, H3, Hc, Hh, H5, H6, H7.
  destruct (H3 eq_refl) as [He Hl]. unfold conn_data, deliver.
  destruct (push (reorder v) k p) as [r ro] eqn:P.
  pose proof (push_outcome _ _ _ _ _ P) as Ho.
  destruct (push_stream src seen _ _ _ _ _ H1 Hk Hp P) as (Hs' & Hx & Hr & Hn).
  destruct (accepted r) eqn:Ea.
  - destruct Ho as [[_ Hov]|[? _]]; [|done]. rewrite Hc, Hr.
    destruct (egress_write_all (chunks src (expected (reorder v)) (expected ro)) c) as [ok c'] eqn:Ew.
    apply egress_write_all_spec in Ew as (_ & m & Hm & Hq & Hok).
    pose proof (length_chunks src _ _ Hx) as Hlen. unfold zlen in Hlen.
    rewrite chunks_take in Hq by lia.
    assert (holds_stream c' w (fin_bound forced v) (e + Z.of_nat m)) as Hh'.
    { eapply (holds_stream_grow c c' w _ e); [lia|exact Hq|by rewrite He|done]. }
    assert (eg_pre forced (k :: seen) (mkEgressConn (set_stream (Some c') ro v) w ok) (e + Z.of_nat m))
      as Hpre.
    { constructor; cbn; try done.
      - lia.
      - intros ->. rewrite Hok in * by done. split; [lia|auto].
      - by exists c'.
      - intros Hfo Hst. destruct (H6 Hfo Hst). split; [done|lia]. }
    exists (e + Z.of_nat m). destruct ok; cbn [fst snd].
    + assert (eg_pre forced (k :: seen) (mkEgressConn
        (vc_count_recv (zlen p) now (set_stream (Some c') ro v)) w true) (e + Z.of_nat m)) as Hpre2.
      { destruct Hpre. by constructor. }
      destruct (fin_received (vc_count_recv _ _ _)) eqn:Ef; [by apply eg_pre_close|].
      split; [done|]. cbn [ev_vc]. congruence.
    + split; [|done]. destruct Hpre. by constructor.
  - destruct Ho as [[? _]|[_ ->]]; [done|]. exists e.
    destruct (overflow r) eqn:Eo; cbn [fst snd].
    + split; [|done]. constructor; cbn; try done. by exists c.
    + split; [|done]. constructor; cbn; try done.
      * intros _. split; [done|auto].
      * by exists c.
Qed.

Lemma eg_inv_fin forced seen v w e sq :
  eg_inv forced seen (mkEgressConn v w true) e ->
  eg_inv forced seen (mkEgressConn (conn_fin sq v) w true) e.
Proof.
  intros HI. unfold conn_fin. destruct (fin_received v) eqn:Ef; [done|].
  destruct HI as [[H1 H2 H3 (c & Hc & Hh) H5 H6] H7]. cbn in H1, H2, H3, Hc, Hh, H5, H6, H7.
  apply eg_pre_close; [|done]. constructor; cbn; try done.
  - exists c. split; [done|]. unfold fin_bound in *. destruct forced; [done|].
    assert (~ half_seen (w_phase w)) as Hns.
    { destruct H5 as [(_ & _ & ?)|H5]; [done|]. destruct (H6 eq_refl H5). congruence. }
    unfold holds_stream, half_seen in *. destruct (w_phase w) as [| | | |[]|[]]; try done;
      destruct Hh as [? _]; by split.
  - intros -> Hst. destruct (H6 eq_refl Hst). congruence.
Qed.

Lemma eg_inv_force forced seen s e :
  eg_inv forced seen s e ->
  eg_inv true seen (mkEgressConn (close_write_half true (ev_vc s)) (ev_writer s) (ev_live s)) e.
Proof.
  intros [[H1 H2 H3 (c & Hc & Hh) H5 H6] H7].
  assert (holds_stream c (ev_writer s) 0 e) as Hh0.
  { unfold holds_stream in *. destruct (w_phase (ev_writer s)); try done;
      destruct Hh as [? Hw]; (split; [done|]); intros E; destruct (Hw E) as (e1 & ? & ? & ?);
      exists e1; split_and!; try done; lia. }
  unfold close_write_half, force_close.
  destruct (Z.eqb_spec (half_close_state (ev_vc s)) 2) as [E|E]; (split; [constructor|]); cbn; try done.
  - by exists c.
  - by exists c.
  - by right.
Qed.

Lemma eg_inv_teardown forced seen v w e :
  eg_inv forced seen (mkEgressConn v w true) e ->
  eg_inv forced seen (mkEgressConn (signal_teardown v) w false) e.
Proof. intros [[H1 H2 H3 H4 H5 H6] _]. split; [|done]. by constructor. Qed.

(** The changes a step of the task makes to the shared connection. *)
Lemma eg_inv_writer_frame forced seen v v' w w' live e c' :
  eg_inv forced seen (mkEgressConn v w live) e ->
  egress v' = Some c' -> reorder v' = reorder v -> fin_received v' = fin_received v ->
  fin_seq v' = fin_seq v -> half_close_state v' = half_close_state v ->
  (half_close v' = half_close v \/ half_close_state v = 2) ->
  (half_seen (w_phase w') -> half_seen (w_phase w) \/ half_close_state v = 2) ->
  holds_stream c' w' (fin_bound forced v) e ->
  eg_inv forced seen (mkEgressConn v' w' live) e.
Proof.
  intros [[H1 H2 H3 H4 H5 H6] H7] E1 E2 E3 E4 E5 E6 E7 E8. cbn in *.
  split; [constructor|]; cbn; unfold fin_bound in *; rewrite ?E1, ?E2, ?E3, ?E4, ?E5; try done.
  - by exists c'.
  - destruct H5 as [(? & ? & ?)|?]; [|by right]. left. destruct E6 as [->|?]; [|congruence].
    split_and!; [done|done|]. intros [?|?]%E7; [done|congruence].
Qed.

Lemma holds_exit c out n chunk (q : list bytes) e fs why w :
  out ++ chunk ++ concat q = upto src e -> why <> ExHalfClosed ->
  w = mkEgressWriter (WShutdown why) (out ++ take n chunk) \/
  w = mkEgressWriter (WReturned why) (out ++ take n chunk) ->
  holds_stream c w fs e.
Proof.
  intros E Hw Hd.
  assert (out ++ take n chunk `prefix_of` upto src e).
  { rewrite <- E. apply prefix_app. rewrite <- (take_drop n chunk) at 2. rewrite <- app_assoc. by eexists. }
  by destruct Hd as [->| ->]; cbn; (split; [done|]).
Qed.

Lemma eg_inv_writer forced seen v w live e we w' v' :
  eg_inv forced seen (mkEgressConn v w live) e -> writer_step we w v = Some (w', v') ->
  eg_inv forced seen (mkEgressConn v' w' live) e.
Proof.
  intros HI Hs. pose proof HI as [[_ He _ (c & Hc & Hh) H5 H6] _]. cbn in He, Hc, Hh, H5, H6.
  pose proof (fun v' w' c' => eg_inv_writer_frame forced seen v v' w w' live e c' HI) as F.
  unfold writer_step in Hs. rewrite Hc in Hs. destruct w as [ph out]. cbn [w_phase w_out] in *.
  unfold holds_stream in Hh. cbn [w_phase w_out] in Hh.
  destruct we as [gone| | |n|n|], ph as [|chunk| |chunk|why|why]; try done; cbn [in_flight app] in Hh.
  - destruct (has_permit (cancel_writer v)) eqn:Ecw.
    { simplify_eq. apply (F _ _ c); try done; [by left|]. cbn. split; [|done].
      rewrite <- Hh. by eexists. }
    destruct (try_recv_cases c) as [[Hq Er]|(b & q & c1 & Hq & Er & <- & _)]; rewrite Er in Hs.
    + rewrite Hq, app_nil_r in Hh.
      destruct gone; [simplify_eq; apply (F _ _ c); try done; by left|].
      destruct (has_permit (half_close v)) eqn:Eh; [|done]. simplify_eq.
      destruct H5 as [(_ & ? & _)|H5]; [congruence|].
      apply (F _ _ c); try done; [by right|by right|]. unfold holds_stream. cbn. by rewrite Hq, app_nil_r.
    + simplify_eq. apply (F _ _ c1); try done; [by left|]. unfold holds_stream. cbn.
      by rewrite <- Hh, Hq.
  - destruct (try_recv_cases c) as [[Hq Er]|(b & q & c1 & Hq & Er & <- & _)]; rewrite Er in Hs;
      simplify_eq.
    + rewrite Hq, app_nil_r in Hh. apply (F _ _ c); try done; [by left|by left|].
      split; [by rewrite Hh|]. intros _. exists e. split_and!; try done; [|lia..].
      destruct H5 as [(_ & _ & [])|H5]; [done|]. unfold fin_bound.
      destruct forced; [lia|]. by apply H6.
    + apply (F _ _ c1); try done; [by left|by left|]. unfold holds_stream. cbn. by rewrite <- Hh, Hq.
  - destruct (has_permit (cancel_writer v)); [done|]. simplify_eq.
    apply (F _ _ c); try done; [by left|]. unfold holds_stream. cbn. by rewrite <- app_assoc.
  - destruct (has_permit (cancel_writer v)); [done|]. simplify_eq.
    apply (F _ _ c); try done; [by left|by left|]. unfold holds_stream. cbn. by rewrite <- app_assoc.
  - simplify_eq. apply (F _ _ c); try done; [by left|]. eapply holds_exit; [exact Hh| |by left]; done.
  - simplify_eq. apply (F _ _ c); try done; [by left|]. eapply holds_exit; [exact Hh| |by left]; done.
  - destruct (has_permit (cancel_writer v)); [|done]. simplify_eq.
    apply (F _ _ c); try done; [by left|]. eapply holds_exit; [exact Hh| |by left]; done.
  - destruct (has_permit (cancel_writer v)); [|done]. simplify_eq.
    eapply F; try done; [by left|]. eapply holds_exit; [exact Hh| |by right]; done.
  - simplify_eq. eapply F; try done; [by left|]. by left.
Qed.

(** ** Runs *)
#[local] Arguments close_write_half : simpl never.

(** The events of a client's stream of [n] frames: its DATA frames, and a FIN that
    carries [n + 1]. *)
Definition honest (n : Z) (e : egress_event) : Prop :=
  match e with
  | EgData k p _ => 1 <= k <= n /\ p = src k
  | EgFin sq => sq = n + 1
  | _ => True
  end.

Definition is_force (e : egress_event) : bool := match e with EgForce => true | _ => false end.

Lemma close_keeps force v :
  fin_received (close_write_half force v) = fin_received v /\
  fin_seq (close_write_half force v) = fin_seq v /\
  cancel_writer (close_write_half force v) = cancel_writer v.
Proof.
  unfold close_write_half, force_close, close_begin, close_commit.
  destruct force; [by destruct (_ =? _)|]. destruct (_ =? _); cbn; [|done].
  by destruct (close_check _); cbn.
Qed.

Lemma deliver_keeps sq p v o v' :
  deliver sq p v = (o, v') ->
  fin_received v' = fin_received v /\ fin_seq v' = fin_seq v /\ cancel_writer v' = cancel_writer v /\
  half_close_state v' = half_close_state v /\ half_close v' = half_close v.
Proof.
  unfold deliver. destruct (push _ _ _) as [r ro]. destruct (accepted r).
  - destruct (egress v); [destruct (egress_write_all _ _)|]; intros; by simplify_eq.
  - intros; by simplify_eq.
Qed.

(** The FIN fields, and the teardown signal of the writer, over one step. *)
Lemma egress_step_fin e s s' :
  egress_step e s = Some s' ->
  let v := ev_vc s in let v' := ev_vc s' in
  (fin_received v = true -> fin_received v' = true /\ fin_seq v' = fin_seq v) /\
  (fin_received v' = true -> fin_received v = true \/ e = EgFin (fin_seq v')) /\
  (forall sq, e = EgFin sq -> ev_live s' = true -> fin_received v' = true) /\
  (ev_live s' = true -> ev_live s = true) /\
  (ev_live s' = true -> has_permit (cancel_writer v) = false -> has_permit (cancel_writer v') = false).
Proof.
  destruct s as [v w live]. cbn. intros H. destruct e as [k p now|sq| | |we]; cbn in H.
  - destruct live; [|simplify_eq; cbn; naive_solver].
    unfold conn_data in H. destruct (deliver k p v) as [o v1] eqn:E.
    apply deliver_keeps in E as (E1 & E2 & E3 & _).
    destruct o; simplify_eq; cbn; [|rewrite E1, E2, E3; naive_solver|rewrite E1, E2; naive_solver].
    destruct (fin_received v1) eqn:Ef; [|cbn; rewrite E3; naive_solver].
    destruct (close_keeps false (vc_count_recv (zlen p) now v1)) as (K1 & K2 & K3).
    rewrite K1, K2, K3. cbn. rewrite E2, E3. naive_solver.
  - destruct live; [|simplify_eq; cbn; naive_solver]. simplify_eq. cbn. unfold conn_fin.
    destruct (fin_received v) eqn:Ef; [naive_solver|].
    destruct (close_keeps false (set_fin true sq v)) as (K1 & K2 & K3). rewrite K1, K2, K3.
    cbn. naive_solver.
  - simplify_eq. cbn [ev_vc ev_live]. destruct (close_keeps true v) as (K1 & K2 & K3).
    cbn in K1, K2, K3. rewrite K1, K2, K3. naive_solver.
  - destruct live; simplify_eq; cbn; naive_solver.
  - destruct (writer_step we w v) as [[w1 v1]|] eqn:E; [|done]. simplify_eq. cbn.
    assert (fin_received v1 = fin_received v /\ fin_seq v1 = fin_seq v /\
      (cancel_writer v1 = cancel_writer v \/ has_permit (cancel_writer v1) = false)) as (-> & -> & Hc).
    { unfold writer_step in E. destruct (egress v) as [c|]; [|done].
      destruct we, (w_phase w); repeat case_match; simplify_eq; cbn;
        rewrite ?has_permit_take; by auto. }
    destruct Hc as [->| ->]; naive_solver.
Qed.

Record run_inv (n : Z) (forced : bool) (seen : list Z) (s : EgressConn) (e : Z) : Prop := {
  ri_eg : eg_inv forced seen s e;
  ri_seen k : k ∈ seen -> 1 <= k <= n;
  ri_fin : fin_received (ev_vc s) = true -> fin_seq (ev_vc s) = n + 1;
  ri_cancel : ev_live s = true -> has_permit (cancel_writer (ev_vc s)) = false;
}.

Lemma run_inv_step n forced seen s e ev s' :
  0 <= n < 2 ^ 64 - 2 -> run_inv n forced seen s e -> honest n ev -> egress_step ev s = Some s' ->
  exists seen' e', run_inv n (forced || is_force ev) seen' s' e' /\
    (ev_live s' = true -> (forall k, k ∈ seen -> k ∈ seen') /\
       (forall k p t, ev = EgData k p t -> k ∈ seen')).
Proof.
  intros Hn [H1 H2 H3 H4] Hh Hs. pose proof (egress_step_fin _ _ _ Hs) as (F1 & F2 & F3 & F4 & F5).
  assert (forall seen' e', eg_inv (forced || is_force ev) seen' s' e' ->
    (forall k, k ∈ seen' -> 1 <= k <= n) -> run_inv n (forced || is_force ev) seen' s' e') as Hr.
  { intros seen' e' G1 G2. constructor; [done|done| |by auto].
    intros Hf. destruct (F2 Hf) as [Hf0|He]; [destruct (F1 Hf0) as [_ ->]; by auto|].
    rewrite He in Hh. exact Hh. }
  destruct s as [v w live]. destruct ev as [k p now|sq| | |we]; cbn in Hs, Hh;
    cbn [is_force] in *; rewrite ?orb_false_r, ?orb_true_r in *.
  - destruct live; [|simplify_eq; exists seen, e; split; [by apply Hr|done]].
    destruct Hh as [Hk Hp].
    destruct (eg_inv_data _ _ _ _ _ k p now H1) as [e' He']; [lia|by intros|].
    destruct (conn_data k p now v) as [ok v']. cbn in He'. simplify_eq.
    exists (k :: seen), e'. split.
    + apply Hr; [done|]. intros j [->|?]%elem_of_cons; auto.
    + intros _. split; [intros j ?; apply elem_of_cons; by right|].
      intros ? ? ? ?. simplify_eq. apply elem_of_cons. by left.
  - exists seen, e. split; [|by intros _]. apply Hr; [|done].
    destruct live; simplify_eq; [by apply eg_inv_fin|done].
  - exists seen, e. split; [|by intros _]. apply Hr; [|done]. simplify_eq.
    exact (eg_inv_force _ _ _ _ H1).
  - exists seen, e. split; [|by intros _]. apply Hr; [|done].
    destruct live; simplify_eq; [by eapply eg_inv_teardown|done].
  - destruct (writer_step we w v) as [[w' v']|] eqn:E; [|done]. simplify_eq.
    exists seen, e. split; [|by intros _]. apply Hr; [|done]. by eapply eg_inv_writer.
Qed.

Lemma egress_run_inv n es forced seen s e s' :
  0 <= n < 2 ^ 64 - 2 -> run_inv n forced seen s e -> Forall (honest n) es ->
  egress_run es s = Some s' ->
  exists seen' e', run_inv n (forced || existsb is_force es) seen' s' e' /\
    (ev_live s' = true -> ev_live s = true /\ (forall k, k ∈ seen -> k ∈ seen') /\
       (forall k p t, EgData k p t ∈ es -> k ∈ seen') /\
       (fin_received (ev_vc s) = true \/ (exists sq, EgFin sq ∈ es) -> fin_received (ev_vc s') = true)).
Proof.
  intros Hn Hi Hes. revert forced seen s e Hi. induction Hes as [|ev es Hh Hes IH];
    intros forced seen s e Hi Hr; cbn in Hr.
  - simplify_eq. exists seen, e. cbn. rewrite orb_false_r. split; [done|]. intros Hl.
    split_and!; [done|by auto|intros ??? H; by apply elem_of_nil in H|].
    intros [?|[sq H]]; [done|by apply elem_of_nil in H].
  - destruct (egress_step ev s) as [s1|] eqn:E; [|done].
    destruct (run_inv_step _ _ _ _ _ _ _ Hn Hi Hh E) as (seen1 & e1 & Hi1 & L1).
    pose proof (egress_step_fin _ _ _ E) as (F1 & F2 & F3 & F4 & F5).
    destruct (IH _ _ _ _ Hi1 Hr) as (seen2 & e2 & Hi2 & L2). exists seen2, e2.
    cbn [existsb]. rewrite orb_assoc. split; [done|]. intros Hlive.
    destruct (L2 Hlive) as (A & A1 & A2 & A3). destruct (L1 A) as [B1 B2]. split_and!; [auto|auto| |].
    + intros k p t [Ek|?]%elem_of_cons; [apply A1; by eapply B2|by eapply A2].
    + intros [Hf|[sq [Ek|?]%elem_of_cons]]; apply A3;
        [left; by apply F1|left; by eapply F3|by right; exists sq].
Qed.

(** The half-close signal waits for the task until it takes it. *)
Definition reading (ph : writer_phase) : Prop :=
  match ph with WSelect | WWrite _ => True | _ => False end.

Definition signal_inv (s : EgressConn) : Prop :=
  half_close_state (ev_vc s) = 2 -> reading (w_phase (ev_writer s)) ->
  has_permit (half_close (ev_vc s)) = true.

Lemma close_signal force v ph :
  (half_close_state v = 2 -> reading ph -> has_permit (half_close v) = true) ->
  half_close_state (close_write_half force v) = 2 -> reading ph ->
  has_permit (half_close (close_write_half force v)) = true.
Proof.
  intros H. unfold close_write_half, force_close, close_begin, close_commit. destruct force.
  - destruct (Z.eqb_spec (half_close_state v) 2); cbn; [auto|]. by rewrite has_permit_one.
  - destruct (Z.eqb_spec (half_close_state v) 0); cbn; [|auto].
    destruct (close_check _); cbn; [|done]. by rewrite has_permit_one.
Qed.

Lemma signal_inv_step e s s' : signal_inv s -> egress_step e s = Some s' -> signal_inv s'.
Proof.
  destruct s as [v w live]. unfold signal_inv. cbn. intros H Hs. destruct e as [k p now|sq| | |we]; cbn in Hs.
  - destruct live; [|by simplify_eq]. unfold conn_data in Hs.
    destruct (deliver k p v) as [o v1] eqn:E. apply deliver_keeps in E as (_ & _ & _ & E1 & E2).
    rewrite <- E1, <- E2 in H. destruct o; simplify_eq; cbn; [|done|done].
    destruct (fin_received v1); [|done]. by apply close_signal.
  - destruct live; simplify_eq; [|done]. cbn. unfold conn_fin. destruct (fin_received v); [done|].
    by apply close_signal.
  - simplify_eq. cbn [ev_vc ev_writer]. by apply close_signal.
  - destruct live; by simplify_eq.
  - destruct (writer_step we w v) as [[w1 v1]|] eqn:E; [|done]. simplify_eq. cbn.
    unfold writer_step in E. destruct (egress v) as [c|]; [|done].
    destruct we, w as [ph out], ph; cbn in E; repeat case_match; by simplify_eq.
Qed.

Lemma signal_inv_run es s s' : signal_inv s -> egress_run es s = Some s' -> signal_inv s'.
Proof.
  revert s. induction es as [|e es IH]; intros s H Hr; cbn in Hr; [by simplify_eq|].
  destruct (egress_step e s) as [s1|] eqn:E; [|done]. eapply IH; [|done]. by eapply signal_inv_step.
Qed.

(** The task takes and writes the [k] queued chunks, then the half-close signal. *)
Definition finish_schedule (k : nat) : list egress_event :=
  concat (replicate k [EgWriter (WvPoll false); EgWriter WvWritten]) ++
  [EgWriter (WvPoll false); EgWriter WvNext; EgWriter WvShutdown].

Lemma finish_schedule_run (q : list bytes) c out v live :
  egress v = Some c -> queued c = q -> has_permit (cancel_writer v) = false ->
  has_permit (half_close v) = true ->
  exists v', egress_run (finish_schedule (length q)) (mkEgressConn v (mkEgressWriter WSelect out) live) =
    Some (mkEgressConn v' (mkEgressWriter (WReturned ExHalfClosed) (out ++ concat q)) live).
Proof.
  revert c out v. induction q as [|b q IH]; intros c out v He Hq Hc Hh; unfold finish_schedule;
    cbn [length replicate concat app egress_run egress_step ev_writer ev_vc ev_live];
    unfold writer_step at 1; cbn [w_phase w_out]; rewrite He, Hc.
  - rewrite try_recv_nil, Hh by done. unfold writer_step at 1. cbn. rewrite He, try_recv_nil by done.
    unfold writer_step. cbn. rewrite He, app_nil_r. by eexists.
  - pose proof (try_recv_cons _ _ _ _ Hq) as (H1 & H2 & _).
    destruct (try_recv c) as [o c1]. cbn in H1, H2. subst o. unfold writer_step at 1. cbn. rewrite Hc.
    rewrite app_assoc. by apply (IH c1).
Qed.
End stream_bytes.

Definition half_closed (ph : writer_phase) : Prop := ph = WShutdown ExHalfClosed \/ ph = WReturned ExHalfClosed.

(** Every exit by half-close that was not forced comes from a FIN. *)
Lemma fin_from_event es s s' :
  egress_run es s = Some s' -> fin_received (ev_vc s') = true ->
  fin_received (ev_vc s) = true \/ exists sq, EgFin sq ∈ es.
Proof.
  revert s. induction es as [|e es IH]; intros s Hr Hf; cbn in Hr; [simplify_eq; by left|].
  destruct (egress_step e s) as [s1|] eqn:E; [|done].
  destruct (IH s1 Hr Hf) as [H1|[sq Hsq]]; [|right; exists sq; apply elem_of_cons; by right].
  destruct (egress_step_fin (fun _ => []) _ _ _ E) as (_ & F2 & _). destruct (F2 H1) as [?| ->]; [by left|].
  right. eexists. apply elem_of_cons. by left.
Qed.

(** The bytes of a connection in such a state. *)
Lemma run_inv_bytes src n forced seen s e :
  0 <= n -> run_inv src n forced seen s e ->
  w_out (ev_writer s) `prefix_of` upto src (n + 1) /\
  (half_closed (w_phase (ev_writer s)) -> forced = false ->
   w_out (ev_writer s) = upto src (n + 1) /\ fin_received (ev_vc s) = true).
Proof.
  intros Hn [[[H1 H2 H3 (c & Hc & Hh) H5 H6] H7] Hseen Hfin _].
  assert (e <= n + 1) as Hle.
  { destruct (decide (e <= n + 1)); [done|]. assert (n + 1 ∈ seen) as Hin by (apply (si_below _ _ _ H1); lia).
    apply Hseen in Hin. lia. }
  pose proof (upto_prefix src e (n + 1) ltac:(lia)) as Hp.
  split.
  - etrans; [|exact Hp]. unfold holds_stream in Hh.
    destruct (w_phase (ev_writer s)) as [| | | |why|why]; try (by destruct Hh); rewrite <- Hh; by eexists.
  - intros Hph ->.
    destruct H5 as [(_ & _ & Hns)|H5]; [destruct Hns; by destruct Hph as [-> | ->]|].
    destruct (H6 eq_refl H5) as [Hfr _]. unfold fin_bound in Hh. rewrite (Hfin Hfr) in Hh.
    assert (exists e1, n + 1 <= e1 <= e /\ 1 <= e1 /\ w_out (ev_writer s) = upto src e1) as (e1 & ? & _ & ->).
    { unfold holds_stream in Hh. by destruct Hph as [E|E]; rewrite E in Hh; destruct Hh as [_ Hh]; apply Hh. }
    split; [by assert (e1 = n + 1) as -> by lia|done].
Qed.

Lemma run_inv_start src n limit now : 0 <= limit -> run_inv src n false [] (egress_start limit now) 1.
Proof.
  intros Hl. constructor; [by apply eg_inv_start|by intros k ?%elem_of_nil|done|].
  intros _. apply has_permit_new.
Qed.

Lemma egress_run_bytes src n limit now es s :
  0 <= limit -> 0 <= n < 2 ^ 64 - 2 -> Forall (honest src n) es ->
  egress_run es (egress_start limit now) = Some s ->
  w_out (ev_writer s) `prefix_of` upto src (n + 1) /\
  (half_closed (w_phase (ev_writer s)) -> EgForce ∉ es ->
   w_out (ev_writer s) = upto src (n + 1) /\ exists sq, EgFin sq ∈ es).
Proof.
  intros Hl Hn Hes Hr.
  destruct (egress_run_inv src n es _ _ _ _ _ Hn (run_inv_start src n limit now Hl) Hes Hr)
    as (seen & e & Hi & _).
  destruct (run_inv_bytes _ _ _ _ _ _ (proj1 Hn) Hi) as [P1 P2]. split; [done|]. intros Hph Hnf.
  assert (existsb is_force es = false) as Hf.
  { apply not_true_is_false. intros ([] & Hin%list_elem_of_In & ?)%existsb_exists; done. }
  destruct (P2 Hph Hf) as [? Hfr]. split; [done|]. by destruct (fin_from_event _ _ _ Hr Hfr).
Qed.

(** ** Properties *)

(** What reaches the target.  Take a client's stream of [n] frames with a FIN that
    carries [n + 1], the frames arriving in any order, repeated or missing, the fallback
    timer and a teardown at any time, and any behaviour of the writer task and its
    socket, failed and cancelled writes included.  The bytes the socket accepted are
    always a prefix of the stream; and when the task ended because of the half-close,
    and the timer never forced it, they are the whole stream: the target sees the end
    of the request only after all of it. *)
Theorem egress_stream_prefix src n limit now es s :
  0 <= limit -> 0 <= n < 2 ^ 64 - 2 -> Forall (honest src n) es ->
  egress_run es (egress_start limit now) = Some s ->
  let whole := concat (chunks src 1 (n + 1)) in
  w_out (ev_writer s) `prefix_of` whole /\
  (half_closed (w_phase (ev_writer s)) -> EgForce ∉ es -> w_out (ev_writer s) = whole).
Proof.
  intros Hl Hn Hes Hr whole. destruct (egress_run_bytes _ _ _ _ _ _ Hl Hn Hes Hr) as [H1 H2].
  split; [exact H1|]. intros Hh Hf. by destruct (H2 Hh Hf).
Qed.

End egress_facts.

(** ** Witnesses *)
#[local] Existing Instance RefTokio.

Definition demo_src (k : Z) : bytes := [byte_of_Z (96 + k)].
(** Frame 2 first, the FIN before frame 1, and the writer in between. *)
Definition demo_arrivals : list egress_event :=
  [EgData 2 (demo_src 2) 5; EgFin 3; EgData 1 (demo_src 1) 6; EgWriter (WvPoll false);
   EgData 2 (demo_src 2) 7; EgWriter WvWritten].

Lemma demo_honest : Forall (honest demo_src 2) demo_arrivals.
Proof. repeat constructor; cbn; lia. Qed.

Lemma egress_stream_prefix_witness :
  match egress_run (demo_arrivals ++ finish_schedule 1) (egress_start 65536 0) with
  | Some s => w_out (ev_writer s) = demo_src 1 ++ demo_src 2
  | None => False
  end.
Proof.
  destruct (egress_run (demo_arrivals ++ finish_schedule 1) (egress_start 65536 0)) as [s|] eqn:E;
    [|vm_compute in E; discriminate E].
  apply (egress_stream_prefix demo_src 2 65536 0 (demo_arrivals ++ finish_schedule 1) s);
    [lia|lia| |exact E| |].
  - apply Forall_app. split; [exact demo_honest|]. repeat constructor.
  - vm_compute in E. injection E as <-. by right.
  - by repeat (apply not_elem_of_cons; split; [done|]); apply not_elem_of_nil.
Defined.

