(* ===== verification/ReassemblerStream.v ===== *)
(** * The whole reassembler, one client's stream

    [xstep] puts the writer tasks of all connections beside the state of the
    reassembler.  In any run of it, with any other connections, frames, handshakes,
    resets, sweeps and evictions, what is written for one connection is a prefix of its
    client's stream: the machine of [EgressWriter] is what [rstep] does to that
    connection. *)
From Stdlib Require Import ZArith Lia.
From Stdlib Require Import Strings.Byte.
From stdpp Require Import base numbers list option fin_maps gmap.
From S2P Require Import Prelude Runtime Frames Reorder Tunnel Net.
From S2P Require Import Socks5 Reassembler EgressWriter EgressFacts.
Local Open Scope Z_scope.

(** ** The reassembler with its writer tasks *)
Section machine.
Context {T : Tokio} {D : DashIter} {B : BufMut}.
Context (lookup_host : bytes -> Z -> option IpAddr) (window_bytes : Z).

(** [xw]: the writer tasks that have taken a step, by connection. *)
Record XState : Type := mkXState { xs : RState; xw : gmap nat EgressWriter }.

Definition writer_of (ws : gmap nat EgressWriter) (i : nat) : EgressWriter :=
  default writer_start (ws !! i).

Inductive XEvent : Type :=
| XR (e : REvent) (now : Z)
| XW (i : nat) (we : writer_event)
| XPool (p : TunnelPool).  (** the links changed: their tasks, a pass of [send_async] *)

Definition xstep (e : XEvent) (x : XState) : option XState :=
  match e with
  | XR e now =>
    match rstep lookup_host window_bytes e now (xs x) with
    | Some s => Some (mkXState s (xw x))
    | None => None
    end
  | XW i we =>
    match vcs (xs x) !! i with
    | None => None
    | Some v =>
      match writer_step we (writer_of (xw x) i) v with
      | Some (w', v') => Some (mkXState (upd_vc (fun _ => v') i (xs x)) (<[i := w']> (xw x)))
      | None => None
      end
    end
  | XPool p => Some (mkXState (with_rpool p (xs x)) (xw x))
  end.

Fixpoint xrun (es : list XEvent) (x : XState) : option XState :=
  match es with
  | [] => Some x
  | e :: es' => match xstep e x with Some x' => xrun es' x' | None => None end
  end.

Definition xstart (p : TunnelPool) : XState := mkXState (reassembler_init p) ∅.
End machine.

Section one_stream.
Context {T : Tokio} {TL : TokioLaws T} {D : DashIter} {B : BufMut}.
Context (lookup_host : bytes -> Z -> option IpAddr) (window_bytes : Z).

(** The connection id, its client's stream of [n] frames, and whether the client's
    handler sent a FIN. *)
Variable cid : Z.
Variable src : Z -> bytes.
Variable n : Z.
Variable fin_sent : bool.

Notation honest_frame := (stream_frame src n fin_sent).

(** ** One connection *)

(** The connection, its writer, and whether it is in the map. *)
Definition on_stream (forced : bool) (v : VirtConnDe) (w : EgressWriter) (live : bool) : Prop :=
  (exists seen e, run_inv src n forced seen (mkEgressConn v w live) e) /\
  (fin_received v = true -> fin_sent = true).

Lemma on_stream_start now :
  0 <= window_bytes -> on_stream false (new_tcp_conn window_bytes now) writer_start true.
Proof. intros Hw. split; [|done]. exists [], 1. by apply (run_inv_start src n window_bytes now). Qed.

Lemma on_stream_step forced v w live e v' w' live' :
  0 <= n < 2 ^ 64 - 2 -> on_stream forced v w live -> honest src n e ->
  (forall sq, e = EgFin sq -> fin_sent = true) ->
  egress_step e (mkEgressConn v w live) = Some (mkEgressConn v' w' live') ->
  on_stream (forced || is_force e) v' w' live'.
Proof.
  intros Hn [(seen & k & Hi) Hf] Hh He Hs. split.
  - destruct (run_inv_step _ _ _ _ _ _ _ _ Hn Hi Hh Hs) as (seen' & k' & Hi' & _). by exists seen', k'.
  - intros Hfr. destruct (egress_step_fin src _ _ _ Hs) as (_ & F2 & _).
    destruct (F2 Hfr) as [?|E]; [by apply Hf|by eapply He].
Qed.

Lemma on_stream_data forced v w k now :
  0 <= n < 2 ^ 64 - 2 -> on_stream forced v w true -> 1 <= k <= n ->
  on_stream forced (conn_data k (src k) now v).2 w (conn_data k (src k) now v).1.
Proof.
  intros Hn H Hk. rewrite <- (orb_false_r forced).
  apply (on_stream_step forced v w true (EgData k (src k) now)); [done|done|done|done|].
  cbn. by destruct (conn_data k (src k) now v).
Qed.

Lemma on_stream_fin forced v w :
  0 <= n < 2 ^ 64 - 2 -> on_stream forced v w true -> fin_sent = true ->
  on_stream forced (conn_fin (n + 1) v) w true.
Proof.
  intros Hn H Hf. rewrite <- (orb_false_r forced).
  apply (on_stream_step forced v w true (EgFin (n + 1))); [done|done|reflexivity|by intros|reflexivity].
Qed.

Lemma on_stream_force forced v w live :
  0 <= n < 2 ^ 64 - 2 -> on_stream forced v w live -> on_stream true (close_write_half true v) w live.
Proof.
  intros Hn H. pose proof (on_stream_step forced v w live EgForce (close_write_half true v) w live) as G.
  cbn [is_force] in G. rewrite orb_true_r in G. by apply G.
Qed.

Lemma on_stream_teardown forced v w :
  0 <= n < 2 ^ 64 - 2 -> on_stream forced v w true -> on_stream forced (signal_teardown v) w false.
Proof.
  intros Hn H. rewrite <- (orb_false_r forced).
  apply (on_stream_step forced v w true EgTeardown); [done|done|done|done|reflexivity].
Qed.

Lemma on_stream_writer forced v w live we w' v' :
  0 <= n < 2 ^ 64 - 2 -> on_stream forced v w live -> writer_step we w v = Some (w', v') ->
  on_stream forced v' w' live.
Proof.
  intros Hn H Hs. rewrite <- (orb_false_r forced).
  apply (on_stream_step forced v w live (EgWriter we)); [done|done|done|done|]. cbn. by rewrite Hs.
Qed.

(** The fields the writer's correctness depends on. *)
Definition same_stream (v v' : VirtConnDe) : Prop :=
  egress v' = egress v /\ reorder v' = reorder v /\ fin_received v' = fin_received v /\
  fin_seq v' = fin_seq v /\ half_close_state v' = half_close_state v /\ half_close v' = half_close v /\
  cancel_writer v' = cancel_writer v /\ is_udp v' = is_udp v.

Lemma on_stream_same forced v v' w live :
  same_stream v v' -> on_stream forced v w live -> on_stream forced v' w live.
Proof.
  intros (E1 & E2 & E3 & E4 & E5 & E6 & E7 & _) [(seen & e & [[[H1 H2 H3 H4 H5 H6] H7] K2 K3 K4]) Hf].
  split; [|by rewrite E3]. exists seen, e.
  split; [split; [split|]|..]; cbn in *; unfold fin_bound in *; rewrite ?E1, ?E2, ?E3, ?E4, ?E5, ?E6, ?E7; done.
Qed.

Lemma on_stream_dead forced v w live : on_stream forced v w live -> on_stream forced v w false.
Proof.
  intros [(seen & e & [[[H1 H2 H3 H4 H5 H6] H7] K2 K3 K4]) Hf]. split; [|done]. exists seen, e.
  split; [split; [split|]|..]; done.
Qed.

Lemma same_stream_refl v : same_stream v v.
Proof. by repeat split. Qed.

(** The frames that waited for the connect. *)
Lemma on_stream_replay forced fs fin v w broken fin' v' :
  0 <= n < 2 ^ 64 - 2 -> Forall honest_frame fs -> on_stream forced v w true -> is_udp v = false ->
  (forall sq, fin = Some sq -> fin_sent = true /\ sq = n + 1) ->
  replay fs fin v = (broken, fin', v') ->
  is_udp v' = false /\
  (if broken then on_stream forced (signal_teardown v') w false else on_stream forced v' w true) /\
  (forall sq, fin' = Some sq -> fin_sent = true /\ sq = n + 1).
Proof.
  intros Hn Hfs. revert fin v. induction Hfs as [|f fs Hf Hfs IH]; intros fin v Hv Hu Hfin Hr; cbn [replay] in Hr.
  { by simplify_eq. }
  unfold stream_frame in Hf. destruct (has_flag f FLAG_DATA).
  - destruct Hf as [Hk Hp]. rewrite Hp in Hr.
    pose proof (on_stream_data forced v w (seq f) 0 Hn Hv Hk) as Hd. unfold conn_data in Hd.
    destruct (deliver (seq f) (src (seq f)) v) as [o v1] eqn:E.
    assert (is_udp v1 = false) as Hu1.
    { unfold deliver in E. destruct (push _ _ _) as [r ro]. destruct (accepted r).
      - destruct (egress v) as [c|]; [destruct (egress_write_all _ _)|]; by simplify_eq.
      - by simplify_eq. }
    destruct o; cbn [fst snd] in Hd.
    + assert (forall b, is_udp (if b : bool then close_write_half false v1 else v1) = false) as Hu2.
      { intros []; [|done]. unfold close_write_half, close_begin, close_commit.
        destruct (_ =? _); [|done]. by destruct (close_check _). }
      apply IH in Hr; [done| |done|done].
      eapply on_stream_same; [|exact Hd]. cbn.
      destruct (fin_received v1); [|by repeat split].
      unfold close_write_half, close_begin, close_commit, close_check. cbn.
      destruct (half_close_state v1 =? 0); [|by repeat split]. cbn.
      by destruct (is_complete_through (reorder v1) (fin_seq v1)); repeat split.
    + by apply IH in Hr.
    + by simplify_eq.
  - destruct (has_flag f FLAG_FIN).
    + apply IH in Hr; [done|done|done|]. intros sq E. injection E as <-. exact Hf.
    + by apply IH in Hr.
Qed.

(** ** The state *)

(** The frames that wait for the connect of [cid]. *)
Definition hon (s : RState) : Prop :=
  match pending s !! cid with Some e => Forall honest_frame (pe_frames e) | None => True end.

(** Steps that touch no connection. *)
Record quiet (s s' : RState) : Prop := {
  q_vcs : vcs s' = vcs s;
  q_conns : conns s' = conns s;
  q_timers : timers s' = timers s;
  q_hon : hon s -> hon s';
}.

#[local] Instance quiet_preorder : PreOrder quiet.
Proof.
  split; [by split|]. intros s1 s2 s3 [A1 A2 A3 A4] [B1 B2 B3 B4].
  split; [congruence..|auto].
Qed.

Lemma quiet_pool p s : quiet s (with_rpool p s).
Proof. by split. Qed.
Lemma quiet_send f s : quiet s (pool_send f s).
Proof. by split. Qed.
Lemma quiet_tombstone c now s : quiet s (tombstone c now s).
Proof. by split. Qed.
Lemma quiet_end_handshake c s : quiet s (end_handshake c s).
Proof. by split. Qed.
Lemma quiet_notify c s : quiet s (notify_cancel c s).
Proof. by destruct c; split. Qed.
Lemma quiet_resets k s : quiet s (with_resets k s).
Proof. by split. Qed.
Lemma quiet_closed m s : quiet s (with_closed m s).
Proof. by split. Qed.
Lemma quiet_handshaking m s : quiet s (with_handshaking m s).
Proof. by split. Qed.
Lemma quiet_tasks m s : quiet s (with_tasks m s).
Proof. by split. Qed.

Lemma quiet_pending_delete c b s : quiet s (with_pending (delete c (pending s)) b s).
Proof.
  split; try done. unfold hon. cbn. destruct (decide (cid = c)) as [->|Hc].
  - by rewrite lookup_delete_eq.
  - by rewrite lookup_delete_ne.
Qed.

Lemma quiet_pending_insert c e b s :
  (c = cid -> hon s -> Forall honest_frame (pe_frames e)) ->
  quiet s (with_pending (<[c := e]> (pending s)) b s).
Proof.
  intros He. split; try done. unfold hon. cbn. destruct (decide (c = cid)) as [->|Hc].
  - rewrite lookup_insert_eq. intros H. by apply He.
  - by rewrite lookup_insert_ne.
Qed.

Lemma quiet_pending_same b s : quiet s (with_pending (pending s) b s).
Proof. by split. Qed.

#[local] Hint Resolve quiet_pool quiet_send quiet_tombstone quiet_end_handshake quiet_notify
  quiet_resets quiet_closed quiet_handshaking quiet_tasks quiet_pending_delete quiet_pending_same : quiet.

Lemma quiet_remove_pending c s : quiet s (remove_pending c s).2.
Proof. unfold remove_pending. destruct (pending s !! c); [apply quiet_pending_delete|reflexivity]. Qed.

Lemma quiet_cancel_pending c s : quiet s (cancel_pending c s).
Proof.
  unfold cancel_pending. destruct (pending s !! c) as [e|] eqn:E; [|reflexivity].
  etrans; [|apply quiet_notify]. apply quiet_pending_insert. intros ->. unfold hon. by rewrite E.
Qed.

Lemma quiet_fail_pending c now s : quiet s (fail_pending_conn c now s).
Proof.
  unfold fail_pending_conn. etrans; [apply (quiet_cancel_pending c)|].
  etrans; [apply (quiet_tombstone c now)|apply quiet_send].
Qed.

Lemma quiet_evict k e now s : quiet s (evict k e now s).
Proof.
  unfold evict. etrans; [apply (quiet_pending_delete k (usize_sub (pending_bytes s) (pe_bytes e)))|].
  etrans; [apply (quiet_notify (pe_cancel e))|]. etrans; [apply (quiet_tombstone k now)|apply quiet_send].
Qed.

Lemma quiet_reserve fuel ex need now s : quiet s (try_reserve_pending fuel ex need now s).2.
Proof.
  revert s. induction fuel as [|fuel IH]; intros s; cbn [try_reserve_pending];
    (destruct (_ <=? _); [apply quiet_pending_same|]);
    destruct (oldest_entry ex (pending s)) as [[k e]|]; try reflexivity.
  etrans; [apply (quiet_evict k e now)|apply IH].
Qed.

Lemma quiet_fold {A} (g : RState -> A -> RState) (l : list A) s :
  (forall s x, quiet s (g s x)) -> quiet s (fold_left g l s).
Proof.
  intros Hg. revert s. induction l as [|x l IH]; intros s; cbn; [reflexivity|].
  etrans; [apply Hg|apply IH].
Qed.

Lemma quiet_sweep_stale now s : quiet s (sweep_stale_pending now s).
Proof.
  unfold sweep_stale_pending. etrans; [|apply quiet_fold].
  - split; try done. unfold hon. cbn. rewrite map_lookup_filter.
    destruct (pending s !! cid) as [e|]; cbn; [|done]. by case_guard.
  - intros s1 ke. unfold sweep_reset. etrans; [apply (quiet_notify (pe_cancel ke.2))|].
    etrans; [apply (quiet_tombstone ke.1 now)|apply quiet_send].
Qed.

Lemma quiet_syn_fail c now s : quiet s (syn_fail c now s).
Proof.
  unfold syn_fail. etrans; [apply (quiet_remove_pending c)|].
  etrans; [apply (quiet_end_handshake c)|]. etrans; [apply (quiet_tombstone c now)|apply quiet_send].
Qed.

Lemma quiet_forward v p s : quiet s (forward_udp_datagram lookup_host v p s).
Proof.
  unfold forward_udp_datagram. destruct (decode_udp_datagram p) as [[t d]|]; [|reflexivity].
  destruct (udp_sock v); [|reflexivity]. by destruct (udp_send_to _ _ _ _ _); split.
Qed.

Lemma quiet_handle_syn f k now s : quiet s (handle_syn f k now s).
Proof.
  unfold handle_syn. case_decide; [reflexivity|]. destruct (bool_decide _); [apply quiet_handshaking|].
  set (s1 := with_handshaking _ s). set (s2 := with_notifies _ _).
  assert (quiet s s2) as H2.
  { etrans; [apply (quiet_handshaking (<[conn_id f := now]> (handshaking s)))|]. fold s1.
    pose (e0 := default (pending_new now) (pending s1 !! conn_id f)).
    etrans; [apply (quiet_pending_insert (conn_id f) (mkPendingEntry (pe_frames e0) (pe_since e0)
      (pe_bytes e0) (pe_cancelled e0) (Some k)) (pending_bytes s1))|by split]. unfold e0.
    intros Hc. unfold hon. rewrite Hc. cbn [pe_frames].
    destruct (pending s1 !! cid) as [e|]; cbn; [done|]. intros _. constructor. }
  etrans; [exact H2|]. case_decide.
  { etrans; [apply (quiet_remove_pending (conn_id f))|apply quiet_end_handshake]. }
  destruct (syn_target_decode _) as [t|]; [|apply quiet_syn_fail].
  destruct (negb _ && negb _); [apply quiet_syn_fail|apply quiet_tasks].
Qed.

(** A frame pushed to the pending entry of its connection. *)
Lemma quiet_push f b k e now s :
  (conn_id f = cid -> honest_frame f) ->
  (pending s !! conn_id f = Some e \/ e = pending_new now) ->
  quiet s (with_pending (<[conn_id f := push_pending f k e]> (pending s)) b s).
Proof.
  intros Hf He. apply quiet_pending_insert. intros Hc Hs. cbn. apply Forall_app. split.
  - destruct He as [He| ->]; [|constructor]. unfold hon in Hs. by rewrite <- Hc, He in Hs.
  - constructor; [by apply Hf|constructor].
Qed.

Lemma quiet_data_unknown f now s :
  (conn_id f = cid -> honest_frame f) -> quiet s (data_unknown f now s).2.
Proof.
  intros Hf. unfold data_unknown. case_decide; [apply quiet_send|].
  pose proof (quiet_reserve (size (pending s))) as Hr. unfold reserve. case_decide.
  - specialize (Hr (Some (conn_id f)) (zlen (payload f)) now s).
    destruct (try_reserve_pending _ _ _ _ _) as [[[]|] s1]; cbn in *;
      try (etrans; [exact Hr|apply quiet_fail_pending]).
    etrans; [exact Hr|]. destruct (pending s1 !! conn_id f) as [e|] eqn:E; [|apply quiet_pending_same].
    destruct (_ <? _); cbn; [apply (quiet_push f _ _ e now); auto|].
    etrans; [apply quiet_pending_same|apply quiet_fail_pending].
  - destruct (_ <? MAX_PENDING_CIDS); [|apply quiet_fail_pending].
    specialize (Hr None (zlen (payload f)) now s).
    destruct (try_reserve_pending _ _ _ _ _) as [[[]|] s1]; cbn in *;
      (etrans; [exact Hr|]); try apply quiet_fail_pending.
    apply (quiet_push f _ _ (pending_new now) now); auto.
Qed.

(** ** The connections that ever belonged to [cid]

    [mine]: their identifiers; [forced]: the connections whose fallback timer fired. *)
Record mine_ok (mine forced : list nat) (ws : gmap nat EgressWriter) (s : RState) : Prop := {
  mo_dom c i : conns s !! c = Some i -> is_Some (vcs s !! i);
  mo_mine i : conns s !! cid = Some i -> i ∈ mine;
  mo_own i c : i ∈ mine -> conns s !! c = Some i -> c = cid;
  mo_vcs i : i ∈ mine -> exists v, vcs s !! i = Some v /\
    (is_udp v = false ->
     on_stream (bool_decide (i ∈ forced)) v (writer_of ws i) (bool_decide (conns s !! cid = Some i)));
  mo_fresh i : vcs s !! i = None -> ws !! i = None /\ i ∉ timers s /\ i ∉ forced;
}.

Section mine.
Context (mine forced : list nat) (ws : gmap nat EgressWriter).
Context (Hn : 0 <= n < 2 ^ 64 - 2).

Lemma mine_quiet s s' : quiet s s' -> mine_ok mine forced ws s -> mine_ok mine forced ws s'.
Proof. intros [Q1 Q2 Q3 _] [H1 H2 H3 H4 H5]. by split; rewrite ?Q1, ?Q2, ?Q3. Qed.

(** A connection changed. *)
Lemma mine_set i v s :
  mine_ok mine forced ws s -> is_Some (vcs s !! i) ->
  (i ∈ mine -> is_udp v = false ->
   on_stream (bool_decide (i ∈ forced)) v (writer_of ws i) (bool_decide (conns s !! cid = Some i))) ->
  mine_ok mine forced ws (with_vcs (<[i := v]> (vcs s)) s).
Proof.
  intros [H1 H2 H3 H4 H5] Hi Hv. split; cbn; try done.
  - intros c j Hc. apply lookup_insert_is_Some. destruct (decide (i = j)); [by left|right]. eauto.
  - intros j Hj. destruct (decide (i = j)) as [->|Hne].
    + exists v. rewrite lookup_insert_eq. auto.
    + rewrite lookup_insert_ne by done. auto.
  - intros j Hj. apply lookup_insert_None in Hj as [Hj _]. auto.
Qed.

Lemma upd_vc_absent g i s : vcs s !! i = None -> upd_vc g i s = s.
Proof.
  intros Hi. unfold upd_vc. replace (alter g i (vcs s)) with (vcs s); [by destruct s|].
  apply map_eq. intros j. destruct (decide (i = j)) as [->|Hne].
  - by rewrite lookup_alter_eq, Hi.
  - by rewrite lookup_alter_ne.
Qed.

Lemma upd_vc_set g i v s : vcs s !! i = Some v -> upd_vc g i s = with_vcs (<[i := g v]> (vcs s)) s.
Proof. intros Hv. unfold upd_vc. f_equal. by apply alter_as_insert. Qed.

Lemma mine_upd_same g i s :
  (forall v, same_stream v (g v)) -> mine_ok mine forced ws s -> mine_ok mine forced ws (upd_vc g i s).
Proof.
  intros Hg HI. destruct (vcs s !! i) as [v|] eqn:Hv.
  - rewrite (upd_vc_set _ _ v) by done. apply mine_set; [done|by eexists|].
    intros Hi Hu. destruct (mo_vcs _ _ _ _ HI i Hi) as (v0 & Hv0 & H). rewrite Hv in Hv0. injection Hv0 as <-.
    eapply on_stream_same; [apply Hg|]. apply H. destruct (Hg v) as (_&_&_&_&_&_&_&E). congruence.
  - by rewrite upd_vc_absent.
Qed.

(** A connection that is looked up by [c]: if [c] is [cid], it is ours. *)
Lemma mine_at c i s :
  mine_ok mine forced ws s -> conns s !! c = Some i ->
  exists v, vcs s !! i = Some v /\
    (i ∈ mine -> c = cid /\ bool_decide (conns s !! cid = Some i) = true /\
      (is_udp v = false -> on_stream (bool_decide (i ∈ forced)) v (writer_of ws i) true)).
Proof.
  intros HI Hc. destruct (mo_dom _ _ _ _ HI c i Hc) as [v Hv]. exists v. split; [done|]. intros Hi.
  pose proof (mo_own _ _ _ _ HI i c Hi Hc) as E. rewrite E in Hc.
  assert (bool_decide (conns s !! cid = Some i) = true) as Eb by by apply bool_decide_eq_true_2.
  split_and!; [done|done|]. intros Hu.
  destruct (mo_vcs _ _ _ _ HI i Hi) as (v0 & Hv0 & H). rewrite Hv in Hv0. injection Hv0 as <-.
  rewrite Eb in H. auto.
Qed.

Lemma mine_delete c s :
  mine_ok mine forced ws s -> mine_ok mine forced ws (with_conns (delete c (conns s)) s).
Proof.
  intros [H1 H2 H3 H4 H5]. split; cbn; try done.
  - intros c' i [_ Hi]%lookup_delete_Some. eauto.
  - intros i [_ Hi]%lookup_delete_Some. auto.
  - intros i c' Hi [_ Hc]%lookup_delete_Some. eauto.
  - intros i Hi. destruct (H4 i Hi) as (v & Hv & H). exists v. split; [done|]. intros Hu. specialize (H Hu).
    destruct (bool_decide (delete c (conns s) !! cid = Some i)) eqn:E; [|by eapply on_stream_dead].
    apply bool_decide_eq_true in E. apply lookup_delete_Some in E as [_ E].
    by rewrite (bool_decide_eq_true_2 _ E) in H.
Qed.

(** The entry of [c] removed, and its connection left as [v]. *)
Lemma mine_replace c i v s :
  mine_ok mine forced ws s -> conns s !! c = Some i ->
  (i ∈ mine -> is_udp v = false -> on_stream (bool_decide (i ∈ forced)) v (writer_of ws i) false) ->
  mine_ok mine forced ws (with_vcs (<[i := v]> (vcs s)) (with_conns (delete c (conns s)) s)).
Proof.
  intros HI Hc Hv. destruct (mine_at c i s HI Hc) as (v0 & Hv0 & Hat).
  apply (mine_set i v (with_conns (delete c (conns s)) s)); [by apply mine_delete|by eexists|].
  intros Hi Hu. destruct (Hat Hi) as (E & _). cbn.
  replace (bool_decide (delete c (conns s) !! cid = Some i)) with false; [by apply Hv|].
  symmetry. apply bool_decide_eq_false_2. by rewrite E, lookup_delete_eq.
Qed.

Lemma mine_remove c s : mine_ok mine forced ws s -> mine_ok mine forced ws (remove_conn c s).
Proof.
  intros HI. unfold remove_conn. destruct (conns s !! c) as [i|] eqn:Hc; [|done].
  destruct (mine_at c i s HI Hc) as (v & Hv & Hat).
  rewrite (upd_vc_set _ _ v) by done. cbn [vcs with_conns].
  apply mine_replace; [done|done|]. intros Hi Hu. destruct (Hat Hi) as (_ & _ & H).
  apply on_stream_teardown; [done|]. by apply H.
Qed.

Lemma mine_finish i c now s : mine_ok mine forced ws s -> mine_ok mine forced ws (finish_if_done i c now s).
Proof.
  intros HI. unfold finish_if_done. destruct (vcs s !! i) as [v|]; [|done]. destruct (conn_done v); [|done].
  apply (mine_delete c (tombstone c now s)). by eapply mine_quiet; [apply quiet_tombstone|].
Qed.

Lemma mine_reset c now s : mine_ok mine forced ws s -> mine_ok mine forced ws (reset_conn_de c now s).
Proof.
  intros HI. unfold reset_conn_de. eapply mine_quiet; [apply quiet_resets|].
  eapply mine_quiet; [apply quiet_send|]. apply mine_remove. by eapply mine_quiet; [apply quiet_tombstone|].
Qed.

(** A frame broke the stream: the connection is left as [v1] and reset. *)
Lemma mine_break c i v1 now s :
  mine_ok mine forced ws s -> conns s !! c = Some i ->
  (i ∈ mine -> is_udp v1 = false ->
   on_stream (bool_decide (i ∈ forced)) (signal_teardown v1) (writer_of ws i) false) ->
  mine_ok mine forced ws (reset_conn_de c now (upd_vc (fun _ => v1) i s)).
Proof.
  intros HI Hc Hv. destruct (mine_at c i s HI Hc) as (v & Hv0 & _).
  pose proof (mine_replace c i (signal_teardown v1) s HI Hc Hv) as [H1 H2 H3 H4 H5].
  assert (alter signal_teardown i (alter (fun _ => v1) i (vcs s)) = <[i := signal_teardown v1]> (vcs s)) as E.
  { rewrite (alter_as_insert (fun _ => v1) i v) by done.
    rewrite (alter_as_insert _ i v1) by apply lookup_insert_eq. apply insert_insert_eq. }
  unfold reset_conn_de, remove_conn. cbn. rewrite Hc. cbn.
  split; cbn; rewrite ?E; done.
Qed.

Lemma mine_data i f now s :
  mine_ok mine forced ws s -> conns s !! conn_id f = Some i -> has_flag f FLAG_DATA = true ->
  (conn_id f = cid -> honest_frame f) ->
  mine_ok mine forced ws (data_conn lookup_host i f now s).
Proof.
  intros HI Hc Hd Hf. destruct (mine_at _ i s HI Hc) as (v & Hv & Hat). unfold data_conn. rewrite Hv.
  destruct (is_udp v) eqn:Hu.
  { apply mine_upd_same; [by repeat split|]. by eapply mine_quiet; [apply quiet_forward|]. }
  assert (i ∈ mine -> on_stream (bool_decide (i ∈ forced)) (conn_data (seq f) (payload f) now v).2
    (writer_of ws i) (conn_data (seq f) (payload f) now v).1) as Hcd.
  { intros Hi. destruct (Hat Hi) as (Hcid & _ & H). specialize (Hf Hcid). unfold stream_frame in Hf.
    rewrite Hd in Hf. destruct Hf as [Hk ->]. apply on_stream_data; [done|by apply H|done]. }
  assert (forall v1, (i ∈ mine -> on_stream (bool_decide (i ∈ forced)) v1 (writer_of ws i) true) ->
    mine_ok mine forced ws (upd_vc (fun _ => v1) i s)) as Hset.
  { intros v1 H1. rewrite (upd_vc_set _ _ v) by done. apply mine_set; [done|by eexists|].
    intros Hi _. destruct (Hat Hi) as (_ & -> & _). auto. }
  unfold conn_data in Hcd. destruct (deliver (seq f) (payload f) v) as [[| |] v1]; cbn [fst snd] in Hcd.
  - destruct (fin_received _); [apply mine_finish|]; by apply Hset.
  - by apply Hset.
  - apply mine_break; [done|done|]. intros Hi _. by apply Hcd.
Qed.

Lemma mine_start_half i v sq s :
  mine_ok mine forced ws s -> vcs s !! i = Some v ->
  (i ∈ mine -> conns s !! cid = Some i /\ is_udp v = false /\ fin_sent = true /\ sq = n + 1) ->
  mine_ok mine forced ws (start_half_close i sq s).
Proof.
  intros HI Hv Hf. unfold start_half_close. rewrite Hv. destruct (fin_received v) eqn:Er; [done|].
  assert (mine_ok mine forced ws (upd_vc (fun v => close_write_half false (set_fin true sq v)) i s)) as HI'.
  { rewrite (upd_vc_set _ _ v) by done. apply mine_set; [done|by eexists|]. intros Hi _.
    destruct (Hf Hi) as (Hc & Hu & Hs & ->). destruct (mine_at cid i s HI Hc) as (v0 & Hv0 & Hat).
    rewrite Hv in Hv0. injection Hv0 as <-. destruct (Hat Hi) as (_ & -> & H).
    pose proof (on_stream_fin _ _ _ Hn (H Hu) Hs) as G. unfold conn_fin in G. by rewrite Er in G. }
  destruct HI' as [H1 H2 H3 H4 H5]. split; try done. cbn in *. intros j Hj. destruct (H5 j Hj) as (? & ? & ?).
  split_and!; [done| |done]. rewrite elem_of_app, list_elem_of_singleton. intros [?| ->]; [done|].
  by rewrite lookup_alter_eq, Hv in Hj.
Qed.

Lemma mine_drop c now s : mine_ok mine forced ws s -> mine_ok mine forced ws (drop_cancelled c now s).
Proof.
  intros HI. unfold drop_cancelled. eapply mine_quiet; [apply quiet_end_handshake|].
  eapply mine_quiet; [apply quiet_tombstone|]. by apply mine_remove.
Qed.

(** The drain of the pending frames after the connect. *)
Lemma mine_drain c i v now s :
  mine_ok mine forced ws s -> hon s -> conns s !! c = Some i -> vcs s !! i = Some v -> is_udp v = false ->
  mine_ok mine forced ws (syn_drain c i now s).
Proof.
  intros HI Hh Hc Hv Hu. unfold syn_drain.
  pose proof (mine_quiet _ _ (quiet_remove_pending c s) HI) as HI1.
  assert (forall e, pending s !! c = Some e -> c = cid -> Forall honest_frame (pe_frames e)) as Hfs.
  { intros e He ->. unfold hon in Hh. by rewrite He in Hh. }
  unfold remove_pending in *. destruct (pending s !! c) as [e|]; cbn in *;
    [|by eapply mine_quiet; [apply quiet_end_handshake|]].
  set (s1 := with_pending _ _ s) in *. destruct (pe_cancelled e); [by apply mine_drop|].
  replace (vcs s !! i) with (Some v). destruct (mine_at c i s1 HI1 Hc) as (v0 & Hv0 & Hat).
  change (vcs s1) with (vcs s) in Hv0. rewrite Hv in Hv0. injection Hv0 as <-.
  destruct (replay (pe_frames e) None v) as [[broken fin] v'] eqn:Er.
  assert (i ∈ mine -> conns s !! cid = Some i /\ is_udp v' = false /\
    (if broken then on_stream (bool_decide (i ∈ forced)) (signal_teardown v') (writer_of ws i) false
     else on_stream (bool_decide (i ∈ forced)) v' (writer_of ws i) true) /\
    (forall sq, fin = Some sq -> fin_sent = true /\ sq = n + 1)) as Hrep.
  { intros Hi. destruct (Hat Hi) as (E & _ & H). rewrite E in Hc. split; [done|].
    by apply (on_stream_replay _ (pe_frames e) None v (writer_of ws i) broken fin v' Hn (Hfs e eq_refl E) (H Hu) Hu). }
  destruct broken.
  { eapply mine_quiet; [apply quiet_end_handshake|]. apply mine_break; [done|done|].
    intros Hi _. by destruct (Hrep Hi) as (_ & _ & H & _). }
  eapply mine_quiet; [apply quiet_end_handshake|].
  assert (mine_ok mine forced ws (upd_vc (fun _ => v') i s1)) as HI2.
  { rewrite (upd_vc_set _ _ v) by done. apply mine_set; [done|by eexists|]. intros Hi _.
    destruct (Hat Hi) as (_ & -> & _). by destruct (Hrep Hi) as (_ & _ & H & _). }
  destruct fin as [sq|]; [|done]. apply mine_finish. apply (mine_start_half i v'); [done| |].
  - cbn. by rewrite lookup_alter_eq, Hv.
  - intros Hi. destruct (Hrep Hi) as (E & Hu' & _ & Hf). destruct (Hf sq eq_refl). done.
Qed.

(** ** The handlers *)
Definition good (s : RState) : Prop := mine_ok mine forced ws s /\ hon s.

Lemma good_quiet s s' : quiet s s' -> good s -> good s'.
Proof. intros Hq [H1 H2]. split; [by eapply mine_quiet|by apply (q_hon _ _ Hq)]. Qed.

(** The other steps leave the pending frames alone. *)
Lemma good_of s s' : (hon s -> hon s') -> (mine_ok mine forced ws s -> mine_ok mine forced ws s') -> good s -> good s'.
Proof. intros F1 F2 [H1 H2]. split; auto. Qed.

Lemma hon_same s s' : pending s' = pending s -> hon s -> hon s'.
Proof. intros E. unfold hon. by rewrite E. Qed.

Lemma pending_remove c s : pending (remove_conn c s) = pending s.
Proof. unfold remove_conn. by destruct (conns s !! c). Qed.

Lemma pending_finish i c now s : pending (finish_if_done i c now s) = pending s.
Proof. unfold finish_if_done. destruct (vcs s !! i); [|done]. by destruct (conn_done _). Qed.

Lemma pending_reset c now s : pending (reset_conn_de c now s) = pending s.
Proof. unfold reset_conn_de. cbn. by rewrite pending_remove. Qed.

Lemma pending_start_half i sq s : pending (start_half_close i sq s) = pending s.
Proof. unfold start_half_close. destruct (vcs s !! i); [|done]. by destruct (fin_received _). Qed.

Lemma pending_data i f now s : pending (data_conn lookup_host i f now s) = pending s.
Proof.
  unfold data_conn. destruct (vcs s !! i) as [v|]; [|done]. destruct (is_udp v).
  - cbn. unfold forward_udp_datagram. destruct (decode_udp_datagram _) as [[t d]|]; [|done].
    destruct (udp_sock v); [|done]. by destruct (udp_send_to _ _ _ _ _).
  - destruct (deliver _ _ v) as [[| |] v1]; [|done|by rewrite pending_reset].
    destruct (fin_received _); [by rewrite pending_finish|done].
Qed.

Lemma good_data i f now s :
  good s -> conns s !! conn_id f = Some i -> has_flag f FLAG_DATA = true ->
  (conn_id f = cid -> honest_frame f) -> good (data_conn lookup_host i f now s).
Proof.
  intros HG Hc Hd Hf. revert HG. apply good_of; [apply hon_same, pending_data|].
  intros HI. by apply mine_data.
Qed.

Lemma good_handle_data f now s :
  good s -> has_flag f FLAG_DATA = true -> (conn_id f = cid -> honest_frame f) ->
  good (handle_data lookup_host f now s).
Proof.
  intros HG Hd Hf. unfold handle_data. destruct (conns s !! conn_id f) as [i|] eqn:Hc; [by apply good_data|].
  pose proof (quiet_data_unknown f now s Hf) as Hq. destruct (data_unknown f now s) as [again s'].
  apply (good_quiet _ _ Hq) in HG. destruct again; [|done].
  destruct (conns s' !! conn_id f) as [i|] eqn:Hc'; [by apply good_data|done].
Qed.

Lemma good_handle_fin f now s :
  good s -> has_flag f FLAG_DATA = false -> has_flag f FLAG_FIN = true -> (conn_id f = cid -> honest_frame f) ->
  good (handle_fin f now s).
Proof.
  intros HG Hd Hfin Hf. unfold handle_fin. destruct (conns s !! conn_id f) as [i|] eqn:Hc.
  - destruct (mine_at _ i s (proj1 HG) Hc) as (v & Hv & Hat). rewrite Hv. destruct (is_udp v) eqn:Hu; [done|].
    revert HG. apply good_of.
    { apply hon_same. by rewrite pending_finish, pending_start_half. }
    intros HI. apply mine_finish. apply (mine_start_half i v); [done|done|]. intros Hi.
    destruct (Hat Hi) as (E & _ & _). rewrite E in Hc. split_and!; [done|done|..];
      specialize (Hf E); unfold stream_frame in Hf; rewrite Hd, Hfin in Hf; apply Hf.
  - case_decide; [done|]. destruct (pending s !! conn_id f) as [e|] eqn:He.
    + destruct (_ <? _); eapply good_quiet; [|done| |done]; [apply (quiet_push f _ _ e now); auto|].
      apply quiet_fail_pending.
    + destruct (_ <? _); eapply good_quiet; [|done| |done];
        [apply (quiet_push f _ _ (pending_new now) now); auto|apply quiet_fail_pending].
Qed.

Lemma good_remove c s : good s -> good (remove_conn c s).
Proof. apply good_of; [apply hon_same, pending_remove|apply mine_remove]. Qed.

Lemma good_handle_rst c now s : good s -> good (handle_rst c now s).
Proof.
  intros HG. unfold handle_rst. destruct (conns s !! c).
  - eapply good_quiet; [apply quiet_resets|]. apply good_remove. by eapply good_quiet; [apply quiet_tombstone|].
  - eapply good_quiet; [|exact HG]. etrans; [apply (quiet_cancel_pending c)|apply quiet_tombstone].
Qed.

Lemma good_frame f k now s :
  good s -> (conn_id f = cid -> has_flag f FLAG_SYN = false -> honest_frame f) ->
  good (handle_frame lookup_host f k now s).
Proof.
  intros HG Hf. unfold handle_frame. destruct (has_flag f FLAG_SYN).
  { eapply good_quiet; [apply quiet_handle_syn|done]. }
  destruct (has_flag f FLAG_DATA) eqn:Hd; [apply good_handle_data; auto|].
  destruct (has_flag f FLAG_FIN) eqn:Hfin; [apply good_handle_fin; auto|].
  destruct (has_flag f FLAG_RST); [by apply good_handle_rst|done].
Qed.

Lemma same_stream_sent k now v : same_stream v (vc_count_sent k now v).
Proof. by repeat split. Qed.

Lemma good_upd_same g i s : (forall v, same_stream v (g v)) -> good s -> good (upd_vc g i s).
Proof. intros Hg. apply good_of; [by apply hon_same|by apply mine_upd_same]. Qed.

Lemma good_finish i c now s : good s -> good (finish_if_done i c now s).
Proof. apply good_of; [apply hon_same, pending_finish|apply mine_finish]. Qed.

Lemma good_reader e now t s : good s -> good (reader_step e now t s).2.
Proof.
  intros HG. assert (forall p, good (with_rpool p s)) as Hp.
  { intros p. by eapply good_quiet; [apply quiet_pool|]. }
  destruct e as [|chunk [| |] p|[| |] p]; cbn; try done; try apply Hp.
  - apply good_upd_same; [intros v; apply same_stream_sent|apply Hp].
  - eapply good_quiet; [apply quiet_send|]. apply good_remove.
    eapply good_quiet; [apply quiet_tombstone|apply Hp].
  - apply good_finish, good_upd_same; [by repeat split|apply Hp].
  - apply good_finish, good_upd_same; [by repeat split|]. eapply good_quiet; [apply quiet_send|apply Hp].
  - apply good_finish, good_upd_same; [by repeat split|]. eapply good_quiet; [apply quiet_send|apply Hp].
Qed.

Lemma good_udp_response c sq a d now s : good s -> good (udp_response c sq a d now s).2.
Proof.
  intros HG. unfold udp_response. destruct (encode_udp_datagram _ d) as [b|]; [|done].
  destruct (_ >? _); [done|]. destruct (send _ _) as [sent p].
  assert (good (with_rpool p s)) as HG' by by eapply good_quiet; [apply quiet_pool|].
  destruct sent; cbn; [|done]. destruct (conns s !! c); [|done].
  apply good_upd_same; [intros v; apply same_stream_sent|done].
Qed.

Lemma good_fold {A} (g : RState -> A -> RState) (l : list A) s :
  (forall s x, good s -> good (g s x)) -> good s -> good (fold_left g l s).
Proof. intros Hg. revert s. induction l as [|x l IH]; intros s HG; cbn; [done|]. apply IH; auto. Qed.

Lemma good_heartbeat now now_ms s : good s -> good (heartbeat now now_ms s).
Proof.
  intros HG. unfold heartbeat. eapply good_quiet; [apply quiet_resets|].
  eapply good_quiet; [apply quiet_sweep_stale|]. eapply good_quiet; [apply quiet_handshaking|].
  eapply good_quiet; [apply quiet_closed|]. apply good_fold; [|by eapply good_quiet; [apply quiet_pool|]].
  intros s1 e HG1. unfold sweep_conn. destruct (vcs s1 !! e.2) as [v|]; [|done].
  destruct (conn_idle now v); [|done]. eapply good_quiet; [apply quiet_send|]. apply good_remove.
  by eapply good_quiet; [apply quiet_tombstone|].
Qed.

Lemma good_lost lost s : good s -> good (recover_lost_de lost s).
Proof.
  apply good_fold. intros s1 f HG. destruct (negb _); (eapply good_quiet; [apply quiet_send|done]).
Qed.

Lemma good_accept i now_ms s : good s -> good (accept_tunnel i now_ms s).
Proof. intros HG. unfold accept_tunnel. destruct (_ >=? _); [done|]. by eapply good_quiet; [apply quiet_pool|]. Qed.

Lemma good_drain c i v now s :
  good s -> conns s !! c = Some i -> vcs s !! i = Some v -> is_udp v = false -> good (syn_drain c i now s).
Proof.
  intros [HI Hh] Hc Hv Hu. split; [by eapply mine_drain|]. revert Hh. unfold syn_drain.
  pose proof (q_hon _ _ (quiet_remove_pending c s)) as Hq. destruct (remove_pending c s) as [[e|] s1]; cbn in Hq.
  - destruct (pe_cancelled e); [intros H; eapply hon_same; [|exact (Hq H)]; apply pending_remove|].
    destruct (vcs s1 !! i); [|done]. destruct (replay _ _ _) as [[[] fin] v'].
    + intros H. eapply hon_same; [|exact (Hq H)]. cbn. by rewrite pending_remove.
    + intros H. eapply hon_same; [|exact (Hq H)]. cbn. destruct fin; [|done].
      by rewrite pending_finish, pending_start_half.
  - done.
Qed.
End mine.

(** ** The steps that change who is ours, or their writers *)
Section evolve.
Context (Hn : 0 <= n < 2 ^ 64 - 2) (Hw : 0 <= window_bytes).

Definition claimed (c : Z) (i : nat) (mine : list nat) : list nat :=
  if decide (c = cid) then i :: mine else mine.

Lemma claimed_incl c i mine j : j ∈ mine -> j ∈ claimed c i mine.
Proof. unfold claimed. case_decide; [|done]. intros. apply elem_of_cons. by right. Qed.

Lemma mine_install mine forced ws c i v s :
  mine_ok mine forced ws s -> vcs s !! i = None ->
  (is_udp v = false -> on_stream false v writer_start true) ->
  mine_ok (claimed c i mine) forced ws (install_conn i v c s).
Proof.
  intros [H1 H2 H3 H4 H5] Hi Hv.
  assert (i ∉ mine) as Hni by (intros Hm; destruct (H4 i Hm) as (v0 & E & _); congruence).
  assert (forall c', conns s !! c' = Some i -> False) as Hnc.
  { intros c' Hc. destruct (H1 c' i Hc) as [v0 E]. congruence. }
  destruct (H5 i Hi) as (Hwi & _ & Hfi). unfold claimed, install_conn. split; cbn.
  - intros c' j [[<- <-]|[_ Hj]]%lookup_insert_Some; rewrite lookup_insert_is_Some'; [by left|right; eauto].
  - intros j [[-> <-]|[Hc Hj]]%lookup_insert_Some.
    + rewrite decide_True by done. apply elem_of_cons. by left.
    + rewrite decide_False by done. auto.
  - intros j c' Hj [[<- <-]|[Hc Hc']]%lookup_insert_Some; case_decide; try done.
    + apply elem_of_cons in Hj as [->|Hj]; [by destruct (Hnc c')|eauto].
    + eauto.
  - intros j Hj. destruct (decide (j = i)) as [->|Hji].
    + exists v. rewrite lookup_insert_eq. split; [done|]. intros Hu.
      case_decide as E; [|done]. rewrite E, lookup_insert_eq.
      rewrite (bool_decide_eq_false_2 (i ∈ forced)) by done. rewrite bool_decide_eq_true_2 by done.
      unfold writer_of. rewrite Hwi. by apply Hv.
    + assert (j ∈ mine) as Hjm by (case_decide; [by apply elem_of_cons in Hj as [?|?]|done]).
      destruct (H4 j Hjm) as (v0 & Hv0 & H). exists v0. rewrite lookup_insert_ne by done. split; [done|].
      intros Hu. specialize (H Hu). destruct (decide (c = cid)) as [->|Hc].
      * rewrite lookup_insert_eq. rewrite (bool_decide_eq_false_2 (Some i = Some j)) by congruence.
        by eapply on_stream_dead.
      * by rewrite lookup_insert_ne.
  - intros j Hj. apply lookup_insert_None in Hj as [Hj _]. auto.
Qed.

(** Some more connections are ours after the step. *)
Definition leads (mine forced : list nat) (ws : gmap nat EgressWriter) (s : RState) : Prop :=
  exists mine', (forall j, j ∈ mine -> j ∈ mine') /\ good mine' forced ws s.

Lemma leads_now mine forced ws s : good mine forced ws s -> leads mine forced ws s.
Proof. intros H. by exists mine. Qed.

Lemma good_install mine forced ws c i v s :
  good mine forced ws s -> vcs s !! i = None ->
  (is_udp v = false -> on_stream false v writer_start true) ->
  good (claimed c i mine) forced ws (install_conn i v c s).
Proof. intros [HI Hh] Hi Hv. split; [by apply mine_install|done]. Qed.

Lemma quiet_syn_cancelled c now s : quiet s (tombstone c now (end_handshake c (remove_pending c s).2)).
Proof.
  etrans; [apply (quiet_remove_pending c)|]. etrans; [apply (quiet_end_handshake c)|]. apply quiet_tombstone.
Qed.

Lemma leads_connected mine forced ws c i o now s :
  good mine forced ws s -> vcs s !! i = None -> leads mine forced ws (syn_connected window_bytes c i o now s).
Proof.
  intros HG Hi. destruct o; cbn [syn_connected];
    try (apply leads_now; eapply good_quiet; [apply quiet_syn_fail|exact HG]);
    try (apply leads_now; eapply good_quiet; [apply quiet_syn_cancelled|exact HG]).
  case_decide.
  { apply leads_now. eapply good_quiet; [|exact HG].
    etrans; [apply (quiet_remove_pending c)|apply quiet_end_handshake]. }
  exists (claimed c i mine). split; [apply claimed_incl|].
  apply (good_drain _ _ _ Hn c i (new_tcp_conn window_bytes now)); [|apply lookup_insert_eq..|done].
  apply good_install; [done|done|]. intros _. by apply on_stream_start.
Qed.

Lemma leads_udp mine forced ws c i bound now s :
  good mine forced ws s -> vcs s !! i = None -> leads mine forced ws (syn_udp lookup_host window_bytes c i bound now s).
Proof.
  intros HG Hi. unfold syn_udp. destruct bound as [sock|];
    [|apply leads_now; eapply good_quiet; [apply quiet_syn_fail|exact HG]].
  exists (claimed c i mine). split; [apply claimed_incl|].
  assert (good (claimed c i mine) forced ws (install_conn i (new_udp_conn window_bytes now sock) c s)) as HG1.
  { apply good_install; [done|done|]. by intros. }
  set (s1 := install_conn _ _ c s) in *. clearbody s1.
  pose proof (quiet_remove_pending c s1) as Hq.
  destruct (remove_pending c s1) as [[e|] s2]; apply (good_quiet _ _ _ _ _ Hq) in HG1.
  - destruct (pe_cancelled e).
    + destruct HG1 as [HI Hh]. split; [by apply mine_drop|]. eapply hon_same; [|exact Hh]. apply pending_remove.
    + eapply good_quiet; [apply quiet_end_handshake|]. eapply good_quiet; [|exact HG1].
      apply quiet_fold. intros s3 f. destruct (has_flag f FLAG_DATA); [apply quiet_forward|reflexivity].
  - by eapply good_quiet; [apply quiet_end_handshake|].
Qed.

Lemma close_keeps_udp force v : is_udp (close_write_half force v) = is_udp v.
Proof.
  unfold close_write_half, force_close, close_begin. destruct force; [by destruct (_ =? _)|].
  destruct (_ =? _); [|done]. unfold close_commit. by destruct (close_check _); [|destruct (_ =? _)].
Qed.

Lemma mine_force mine forced ws i s :
  mine_ok mine forced ws s -> i ∈ timers s -> mine_ok mine (i :: forced) ws (upd_vc (close_write_half true) i s).
Proof.
  intros [H1 H2 H3 H4 H5] Hi. destruct (vcs s !! i) as [v|] eqn:Hv; [|by destruct (H5 i Hv) as (_ & ? & _)].
  rewrite (upd_vc_set _ _ v) by done. split; cbn; try done.
  - intros c j Hc. apply lookup_insert_is_Some'. right. eauto.
  - intros j Hj. destruct (decide (j = i)) as [->|Hji].
    + exists (close_write_half true v). rewrite lookup_insert_eq. split; [done|]. rewrite close_keeps_udp.
      intros Hu. rewrite (bool_decide_eq_true_2 (i ∈ i :: forced)) by (apply elem_of_cons; by left).
      destruct (H4 i Hj) as (v0 & Hv0 & H). rewrite Hv in Hv0. injection Hv0 as <-.
      eapply on_stream_force; [done|]. by apply H.
    + destruct (H4 j Hj) as (v0 & Hv0 & H). exists v0. rewrite lookup_insert_ne by done. split; [done|].
      intros Hu. specialize (H Hu). rewrite (bool_decide_ext (j ∈ i :: forced) (j ∈ forced)); [done|].
      rewrite elem_of_cons. naive_solver.
  - intros j Hj. apply lookup_insert_None in Hj as [Hj Hij]. destruct (H5 j Hj) as (? & ? & ?).
    split_and!; [done|done|]. by rewrite not_elem_of_cons.
Qed.

Lemma writer_keeps_udp we w v w' v' : writer_step we w v = Some (w', v') -> is_udp v' = is_udp v.
Proof.
  intros H. unfold writer_step in H. destruct (egress v) as [c|]; [|done].
  destruct we, w as [[] out]; cbn in H; repeat (case_match; try done); by simplify_eq.
Qed.

Lemma mine_writer mine forced ws i we v w' v' s :
  mine_ok mine forced ws s -> vcs s !! i = Some v -> writer_step we (writer_of ws i) v = Some (w', v') ->
  mine_ok mine forced (<[i := w']> ws) (upd_vc (fun _ => v') i s).
Proof.
  intros [H1 H2 H3 H4 H5] Hv Hs. rewrite (upd_vc_set _ _ v) by done. split; cbn; try done.
  - intros c j Hc. apply lookup_insert_is_Some'. right. eauto.
  - intros j Hj. destruct (decide (j = i)) as [->|Hji].
    + exists v'. rewrite lookup_insert_eq. split; [done|]. rewrite (writer_keeps_udp _ _ _ _ _ Hs).
      intros Hu. unfold writer_of at 1. rewrite lookup_insert_eq. cbn.
      destruct (H4 i Hj) as (v0 & Hv0 & H). rewrite Hv in Hv0. injection Hv0 as <-.
      eapply on_stream_writer; [done|by apply H|done].
    + destruct (H4 j Hj) as (v0 & Hv0 & H). exists v0. unfold writer_of.
      rewrite !lookup_insert_ne by congruence. by split.
  - intros j [Hj Hij]%lookup_insert_None. rewrite lookup_insert_ne by done. auto.
Qed.

(** ** Runs *)
Definition from_client (e : XEvent) : Prop :=
  match e with
  | XR (EvFrame f _) _ => conn_id f = cid -> has_flag f FLAG_SYN = false -> honest_frame f
  | _ => True
  end.

Definition fallback_of (e : XEvent) : list nat :=
  match e with XR (EvFallback i) _ => [i] | _ => [] end.

Lemma resume_inv k g s s' :
  resume k g s = Some s' -> exists t h, g t = Some h /\ s' = h (with_tasks (delete k (tasks s)) s).
Proof.
  unfold resume. destruct (tasks s !! k) as [t|]; [|done]. destruct (g t) as [h|] eqn:E; [|done].
  intros H. injection H as <-. by exists t, h.
Qed.

Lemma xstep_leads mine forced e x x' :
  good mine forced (xw x) (xs x) -> from_client e -> xstep lookup_host window_bytes e x = Some x' ->
  exists mine', (forall j, j ∈ mine -> j ∈ mine') /\ good mine' (fallback_of e ++ forced) (xw x') (xs x').
Proof.
  intros HG He Hs. destruct e as [e now|i we|p]; cbn in Hs.
  - destruct (rstep _ _ e now (xs x)) as [s'|] eqn:Er; [|done]. injection Hs as <-. cbn [xs xw].
    destruct e; cbn [rstep fallback_of app] in *; unfold from_client in He.
    + case_decide; [|done]. injection Er as <-. by apply leads_now, good_frame.
    + case_decide as Hi; [|done]. apply resume_inv in Er as ([c|c t] & h & Eh & ->); [|done].
      injection Eh as <-. apply leads_udp; [|done]. by eapply good_quiet; [apply quiet_tasks|].
    + case_decide as Hi; [|done]. apply resume_inv in Er as ([c|c t] & h & Eh & ->); [done|].
      injection Eh as <-. apply leads_connected; [|done]. by eapply good_quiet; [apply quiet_tasks|].
    + case_decide as Hi; [|done]. injection Er as <-. exists mine. split; [done|].
      destruct HG as [HI Hh]. split; [by apply mine_force|by eapply hon_same; [|exact Hh]].
    + destruct (rd_done t); [done|]. injection Er as <-. by apply leads_now, good_reader.
    + injection Er as <-. by apply leads_now, good_udp_response.
    + injection Er as <-. by apply leads_now, good_heartbeat.
    + injection Er as <-. by apply leads_now, good_lost.
    + case_decide; [|done]. injection Er as <-. by apply leads_now, good_accept.
  - destruct (vcs (xs x) !! i) as [v|] eqn:Hv; [|done].
    destruct (writer_step we _ v) as [[w' v']|] eqn:Ew; [|done]. injection Hs as <-. cbn.
    exists mine. split; [done|]. destruct HG as [HI Hh].
    split; [by eapply mine_writer|by eapply hon_same; [|exact Hh]].
  - injection Hs as <-. exists mine. split; [done|]. by eapply good_quiet; [apply quiet_pool|].
Qed.

Lemma xrun_leads es : forall mine forced x x',
  good mine forced (xw x) (xs x) -> Forall from_client es -> xrun lookup_host window_bytes es x = Some x' ->
  exists mine', (forall j, j ∈ mine -> j ∈ mine') /\
    good mine' (reverse (concat (map fallback_of es)) ++ forced) (xw x') (xs x').
Proof.
  induction es as [|e es IH]; intros mine forced x x' HG Hes Hr; cbn in Hr.
  { injection Hr as <-. by exists mine. }
  apply Forall_cons in Hes as [He Hes]. destruct (xstep _ _ e x) as [x1|] eqn:Es; [|done].
  destruct (xstep_leads _ _ _ _ _ HG He Es) as (m1 & Hm1 & HG1).
  destruct (IH _ _ _ _ HG1 Hes Hr) as (m2 & Hm2 & HG2). exists m2. split; [auto|].
  replace (reverse (concat (map fallback_of (e :: es))) ++ forced)
    with (reverse (concat (map fallback_of es)) ++ fallback_of e ++ forced); [done|].
  cbn [map concat]. rewrite reverse_app, <- app_assoc. f_equal. f_equal.
  by destruct e as [[] ?| |].
Qed.

Lemma good_start p : good [] [] ∅ (reassembler_init p).
Proof.
  split; [|by unfold hon; cbn; rewrite lookup_empty]. split; cbn.
  - intros c i H. by rewrite lookup_empty in H.
  - intros i H. by rewrite lookup_empty in H.
  - by intros i c ?%elem_of_nil.
  - by intros i ?%elem_of_nil.
  - intros i _. split_and!; [apply lookup_empty|apply not_elem_of_nil|apply not_elem_of_nil].
Qed.

Lemma fallback_in es i : i ∈ reverse (concat (map fallback_of es)) ++ [] -> exists now, XR (EvFallback i) now ∈ es.
Proof.
  rewrite app_nil_r, elem_of_reverse. induction es as [|e es IH]; cbn; [by intros ?%elem_of_nil|].
  rewrite elem_of_app. intros [H|H].
  - destruct e as [e now| |]; [|by apply elem_of_nil in H..]. destruct e; try (by apply elem_of_nil in H).
    cbn in H. apply list_elem_of_singleton in H as ->. exists now. apply elem_of_cons. by left.
  - destruct (IH H) as [now ?]. exists now. apply elem_of_cons. by right.
Qed.

(** A connection that was ours at some point, at the end of the run. *)
Lemma xrun_stream es1 es2 p x1 x i :
  Forall from_client (es1 ++ es2) ->
  xrun lookup_host window_bytes es1 (xstart p) = Some x1 -> conns (xs x1) !! cid = Some i ->
  xrun lookup_host window_bytes es2 x1 = Some x ->
  exists v forced, vcs (xs x) !! i = Some v /\
    (forced = true -> exists now, XR (EvFallback i) now ∈ es1 ++ es2) /\
    (is_udp v = false -> exists live, on_stream forced v (writer_of (xw x) i) live).
Proof.
  intros Hes Hr1 Hi Hr2. pose proof (proj1 (Forall_app _ _ _) Hes) as [He1 He2].
  destruct (xrun_leads es1 [] [] (xstart p) x1 (good_start p) He1 Hr1) as (m1 & _ & HG1).
  pose proof (mo_mine _ _ _ _ (proj1 HG1) i Hi) as Him.
  destruct (xrun_leads _ _ _ _ _ HG1 He2 Hr2) as (m2 & Hm & [HI _]).
  destruct (mo_vcs _ _ _ _ HI i (Hm i Him)) as (v & Hv & H).
  exists v. eexists. split; [done|]. split; [|intros Hu; eexists; by apply H].
  intros Hf%bool_decide_eq_true. apply fallback_in. rewrite map_app, concat_app, reverse_app, <- app_assoc.
  exact Hf.
Qed.
End evolve.

(** A connection that was ever in the map for [cid], at any later time, also after it has
    left the map. *)
Lemma xrun_bytes es1 es2 p x1 x i :
  0 <= n < 2 ^ 64 - 2 -> 0 <= window_bytes -> Forall from_client (es1 ++ es2) ->
  xrun lookup_host window_bytes es1 (xstart p) = Some x1 -> conns (xs x1) !! cid = Some i ->
  xrun lookup_host window_bytes es2 x1 = Some x ->
  exists v, vcs (xs x) !! i = Some v /\
    (is_udp v = false ->
     let w := writer_of (xw x) i in
     let whole := concat (chunks src 1 (n + 1)) in
     w_out w `prefix_of` whole /\
     (half_closed (w_phase w) -> (forall now, XR (EvFallback i) now ∉ es1 ++ es2) ->
      w_out w = whole /\ fin_sent = true)).
Proof.
  intros Hn Hw Hes Hr1 Hi Hr2. destruct (xrun_stream Hn Hw _ _ _ _ _ _ Hes Hr1 Hi Hr2) as (v & forced & Hv & Hf & H).
  exists v. split; [done|]. intros Hu w whole. destruct (H Hu) as (live & (seen & e & Hinv) & Hfin).
  destruct (run_inv_bytes _ _ _ _ _ _ (proj1 Hn) Hinv) as [P1 P2]. split; [exact P1|]. intros Hph Hnf.
  assert (forced = false) as Hf0.
  { destruct forced; [|done]. destruct (Hf eq_refl) as [now ?]. by destruct (Hnf now). }
  destruct (P2 Hph Hf0) as [? ?]. auto.
Qed.
End one_stream.
