(* ===== verification/ReassemblerSends.v ===== *)
(** * What the steps of the reassembler put into the tunnels

    [sends P s s']: from [s] to [s'] the links of the pool got only frames that satisfy
    [P], and the ids the state holds are still [u32]s.  It holds of every operation of
    [Reassembler], given what [send_async] did before a turn of a reader. *)
From Stdlib Require Import ZArith Lia.
From Stdlib Require Import Strings.Byte.
From stdpp Require Import base numbers list option fin_maps gmap.
From S2P Require Import Prelude Runtime Frames Reorder Tunnel Net.
From S2P Require Import Socks5 PoolSends Reassembler.
Local Open Scope Z_scope.

Section reassembler_sends.
Context {T : Tokio} {TL : TokioLaws T} {D : DashIter} {DL : DashIterLaws D} {B : BufMut}.
Context (lookup_host : bytes -> Z -> option IpAddr) (window_bytes : Z).

Definition task_cid (t : SynTask) : Z := match t with TaskUdpBind c | TaskConnect c _ => c end.

(** The ids in the maps are [u32]s, as their types say. *)
Record r_typed (s : RState) : Prop := {
  rt_conns : map_Forall (fun c (_ : nat) => is_u32 c) (conns s);
  rt_pending : map_Forall (fun c (_ : PendingEntry) => is_u32 c) (pending s);
  rt_tasks : map_Forall (fun (_ : nat) t => is_u32 (task_cid t)) (tasks s);
}.

Context (P : Frame -> Prop) (PR : allows_resets P).

Definition sends (s s' : RState) : Prop :=
  r_typed s -> r_typed s' /\ pool_gets P (rpool s) (rpool s').

#[export] Instance sends_preorder : PreOrder sends.
Proof.
  split; [intros s H; by split|]. intros s1 s2 s3 H1 H2 Ht. destruct (H1 Ht) as [Ht2 G1].
  destruct (H2 Ht2) as [Ht3 G2]. split; [done|by etrans].
Qed.

(** *** The small steps *)

(** Steps that keep the maps and the pool. *)
Lemma sends_same s s' :
  conns s' = conns s -> pending s' = pending s -> tasks s' = tasks s -> rpool s' = rpool s -> sends s s'.
Proof. intros E1 E2 E3 E4 [H1 H2 H3]. rewrite E4. split; [split; by rewrite ?E1, ?E2, ?E3|done]. Qed.

Lemma sends_pool p s : pool_gets P (rpool s) p -> sends s (with_rpool p s).
Proof. intros Hp [H1 H2 H3]. by split. Qed.

Lemma sends_frame f s : P f -> sends s (pool_send f s).
Proof. intros Hf. by apply sends_pool, send_gets. Qed.

Lemma sends_rst c s : is_u32 c -> sends s (pool_send (frame_rst c) s).
Proof. intros Hc. by apply sends_frame, PR. Qed.

Lemma sends_unmap c s : sends s (with_conns (delete c (conns s)) s).
Proof. intros [H1 H2 H3]. split; [split; [by apply map_Forall_delete|done..]|done]. Qed.

Lemma sends_map c i s : is_u32 c -> sends s (with_conns (<[c := i]> (conns s)) s).
Proof. intros Hc [H1 H2 H3]. split; [split; [by apply map_Forall_insert_2|done..]|done]. Qed.

Lemma sends_hold c e b s : is_u32 c -> sends s (with_pending (<[c := e]> (pending s)) b s).
Proof. intros Hc [H1 H2 H3]. split; [split; [done|by apply map_Forall_insert_2|done]|done]. Qed.

Lemma sends_drop c b s : sends s (with_pending (delete c (pending s)) b s).
Proof. intros [H1 H2 H3]. split; [split; [done|by apply map_Forall_delete|done]|done]. Qed.

Lemma sends_task n t s : is_u32 (task_cid t) -> sends s (with_tasks (<[n := t]> (tasks s)) s).
Proof. intros Hc [H1 H2 H3]. split; [split; [done..|by apply map_Forall_insert_2]|done]. Qed.

Lemma sends_untask n s : sends s (with_tasks (delete n (tasks s)) s).
Proof. intros [H1 H2 H3]. split; [split; [done..|by apply map_Forall_delete]|done]. Qed.

Lemma sends_fold {A} (Q : A -> Prop) (g : RState -> A -> RState) (l : list A) s :
  (forall s x, Q x -> sends s (g s x)) -> Forall Q l -> sends s (fold_left g l s).
Proof.
  intros Hg Hl. revert s. induction Hl as [|x l Hx Hl IH]; intros s; cbn; [reflexivity|].
  etrans; [by apply Hg|apply IH].
Qed.

Ltac same := by apply sends_same.
(** Back to [sends], after its hypothesis was used. *)
Ltac resend H := revert H; match goal with |- r_typed ?s -> r_typed ?s' /\ _ => change (sends s s') end.

Lemma sends_notify c s : sends s (notify_cancel c s).
Proof. destruct c; same. Qed.
Lemma sends_tombstone c now s : sends s (tombstone c now s).
Proof. same. Qed.
Lemma sends_end c s : sends s (end_handshake c s).
Proof. same. Qed.
Lemma sends_resets k s : sends s (with_resets k s).
Proof. same. Qed.
Lemma sends_closed m s : sends s (with_closed m s).
Proof. same. Qed.
Lemma sends_handshaking m s : sends s (with_handshaking m s).
Proof. same. Qed.
Lemma sends_upd g i s : sends s (upd_vc g i s).
Proof. same. Qed.

Lemma sends_remove_conn c s : sends s (remove_conn c s).
Proof.
  unfold remove_conn. destruct (conns s !! c); [|reflexivity]. etrans; [apply (sends_unmap c)|apply sends_upd].
Qed.

Lemma sends_reset c now s : is_u32 c -> sends s (reset_conn_de c now s).
Proof.
  intros Hc. unfold reset_conn_de. etrans; [apply (sends_tombstone c now)|]. etrans; [apply (sends_remove_conn c)|].
  etrans; [by apply (sends_rst c)|same].
Qed.

Lemma sends_remove_pending c s : sends s (remove_pending c s).2.
Proof. unfold remove_pending. destruct (pending s !! c); [apply sends_drop|reflexivity]. Qed.

Lemma sends_cancel c s : sends s (cancel_pending c s).
Proof.
  unfold cancel_pending. destruct (pending s !! c) as [e|] eqn:E; [|reflexivity].
  etrans; [|apply sends_notify]. intros Ht. apply sends_hold; [|done]. exact (rt_pending _ Ht c e E).
Qed.

Lemma sends_fail c now s : is_u32 c -> sends s (fail_pending_conn c now s).
Proof.
  intros Hc. unfold fail_pending_conn. etrans; [apply (sends_cancel c)|].
  etrans; [apply (sends_tombstone c now)|by apply sends_rst].
Qed.

(** Tombstone and RST of an entry that was dropped. *)
Lemma sends_dropped c n now s :
  is_u32 c -> sends s (pool_send (frame_rst c) (tombstone c now (notify_cancel n s))).
Proof.
  intros Hc. etrans; [apply (sends_notify n)|]. etrans; [apply (sends_tombstone c now)|by apply sends_rst].
Qed.

Lemma oldest_entry_in ex (m : gmap Z PendingEntry) k e : oldest_entry ex m = Some (k, e) -> m !! k = Some e.
Proof.
  unfold oldest_entry. intros H. apply elem_of_dash_iter.
  assert (forall l best, fold_left (fun best e => if decide (Some e.1 = ex) then best
      else match best with None => Some e | Some b => if pe_since e.2 <? pe_since b.2 then Some e else Some b end)
      l best = Some (k, e) -> best = Some (k, e) \/ (k, e) ∈ l) as Hin.
  { clear. induction l as [|x l IH]; intros best Hb; cbn in Hb; [by left|]. rewrite elem_of_cons.
    apply IH in Hb as [Hb|Hb]; [|by auto]. case_decide; [by auto|]. destruct best as [b|].
    - destruct (_ <? _); injection Hb as ->; auto.
    - injection Hb as ->. auto. }
  apply Hin in H as [H|H]; [done|exact H].
Qed.

Lemma sends_reserve fuel ex need now s : sends s (try_reserve_pending fuel ex need now s).2.
Proof.
  revert s. induction fuel as [|fuel IH]; intros s; cbn [try_reserve_pending];
    (destruct (_ <=? _); [same|]); destruct (oldest_entry ex (pending s)) as [[k e]|] eqn:E; try reflexivity.
  apply oldest_entry_in in E. etrans; [|apply IH]. intros Ht. unfold evict.
  pose proof (rt_pending _ Ht k e E) as Hk. resend Ht. etrans; [apply (sends_drop k)|by apply sends_dropped].
Qed.

(** *** The handlers *)
Lemma sends_finish i c now s : sends s (finish_if_done i c now s).
Proof.
  unfold finish_if_done. destruct (vcs s !! i) as [v|]; [|reflexivity]. destruct (conn_done v); [|reflexivity].
  etrans; [apply (sends_tombstone c now)|apply sends_unmap].
Qed.

Lemma sends_start_half i sq s : sends s (start_half_close i sq s).
Proof.
  unfold start_half_close. destruct (vcs s !! i) as [v|]; [|reflexivity]. destruct (fin_received v); [reflexivity|same].
Qed.

Lemma sends_forward v p s : sends s (forward_udp_datagram lookup_host v p s).
Proof.
  unfold forward_udp_datagram. destruct (decode_udp_datagram p) as [[t d]|]; [|reflexivity].
  destruct (udp_sock v); [|reflexivity]. destruct (udp_send_to _ _ _ _ _); [same|reflexivity].
Qed.

Lemma sends_data_conn i f now s : is_u32 (conn_id f) -> sends s (data_conn lookup_host i f now s).
Proof.
  intros Hc. unfold data_conn. destruct (vcs s !! i) as [v|]; [|reflexivity]. destruct (is_udp v).
  - etrans; [apply (sends_forward v (payload f))|apply sends_upd].
  - destruct (deliver _ _ v) as [[| |] v1]; [|apply sends_upd|etrans; [|by apply sends_reset]; apply sends_upd].
    destruct (fin_received _); [etrans; [|apply sends_finish]|]; apply sends_upd.
Qed.

Lemma sends_data_unknown f now s : is_u32 (conn_id f) -> sends s (data_unknown f now s).2.
Proof.
  intros Hc. unfold data_unknown, reserve. case_decide; [by apply sends_rst|]. case_decide.
  - pose proof (sends_reserve (size (pending s)) (Some (conn_id f)) (zlen (payload f)) now s) as Hr.
    destruct (try_reserve_pending _ _ _ _ _) as [[[]|] s1]; cbn [snd] in *;
      (etrans; [exact Hr|]); [|by apply sends_fail..].
    destruct (pending s1 !! conn_id f); [|same].
    destruct (_ <? _); cbn [snd]; [by apply sends_hold|]. etrans; [|by apply sends_fail]. same.
  - destruct (_ <? _); [|by apply sends_fail].
    pose proof (sends_reserve (size (pending s)) None (zlen (payload f)) now s) as Hr.
    destruct (try_reserve_pending _ _ _ _ _) as [[[]|] s1]; cbn [snd] in *;
      (etrans; [exact Hr|]); [by apply sends_hold|by apply sends_fail..].
Qed.

Lemma sends_handle_data f now s : is_u32 (conn_id f) -> sends s (handle_data lookup_host f now s).
Proof.
  intros Hc. unfold handle_data. destruct (conns s !! conn_id f); [by apply sends_data_conn|].
  pose proof (sends_data_unknown f now s Hc) as H. destruct (data_unknown f now s) as [[] s']; cbn in H; [|done].
  destruct (conns s' !! conn_id f); [|done]. etrans; [exact H|by apply sends_data_conn].
Qed.

Lemma sends_handle_fin f now s : is_u32 (conn_id f) -> sends s (handle_fin f now s).
Proof.
  intros Hc. unfold handle_fin. destruct (conns s !! conn_id f) as [i|].
  - destruct (vcs s !! i) as [v|]; [|reflexivity]. destruct (is_udp v); [reflexivity|].
    etrans; [apply (sends_start_half i (seq f))|apply sends_finish].
  - case_decide; [reflexivity|].
    destruct (pending s !! conn_id f); (destruct (_ <? _); [by apply sends_hold|by apply sends_fail]).
Qed.

Lemma sends_handle_rst c now s : sends s (handle_rst c now s).
Proof.
  unfold handle_rst. destruct (conns s !! c).
  - etrans; [apply (sends_tombstone c now)|]. etrans; [apply (sends_remove_conn c)|same].
  - etrans; [apply (sends_cancel c)|apply sends_tombstone].
Qed.

Lemma sends_syn_fail c now s : is_u32 c -> sends s (syn_fail c now s).
Proof.
  intros Hc. unfold syn_fail. etrans; [apply (sends_remove_pending c)|]. etrans; [apply (sends_end c)|].
  etrans; [apply (sends_tombstone c now)|by apply sends_rst].
Qed.

Lemma sends_handle_syn f n now s : is_u32 (conn_id f) -> sends s (handle_syn f n now s).
Proof.
  intros Hc. unfold handle_syn. case_decide; [reflexivity|]. set (s1 := with_handshaking _ s).
  assert (sends s s1) as H1 by same. destruct (bool_decide _); [exact H1|]. etrans; [exact H1|].
  set (s2 := with_notifies _ _). assert (sends s1 s2) as H2.
  { unfold s2. etrans; [by apply (sends_hold (conn_id f))|same]. }
  etrans; [exact H2|]. case_decide; [etrans; [apply (sends_remove_pending (conn_id f))|apply sends_end]|].
  destruct (syn_target_decode _) as [t|]; [|by apply sends_syn_fail].
  destruct (negb _ && negb _); [by apply sends_syn_fail|]. apply sends_task. by destruct (_ =? _).
Qed.

Lemma sends_handle_frame f n now s : is_u32 (conn_id f) -> sends s (handle_frame lookup_host f n now s).
Proof.
  intros Hc. unfold handle_frame. destruct (has_flag f FLAG_SYN); [by apply sends_handle_syn|].
  destruct (has_flag f FLAG_DATA); [by apply sends_handle_data|].
  destruct (has_flag f FLAG_FIN); [by apply sends_handle_fin|].
  destruct (has_flag f FLAG_RST); [apply sends_handle_rst|reflexivity].
Qed.

Lemma sends_drop_cancelled c now s : sends s (drop_cancelled c now s).
Proof.
  unfold drop_cancelled. etrans; [apply (sends_remove_conn c)|]. etrans; [apply (sends_tombstone c now)|apply sends_end].
Qed.

Lemma sends_install i v c s : is_u32 c -> sends s (install_conn i v c s).
Proof. intros Hc. unfold install_conn. etrans; [|by apply (sends_map c i (with_vcs (<[i := v]> (vcs s)) s))]. same. Qed.

Lemma sends_syn_udp c i bound now s : is_u32 c -> sends s (syn_udp lookup_host window_bytes c i bound now s).
Proof.
  intros Hc. unfold syn_udp. destruct bound as [sock|]; [|by apply sends_syn_fail].
  set (s1 := install_conn _ _ c s). assert (sends s s1) as H1 by by apply sends_install.
  pose proof (sends_remove_pending c s1) as H2. destruct (remove_pending c s1) as [[e|] s2]; cbn in H2;
    (etrans; [exact H1|]; etrans; [exact H2|]); [|apply sends_end].
  destruct (pe_cancelled e); [apply sends_drop_cancelled|]. etrans; [|apply sends_end].
  apply (sends_fold (fun _ => True)); [|by apply Forall_true].
  intros s3 f _. destruct (has_flag f FLAG_DATA); [apply sends_forward|reflexivity].
Qed.

Lemma sends_syn_drain c i now s : is_u32 c -> sends s (syn_drain c i now s).
Proof.
  intros Hc. unfold syn_drain. pose proof (sends_remove_pending c s) as H.
  destruct (remove_pending c s) as [[e|] s1]; cbn in H; (etrans; [exact H|]); [|apply sends_end].
  destruct (pe_cancelled e); [apply sends_drop_cancelled|].
  destruct (vcs s1 !! i) as [v|]; [|apply sends_end]. destruct (replay _ _ _) as [[[] fin] v'].
  - etrans; [|apply sends_end]. etrans; [|by apply sends_reset]. apply sends_upd.
  - etrans; [|apply sends_end]. destruct fin as [sq|]; [|apply sends_upd].
    etrans; [|apply sends_finish]. etrans; [|apply sends_start_half]. apply sends_upd.
Qed.

Lemma sends_connected c i o now s : is_u32 c -> sends s (syn_connected window_bytes c i o now s).
Proof.
  intros Hc. destruct o; cbn; try by apply sends_syn_fail.
  - case_decide; [etrans; [apply (sends_remove_pending c)|apply sends_end]|].
    etrans; [|by apply sends_syn_drain]. by apply sends_install.
  - etrans; [apply (sends_remove_pending c)|]. etrans; [apply (sends_end c)|apply sends_tombstone].
Qed.

(** What [send_async] did in a turn of a reader. *)
Definition reader_pool (e : reader_event) (p : TunnelPool) : Prop :=
  match e with RdChunk _ _ q | RdEof _ q => pool_gets P p q | RdCancel => True end.

Lemma sends_reader e now t s :
  is_u32 (rd_cid t) -> reader_pool e (rpool s) -> sends s (reader_step e now t s).2.
Proof.
  intros Hc. destruct e as [|chunk r p|r p]; cbn [reader_step reader_pool snd]; [reflexivity| |]; intros Hp;
    (etrans; [by apply (sends_pool p)|]); destruct r; cbn [snd].
  - apply sends_upd.
  - etrans; [apply (sends_tombstone (rd_cid t) now)|]. etrans; [apply (sends_remove_conn (rd_cid t))|by apply sends_rst].
  - reflexivity.
  - etrans; [|apply sends_finish]. apply sends_upd.
  - etrans; [|apply sends_finish]. etrans; [|apply sends_upd]. by apply sends_rst.
  - etrans; [|apply sends_finish]. etrans; [|apply sends_upd]. by apply sends_rst.
Qed.

Lemma sends_udp_response c sq a d now s :
  (forall dgram, encode_udp_datagram (mkTargetAddr (normalize_ip (sa_ip a)) (sa_port a)) d = Ok dgram ->
     P (frame_data c sq dgram)) -> sends s (udp_response c sq a d now s).2.
Proof.
  intros Hf. unfold udp_response. destruct (encode_udp_datagram _ d) as [b|]; [|reflexivity].
  destruct (_ >? _); [reflexivity|]. pose proof (send_gets P (frame_data c sq b) (rpool s) (Hf b eq_refl)) as G.
  destruct (send _ _) as [[] p]; cbn [snd] in *; [|by apply sends_pool].
  destruct (conns (with_rpool p s) !! c); [|by apply sends_pool].
  etrans; [by apply (sends_pool p)|apply sends_upd].
Qed.

Lemma sends_sweep_conn now s e : is_u32 e.1 -> sends s (sweep_conn now s e).
Proof.
  intros Hc. unfold sweep_conn. destruct (vcs s !! e.2) as [v|]; [|reflexivity]. destruct (conn_idle now v); [|reflexivity].
  etrans; [apply (sends_tombstone e.1 now)|]. etrans; [apply (sends_remove_conn e.1)|by apply sends_rst].
Qed.

Lemma sends_sweep_stale now s : sends s (sweep_stale_pending now s).
Proof.
  intros Ht. unfold sweep_stale_pending.
  assert (Forall (fun ke : Z * PendingEntry => is_u32 ke.1) (dash_iter (pending s))) as Hl.
  { apply Forall_forall. intros [c e] Hin%elem_of_dash_iter. exact (rt_pending _ Ht c e Hin). }
  resend Ht. etrans; [|apply (sends_fold (fun ke : Z * PendingEntry => is_u32 ke.1))].
  - intros [H1 H2 H3]. split; [split; [done| |done]|done]. cbn. intros c e [Hc _]%map_lookup_filter_Some.
    exact (H2 c e Hc).
  - intros s1 ke Hk. by apply sends_dropped.
  - apply Forall_forall. intros x [_ Hx]%list_elem_of_filter. rewrite Forall_forall in Hl. by apply Hl.
Qed.

Lemma sends_heartbeat now now_ms s : sends s (heartbeat now now_ms s).
Proof.
  unfold heartbeat. cbn zeta. set (s1 := with_rpool _ s).
  assert (sends s s1) as H1.
  { apply sends_pool, (sweep_gets P now_ms LINK_IDLE_TIMEOUT_MS (compact (rpool s))). }
  etrans; [exact H1|]. etrans; [|apply sends_resets]. etrans; [|apply sends_sweep_stale].
  etrans; [|apply sends_handshaking]. etrans; [|apply sends_closed].
  intros Ht. assert (Forall (fun e : Z * nat => is_u32 e.1) (dash_iter (conns s1))) as Hl.
  { apply Forall_forall. intros [c i] Hin%elem_of_dash_iter. exact (rt_conns _ Ht c i Hin). }
  resend Ht. apply (sends_fold (fun e : Z * nat => is_u32 e.1)); [|exact Hl].
  intros. by apply sends_sweep_conn.
Qed.

Lemma sends_lost lost s :
  Forall (fun f => is_u32 (conn_id f) /\ P f) lost -> sends s (recover_lost_de lost s).
Proof.
  intros H. apply (sends_fold (fun f => is_u32 (conn_id f) /\ P f)); [|exact H].
  intros s1 f [Hc Hf]. destruct (negb _); [by apply sends_frame|by apply sends_rst].
Qed.
End reassembler_sends.
