(* ===== verification/ReassemblerOrigin.v ===== *)
(** * Where the work of the reassembler comes from

    Everything the reassembler starts on behalf of a client goes back to frames it
    received: a connect in flight to a SYN that names its target, a UDP association to a
    SYN that asks for one, and every datagram that left a UDP socket to a DATA frame of such
    an association.  [less s s'] says that [s'] holds nothing of this kind that [s] did not
    hold; only the handling of a frame and the end of a handshake are not of that form. *)
From Stdlib Require Import ZArith Lia.
From Stdlib Require Import Strings.Byte.
From stdpp Require Import base numbers list option fin_maps gmap.
From S2P Require Import Prelude Runtime Frames Reorder Tunnel Net.
From S2P Require Import Socks5 Reassembler ReassemblerConn ReassemblerSends.
From S2P Require Import EgressWriter ReassemblerStream.
Local Open Scope Z_scope.

Section less.
Context {T : Tokio} {TL : TokioLaws T} {D : DashIter} {DL : DashIterLaws D} {B : BufMut}.
Context (lookup_host : bytes -> Z -> option IpAddr) (window_bytes : Z).

Record less (s s' : RState) : Prop := {
  le_tasks n t : tasks s' !! n = Some t -> tasks s !! n = Some t;
  le_pending c e' : pending s' !! c = Some e' ->
    pe_frames e' = [] \/ exists e, pending s !! c = Some e /\ pe_frames e' = pe_frames e;
  le_conns c i : conns s' !! c = Some i -> conns s !! c = Some i;
  le_vcs i v : vcs s !! i = Some v -> exists v', vcs s' !! i = Some v' /\ is_udp v' = is_udp v;
  le_out : udp_out s' = udp_out s;
}.

#[export] Instance less_preorder : PreOrder less.
Proof.
  split.
  - intros s. split; try done; [intros c e He; right; by exists e|intros i v Hv; by exists v].
  - intros s1 s2 s3 [A1 A2 A3 A4 A5] [B1 B2 B3 B4 B5]. split; [auto| |auto| |congruence].
    + intros c e3 H3. destruct (B2 c e3 H3) as [?|(e2 & H2 & E2)]; [by left|].
      destruct (A2 c e2 H2) as [E|(e1 & H1 & E1)]; [left; congruence|]. right. exists e1. split; [done|congruence].
    + intros i v1 H1. destruct (A4 i v1 H1) as (v2 & H2 & E2). destruct (B4 i v2 H2) as (v3 & H3 & E3).
      exists v3. split; [done|congruence].
Qed.

Lemma less_same s s' :
  tasks s' = tasks s -> pending s' = pending s -> conns s' = conns s -> vcs s' = vcs s -> udp_out s' = udp_out s ->
  less s s'.
Proof.
  intros E1 E2 E3 E4 E5. split; rewrite ?E1, ?E2, ?E3, ?E4; try done;
    [intros c e He; right; by exists e|intros i v Hv; by exists v].
Qed.

Ltac same := by apply less_same.

Lemma less_untask n s : less s (with_tasks (delete n (tasks s)) s).
Proof.
  split; cbn; try done; [by intros m t [_ ?]%lookup_delete_Some|intros c e He; right; by exists e|intros i v Hv; by exists v].
Qed.

Lemma less_drop c b s : less s (with_pending (delete c (pending s)) b s).
Proof.
  split; cbn; try done; [intros c' e [_ He]%lookup_delete_Some; right; by exists e|intros i v Hv; by exists v].
Qed.

(** An entry whose frames stay. *)
Lemma less_hold c e0 b s :
  (pe_frames e0 = [] \/ exists e, pending s !! c = Some e /\ pe_frames e0 = pe_frames e) ->
  less s (with_pending (<[c := e0]> (pending s)) b s).
Proof.
  intros H. split; cbn; try done; [|intros i v Hv; by exists v].
  intros c' e' [[<- <-]|[_ He]]%lookup_insert_Some; [done|right; by exists e'].
Qed.

Lemma less_unmap c s : less s (with_conns (delete c (conns s)) s).
Proof.
  split; cbn; try done; [intros c' e He; right; by exists e|by intros c' i [_ ?]%lookup_delete_Some|intros i v Hv; by exists v].
Qed.

Lemma less_upd g i s : (forall v, vcs s !! i = Some v -> is_udp (g v) = is_udp v) -> less s (upd_vc g i s).
Proof.
  intros Hg. split; try done; [intros c e He; right; by exists e|].
  intros j v Hv. cbn. destruct (decide (i = j)) as [->|Hne].
  - rewrite lookup_alter_eq, Hv. exists (g v). auto.
  - rewrite lookup_alter_ne by done. by exists v.
Qed.

Lemma less_fold {A} (g : RState -> A -> RState) (l : list A) s :
  (forall s x, less s (g s x)) -> less s (fold_left g l s).
Proof. intros Hg. revert s. induction l as [|x l IH]; intros s; cbn; [reflexivity|]. etrans; [apply Hg|apply IH]. Qed.

(** *** The operations *)
Lemma less_notify c s : less s (notify_cancel c s).
Proof. destruct c; same. Qed.
Lemma less_tombstone c now s : less s (tombstone c now s).
Proof. same. Qed.
Lemma less_end c s : less s (end_handshake c s).
Proof. same. Qed.
Lemma less_send f s : less s (pool_send f s).
Proof. same. Qed.
Lemma less_pool p s : less s (with_rpool p s).
Proof. same. Qed.

Lemma less_remove_conn c s : less s (remove_conn c s).
Proof.
  unfold remove_conn. destruct (conns s !! c); [|reflexivity]. etrans; [apply (less_unmap c)|]. by apply less_upd.
Qed.

Lemma less_reset c now s : less s (reset_conn_de c now s).
Proof.
  unfold reset_conn_de. etrans; [apply (less_tombstone c now)|]. etrans; [apply (less_remove_conn c)|same].
Qed.

Lemma less_remove_pending c s : less s (remove_pending c s).2.
Proof. unfold remove_pending. destruct (pending s !! c); [apply less_drop|reflexivity]. Qed.

Lemma less_cancel c s : less s (cancel_pending c s).
Proof.
  unfold cancel_pending. destruct (pending s !! c) as [e|] eqn:E; [|reflexivity].
  etrans; [|apply less_notify]. apply less_hold. right. by exists e.
Qed.

Lemma less_fail c now s : less s (fail_pending_conn c now s).
Proof.
  unfold fail_pending_conn. etrans; [apply (less_cancel c)|]. etrans; [apply (less_tombstone c now)|apply less_send].
Qed.

Lemma less_reserve fuel ex need now s : less s (try_reserve_pending fuel ex need now s).2.
Proof.
  revert s. induction fuel as [|fuel IH]; intros s; cbn [try_reserve_pending];
    (destruct (_ <=? _); [same|]); destruct (oldest_entry ex (pending s)) as [[k e]|]; try reflexivity.
  etrans; [|apply IH]. unfold evict. etrans; [apply (less_drop k)|]. etrans; [apply (less_notify (pe_cancel e))|].
  etrans; [apply (less_tombstone k now)|apply less_send].
Qed.

Lemma less_finish i c now s : less s (finish_if_done i c now s).
Proof.
  unfold finish_if_done. destruct (vcs s !! i) as [v|]; [|reflexivity]. destruct (conn_done v); [|reflexivity].
  etrans; [apply (less_tombstone c now)|apply less_unmap].
Qed.

Lemma less_start_half i sq s : less s (start_half_close i sq s).
Proof.
  unfold start_half_close. destruct (vcs s !! i) as [v|]; [|reflexivity]. destruct (fin_received v); [reflexivity|].
  etrans; [|apply less_upd; intros v0 _; by rewrite close_keeps_udp]. same.
Qed.

Lemma deliver_keeps_udp sq p v o v' : deliver sq p v = (o, v') -> is_udp v' = is_udp v.
Proof. intros H. destruct (deliver_view _ _ _ _ _ H) as (-> & _). done. Qed.

Lemma less_set i v v' s : vcs s !! i = Some v -> is_udp v' = is_udp v -> less s (upd_vc (fun _ => v') i s).
Proof. intros Hv E. apply less_upd. intros v0 Hv0. congruence. Qed.

(** Data of a TCP connection. *)
Lemma less_data_conn i f now s v :
  vcs s !! i = Some v -> is_udp v = false -> less s (data_conn lookup_host i f now s).
Proof.
  intros Hv Hu. unfold data_conn. rewrite Hv, Hu. destruct (deliver _ _ v) as [o v1] eqn:Ed.
  apply deliver_keeps_udp in Ed. destruct o.
  - destruct (fin_received _).
    + etrans; [|apply less_finish]. apply (less_set i v); [done|]. by rewrite close_keeps_udp.
    + by apply (less_set i v).
  - by apply (less_set i v).
  - etrans; [|apply less_reset]. by apply (less_set i v).
Qed.

Lemma less_handle_rst c now s : less s (handle_rst c now s).
Proof.
  unfold handle_rst. destruct (conns s !! c).
  - etrans; [apply (less_tombstone c now)|]. etrans; [apply (less_remove_conn c)|same].
  - etrans; [apply (less_cancel c)|apply less_tombstone].
Qed.

Lemma less_syn_fail c now s : less s (syn_fail c now s).
Proof.
  unfold syn_fail. etrans; [apply (less_remove_pending c)|]. etrans; [apply (less_end c)|].
  etrans; [apply (less_tombstone c now)|apply less_send].
Qed.

Lemma less_drop_cancelled c now s : less s (drop_cancelled c now s).
Proof.
  unfold drop_cancelled. etrans; [apply (less_remove_conn c)|]. etrans; [apply (less_tombstone c now)|apply less_end].
Qed.

Lemma replay_keeps_udp fs : forall fin v b fin' v', replay fs fin v = (b, fin', v') -> is_udp v' = is_udp v.
Proof.
  induction fs as [|f fs IH]; intros fin v b fin' v' H; cbn [replay] in H; [by injection H as _ _ <-|].
  destruct (has_flag f FLAG_DATA); [|destruct (has_flag f FLAG_FIN); by eapply IH].
  destruct (deliver _ _ v) as [o v1] eqn:Ed. apply deliver_keeps_udp in Ed. destruct o.
  - apply IH in H. rewrite H, <- Ed. destruct (fin_received v1); [apply close_keeps_udp|done].
  - apply IH in H. congruence.
  - by injection H as _ _ <-.
Qed.

Lemma less_syn_drain c i now s : less s (syn_drain c i now s).
Proof.
  unfold syn_drain. pose proof (less_remove_pending c s) as H.
  destruct (remove_pending c s) as [[e|] s1]; cbn in H; (etrans; [exact H|]); [|apply less_end].
  destruct (pe_cancelled e); [apply less_drop_cancelled|].
  destruct (vcs s1 !! i) as [v|] eqn:Hv; [|apply less_end].
  destruct (replay _ _ _) as [[broken fin] v'] eqn:Er. apply replay_keeps_udp in Er.
  etrans; [by apply (less_set i v v')|]. destruct broken.
  - etrans; [apply (less_reset c now)|apply less_end].
  - etrans; [|apply less_end]. destruct fin as [sq|]; [|reflexivity].
    etrans; [apply (less_start_half i sq)|apply less_finish].
Qed.

Lemma less_reader e now t s : less s (reader_step e now t s).2.
Proof.
  destruct e as [|chunk r p|r p]; cbn [reader_step snd]; [reflexivity| |]; (etrans; [apply (less_pool p)|]); destruct r; cbn [snd].
  - by apply less_upd.
  - etrans; [apply (less_tombstone (rd_cid t) now)|]. etrans; [apply (less_remove_conn (rd_cid t))|apply less_send].
  - reflexivity.
  - etrans; [|apply less_finish]. by apply less_upd.
  - etrans; [|apply less_finish]. etrans; [apply (less_send (frame_rst (rd_cid t)))|]. by apply less_upd.
  - etrans; [|apply less_finish]. etrans; [apply (less_send (frame_rst (rd_cid t)))|]. by apply less_upd.
Qed.

Lemma less_udp_response c sq a d now s : less s (udp_response c sq a d now s).2.
Proof.
  unfold udp_response. destruct (encode_udp_datagram _ d) as [b|]; [|reflexivity].
  destruct (_ >? _); [reflexivity|]. destruct (send _ _) as [[] p]; cbn [snd]; [|apply less_pool].
  destruct (conns (with_rpool p s) !! c); [|apply less_pool]. etrans; [apply (less_pool p)|by apply less_upd].
Qed.

Lemma less_sweep_conn now s e : less s (sweep_conn now s e).
Proof.
  unfold sweep_conn. destruct (vcs s !! e.2) as [v|]; [|reflexivity]. destruct (conn_idle now v); [|reflexivity].
  etrans; [apply (less_tombstone e.1 now)|]. etrans; [apply (less_remove_conn e.1)|apply less_send].
Qed.

Lemma less_heartbeat now now_ms s : less s (heartbeat now now_ms s).
Proof.
  unfold heartbeat. cbn zeta. set (s1 := with_rpool _ s). assert (less s s1) as H1 by apply less_pool.
  etrans; [exact H1|]. set (s2 := fold_left _ _ s1).
  assert (less s1 s2) as H2 by (apply less_fold; intros; apply less_sweep_conn). etrans; [exact H2|].
  set (s4 := with_handshaking _ _). assert (less s2 s4) as H4 by same. etrans; [exact H4|].
  etrans; [|by apply (less_same (sweep_stale_pending now s4))]. unfold sweep_stale_pending.
  etrans; [|apply less_fold].
  - split; cbn; try done; [|intros i v Hv; by exists v].
    intros c e [He _]%map_lookup_filter_Some. right. by exists e.
  - intros s5 [c e]. unfold sweep_reset. etrans; [apply (less_notify (pe_cancel e))|].
    etrans; [apply (less_tombstone c now)|apply less_send].
Qed.

Lemma less_lost lost s : less s (recover_lost_de lost s).
Proof. apply less_fold. intros s1 f. destruct (negb _); apply less_send. Qed.
End less.

(** ** Whose connects, associations and datagrams *)
Section origin.
Context {T : Tokio} {TL : TokioLaws T} {D : DashIter} {DL : DashIterLaws D} {B : BufMut}.
Context (lookup_host : bytes -> Z -> option IpAddr) (window_bytes : Z).
(** What holds of the frames received. *)
Context (P : Frame -> Prop).

(** A SYN of [c] asked for [st]. *)
Definition asked (c : Z) (st : SynTarget) : Prop :=
  exists f, P f /\ has_flag f FLAG_SYN = true /\ conn_id f = c /\ syn_target_decode (payload f) = Ok st.

Definition udp_asked (c : Z) : Prop := exists st, asked c st /\ proto st = PROTO_UDP.

Definition task_asked (t : SynTask) : Prop :=
  match t with TaskUdpBind c => udp_asked c | TaskConnect c st => asked c st /\ proto st = PROTO_TCP end.

(** A datagram that a DATA frame of a UDP association carried, to the target it named. *)
Definition forwarded (d : SocketAddr * bytes) : Prop :=
  exists f sock t data, P f /\ has_flag f FLAG_DATA = true /\ udp_asked (conn_id f) /\
    decode_udp_datagram (payload f) = Ok (t, data) /\
    udp_send_to lookup_host sock (t_address t) (t_port t) data = Some d.

Definition held_for (c : Z) (f : Frame) : Prop := P f /\ conn_id f = c.

Record origin_inv (s : RState) : Prop := {
  oi_tasks n t : tasks s !! n = Some t -> task_asked t;
  oi_pending c e : pending s !! c = Some e -> Forall (held_for c) (pe_frames e);
  oi_conns c i : conns s !! c = Some i -> exists v, vcs s !! i = Some v /\ (is_udp v = true -> udp_asked c);
  oi_out : Forall forwarded (udp_out s);
}.

Lemma origin_less s s' : less s s' -> origin_inv s -> origin_inv s'.
Proof.
  intros [L1 L2 L3 L4 L5] [H1 H2 H3 H4]. split.
  - intros n t Hn. by apply (H1 n), L1.
  - intros c e' He. destruct (L2 c e' He) as [->|(e & Hc & ->)]; [constructor|by apply H2].
  - intros c i Hc. destruct (H3 c i (L3 c i Hc)) as (v & Hv & Hu). destruct (L4 i v Hv) as (v' & Hv' & E).
    exists v'. split; [done|]. by rewrite E.
  - by rewrite L5.
Qed.

Lemma origin_forward v f s :
  P f -> has_flag f FLAG_DATA = true -> udp_asked (conn_id f) -> origin_inv s ->
  origin_inv (forward_udp_datagram lookup_host v (payload f) s).
Proof.
  intros Hf Hd Hu HI. unfold forward_udp_datagram.
  destruct (decode_udp_datagram (payload f)) as [[t data]|] eqn:Ed; [|done].
  destruct (udp_sock v) as [sock|]; [|done]. destruct (udp_send_to _ _ _ _ _) as [d|] eqn:Es; [|done].
  destruct HI as [H1 H2 H3 H4]. split; [done|done|done|]. cbn. apply Forall_app. split; [done|].
  constructor; [|constructor]. exists f, sock, t, data. by split_and!.
Qed.

Lemma origin_data_conn i f now s :
  P f -> has_flag f FLAG_DATA = true -> conns s !! conn_id f = Some i -> origin_inv s ->
  origin_inv (data_conn lookup_host i f now s).
Proof.
  intros Hf Hd Hc HI. destruct (oi_conns _ HI _ _ Hc) as (v & Hv & Hu). destruct (is_udp v) eqn:E.
  - unfold data_conn. rewrite Hv, E. apply (origin_less (forward_udp_datagram lookup_host v (payload f) s));
      [by apply less_upd|]. apply origin_forward; auto.
  - eapply origin_less; [by eapply less_data_conn|done].
Qed.

Lemma origin_push f k e b s :
  P f -> (pending s !! conn_id f = Some e \/ pe_frames e = []) -> origin_inv s ->
  origin_inv (with_pending (<[conn_id f := push_pending f k e]> (pending s)) b s).
Proof.
  intros Hf He [H1 H2 H3 H4]. split; cbn; try done.
  intros c e' [[<- <-]|[_ Hc]]%lookup_insert_Some; [|by apply (H2 c)]. cbn. apply Forall_app. split.
  - destruct He as [He|He]; [by apply H2|]. rewrite He. constructor.
  - by constructor; [|constructor].
Qed.

Lemma origin_data_unknown f now s : P f -> origin_inv s -> origin_inv (data_unknown f now s).2.
Proof.
  intros Hf HI. unfold data_unknown, reserve. case_decide; [by eapply origin_less; [apply less_send|]|].
  assert (forall s1, origin_inv s1 -> origin_inv (fail_pending_conn (conn_id f) now s1)) as Hfail
    by (intros s1 H1; by eapply origin_less; [apply less_fail|]).
  case_decide.
  - pose proof (less_reserve (size (pending s)) (Some (conn_id f)) (zlen (payload f)) now s) as Hr.
    destruct (try_reserve_pending _ _ _ _ _) as [[[]|] s1]; cbn [snd] in *; apply (origin_less _ _ Hr) in HI; try by apply Hfail.
    destruct (pending s1 !! conn_id f) as [e|] eqn:E; [|by (eapply origin_less; [|exact HI]; apply less_same)].
    destruct (_ <? _); cbn [snd]; [apply origin_push; auto|]. apply Hfail. by (eapply origin_less; [|exact HI]; apply less_same).
  - destruct (_ <? _); [|by apply Hfail].
    pose proof (less_reserve (size (pending s)) None (zlen (payload f)) now s) as Hr.
    destruct (try_reserve_pending _ _ _ _ _) as [[[]|] s1]; cbn [snd] in *; apply (origin_less _ _ Hr) in HI; try by apply Hfail.
    apply origin_push; auto.
Qed.

Lemma origin_handle_data f now s :
  P f -> has_flag f FLAG_DATA = true -> origin_inv s -> origin_inv (handle_data lookup_host f now s).
Proof.
  intros Hf Hd HI. unfold handle_data. destruct (conns s !! conn_id f) eqn:Hc; [by apply origin_data_conn|].
  pose proof (origin_data_unknown f now s Hf HI) as H. destruct (data_unknown f now s) as [[] s']; cbn in H; [|done].
  destruct (conns s' !! conn_id f) eqn:Hc'; [by apply origin_data_conn|done].
Qed.

Lemma origin_handle_fin f now s : P f -> origin_inv s -> origin_inv (handle_fin f now s).
Proof.
  intros Hf HI. unfold handle_fin. destruct (conns s !! conn_id f) as [i|].
  - destruct (vcs s !! i) as [v|]; [|done]. destruct (is_udp v); [done|].
    eapply origin_less; [|exact HI]. etrans; [apply (less_start_half i (seq f))|apply less_finish].
  - case_decide; [done|]. assert (origin_inv (fail_pending_conn (conn_id f) now s)) as Hfail
      by by eapply origin_less; [apply less_fail|].
    destruct (pending s !! conn_id f) as [e|] eqn:E; (destruct (_ <? _); [|done]); apply origin_push; auto.
Qed.

Lemma origin_handle_syn f n now s :
  P f -> has_flag f FLAG_SYN = true -> origin_inv s -> origin_inv (handle_syn f n now s).
Proof.
  intros Hf Hs HI. unfold handle_syn. case_decide; [done|]. set (s1 := with_handshaking _ s).
  assert (less s s1) as H1 by by apply less_same. destruct (bool_decide _); [by eapply origin_less|].
  set (s2 := with_notifies _ _). assert (less s1 s2) as H2.
  { pose (e0 := default (pending_new now) (pending s1 !! conn_id f)).
    etrans; [apply (less_hold (conn_id f) (mkPendingEntry (pe_frames e0) (pe_since e0) (pe_bytes e0)
      (pe_cancelled e0) (Some n)) (pending_bytes s1))|by apply less_same].
    unfold e0. cbn [pe_frames]. destruct (pending s1 !! conn_id f) as [e|] eqn:E; [right; by exists e|by left]. }
  assert (origin_inv s2) as HI2 by (eapply origin_less; [exact H2|]; by eapply origin_less).
  clearbody s2. clear HI H1 H2. case_decide.
  { eapply origin_less; [|exact HI2]. etrans; [apply (less_remove_pending (conn_id f))|apply less_end]. }
  destruct (syn_target_decode (payload f)) as [t|] eqn:Ed; [|by eapply origin_less; [apply less_syn_fail|]].
  destruct (negb _ && negb _) eqn:Ep; [by eapply origin_less; [apply less_syn_fail|]|].
  assert (asked (conn_id f) t) as Ha by (exists f; by split_and!).
  destruct HI2 as [I1 I2 I3 I4]. split; cbn; try done.
  intros m t' [[<- <-]|[_ Hm]]%lookup_insert_Some; [|by apply (I1 m)].
  destruct (proto t =? PROTO_UDP) eqn:Eu.
  - apply Z.eqb_eq in Eu. by exists t.
  - split; [done|]. apply andb_false_iff in Ep as [Ep|Ep]; [|apply negb_false_iff in Ep; unfold PROTO_UDP in Ep; congruence].
    by apply negb_false_iff, Z.eqb_eq in Ep.
Qed.

Lemma origin_frame f n now s : P f -> origin_inv s -> origin_inv (handle_frame lookup_host f n now s).
Proof.
  intros Hf HI. unfold handle_frame. destruct (has_flag f FLAG_SYN) eqn:Es; [by apply origin_handle_syn|].
  destruct (has_flag f FLAG_DATA) eqn:Ed; [by apply origin_handle_data|].
  destruct (has_flag f FLAG_FIN); [by apply origin_handle_fin|].
  destruct (has_flag f FLAG_RST); [by eapply origin_less; [apply less_handle_rst|]|done].
Qed.

(** A connection installed under a new identifier. *)
Lemma origin_install i v c s :
  vcs s !! i = None -> (is_udp v = true -> udp_asked c) -> origin_inv s -> origin_inv (install_conn i v c s).
Proof.
  intros Hi Hv [H1 H2 H3 H4]. split; cbn; try done.
  intros c' j [[<- <-]|[_ Hj]]%lookup_insert_Some; [exists v; by rewrite lookup_insert_eq|].
  destruct (H3 c' j Hj) as (v' & Hv' & Hu). exists v'. rewrite lookup_insert_ne by congruence. done.
Qed.

Lemma origin_syn_udp c i bound now s :
  udp_asked c -> vcs s !! i = None -> origin_inv s -> origin_inv (syn_udp lookup_host window_bytes c i bound now s).
Proof.
  intros Hc Hi HI. unfold syn_udp. destruct bound as [sock|]; [|by eapply origin_less; [apply less_syn_fail|]].
  set (v := new_udp_conn window_bytes now sock). set (s1 := install_conn i v c s).
  assert (origin_inv s1) as HI1 by by apply origin_install. pose proof (less_remove_pending c s1) as H2.
  assert (forall e s2, remove_pending c s1 = (Some e, s2) -> Forall (held_for c) (pe_frames e)) as He.
  { intros e s2. unfold remove_pending. destruct (pending s1 !! c) as [e1|] eqn:E; [|done].
    intros [= <- _]. by apply (oi_pending _ HI1). }
  destruct (remove_pending c s1) as [[e|] s2]; cbn in H2; apply (origin_less _ _ H2) in HI1;
    [|by eapply origin_less; [apply less_end|]].
  destruct (pe_cancelled e); [by eapply origin_less; [apply less_drop_cancelled|]|].
  eapply origin_less; [apply less_end|]. specialize (He e s2 eq_refl). clear H2. revert s2 HI1.
  induction He as [|f fs [Hf Hid] Hfs IH]; intros s2 HI2; cbn [fold_left]; [done|]. apply IH.
  destruct (has_flag f FLAG_DATA) eqn:Ed; [|done]. apply origin_forward; [done|done|by rewrite Hid|done].
Qed.

Lemma origin_connected c i o now s :
  vcs s !! i = None -> origin_inv s -> origin_inv (syn_connected window_bytes c i o now s).
Proof.
  intros Hi HI. destruct o; cbn [syn_connected]; try by eapply origin_less; [apply less_syn_fail|].
  - case_decide.
    + eapply origin_less; [|exact HI]. etrans; [apply (less_remove_pending c)|apply less_end].
    + eapply origin_less; [apply less_syn_drain|]. by apply origin_install.
  - eapply origin_less; [|exact HI]. etrans; [apply (less_remove_pending c)|].
    etrans; [apply (less_end c)|apply less_tombstone].
Qed.

Definition comes (e : XEvent) : Prop := match e with XR (EvFrame f _) _ => P f | _ => True end.

Lemma rstep_origin e now s s' :
  comes (XR e now) -> origin_inv s -> rstep lookup_host window_bytes e now s = Some s' -> origin_inv s'.
Proof.
  intros He HI Hs. destruct e; cbn in He, Hs.
  - case_decide; [|done]. injection Hs as <-. by apply origin_frame.
  - case_decide; [|done]. unfold resume in Hs. destruct (tasks s !! n) as [[c|c t]|] eqn:Et; try done. injection Hs as <-.
    apply origin_syn_udp; [exact (oi_tasks _ HI n _ Et)|done|]. by eapply origin_less; [apply less_untask|].
  - case_decide; [|done]. unfold resume in Hs. destruct (tasks s !! n) as [[c|c t]|] eqn:Et; try done. injection Hs as <-.
    apply origin_connected; [done|]. by eapply origin_less; [apply less_untask|].
  - case_decide; [|done]. injection Hs as <-. eapply origin_less; [|exact HI]. apply less_upd. intros v _. apply (close_keeps_udp true).
  - destruct (rd_done t); [|injection Hs as <-]; [done|]. by eapply origin_less; [apply less_reader|].
  - injection Hs as <-. by eapply origin_less; [apply less_udp_response|].
  - injection Hs as <-. by eapply origin_less; [apply less_heartbeat|].
  - injection Hs as <-. by eapply origin_less; [apply less_lost|].
  - case_decide; [|done]. injection Hs as <-. unfold accept_tunnel. destruct (_ >=? _); [done|].
    by eapply origin_less; [apply less_pool|].
Qed.

Lemma xrun_origin es : forall x x',
  Forall comes es -> origin_inv (xs x) -> xrun lookup_host window_bytes es x = Some x' -> origin_inv (xs x').
Proof.
  induction es as [|e es IH]; intros x x' He HI Hr; cbn in Hr; [by injection Hr as <-|].
  apply Forall_cons_1 in He as [He Hes]. destruct (xstep _ _ e x) as [x1|] eqn:Es; [|done].
  eapply IH; [exact Hes| |exact Hr]. clear Hr IH. destruct e as [e now|i we|p]; cbn [xstep] in Es.
  - destruct (rstep _ _ e now (xs x)) as [s|] eqn:Er; [|done]. injection Es as <-. by eapply rstep_origin.
  - destruct (vcs (xs x) !! i) as [v|] eqn:Hv; [|done]. destruct (writer_step _ _ v) as [[w' v']|] eqn:Ew; [|done].
    injection Es as <-. eapply origin_less; [|exact HI]. apply (less_set i v); [done|by eapply writer_keeps_udp].
  - injection Es as <-. by eapply origin_less; [apply less_pool|].
Qed.

Lemma origin_start p : origin_inv (reassembler_init p).
Proof.
  split; cbn; [intros n t H; by rewrite lookup_empty in H|intros c e H; by rewrite lookup_empty in H
              |intros c i H; by rewrite lookup_empty in H|constructor].
Qed.
End origin.
