(* ===== verification/Splitter.v ===== *)
(** * The splitter: inbound frames, connection table, client tasks, heartbeat

    Models [src/src/splitter.rs].  As in [Reassembler], an [Arc<VirtConn>] is an
    identifier of the store [sp_vcs]; the client handlers are event-step machines, one
    step per iteration of their [select!] loops. *)
From Stdlib Require Import ZArith Lia.
From Stdlib Require Import Strings.Byte.
From stdpp Require Import base numbers list option fin_maps gmap.
From S2P Require Import Prelude Runtime Frames Reorder Tunnel Net Socks5.
Local Open Scope Z_scope.

(** ** Constants (milliseconds unless named [_SECS]) *)
Definition CLIENT_CHANNEL_CAP : Z := 512.
Definition UDP_CHANNEL_CAP : Z := 1024.
Definition CLOSE_GRACE_MAX : Z := 15 * 1000.
Definition CLOSE_QUIET_TIMEOUT : Z := 60 * 1000.
Definition FIN_COMPLETE_IDLE_SECS : Z := 30.
Definition SP_TCP_IDLE_SECS : Z := 300.
Definition SP_UDP_IDLE_SECS : Z := 60.
Definition TIME_WAIT_TTL : Z := 60 * 1000.
Definition MAX_CONCURRENT_CONNS : Z := 4096.

Section splitter.
Context {T : Tokio}.

Record VirtConn : Type := mkVirtConn {
  to_client_tx : chan bytes;
  sp_reorder : ReorderBuf;
  sp_notify : notify;
  sp_closed : bool;
  sp_fin_received : bool;
  sp_fin_seq : Z;
  grace_waiting : bool;
  sp_rst : bool;
  sp_is_udp : bool;
  sp_created_at : Z;
  sp_last_active : Z;
  sp_bytes_sent : Z;
  sp_bytes_recv : Z;
  sp_frames_sent : Z;
  sp_frames_recv : Z;
}.

Definition new_virt_conn (udp : bool) (window_bytes now : Z) : VirtConn :=
  mkVirtConn (chan_new (if udp then UDP_CHANNEL_CAP else CLIENT_CHANNEL_CAP))
    (with_limit window_bytes) notify_new false false 0 false false udp now now 0 0 0 0.

Definition set_client (c : chan bytes) (r : ReorderBuf) (v : VirtConn) : VirtConn :=
  mkVirtConn c r (sp_notify v) (sp_closed v) (sp_fin_received v) (sp_fin_seq v) (grace_waiting v)
    (sp_rst v) (sp_is_udp v) (sp_created_at v) (sp_last_active v) (sp_bytes_sent v)
    (sp_bytes_recv v) (sp_frames_sent v) (sp_frames_recv v).
Definition set_sp_notify (n : notify) (v : VirtConn) : VirtConn :=
  mkVirtConn (to_client_tx v) (sp_reorder v) n (sp_closed v) (sp_fin_received v) (sp_fin_seq v)
    (grace_waiting v) (sp_rst v) (sp_is_udp v) (sp_created_at v) (sp_last_active v)
    (sp_bytes_sent v) (sp_bytes_recv v) (sp_frames_sent v) (sp_frames_recv v).
Definition set_grace (v : VirtConn) : VirtConn :=
  mkVirtConn (to_client_tx v) (sp_reorder v) (sp_notify v) (sp_closed v) (sp_fin_received v)
    (sp_fin_seq v) true (sp_rst v) (sp_is_udp v) (sp_created_at v) (sp_last_active v)
    (sp_bytes_sent v) (sp_bytes_recv v) (sp_frames_sent v) (sp_frames_recv v).
(** A remote FIN: record its seq and wake the handler. *)
Definition set_sp_fin (sq : Z) (v : VirtConn) : VirtConn :=
  mkVirtConn (to_client_tx v) (sp_reorder v) (notify_one (sp_notify v)) (sp_closed v) true sq
    (grace_waiting v) (sp_rst v) (sp_is_udp v) (sp_created_at v) (sp_last_active v)
    (sp_bytes_sent v) (sp_bytes_recv v) (sp_frames_sent v) (sp_frames_recv v).
(** [rst] and [closed] set, the handler woken. *)
Definition kill_conn (v : VirtConn) : VirtConn :=
  mkVirtConn (to_client_tx v) (sp_reorder v) (notify_one (sp_notify v)) true (sp_fin_received v)
    (sp_fin_seq v) (grace_waiting v) true (sp_is_udp v) (sp_created_at v) (sp_last_active v)
    (sp_bytes_sent v) (sp_bytes_recv v) (sp_frames_sent v) (sp_frames_recv v).
(** Only [rst] (the orphan sweep). *)
Definition set_rst (v : VirtConn) : VirtConn :=
  mkVirtConn (to_client_tx v) (sp_reorder v) (sp_notify v) (sp_closed v) (sp_fin_received v)
    (sp_fin_seq v) (grace_waiting v) true (sp_is_udp v) (sp_created_at v) (sp_last_active v)
    (sp_bytes_sent v) (sp_bytes_recv v) (sp_frames_sent v) (sp_frames_recv v).
Definition touch (now : Z) (v : VirtConn) : VirtConn :=
  mkVirtConn (to_client_tx v) (sp_reorder v) (sp_notify v) (sp_closed v) (sp_fin_received v)
    (sp_fin_seq v) (grace_waiting v) (sp_rst v) (sp_is_udp v) (sp_created_at v) now
    (sp_bytes_sent v) (sp_bytes_recv v) (sp_frames_sent v) (sp_frames_recv v).
Definition sp_count_recv (n : Z) (v : VirtConn) : VirtConn :=
  mkVirtConn (to_client_tx v) (sp_reorder v) (sp_notify v) (sp_closed v) (sp_fin_received v)
    (sp_fin_seq v) (grace_waiting v) (sp_rst v) (sp_is_udp v) (sp_created_at v) (sp_last_active v)
    (sp_bytes_sent v) (wrap 64 (sp_bytes_recv v + n)) (sp_frames_sent v)
    (wrap 64 (sp_frames_recv v + 1)).
Definition sp_count_sent (n : Z) (v : VirtConn) : VirtConn :=
  mkVirtConn (to_client_tx v) (sp_reorder v) (sp_notify v) (sp_closed v) (sp_fin_received v)
    (sp_fin_seq v) (grace_waiting v) (sp_rst v) (sp_is_udp v) (sp_created_at v) (sp_last_active v)
    (wrap 64 (sp_bytes_sent v + n)) (sp_bytes_recv v) (wrap 64 (sp_frames_sent v + 1))
    (sp_frames_recv v).

(** ** Frames towards the client *)

(** [if try_send(chunk).is_err() { overflow = true }]. *)
Definition client_write (b : bytes) (c : chan bytes) : bool * chan bytes :=
  let '(r, c1) := try_send b c in
  (match r with Some _ => true | None => false end, c1).

(** The loop over the ready chunks: unlike the egress side it goes on after a failure. *)
Fixpoint client_write_all (ready : list bytes) (c : chan bytes) : bool * chan bytes :=
  match ready with
  | [] => (false, c)
  | b :: ready' =>
    let '(failed, c1) := client_write b c in
    let '(ov, c2) := client_write_all ready' c1 in
    (failed || ov, c2)
  end.

(** [VirtConn::on_frame]: true when the connection must be reset. *)
Definition on_frame (sq : Z) (p : bytes) (now : Z) (v : VirtConn) : bool * VirtConn :=
  let '(r, ro) := push (sp_reorder v) sq p in
  if accepted r then
    let '(ov, c) := client_write_all (ready r) (to_client_tx v) in
    (ov, touch now (sp_count_recv (zlen p) (set_client c ro v)))
  else (overflow r, set_client (to_client_tx v) ro v).

Definition fin_sweep_decision (complete : bool) (fin_idle_secs : Z) (handler_alive : bool) : bool :=
  let limit := if handler_alive then SP_TCP_IDLE_SECS else 30 in
  if fin_idle_secs >? limit then true
  else complete && (fin_idle_secs >? FIN_COMPLETE_IDLE_SECS).

(** ** Shared state *)
Record SState : Type := mkSState {
  sp_vcs : gmap nat VirtConn;
  sp_conns : gmap Z nat;
  time_wait : gmap Z Z;
  sp_pool : TunnelPool;
  sp_resets : Z;
}.

Definition splitter_init (p : TunnelPool) : SState := mkSState ∅ ∅ ∅ p 0.

Definition sp_with_pool (p : TunnelPool) (s : SState) : SState :=
  mkSState (sp_vcs s) (sp_conns s) (time_wait s) p (sp_resets s).
Definition sp_with_conns (c : gmap Z nat) (s : SState) : SState :=
  mkSState (sp_vcs s) c (time_wait s) (sp_pool s) (sp_resets s).
Definition sp_with_resets (n : Z) (s : SState) : SState :=
  mkSState (sp_vcs s) (sp_conns s) (time_wait s) (sp_pool s) n.
Definition sp_with_time_wait (m : gmap Z Z) (s : SState) : SState :=
  mkSState (sp_vcs s) (sp_conns s) m (sp_pool s) (sp_resets s).
Definition sp_upd (g : VirtConn -> VirtConn) (i : nat) (s : SState) : SState :=
  mkSState (alter g i (sp_vcs s)) (sp_conns s) (time_wait s) (sp_pool s) (sp_resets s).

Definition sp_send (f : Frame) (s : SState) : SState := sp_with_pool (send f (sp_pool s)).2 s.
Definition sp_tombstone (cid now : Z) (s : SState) : SState :=
  sp_with_time_wait (<[cid := now]> (time_wait s)) s.

Definition reset_conn (cid now : Z) (s : SState) : SState :=
  let s1 := sp_tombstone cid now s in
  let s2 := match sp_conns s1 !! cid with
            | Some i => sp_upd kill_conn i (sp_with_conns (delete cid (sp_conns s1)) s1)
            | None => s1
            end in
  let s3 := sp_send (frame_rst cid) s2 in
  sp_with_resets (wrap 64 (sp_resets s3 + 1)) s3.

(** ** Inbound frames *)
Definition inbound_data (f : Frame) (now : Z) (s : SState) : SState :=
  match sp_conns s !! conn_id f with
  | Some i =>
    match sp_vcs s !! i with
    | None => s
    | Some v =>
      if sp_is_udp v then
        match try_send (payload f) (to_client_tx v) with
        | (Some _, c) => sp_upd (fun _ => touch now (set_client c (sp_reorder v) v)) i s
        | (None, c) =>
          sp_upd (fun _ => touch now (sp_count_recv (zlen (payload f)) (set_client c (sp_reorder v) v))) i s
        end
      else
        let '(ov, v') := on_frame (seq f) (payload f) now v in
        let s1 := sp_upd (fun _ => v') i s in
        if ov then reset_conn (conn_id f) now s1 else s1
    end
  | None =>
    if decide (is_Some (time_wait s !! conn_id f)) then sp_send (frame_rst (conn_id f)) s
    else sp_send (frame_rst (conn_id f)) s
  end.

Definition inbound_fin (f : Frame) (s : SState) : SState :=
  match sp_conns s !! conn_id f with
  | Some i => sp_upd (fun v => if sp_is_udp v then v else set_sp_fin (seq f) v) i s
  | None => s
  end.

Definition handle_inbound_frame (f : Frame) (now : Z) (s : SState) : SState :=
  if has_flag f FLAG_DATA then inbound_data f now s
  else if has_flag f FLAG_FIN then inbound_fin f s
  else if has_flag f FLAG_RST then reset_conn (conn_id f) now s
  else s.

(** D1: the frames a dead tunnel had queued. *)
Definition recover_lost_sp (lost : list Frame) (now : Z) (s : SState) : SState :=
  fold_left (fun s f =>
    if negb (Z.land (flags f) (Z.lor FLAG_SYN (Z.lor FLAG_FIN FLAG_RST)) =? 0) then sp_send f s
    else if decide (is_Some (sp_conns s !! conn_id f)) then reset_conn (conn_id f) now s
    else s) lost s.

(** The reconnect delay in seconds after [retry] failures. *)
Definition reconnect_delay (retry : Z) : Z :=
  if retry =? 0 then 3 else Z.min 24 (Z.shiftl 3 (Z.min retry 3)).

(** [alloc_conn_id] over the random draws [ids]: at most 1024 are looked at. *)
Fixpoint alloc_conn_id (fuel : nat) (ids : list Z) (s : SState) : option Z :=
  match fuel, ids with
  | S fuel', id :: ids' =>
    if id =? 0 then alloc_conn_id fuel' ids' s
    else if decide (sp_conns s !! id = None /\ time_wait s !! id = None) then Some id
    else alloc_conn_id fuel' ids' s
  | _, _ => None
  end.
Definition ALLOC_TRIES : nat := 1024.

(** [conns.remove_if(&cid, |_, v| Arc::ptr_eq(v, &vconn))]. *)
Definition remove_own (cid : Z) (i : nat) (s : SState) : SState :=
  if decide (sp_conns s !! cid = Some i) then sp_with_conns (delete cid (sp_conns s)) s else s.

(** The accept loop's test before it accepts another client. *)
Definition may_accept (half_open : Z) (s : SState) : bool :=
  negb (Z.of_nat (size (sp_conns s)) + half_open >=? MAX_CONCURRENT_CONNS).

(** ** Heartbeat *)

(** What the [retain] closure decides for one connection; [strong] is the number of
    owners of the [Arc]. *)
Inductive sweep_verdict : Set := Keep | SweepOrphan | SweepKill.

Definition sweep_verdict_of (now strong : Z) (v : VirtConn) : sweep_verdict :=
  if strong <=? 1 then SweepOrphan
  else
    let idle := sat_sub now (sp_last_active v) / 1000 in
    if sp_fin_received v then
      if grace_waiting v then Keep
      else if fin_sweep_decision (is_complete_through (sp_reorder v) (sp_fin_seq v)) idle (strong >? 1)
      then SweepKill else Keep
    else if idle >? (if sp_is_udp v then SP_UDP_IDLE_SECS else SP_TCP_IDLE_SECS) then SweepKill
    else Keep.

Definition sp_sweep_conn (now : Z) (strong : nat -> Z) (s : SState) (e : Z * nat) : SState :=
  match sp_vcs s !! e.2 with
  | None => s
  | Some v =>
    let swept g := sp_with_conns (delete e.1 (sp_conns s))
                     (sp_tombstone e.1 now (sp_send (frame_rst e.1) (sp_upd g e.2 s))) in
    match sweep_verdict_of now (strong e.2) v with
    | Keep => s
    | SweepOrphan => swept set_rst
    | SweepKill => swept kill_conn
    end
  end.

Definition sp_heartbeat {D : DashIter} (now now_ms : Z) (strong : nat -> Z) (s : SState) : SState :=
  let s1 := sp_with_pool (sweep_idle now_ms LINK_IDLE_TIMEOUT_MS (compact (sp_pool s))).2 s in
  let s2 := sp_with_time_wait (filter (fun ci => sat_sub now ci.2 < TIME_WAIT_TTL) (time_wait s1)) s1 in
  sp_with_resets 0 (fold_left (sp_sweep_conn now strong) (dash_iter (sp_conns s2)) s2).

(** ** The TCP client handler *)
Inductive close_reason : Set := ReasonEof | ReasonNoTunnel | ReasonReadError | ReasonRst | ReasonTimeout.

Inductive tcp_phase : Set :=
| TcReading
| TcClosing (r : close_reason) (force_rst : bool)
| TcGrace (fin_seen_at : option Z)
| TcCleanup
| TcDone.

(** The handler's locals, and the frames the tunnels took from it. *)
Record TcpClient : Type := mkTcpClient {
  tc_cid : Z; tc_vc : nat; tc_seq : Z; tc_phase : tcp_phase; tc_sent : list Frame
}.

Definition tc_goto (ph : tcp_phase) (t : TcpClient) : TcpClient :=
  mkTcpClient (tc_cid t) (tc_vc t) (tc_seq t) ph (tc_sent t).

Context {B : BufMut}.

(** Up to the SOCKS5 reply: the reply written, the running handler if any. *)
Definition tcp_open (cid : Z) (i : nat) (target : TargetAddr) (reply : bytes) (window_bytes now : Z)
    (s : SState) : option bytes * option TcpClient * SState :=
  match syn_target_encode (mkSynTarget PROTO_TCP (t_address target) (t_port target)) with
  | Err _ => (None, None, s)
  | Ok syn =>
    let s1 := mkSState (<[i := new_virt_conn false window_bytes now]> (sp_vcs s))
                (<[cid := i]> (sp_conns s)) (time_wait s) (sp_pool s) (sp_resets s) in
    let '(ok, p) := send (frame_syn cid syn) (sp_pool s1) in
    let s2 := sp_with_pool p s1 in
    if ok then (Some reply, Some (mkTcpClient cid i 1 TcReading []), s2)
    else (Some REPLY_GENERAL_FAILURE, None, remove_own cid i s2)
  end.

(** How a [timeout(data_send_timeout, send_async(..))] ended, and the pool after it. *)
Inductive tcp_event : Type :=
| TcChunk (chunk : bytes) (sent : bool) (p : TunnelPool) (** a read of [n > 0] bytes *)
| TcEof
| TcReadErr
| TcNotified                                             (** [vconn.notify.notified()] *)
| TcFinish (fin_ok : bool) (p : TunnelPool)              (** the FIN or RST after the loop *)
| TcPoll                                                 (** one turn of the grace wait *)
| TcRemove.                                              (** TIME_WAIT and removal *)

(** One turn of the grace wait. *)
Definition grace_poll (now : Z) (seen : option Z) (v : VirtConn) : tcp_phase :=
  if sp_closed v then TcCleanup
  else if sp_fin_received v then
    if is_complete_through (sp_reorder v) (sp_fin_seq v) then TcCleanup
    else
      let since := default now seen in
      if sat_sub now since >=? CLOSE_GRACE_MAX then TcCleanup else TcGrace (Some since)
  else if sat_sub now (sp_last_active v) >=? CLOSE_QUIET_TIMEOUT then TcCleanup
  else TcGrace seen.

Definition tcp_step (e : tcp_event) (now : Z) (t : TcpClient) (s : SState)
  : option (TcpClient * SState) :=
  let cid := tc_cid t in
  match sp_vcs s !! tc_vc t with
  | None => None
  | Some v =>
    match e, tc_phase t with
    | TcChunk chunk sent p, TcReading =>
      let s1 := sp_with_pool p s in
      if sent then
        Some (mkTcpClient cid (tc_vc t) (u64_succ (tc_seq t)) TcReading
                (tc_sent t ++ [frame_data cid (tc_seq t) chunk]),
              sp_upd (fun v => touch now (sp_count_sent (zlen chunk) v)) (tc_vc t) s1)
      else Some (tc_goto (TcClosing ReasonNoTunnel true) t, s1)
    | TcEof, TcReading => Some (tc_goto (TcClosing ReasonEof false) t, s)
    | TcReadErr, TcReading => Some (tc_goto (TcClosing ReasonReadError false) t, s)
    | TcNotified, TcReading =>
      if has_permit (sp_notify v) then
        let s1 := sp_upd (fun v => set_sp_notify (notify_take (sp_notify v)) v) (tc_vc t) s in
        if sp_closed v
        then Some (tc_goto (TcClosing (if sp_rst v then ReasonRst else ReasonTimeout) false) t, s1)
        else Some (t, s1)
      else None
    | TcFinish fin_ok p, TcClosing r force_rst =>
      match r, force_rst with
      | ReasonRst, false => Some (tc_goto TcCleanup t, s)
      | _, true => Some (tc_goto TcCleanup t, sp_send (frame_rst cid) s)
      | _, false =>
        let s1 := sp_with_pool p s in
        if fin_ok then
          let t1 := mkTcpClient cid (tc_vc t) (tc_seq t) (tc_phase t)
                      (tc_sent t ++ [frame_fin cid (tc_seq t)]) in
          match r with
          | ReasonEof => Some (tc_goto (TcGrace None) t1, sp_upd set_grace (tc_vc t) s1)
          | _ => Some (tc_goto TcCleanup t1, s1)
          end
        else Some (tc_goto TcCleanup t, sp_send (frame_rst cid) s1)
      end
    | TcPoll, TcGrace seen => Some (tc_goto (grace_poll now seen v) t, s)
    | TcRemove, TcCleanup =>
      Some (tc_goto TcDone t, remove_own cid (tc_vc t) (sp_tombstone cid now s))
    | _, _ => None
    end
  end.

(** ** The UDP relay *)
Record UdpClient : Type := mkUdpClient {
  uc_cid : Z; uc_vc : nat; uc_seq : Z; uc_addr : option SocketAddr
}.

Definition udp_open (cid : Z) (i : nat) (client_addr : option SocketAddr) (reply : bytes)
    (window_bytes now : Z) (s : SState) : option bytes * option UdpClient * SState :=
  let s1 := mkSState (<[i := new_virt_conn true window_bytes now]> (sp_vcs s))
              (<[cid := i]> (sp_conns s)) (time_wait s) (sp_pool s) (sp_resets s) in
  match syn_target_encode (mkSynTarget PROTO_UDP (show_ipv4 (replicate 4 Byte.x00)) 0) with
  | Err _ => (None, None, s1)
  | Ok syn =>
    let '(ok, p) := send (frame_syn cid syn) (sp_pool s1) in
    let s2 := sp_with_pool p s1 in
    if ok then (Some reply, Some (mkUdpClient cid i 1 client_addr), s2)
    else (Some REPLY_GENERAL_FAILURE, None, sp_with_conns (delete cid (sp_conns s2)) s2)
  end.

(** [for _ in 0..3 { if pool.send(frame.clone()) .. }]. *)
Fixpoint send_tries (n : nat) (f : Frame) (p : TunnelPool) : bool * TunnelPool :=
  match n with
  | O => (false, p)
  | S n' => let '(ok, p1) := send f p in if ok then (true, p1) else send_tries n' f p1
  end.

(** A datagram of [src] arrived on the relay socket. *)
Definition udp_datagram (src : SocketAddr) (data : bytes) (now : Z) (u : UdpClient) (s : SState)
  : UdpClient * SState :=
  let accept := match uc_addr u with None => true | Some a => bool_decide (a = src) end in
  if negb accept then (u, s)
  else
    let u1 := mkUdpClient (uc_cid u) (uc_vc u) (uc_seq u) (Some src) in
    let '(sent, p) := send_tries 3 (frame_data (uc_cid u) (uc_seq u) data) (sp_pool s) in
    let s1 := sp_with_pool p s in
    if sent then
      (mkUdpClient (uc_cid u) (uc_vc u) (u64_succ (uc_seq u)) (Some src),
       sp_upd (fun v => touch now (sp_count_sent (zlen data) v)) (uc_vc u) s1)
    else (u1, s1).

(** The end of the relay loop. *)
Definition udp_finish (now : Z) (u : UdpClient) (s : SState) : SState :=
  sp_send (frame_rst (uc_cid u)) (remove_own (uc_cid u) (uc_vc u) (sp_tombstone (uc_cid u) now s)).

(** ** Events *)
Inductive SEvent : Type :=
| SvInbound (f : Frame)
| SvHeartbeat (now_ms : Z) (strong : nat -> Z)
| SvLost (lost : list Frame)
| SvTcpOpen (ids : list Z) (i : nat) (target : TargetAddr) (reply : bytes)
| SvUdpOpen (ids : list Z) (i : nat) (client_addr : option SocketAddr) (reply : bytes)
| SvTcp (t : TcpClient) (e : tcp_event)
| SvUdp (u : UdpClient) (src : SocketAddr) (data : bytes)
| SvUdpFinish (u : UdpClient).

(** One event at [now]; [ids] are the draws of the random generator. *)
Definition sstep {D : DashIter} (window_bytes : Z) (e : SEvent) (now : Z) (s : SState) : option SState :=
  match e with
  | SvInbound f => Some (handle_inbound_frame f now s)
  | SvHeartbeat now_ms strong => Some (sp_heartbeat now now_ms strong s)
  | SvLost lost => Some (recover_lost_sp lost now s)
  | SvTcpOpen ids i target reply =>
    if decide (sp_vcs s !! i = None) then
      match alloc_conn_id ALLOC_TRIES ids s with
      | Some cid => Some (tcp_open cid i target reply window_bytes now s).2
      | None => Some s
      end
    else None
  | SvUdpOpen ids i client_addr reply =>
    if decide (sp_vcs s !! i = None) then
      match alloc_conn_id ALLOC_TRIES ids s with
      | Some cid => Some (udp_open cid i client_addr reply window_bytes now s).2
      | None => Some s
      end
    else None
  | SvTcp t ev => snd <$> tcp_step ev now t s
  | SvUdp u src data => Some (udp_datagram src data now u s).2
  | SvUdpFinish u => Some (udp_finish now u s)
  end.

Fixpoint srun {D : DashIter} (window_bytes : Z) (es : list (SEvent * Z)) (s : SState) : option SState :=
  match es with
  | [] => Some s
  | (e, now) :: es' =>
    match sstep window_bytes e now s with Some s' => srun window_bytes es' s' | None => None end
  end.

(** A client handler run on its own: the events it sees, with their times; the shared
    state before each is given by the other tasks. *)
Fixpoint tcp_run (es : list (tcp_event * Z * SState)) (t : TcpClient) : option TcpClient :=
  match es with
  | [] => Some t
  | (e, now, s) :: es' =>
    match tcp_step e now t s with Some (t', _) => tcp_run es' t' | None => None end
  end.
End splitter.
