(* ===== verification/SplitterFacts.v ===== *)
(** * Correctness of the splitter

    Connection ids, the connection table, and when the heartbeat lets go of a
    connection. *)
From Stdlib Require Import ZArith Lia.
From Stdlib Require Import Strings.Byte.
From stdpp Require Import base numbers list option fin_maps gmap.
From S2P Require Import Prelude Runtime Frames Reorder Tunnel Net Socks5 Splitter.
Local Open Scope Z_scope.

Section splitter_facts.
Context {T : Tokio} {TL : TokioLaws T} {D : DashIter} {DL : DashIterLaws D}.

(** ** Connection ids *)
Lemma alloc_spec fuel ids s id :
  alloc_conn_id fuel ids s = Some id ->
  id ∈ ids /\ id <> 0 /\ sp_conns s !! id = None /\ time_wait s !! id = None.
Proof.
  revert ids. induction fuel as [|fuel IH]; intros [|x ids] H; cbn in H; try done.
  destruct (Z.eqb_spec x 0) as [->|Hx].
  { apply IH in H as (H1 & H2). split; [apply elem_of_cons; by right|done]. }
  case_decide as Hd.
  - simplify_eq. split; [apply elem_of_cons; by left|done].
  - apply IH in H as (H1 & H2). split; [apply elem_of_cons; by right|done].
Qed.

Lemma alloc_None fuel ids s :
  alloc_conn_id fuel ids s = None ->
  Forall (fun id => id = 0 \/ is_Some (sp_conns s !! id) \/ is_Some (time_wait s !! id))
    (take fuel ids).
Proof.
  revert ids. induction fuel as [|fuel IH]; intros [|x ids] H; cbn in H; cbn [take];
    try apply Forall_nil_2.
  destruct (Z.eqb_spec x 0) as [->|Hx].
  { apply Forall_cons_2; [by left|by apply IH]. }
  case_decide as Hd; [done|]. apply Forall_cons_2; [|by apply IH]. right.
  destruct (sp_conns s !! x); [left; by eexists|]. destruct (time_wait s !! x); [right; by eexists|].
  tauto.
Qed.

(** ** The connection table *)

(** Connection objects never come back: once closed or reset, always. *)
Record sp_evolve (now : Z) (s s' : SState) : Prop := {
  se_conns cid i : sp_conns s' !! cid = Some i -> sp_conns s !! cid = Some i;
  se_removed cid i : sp_conns s !! cid = Some i -> sp_conns s' !! cid = None ->
                     time_wait s' !! cid = Some now;
  se_time_wait cid t : time_wait s !! cid = Some t -> sat_sub now t < TIME_WAIT_TTL ->
                       time_wait s' !! cid = Some t \/ time_wait s' !! cid = Some now;
  se_vcs i v : sp_vcs s !! i = Some v -> exists v', sp_vcs s' !! i = Some v' /\
                 (sp_closed v = true -> sp_closed v' = true) /\
                 (sp_rst v = true -> sp_rst v' = true) /\
                 (sp_fin_received v = true -> sp_fin_received v' = true) /\
                 sp_is_udp v' = sp_is_udp v;
}.

Lemma ttl_now now : sat_sub now now < TIME_WAIT_TTL.
Proof. unfold sat_sub, TIME_WAIT_TTL. lia. Qed.

Lemma se_time_wait_now now s s' cid :
  sp_evolve now s s' -> time_wait s !! cid = Some now -> time_wait s' !! cid = Some now.
Proof. intros H Hc. by destruct (se_time_wait _ _ _ H cid now Hc (ttl_now now)). Qed.

#[export] Instance sp_evolve_preorder now : PreOrder (sp_evolve now).
Proof.
  split.
  - intros s. split; try done.
    + intros cid i H1 H2. congruence.
    + auto.
    + intros i v Hv. by exists v.
  - intros s1 s2 s3 H12 H23. destruct (H12) as [C1 R1 W1 V1], (H23) as [C2 R2 W2 V2]. split.
    + auto.
    + intros cid i Hi Hn. destruct (sp_conns s2 !! cid) as [j|] eqn:E; [by eapply R2|].
      apply (se_time_wait_now _ _ _ _ H23). by eapply R1.
    + intros cid t Ht Hl. destruct (W1 cid t Ht Hl) as [H|H]; [by apply W2|].
      right. by apply (se_time_wait_now _ _ _ _ H23).
    + intros i v Hv. destruct (V1 i v Hv) as (v2 & Hv2 & A1 & A2 & A3 & A4).
      destruct (V2 i v2 Hv2) as (v3 & Hv3 & B1 & B2 & B3 & B4).
      exists v3. split_and!; [done|auto|auto|auto|congruence].
Qed.

Lemma sp_evolve_frame now s s' :
  sp_vcs s' = sp_vcs s -> sp_conns s' = sp_conns s ->
  (forall cid t, time_wait s !! cid = Some t -> sat_sub now t < TIME_WAIT_TTL ->
     time_wait s' !! cid = Some t \/ time_wait s' !! cid = Some now) ->
  sp_evolve now s s'.
Proof.
  intros Ev Ec Et. split; rewrite ?Ev, ?Ec; try done.
  - intros cid i H1 H2. congruence.
  - intros i v Hv. by exists v.
Qed.

Lemma sp_evolve_send now f s : sp_evolve now s (sp_send f s).
Proof. apply sp_evolve_frame; auto. Qed.

Lemma sp_evolve_tombstone now cid s : sp_evolve now s (sp_tombstone cid now s).
Proof.
  apply sp_evolve_frame; try done. intros c t Hc _. cbn.
  destruct (decide (c = cid)) as [->|]; [right; by rewrite lookup_insert_eq|].
  left. by rewrite lookup_insert_ne.
Qed.

(** Changes of one connection that keep its flags. *)
Definition keeps_flags (g : VirtConn -> VirtConn) : Prop := forall v,
  (sp_closed v = true -> sp_closed (g v) = true) /\ (sp_rst v = true -> sp_rst (g v) = true) /\
  (sp_fin_received v = true -> sp_fin_received (g v) = true) /\ sp_is_udp (g v) = sp_is_udp v.

Lemma sp_evolve_upd now g i s : keeps_flags g -> sp_evolve now s (sp_upd g i s).
Proof.
  intros Hg. split; try done.
  - intros cid j H1 H2. cbn in H2. congruence.
  - auto.
  - intros j v Hv. cbn. destruct (decide (j = i)) as [->|].
    + rewrite lookup_alter_eq, Hv. exists (g v). split; [done|apply Hg].
    + rewrite lookup_alter_ne by done. by exists v.
Qed.

Lemma sp_evolve_upd_at now v' i v s :
  sp_vcs s !! i = Some v -> sp_closed v' = sp_closed v -> sp_rst v' = sp_rst v ->
  sp_fin_received v' = sp_fin_received v -> sp_is_udp v' = sp_is_udp v ->
  sp_evolve now s (sp_upd (fun _ => v') i s).
Proof.
  intros Hv E1 E2 E3 E4. split; try done.
  - intros cid j H1 H2. cbn in H2. congruence.
  - auto.
  - intros j w Hw. cbn. destruct (decide (j = i)) as [->|].
    + rewrite lookup_alter_eq, Hw. exists v'. simplify_eq. rewrite E1, E2, E3. done.
    + rewrite lookup_alter_ne by done. by exists w.
Qed.

Lemma sp_evolve_delete now cid s :
  time_wait s !! cid = Some now -> sp_evolve now s (sp_with_conns (delete cid (sp_conns s)) s).
Proof.
  intros Hc. split; try done; cbn.
  - intros c j [_ Hj]%lookup_delete_Some. done.
  - intros c j H1 [->|H2]%lookup_delete_None; [done|congruence].
  - auto.
  - intros j v Hv. by exists v.
Qed.

Lemma kill_keeps : keeps_flags kill_conn.
Proof. by intros v. Qed.

Lemma sp_evolve_reset now cid s : sp_evolve now s (reset_conn cid now s).
Proof.
  unfold reset_conn. set (s1 := sp_tombstone cid now s). cbv zeta.
  set (s2 := match sp_conns s1 !! cid with Some i => _ | None => s1 end).
  assert (sp_evolve now s s2) as H; [|etrans; [exact H|apply sp_evolve_frame; auto]].
  etrans; [apply (sp_evolve_tombstone now cid)|]. fold s1. unfold s2.
  destruct (sp_conns s1 !! cid) as [i|]; [|reflexivity].
  etrans; [apply (sp_evolve_delete now cid s1); cbn; apply lookup_insert_eq|].
  apply sp_evolve_upd, kill_keeps.
Qed.

Lemma on_frame_view sq p now v o v' :
  on_frame sq p now v = (o, v') ->
  sp_closed v' = sp_closed v /\ sp_rst v' = sp_rst v /\
  sp_fin_received v' = sp_fin_received v /\ sp_is_udp v' = sp_is_udp v /\
  sp_fin_seq v' = sp_fin_seq v /\ sp_reorder v' = (push (sp_reorder v) sq p).2.
Proof.
  unfold on_frame. destruct (push _ _ _) as [r ro].
  destruct (accepted r); [destruct (client_write_all _ _)|]; intros ?; by simplify_eq.
Qed.

Lemma sp_evolve_inbound f now s : sp_evolve now s (handle_inbound_frame f now s).
Proof.
  unfold handle_inbound_frame. destruct (has_flag f FLAG_DATA).
  { unfold inbound_data. destruct (sp_conns s !! conn_id f) as [i|].
    - destruct (sp_vcs s !! i) as [v|] eqn:Hv; [|reflexivity]. destruct (sp_is_udp v).
      + destruct (try_send _ _) as [[e|] c]; by eapply sp_evolve_upd_at.
      + destruct (on_frame _ _ _ v) as [ov v'] eqn:Eo.
        apply on_frame_view in Eo as (E1 & E2 & E3 & E4 & _).
        assert (sp_evolve now s (sp_upd (fun _ => v') i s)) as H by by eapply sp_evolve_upd_at.
        destruct ov; [|done]. etrans; [exact H|apply sp_evolve_reset].
    - case_decide; apply sp_evolve_send. }
  destruct (has_flag f FLAG_FIN).
  { unfold inbound_fin. destruct (sp_conns s !! conn_id f) as [i|]; [|reflexivity].
    apply sp_evolve_upd. intros v. by destruct (sp_is_udp v) eqn:E. }
  destruct (has_flag f FLAG_RST); [apply sp_evolve_reset|reflexivity].
Qed.
(** ** Heartbeat *)
Definition verdict_at (now : Z) (strong : nat -> Z) (s : SState) (i : nat) : sweep_verdict :=
  match sp_vcs s !! i with Some v => sweep_verdict_of now (strong i) v | None => Keep end.

Lemma sweep_conn_cases now strong s cid i :
  (verdict_at now strong s i = Keep /\ sp_sweep_conn now strong s (cid, i) = s) \/
  (verdict_at now strong s i <> Keep /\ exists g, keeps_flags g /\
     (verdict_at now strong s i = SweepKill -> g = kill_conn) /\
     sp_sweep_conn now strong s (cid, i) =
       sp_with_conns (delete cid (sp_conns s))
         (sp_tombstone cid now (sp_send (frame_rst cid) (sp_upd g i s)))).
Proof.
  unfold verdict_at, sp_sweep_conn. cbn [fst snd].
  destruct (sp_vcs s !! i) as [v|]; [|by left].
  destruct (sweep_verdict_of now (strong i) v); [by left|right; split; [done|]..].
  - exists set_rst. split; [by intros w|]. done.
  - exists kill_conn. split; [apply kill_keeps|]. done.
Qed.

(** The sweep of one connection concerns no other. *)
Lemma sweep_conn_other now strong s cid i :
  let s' := sp_sweep_conn now strong s (cid, i) in
  (forall c, c <> cid -> sp_conns s' !! c = sp_conns s !! c) /\
  (forall j, j <> i -> sp_vcs s' !! j = sp_vcs s !! j) /\
  (forall c, time_wait s !! c = Some now -> time_wait s' !! c = Some now).
Proof.
  cbv zeta. destruct (sweep_conn_cases now strong s cid i) as [[_ ->]|(_ & g & _ & _ & ->)]; [done|].
  cbn. split_and!.
  - intros c Hc. by rewrite lookup_delete_ne.
  - intros j Hj. by rewrite lookup_alter_ne.
  - intros c Hc. destruct (decide (c = cid)) as [->|]; [by rewrite lookup_insert_eq|].
    by rewrite lookup_insert_ne.
Qed.

Lemma sweep_fold_spec now strong l s :
  NoDup l.*1 -> NoDup l.*2 ->
  let s' := fold_left (sp_sweep_conn now strong) l s in
  (forall c, c ∉ l.*1 -> sp_conns s' !! c = sp_conns s !! c) /\
  (forall j, j ∉ l.*2 -> sp_vcs s' !! j = sp_vcs s !! j) /\
  (forall c, time_wait s !! c = Some now -> time_wait s' !! c = Some now) /\
  forall c i, (c, i) ∈ l -> sp_conns s !! c = Some i ->
    match verdict_at now strong s i with
    | Keep => sp_conns s' !! c = Some i /\ sp_vcs s' !! i = sp_vcs s !! i
    | SweepOrphan => sp_conns s' !! c = None /\ time_wait s' !! c = Some now
    | SweepKill => sp_conns s' !! c = None /\ time_wait s' !! c = Some now /\
                   sp_vcs s' !! i = kill_conn <$> sp_vcs s !! i
    end.
Proof.
  revert s. induction l as [|[c0 i0] l IH]; intros s Hc Hi; cbn [fold_left].
  { cbv zeta. split_and!; try done. intros c i H. by apply elem_of_nil in H. }
  apply NoDup_cons in Hc as [Hc0 Hc]. apply NoDup_cons in Hi as [Hi0 Hi]. cbn [fst snd] in Hc0, Hi0.
  destruct (sweep_conn_other now strong s c0 i0) as (O1 & O2 & O3).
  pose proof (sweep_conn_cases now strong s c0 i0) as Hcase.
  set (s1 := sp_sweep_conn now strong s (c0, i0)) in *. cbv zeta in IH |- *.
  destruct (IH s1 Hc Hi) as (I1 & I2 & I3 & I4).
  set (s' := fold_left _ l s1) in *. split_and!.
  - intros c [Hn Hl]%not_elem_of_cons. by rewrite I1, O1.
  - intros j [Hn Hl]%not_elem_of_cons. by rewrite I2, O2.
  - intros c H. by apply I3, O3.
  - intros c i [[= -> ->]|Hin]%elem_of_cons Hs.
    + rewrite I1, I2 by done. destruct Hcase as [[-> ->]|(Hv & g & _ & Hg & E)]; [done|].
      assert (sp_conns s1 !! c0 = None) as Hn by (rewrite E; cbn; apply lookup_delete_eq).
      assert (time_wait s' !! c0 = Some now) as Ht.
      { apply I3. rewrite E. cbn. apply lookup_insert_eq. }
      destruct (verdict_at now strong s i0); [done|done|]. split_and!; [done|done|].
      rewrite E, (Hg eq_refl). cbn. apply lookup_alter_eq.
    + assert (c <> c0) as Hne by (intros ->; apply Hc0; by apply (list_elem_of_fmap_2 fst _ (c0, i))).
      assert (i <> i0) as Hni by (intros ->; apply Hi0; by apply (list_elem_of_fmap_2 snd _ (c, i0))).
      specialize (I4 c i Hin). rewrite O1 in I4 by done. specialize (I4 Hs).
      unfold verdict_at in I4 |- *. rewrite O2 in I4 by done. exact I4.
Qed.

Lemma sweep_verdict_spec now strong v :
  let idle := sat_sub now (sp_last_active v) / 1000 in
  let complete := is_complete_through (sp_reorder v) (sp_fin_seq v) in
  sweep_verdict_of now strong v = SweepKill <->
  1 < strong /\
  (if sp_fin_received v
   then grace_waiting v = false /\ (300 < idle \/ complete = true /\ 30 < idle)
   else (if sp_is_udp v then 60 else 300) < idle).
Proof.
  cbv zeta. unfold sweep_verdict_of, fin_sweep_decision, SP_TCP_IDLE_SECS, SP_UDP_IDLE_SECS,
    FIN_COMPLETE_IDLE_SECS.
  destruct (Z.leb_spec strong 1); [split; [done|lia]|].
  replace (strong >? 1) with true by (symmetry; zbool; lia).
  set (idle := sat_sub now (sp_last_active v) / 1000).
  destruct (sp_fin_received v).
  - destruct (grace_waiting v); [split; [done|by intros (_ & ? & _)]|].
    destruct (Z.ltb_spec 300 idle); rewrite Z.gtb_ltb;
      [rewrite (proj2 (Z.ltb_lt _ _)) by done; split; [lia|done]|].
    rewrite (proj2 (Z.ltb_ge _ _)) by done.
    destruct (is_complete_through _ _); cbn; rewrite ?Z.gtb_ltb;
      [destruct (Z.ltb_spec 30 idle)|]; split; try done; try lia.
    all: intros (_ & _ & [?|[? ?]]); lia || done.
  - rewrite Z.gtb_ltb. destruct (sp_is_udp v); [destruct (Z.ltb_spec 60 idle)|destruct (Z.ltb_spec 300 idle)];
      split; try done; lia.
Qed.
(** ** Every event *)
Context {B : BufMut}.

Lemma sp_evolve_remove_own now cid i s :
  sp_evolve now s (remove_own cid i (sp_tombstone cid now s)).
Proof.
  etrans; [apply (sp_evolve_tombstone now cid)|]. unfold remove_own.
  case_decide; [|reflexivity]. apply sp_evolve_delete. cbn. apply lookup_insert_eq.
Qed.

Lemma sp_evolve_pool now p s : sp_evolve now s (sp_with_pool p s).
Proof. apply sp_evolve_frame; auto. Qed.

Lemma sp_evolve_tcp e now t s t' s' :
  tcp_step e now t s = Some (t', s') -> sp_evolve now s s'.
Proof.
  intros H. unfold tcp_step in H. destruct (sp_vcs s !! tc_vc t) as [v|]; [|done].
  destruct e as [chunk sent p| | | |ok p| |], (tc_phase t) as [|r fr|seen| |]; try done.
  - destruct sent; simplify_eq; [|apply sp_evolve_pool].
    etrans; [apply (sp_evolve_pool now p)|]. by apply sp_evolve_upd.
  - by simplify_eq.
  - by simplify_eq.
  - destruct (has_permit _); [|done].
    assert (sp_evolve now s (sp_upd (fun v => set_sp_notify (notify_take (sp_notify v)) v) (tc_vc t) s))
      by by apply sp_evolve_upd.
    destruct (sp_closed v); by simplify_eq.
  - destruct r, fr; try destruct ok; simplify_eq; try reflexivity;
      try apply sp_evolve_send; try apply sp_evolve_pool;
      (etrans; [apply (sp_evolve_pool now p)|]); try apply sp_evolve_send.
    by apply sp_evolve_upd.
  - by simplify_eq.
  - simplify_eq. apply sp_evolve_remove_own.
Qed.

Lemma sp_evolve_heartbeat now now_ms strong s : sp_evolve now s (sp_heartbeat now now_ms strong s).
Proof.
  unfold sp_heartbeat. cbv zeta. set (s1 := sp_with_pool _ s).
  assert (sp_evolve now s s1) as H1 by apply sp_evolve_pool.
  set (s2 := sp_with_time_wait _ s1).
  assert (sp_evolve now s1 s2) as H2.
  { apply sp_evolve_frame; try done. intros c t Hc Hl. left.
    by apply map_lookup_filter_Some. }
  set (s3 := fold_left _ _ s2).
  assert (sp_evolve now s2 s3) as H3.
  { unfold s3. generalize (dash_iter (sp_conns s2)) as l. intros l. generalize s2. clear.
    induction l as [|[c i] l IH]; intros s; cbn [fold_left]; [reflexivity|].
    etrans; [|apply IH].
    destruct (sweep_conn_cases now strong s c i) as [[_ ->]|(_ & g & Hg & _ & ->)]; [reflexivity|].
    etrans; [by apply (sp_evolve_upd now g i)|].
    etrans; [apply (sp_evolve_send now (frame_rst c))|].
    etrans; [apply (sp_evolve_tombstone now c)|].
    apply (sp_evolve_delete now c (sp_tombstone c now (sp_send (frame_rst c) (sp_upd g i s)))).
    cbn. apply lookup_insert_eq. }
  etrans; [exact H1|]. etrans; [exact H2|]. etrans; [exact H3|]. apply sp_evolve_frame; auto.
Qed.

Lemma sp_evolve_lost lost now s : sp_evolve now s (recover_lost_sp lost now s).
Proof.
  unfold recover_lost_sp. revert s. induction lost as [|f lost IH]; intros s; cbn [fold_left]; [reflexivity|].
  etrans; [|apply IH]. destruct (negb _); [apply sp_evolve_send|].
  case_decide; [apply sp_evolve_reset|reflexivity].
Qed.

Lemma sp_evolve_udp src data now u s : sp_evolve now s (udp_datagram src data now u s).2.
Proof.
  unfold udp_datagram. destruct (negb _); [reflexivity|].
  destruct (send_tries 3 _ _) as [[] p]; cbn; [|apply sp_evolve_pool].
  etrans; [apply (sp_evolve_pool now p)|]. by apply sp_evolve_upd.
Qed.

(** A new handler touches only its own, fresh, id. *)
Lemma open_other window_bytes now s s' cid i (udp : bool) target addr reply :
  s' = (if udp then (udp_open cid i addr reply window_bytes now s).2
        else (tcp_open cid i target reply window_bytes now s).2) ->
  sp_conns s !! cid = None ->
  (forall c, c <> cid -> sp_conns s' !! c = sp_conns s !! c) /\
  (sp_conns s' !! cid = None \/ sp_conns s' !! cid = Some i) /\ time_wait s' = time_wait s.
Proof.
  intros -> Hn.
  assert (Hins : forall c, c <> cid -> (<[cid := i]> (sp_conns s)) !! c = sp_conns s !! c).
  { intros c Hc. by rewrite lookup_insert_ne. }
  assert (Hdel : forall c, c <> cid -> delete cid (<[cid := i]> (sp_conns s)) !! c = sp_conns s !! c).
  { intros c Hc. by rewrite lookup_delete_ne, lookup_insert_ne. }
  assert (Hnew : <[cid := i]> (sp_conns s) !! cid = Some i) by apply lookup_insert_eq.
  destruct udp; [unfold udp_open|unfold tcp_open]; (destruct (syn_target_encode _) as [syn|];
    [destruct (send _ _) as [[] p]|]); cbn; split_and!; auto.
  - left. apply lookup_delete_eq.
  - unfold remove_own. cbn. rewrite decide_True by done. exact Hdel.
  - unfold remove_own. cbn. rewrite decide_True by done. left. apply lookup_delete_eq.
  - unfold remove_own. cbn. by rewrite decide_True.
Qed.

(** What one event does to an id: TIME_WAIT marks survive, a removal leaves one. *)
(** What a step does to the ids: fresh marks stay, an id that leaves the table is marked,
    and only an unmarked one enters it. *)
Record ids_step (now : Z) (s s' : SState) : Prop := {
  is_marks cid t : time_wait s !! cid = Some t -> sat_sub now t < TIME_WAIT_TTL ->
    time_wait s' !! cid = Some t \/ time_wait s' !! cid = Some now;
  is_leaves cid i : sp_conns s !! cid = Some i -> sp_conns s' !! cid = None -> time_wait s' !! cid = Some now;
  is_enters cid i : sp_conns s !! cid = None -> sp_conns s' !! cid = Some i -> time_wait s !! cid = None;
}.

Lemma ids_evolve now s s' : sp_evolve now s s' -> ids_step now s s'.
Proof. intros [C R W V]. split; [done|done|]. intros cid i H1 H2. apply C in H2. congruence. Qed.

Lemma ids_open window_bytes now s s' cid i (udp : bool) target addr reply :
  sp_conns s !! cid = None -> time_wait s !! cid = None ->
  s' = (if udp then (udp_open cid i addr reply window_bytes now s).2
        else (tcp_open cid i target reply window_bytes now s).2) ->
  ids_step now s s'.
Proof.
  intros Hn Ht He. destruct (open_other _ _ _ _ _ _ _ _ _ _ He Hn) as (H1 & H2 & E). split; rewrite ?E.
  - auto.
  - intros c j Hc Hc'. destruct (decide (c = cid)) as [->|]; [congruence|].
    rewrite H1 in Hc' by done. congruence.
  - intros c j Hc Hc'. destruct (decide (c = cid)) as [->|]; [done|].
    rewrite H1 in Hc' by done. congruence.
Qed.

Lemma sstep_ids window_bytes e now s s' : sstep window_bytes e now s = Some s' -> ids_step now s s'.
Proof.
  intros Hs. destruct e as [f|now_ms strong|lost|ids i target reply|ids i addr reply|t ev|u src data|u];
    unfold sstep in Hs.
  - simplify_eq. apply ids_evolve, sp_evolve_inbound.
  - simplify_eq. apply ids_evolve, sp_evolve_heartbeat.
  - simplify_eq. apply ids_evolve, sp_evolve_lost.
  - case_decide; [|done]. destruct (alloc_conn_id _ _ _) as [cid|] eqn:Ea;
      [|injection Hs as <-; apply ids_evolve; reflexivity].
    apply alloc_spec in Ea as (_ & _ & Hn & Ht). injection Hs as <-.
    by apply (ids_open window_bytes now _ _ cid i false target None reply).
  - case_decide; [|done]. destruct (alloc_conn_id _ _ _) as [cid|] eqn:Ea;
      [|injection Hs as <-; apply ids_evolve; reflexivity].
    apply alloc_spec in Ea as (_ & _ & Hn & Ht). injection Hs as <-.
    by apply (ids_open window_bytes now _ _ cid i true (mkTargetAddr [] 0) addr reply).
  - destruct (tcp_step _ _ _ _) as [[t' s1]|] eqn:Et; [|done]. injection Hs as <-.
    apply ids_evolve. by eapply sp_evolve_tcp.
  - simplify_eq. apply ids_evolve, sp_evolve_udp.
  - simplify_eq. apply ids_evolve. unfold udp_finish.
    etrans; [apply (sp_evolve_remove_own now (uc_cid u) (uc_vc u))|apply sp_evolve_send].
Qed.

(** [cid] was released no earlier than [t]. *)
Definition released_since (t cid : Z) (s : SState) : Prop :=
  sp_conns s !! cid = None /\ exists t', time_wait s !! cid = Some t' /\ t <= t'.

Lemma released_step window_bytes e now s s' t cid :
  sstep window_bytes e now s = Some s' -> t <= now < t + TIME_WAIT_TTL ->
  released_since t cid s -> released_since t cid s'.
Proof.
  intros Hs Hn [Hc (t' & Ht & Hle)]. destruct (sstep_ids _ _ _ _ _ Hs) as [H1 _ H3].
  split.
  - apply eq_None_not_Some. intros [i Hi]. specialize (H3 cid i Hc Hi). congruence.
  - destruct (H1 cid t' Ht) as [?|?]; [unfold sat_sub, TIME_WAIT_TTL in *; lia|eauto|].
    exists now. split; [done|lia].
Qed.

(** C14: connection ids are not recycled while frames of their previous life may still be
    under way.  Whatever step takes an id out of the connection table leaves a
    TIME_WAIT mark at that moment, and during the next 60 s, whatever happens, the id
    stays out of the table and [alloc_conn_id] does not return it, for any random
    draws; an id it returns was drawn, is not 0, not in use and not in TIME_WAIT. *)
Theorem conn_ids_protected window_bytes s e now s1 es s2 cid i :
  sstep window_bytes e now s = Some s1 ->
  sp_conns s !! cid = Some i -> sp_conns s1 !! cid = None ->
  srun window_bytes es s1 = Some s2 ->
  Forall (fun x => now <= x.2 < now + TIME_WAIT_TTL) es ->
  time_wait s1 !! cid = Some now /\ sp_conns s2 !! cid = None /\
  forall ids id, alloc_conn_id ALLOC_TRIES ids s2 = Some id ->
    id <> cid /\ id ∈ ids /\ id <> 0 /\ sp_conns s2 !! id = None /\ time_wait s2 !! id = None.
Proof.
  intros Hs Hc Hn Hr Hes. destruct (sstep_ids _ _ _ _ _ Hs) as [_ Hrem _].
  specialize (Hrem cid i Hc Hn).
  assert (Hrel : released_since now cid s2).
  { assert (released_since now cid s1) as H1 by (split; [done|exists now; split; [done|lia]]).
    clear Hs Hn Hrem. revert s1 Hr H1.
    induction Hes as [|[e1 t1] es Ht Hes IH]; intros s1 Hr H1; cbn [srun] in Hr.
    - by injection Hr as <-.
    - destruct (sstep window_bytes e1 t1 s1) as [s3|] eqn:E; [|done].
      apply (IH s3 Hr). by apply (released_step _ _ _ _ _ _ _ E). }
  destruct Hrel as [Hc2 (t' & Ht' & _)]. split_and!; [done|done|].
  intros ids id Ha. apply alloc_spec in Ha as (H1 & H2 & H3 & H4). split_and!; try done.
  intros ->. congruence.
Qed.

Lemma sp_heartbeat_unfold now now_ms strong s :
  exists s2, sp_vcs s2 = sp_vcs s /\ sp_conns s2 = sp_conns s /\
    sp_heartbeat now now_ms strong s =
      sp_with_resets 0 (fold_left (sp_sweep_conn now strong) (dash_iter (sp_conns s)) s2).
Proof. unfold sp_heartbeat. cbv zeta. eexists. split; [|split]; [| |reflexivity]; done. Qed.

Lemma sweep_orphan_spec now strong v :
  sweep_verdict_of now strong v = SweepOrphan <-> strong <= 1.
Proof.
  unfold sweep_verdict_of. destruct (Z.leb_spec strong 1); [done|].
  split; [|lia]. destruct (sp_fin_received v); [destruct (grace_waiting v)|];
    try destruct (fin_sweep_decision _ _ _); try destruct (_ >? _); done.
Qed.

Lemma conns_nodup (m : gmap Z nat) :
  (forall c1 c2 j, m !! c1 = Some j -> m !! c2 = Some j -> c1 = c2) ->
  NoDup (dash_iter m).*2.
Proof.
  intros Hinj. rewrite dash_iter_perm. apply NoDup_fmap_2_strong; [|apply NoDup_map_to_list].
  intros [c1 j1] [c2 j2] H1 H2 E. cbn in E. subst j2.
  apply elem_of_map_to_list in H1, H2. by rewrite (Hinj c1 c2 j1).
Qed.

(** C21: the heartbeat's sweep.  It reclaims exactly: connections whose handler is gone;
    connections with a remote FIN outside the grace wait that were silent for more
    than 300 s, or for more than 30 s with the response complete; and other
    connections silent for more than 300 s (60 s for UDP).  A reclaimed id leaves the
    table with a TIME_WAIT mark and its handler is told; every other connection is
    left alone. *)
Theorem sp_heartbeat_spec now now_ms strong s cid i v :
  (forall c1 c2 j, sp_conns s !! c1 = Some j -> sp_conns s !! c2 = Some j -> c1 = c2) ->
  sp_conns s !! cid = Some i -> sp_vcs s !! i = Some v ->
  let s' := sp_heartbeat now now_ms strong s in
  let idle := sat_sub now (sp_last_active v) / 1000 in
  let stale := if sp_fin_received v
               then grace_waiting v = false /\
                    (300 < idle \/
                     is_complete_through (sp_reorder v) (sp_fin_seq v) = true /\ 30 < idle)
               else (if sp_is_udp v then 60 else 300) < idle in
  (strong i <= 1 -> sp_conns s' !! cid = None /\ time_wait s' !! cid = Some now) /\
  (1 < strong i -> stale ->
     sp_conns s' !! cid = None /\ time_wait s' !! cid = Some now /\
     sp_vcs s' !! i = Some (kill_conn v)) /\
  (1 < strong i -> ~ stale -> sp_conns s' !! cid = Some i /\ sp_vcs s' !! i = Some v).
Proof.
  intros Hinj Hc Hv. cbv zeta.
  destruct (sp_heartbeat_unfold now now_ms strong s) as (s2 & Ev & Ec & ->). cbn.
  destruct (sweep_fold_spec now strong (dash_iter (sp_conns s)) s2) as (_ & _ & _ & H).
  { rewrite dash_iter_perm. apply NoDup_fst_map_to_list. }
  { by apply conns_nodup. }
  rewrite <- Ec in Hc. specialize (H cid i).
  rewrite <- Ec, elem_of_dash_iter in H. specialize (H Hc Hc).
  unfold verdict_at in H. rewrite Ev, Hv in H. cbn [fmap option_fmap option_map] in H.
  pose proof (sweep_verdict_spec now (strong i) v) as Hk. cbv zeta in Hk.
  pose proof (sweep_orphan_spec now (strong i) v) as Ho. rewrite <- Ec.
  set (stale := if sp_fin_received v then _ else _) in *.
  destruct (sweep_verdict_of now (strong i) v) eqn:Everd; split_and!; intros Hle;
    try (intros Hst); try (apply Ho in Hle; discriminate Hle);
    try (discriminate (proj2 Hk (conj Hle Hst))); try (pose proof (proj1 Ho eq_refl); lia);
    try (destruct (Hst (proj2 (proj1 Hk eq_refl)))); try done.
Qed.
End splitter_facts.

(** ** Witnesses *)
#[local] Existing Instance RefTokio.
#[local] Existing Instance RefBufMut.
#[local] Existing Instance RefDashIter.

(** Connection 9, the handler's at 0 of the store, since time 0. *)
Definition demo_split : SState :=
  mkSState {[0%nat := new_virt_conn false 65536 0]} {[9 := 0%nat]} ∅ (pool_add 0 (new_link 0) pool_new) 0.
Definition demo_reset : SState := handle_inbound_frame (frame_rst 9) 100 demo_split.

Lemma conn_ids_protected_witness :
  time_wait demo_reset !! 9 = Some 100 /\
  alloc_conn_id ALLOC_TRIES [9; 12] demo_reset = Some 12 /\ 12 <> 9.
Proof.
  destruct (conn_ids_protected 65536 demo_split (SvInbound (frame_rst 9)) 100 demo_reset
    [(SvHeartbeat 200 (fun _ => 2), 200)] (sp_heartbeat 200 200 (fun _ => 2) demo_reset) 9 0)
    as (H1 & _ & H2).
  - reflexivity.
  - reflexivity.
  - vm_compute. reflexivity.
  - reflexivity.
  - repeat constructor; zcompute.
  - split; [exact H1|]. split; [vm_compute; reflexivity|].
    apply (H2 [9; 12] 12). vm_compute. reflexivity.
Defined.

(** A minute and a half is not enough to sweep it, five minutes and one second are. *)
Lemma sp_heartbeat_spec_witness :
  sp_conns (sp_heartbeat 90000 90000 (fun _ => 2) demo_split) !! 9 = Some 0%nat /\
  sp_conns (sp_heartbeat 301000 301000 (fun _ => 2) demo_split) !! 9 = None.
Proof.
  assert (forall c1 c2 j, sp_conns demo_split !! c1 = Some j -> sp_conns demo_split !! c2 = Some j ->
    c1 = c2) as Hinj.
  { intros c1 c2 j H1 H2. cbn [demo_split sp_conns] in H1, H2.
    apply lookup_singleton_Some in H1 as [<- _], H2 as [<- _]. done. }
  split.
  - apply (sp_heartbeat_spec 90000 90000 (fun _ => 2) demo_split 9 0 (new_virt_conn false 65536 0) Hinj).
    + reflexivity.
    + reflexivity.
    + lia.
    + zcompute.
  - apply (sp_heartbeat_spec 301000 301000 (fun _ => 2) demo_split 9 0 (new_virt_conn false 65536 0) Hinj).
    + reflexivity.
    + reflexivity.
    + lia.
    + zcompute.
Defined.
