(* ===== verification/SplitterTcp.v ===== *)
(** * What a TCP client handler of the splitter sends, and how it ends

    The frames a handler gives to the tunnels, when the grace wait after its FIN ends,
    and what can reach the client when a write to its channel fails. *)
From Stdlib Require Import ZArith Lia.
From Stdlib Require Import Strings.Byte Sorting.Sorted.
From stdpp Require Import base numbers list option fin_maps gmap.
From S2P Require Import Prelude Runtime Frames Reorder Tunnel Net Socks5 Splitter.
Local Open Scope Z_scope.

Section splitter_tcp.
Context {T : Tokio} {TL : TokioLaws T}.

(** ** The frames of a client handler *)
Definition tcp_input : Type := tcp_event * Z * SState.

(** The bytes a turn read from the client, and those a tunnel took. *)
Definition read_chunk (x : tcp_input) : option bytes :=
  match x.1.1 with TcChunk c _ _ => Some c | _ => None end.
Definition sent_chunk (x : tcp_input) : option bytes :=
  match x.1.1 with TcChunk c true _ => Some c | _ => None end.

(** DATA frames numbered from 1. *)
Definition data_frames (cid : Z) (cs : list bytes) : list Frame :=
  imap (fun k c => frame_data cid (wrap 64 (1 + Z.of_nat k)) c) cs.

Definition fin_frames (cid : Z) (fin : bool) (cs : list bytes) : list Frame :=
  if fin then [frame_fin cid (wrap 64 (1 + zlen cs))] else [].

(** A handler as [handle_tcp_client] starts it. *)
Definition client_start (cid : Z) (i : nat) : TcpClient := mkTcpClient cid i 1 TcReading [].

Lemma data_frames_snoc cid cs c :
  data_frames cid (cs ++ [c]) = data_frames cid cs ++ [frame_data cid (wrap 64 (1 + zlen cs)) c].
Proof.
  unfold data_frames. rewrite imap_app. cbn. unfold zlen. by rewrite Nat.add_0_r.
Qed.

Lemma u64_succ_wrap z : u64_succ (wrap 64 z) = wrap 64 (z + 1).
Proof. unfold u64_succ, wrap. by rewrite Zplus_mod_idemp_l. Qed.

Lemma tcp_run_snoc es x t :
  tcp_run (es ++ [x]) t =
    match tcp_run es t with
    | Some t1 => match tcp_step x.1.1 x.1.2 t1 x.2 with Some (t2, _) => Some t2 | None => None end
    | None => None
    end.
Proof.
  revert t. induction es as [|[[e now] s] es IH]; intros t; cbn [app tcp_run].
  - destruct x as [[e now] s]. cbn. by destruct (tcp_step e now t s) as [[??]|].
  - destruct (tcp_step e now t s) as [[t1 ?]|]; [apply IH|done].
Qed.

(** What holds of a handler after the turns [es]. *)
Record client_inv (cid : Z) (i : nat) (es : list tcp_input) (t : TcpClient) (fin : bool)
    (lost : list bytes) : Prop := {
  ci_cid : tc_cid t = cid;
  ci_vc : tc_vc t = i;
  ci_seq : tc_seq t = wrap 64 (1 + zlen (omap sent_chunk es));
  ci_sent : tc_sent t = data_frames cid (omap sent_chunk es) ++ fin_frames cid fin (omap sent_chunk es);
  ci_read : omap read_chunk es = omap sent_chunk es ++ lost;
  ci_lost : (length lost <= 1)%nat;
  ci_fin : fin = true -> lost = [];
  ci_phase : match tc_phase t with
             | TcReading => fin = false /\ lost = []
             | TcClosing _ force => fin = false /\ (force = false -> lost = [])
             | TcGrace _ => fin = true
             | TcCleanup | TcDone => True
             end;
}.

Lemma client_inv_start cid i : client_inv cid i [] (client_start cid i) false [].
Proof. constructor; try done; cbn; lia. Qed.

Lemma omap_snoc_none {A C} (f : A -> option C) (l : list A) x :
  f x = None -> omap f (l ++ [x]) = omap f l.
Proof. intros H. rewrite omap_app. cbn. rewrite H. apply app_nil_r. Qed.
Lemma omap_snoc_some {A C} (f : A -> option C) (l : list A) x y :
  f x = Some y -> omap f (l ++ [x]) = omap f l ++ [y].
Proof. intros H. rewrite omap_app. cbn. by rewrite H. Qed.

(** A turn that reads nothing keeps the numbers and the frames. *)
Lemma client_inv_quiet cid i es x t ph fin lost :
  read_chunk x = None -> client_inv cid i es t fin lost ->
  match ph with
  | TcReading => fin = false /\ lost = []
  | TcClosing _ force => fin = false /\ (force = false -> lost = [])
  | TcGrace _ => fin = true
  | TcCleanup | TcDone => True
  end ->
  client_inv cid i (es ++ [x]) (tc_goto ph t) fin lost.
Proof.
  intros Hr [H1 H2 H3 H4 H5 H6 H7 _] Hph.
  assert (sent_chunk x = None) as Hs.
  { revert Hr. unfold read_chunk, sent_chunk. by destruct x.1.1. }
  constructor; rewrite ?(omap_snoc_none _ _ _ Hs), ?(omap_snoc_none _ _ _ Hr); done.
Qed.

(** A chunk a tunnel took, or none did. *)
Lemma client_inv_chunk cid i es t c (sent : bool) p now s :
  client_inv cid i es t false [] -> tc_phase t = TcReading ->
  client_inv cid i (es ++ [(TcChunk c sent p, now, s)])
    (if sent then mkTcpClient (tc_cid t) (tc_vc t) (u64_succ (tc_seq t)) TcReading
                    (tc_sent t ++ [frame_data (tc_cid t) (tc_seq t) c])
     else tc_goto (TcClosing ReasonNoTunnel true) t) false (if sent then [] else [c]).
Proof.
  intros [H1 H2 H3 H4 H5 H6 H7 H8] Eph. rewrite app_nil_r in H5. destruct sent.
  - constructor; cbn [tc_cid tc_vc tc_seq tc_sent tc_phase]; rewrite ?app_nil_r;
      rewrite ?(omap_snoc_some sent_chunk _ (TcChunk c true p, now, s) c eq_refl),
              ?(omap_snoc_some read_chunk _ (TcChunk c true p, now, s) c eq_refl); try done.
    + rewrite H3, u64_succ_wrap, zlen_app. f_equal. change (zlen [c]) with 1. lia.
    + rewrite data_frames_snoc, H4, H3, H1. cbn [fin_frames]. by rewrite app_nil_r.
    + by rewrite H5.
  - constructor; cbn [tc_cid tc_vc tc_seq tc_sent tc_phase tc_goto length]; try done;
      rewrite ?(omap_snoc_none sent_chunk _ (TcChunk c false p, now, s) eq_refl),
              ?(omap_snoc_some read_chunk _ (TcChunk c false p, now, s) c eq_refl); try done. by rewrite H5.
Qed.

(** The FIN, which follows everything that was read. *)
Lemma client_inv_finish cid i es t r ph p now s lost :
  client_inv cid i es t false lost -> tc_phase t = TcClosing r false ->
  match ph with TcGrace _ | TcCleanup => True | _ => False end ->
  client_inv cid i (es ++ [(TcFinish true p, now, s)])
    (tc_goto ph (mkTcpClient (tc_cid t) (tc_vc t) (tc_seq t) (tc_phase t)
                   (tc_sent t ++ [frame_fin (tc_cid t) (tc_seq t)]))) true lost.
Proof.
  intros [H1 H2 H3 H4 H5 H6 H7 H8] Eph Hph. rewrite Eph in H8. destruct H8 as [_ Hl].
  constructor; cbn [tc_cid tc_vc tc_seq tc_sent tc_phase tc_goto];
    rewrite ?(omap_snoc_none sent_chunk _ (TcFinish true p, now, s) eq_refl),
      ?(omap_snoc_none read_chunk _ (TcFinish true p, now, s) eq_refl); try done; auto.
  - rewrite H4, H3, H1. cbn [fin_frames]. by rewrite app_nil_r.
  - by destruct ph.
Qed.

Lemma client_inv_step cid i es x t t' s' fin lost :
  client_inv cid i es t fin lost -> tcp_step x.1.1 x.1.2 t x.2 = Some (t', s') ->
  exists fin' lost', client_inv cid i (es ++ [x]) t' fin' lost'.
Proof.
  intros HI Hs. pose proof (ci_phase _ _ _ _ _ _ HI) as H8.
  destruct x as [[e now] s]. cbn [fst snd] in Hs. unfold tcp_step in Hs.
  destruct (sp_vcs s !! tc_vc t) as [v|]; [|done].
  pose proof (fun ph => client_inv_quiet cid i es (e, now, s) t ph fin lost) as Q.
  destruct e as [c sent p| | | |fin_ok p| |], (tc_phase t) as [|r force|seen| |] eqn:Eph; try done;
    cbn [read_chunk fst] in Q.
  - destruct H8 as [-> ->]. pose proof (client_inv_chunk cid i es t c sent p now s HI Eph) as HC.
    destruct sent; injection Hs as <- _; eauto.
  - injection Hs as <- _. exists fin, lost. apply Q; [done|done|]. by destruct H8 as [-> ->].
  - injection Hs as <- _. exists fin, lost. apply Q; [done|done|]. by destruct H8 as [-> ->].
  - destruct (has_permit (sp_notify v)); [|done]. exists fin, lost. destruct (sp_closed v); injection Hs as <- _.
    + apply Q; [done|done|]. by destruct H8 as [-> ->].
    + assert (t = tc_goto TcReading t) as -> by (destruct t; cbn in *; by subst). by apply Q.
  - assert (tc_goto TcCleanup t = t' ->
      exists fin' lost', client_inv cid i (es ++ [(TcFinish fin_ok p, now, s)]) t' fin' lost') as Hq.
    { intros <-. exists fin, lost. by apply Q. }
    pose proof (fun ph => client_inv_finish cid i es t r ph p now s lost) as HF. rewrite Eph in HF.
    destruct r, force; try (injection Hs as Ht _; by apply Hq);
      destruct fin_ok; try (injection Hs as Ht _; by apply Hq); destruct H8 as [-> _];
      injection Hs as <- _; exists true, lost; by apply HF.
  - injection Hs as <- _. exists true, lost. subst fin. apply Q; [done|done|]. unfold grace_poll.
    by repeat case_match.
  - injection Hs as <- _. exists fin, lost. by apply Q.
Qed.

Lemma tcp_run_inv es cid i t :
  tcp_run es (client_start cid i) = Some t -> exists fin lost, client_inv cid i es t fin lost.
Proof.
  revert t. induction es as [|x es IH] using rev_ind; intros t H.
  - cbn in H. simplify_eq. exists false, []. apply client_inv_start.
  - rewrite tcp_run_snoc in H. destruct (tcp_run es _) as [t1|]; [|done].
    destruct (IH t1 eq_refl) as (fin & lost & HI).
    destruct (tcp_step _ _ t1 _) as [[t2 s2]|] eqn:E; [|done]. simplify_eq.
    by apply (client_inv_step _ _ _ _ _ _ _ _ _ HI E).
Qed.

(** ** The grace wait *)

(** The wait over the states its polls see, with their times. *)
Fixpoint grace_run (obs : list (Z * VirtConn)) (seen : option Z) : tcp_phase :=
  match obs with
  | [] => TcGrace seen
  | (now, v) :: obs' =>
    match grace_poll now seen v with TcGrace seen' => grace_run obs' seen' | ph => ph end
  end.

(** Reasons to leave that one poll sees by itself. *)
Definition leaves_now (o : Z * VirtConn) : Prop :=
  sp_closed o.2 = true \/
  (sp_fin_received o.2 = true /\ is_complete_through (sp_reorder o.2) (sp_fin_seq o.2) = true) \/
  (sp_fin_received o.2 = false /\ CLOSE_QUIET_TIMEOUT <= o.1 - sp_last_active o.2).

(** The FIN was first seen at [seen], or by an earlier poll, 15 s ago or more. *)
Definition grace_expired (obs : list (Z * VirtConn)) (seen : option Z) (o : Z * VirtConn) : Prop :=
  sp_fin_received o.2 = true /\
  ((exists t0, seen = Some t0 /\ CLOSE_GRACE_MAX <= o.1 - t0) \/
   (exists o0, o0 ∈ obs /\ sp_fin_received o0.2 = true /\ CLOSE_GRACE_MAX <= o.1 - o0.1)).

Lemma grace_poll_cases now seen v :
  (grace_poll now seen v = TcCleanup /\
    (leaves_now (now, v) \/
     sp_fin_received v = true /\ exists t0, seen = Some t0 /\ CLOSE_GRACE_MAX <= now - t0)) \/
  (grace_poll now seen v = TcGrace (if sp_fin_received v then Some (default now seen) else seen) /\
    ~ leaves_now (now, v) /\
    (sp_fin_received v = true -> now - default now seen < CLOSE_GRACE_MAX)).
Proof.
  unfold grace_poll, leaves_now, CLOSE_GRACE_MAX, CLOSE_QUIET_TIMEOUT, sat_sub. cbn [fst snd].
  destruct (sp_closed v); [by auto|]. destruct (sp_fin_received v).
  - destruct (is_complete_through _ _); [by naive_solver|]. case_match eqn:E; zbool.
    + left. split; [done|]. right. split; [done|]. destruct seen as [t0|]; cbn in E; [|lia].
      exists t0. split; [done|lia].
    + right. split; [done|]. split; [naive_solver|]. intros _. lia.
  - case_match eqn:E; zbool.
    + left. split; [done|]. left. right. right. split; [done|lia].
    + right. split; [done|]. split; [|done].
      intros [H|[[H _]|[_ H]]]; [discriminate H|discriminate H|lia].
Qed.

Lemma grace_run_iff obs seen :
  StronglySorted (fun a b => a.1 <= b.1) obs ->
  (forall t0, seen = Some t0 -> Forall (fun o => t0 <= o.1) obs) ->
  grace_run obs seen = TcCleanup <->
  exists o, o ∈ obs /\ (leaves_now o \/ grace_expired obs seen o).
Proof.
  intros Hs. revert seen. induction Hs as [|[now v] obs Hs IH Hall]; intros seen Hseen.
  { split; [done|]. by intros (o & ?%elem_of_nil & _). }
  rewrite Forall_forall in Hall. cbn [grace_run fst] in *.
  destruct (grace_poll_cases now seen v) as [[-> Hl]|(-> & Hn & Hg)].
  { split; [intros _|done]. exists (now, v). split; [apply elem_of_cons; by left|].
    destruct Hl as [?|[??]]; [by left|right; split; [done|by left]]. }
  rewrite IH; clear IH.
  2:{ intros t0 H. apply Forall_forall. intros o Ho. specialize (Hall o Ho). cbn in Hall.
      destruct (sp_fin_received v).
      - destruct seen as [t1|]; cbn in H; simplify_eq; [|done].
        specialize (Hseen t0 eq_refl). by apply Forall_cons_1, proj2, (proj1 (Forall_forall _ _)) with o in Hseen.
      - specialize (Hseen t0 H). by apply Forall_cons_1, proj2, (proj1 (Forall_forall _ _)) with o in Hseen. }
  split; intros (o & Ho & H).
  - exists o. split; [apply elem_of_cons; by right|]. destruct H as [?|[Hf H]]; [by left|right].
    split; [done|]. destruct H as [(t0 & Ht & Hd)|(o0 & Ho0 & H0)].
    + destruct (sp_fin_received v) eqn:Ev; [|left; by exists t0].
      destruct seen as [t1|]; cbn in Ht; simplify_eq; [left; by eexists|].
      right. exists (t0, v). by split; [apply elem_of_cons; left|].
    + right. exists o0. by split; [apply elem_of_cons; right|].
  - apply elem_of_cons in Ho as [->|Ho].
    + exfalso. destruct H as [?|[Hf H]]; [done|]. cbn in Hf. specialize (Hg Hf). cbn in H.
      destruct H as [(t0 & -> & Hd)|(o0 & [->|Ho0]%elem_of_cons & _ & Hd)]; cbn in *; unfold CLOSE_GRACE_MAX in *; [lia|lia|].
      specialize (Hall o0 Ho0). unfold CLOSE_GRACE_MAX in *. lia.
    + exists o. split; [done|]. destruct H as [?|[Hf H]]; [by left|right]. split; [done|].
      destruct H as [(t0 & -> & Hd)|(o0 & [->|Ho0]%elem_of_cons & H0 & Hd)]; cbn [snd fst] in *.
      * left. exists t0. split; [by destruct (sp_fin_received v)|done].
      * rewrite H0. left. eexists. split; [done|]. destruct seen as [t1|]; cbn; [|done].
        specialize (Hseen t1 eq_refl). apply Forall_cons_1, proj1 in Hseen. cbn in Hseen. lia.
      * right. by exists o0.
Qed.

(** ** Writes to the client *)

(** The loop of [on_frame] with the client's writer task running in between: [Some b]
    is a [try_send(b)] of the loop, [None] the task taking a chunk to write.  The chunks
    written, whether a [try_send] failed, and the channel. *)
Fixpoint client_writes (ops : list (option bytes)) (c : chan bytes) : list bytes * bool * chan bytes :=
  match ops with
  | [] => ([], false, c)
  | Some b :: ops' =>
    let '(failed, c1) := client_write b c in
    let '(w, ov, c2) := client_writes ops' c1 in (w, failed || ov, c2)
  | None :: ops' =>
    let '(o, c1) := try_recv c in
    let '(w, ov, c2) := client_writes ops' c1 in (option_list o ++ w, ov, c2)
  end.

(** Without the task in between it is [client_write_all]. *)
Lemma client_writes_all bs c :
  client_writes (map Some bs) c = ([], (client_write_all bs c).1, (client_write_all bs c).2).
Proof.
  revert c. induction bs as [|b bs IH]; intros c; [done|]. cbn [map client_writes client_write_all].
  destruct (client_write b c) as [failed c1]. rewrite IH. by destruct (client_write_all bs c1).
Qed.

(** The first of the two stores of the FIN branch of [handle_inbound_frame]. *)
Definition store_fin_received (v : VirtConn) : VirtConn :=
  mkVirtConn (to_client_tx v) (sp_reorder v) (sp_notify v) (sp_closed v) true (sp_fin_seq v)
    (grace_waiting v) (sp_rst v) (sp_is_udp v) (sp_created_at v) (sp_last_active v)
    (sp_bytes_sent v) (sp_bytes_recv v) (sp_frames_sent v) (sp_frames_recv v).

(** ** Properties *)

(** C13: what a client handler sends.  Whatever it reads, in whatever order reads,
    send timeouts, notifications and the end come, the frames it gave to the tunnels
    are DATA frames numbered 1, 2, 3, ... carrying the chunks the tunnels took, in
    order, and at most one FIN, last, numbered one past them.  A chunk that was read and
    not sent is the last one read; then there is no FIN, and the handler ends with an
    RST.  So a FIN says that every byte read from the client was sent. *)
Theorem tcp_client_stream es cid i t :
  tcp_run es (client_start cid i) = Some t ->
  exists fin lost,
    tc_sent t = data_frames cid (omap sent_chunk es) ++ fin_frames cid fin (omap sent_chunk es) /\
    omap read_chunk es = omap sent_chunk es ++ lost /\ (length lost <= 1)%nat /\
    (fin = true -> lost = []) /\
    (tc_phase t = TcReading -> tc_seq t = wrap 64 (1 + zlen (omap sent_chunk es))) /\
    (lost <> [] -> forall ok p now s t' s',
       tcp_step (TcFinish ok p) now t s = Some (t', s') ->
       tc_phase t' = TcCleanup /\ s' = sp_send (frame_rst cid) s).
Proof.
  intros H. destruct (tcp_run_inv _ _ _ _ H) as (fin & lost & [H1 H2 H3 H4 H5 H6 H7 H8]).
  exists fin, lost. split_and!; try done.
  intros Hl ok p now s t' s' Hs. unfold tcp_step in Hs. rewrite H1 in Hs.
  destruct (sp_vcs s !! tc_vc t); [|done].
  destruct (tc_phase t) as [|r force|seen| |]; try done.
  destruct force; [|by destruct Hl; apply H8]. by destruct r; simplify_eq.
Qed.

(** C36: the grace wait after the handler's FIN, for any sequence of polls.  It ends at
    a poll that sees the connection closed, or the remote FIN with every frame below
    it delivered, or no remote FIN and 60 s without traffic, or a remote FIN that some
    poll saw 15 s before; and it ends for no other reason. *)
Theorem grace_wait_spec obs :
  StronglySorted (fun a b => a.1 <= b.1) obs ->
  grace_run obs None = TcCleanup <->
  exists now v, (now, v) ∈ obs /\
    (sp_closed v = true \/
     (sp_fin_received v = true /\ is_complete_through (sp_reorder v) (sp_fin_seq v) = true) \/
     (sp_fin_received v = false /\ 60000 <= now - sp_last_active v) \/
     (sp_fin_received v = true /\ exists t0 v0, (t0, v0) ∈ obs /\ sp_fin_received v0 = true /\
        15000 <= now - t0)).
Proof.
  intros Hs. rewrite grace_run_iff by done. split.
  - intros ([now v] & Ho & H). exists now, v. split; [done|].
    destruct H as [[?|[?|?]]|[Hf [(t0 & ? & _)|([t0 v0] & H1 & H2 & H3)]]]; [auto..|done|].
    do 3 right. split; [done|]. by exists t0, v0.
  - intros (now & v & Ho & H). exists (now, v). split; [done|]. unfold leaves_now, grace_expired.
    destruct H as [?|[?|[?|[Hf (t0 & v0 & H0 & H1 & H2)]]]]; [left; by auto..|].
    right. split; [done|]. right. by exists (t0, v0).
Qed.

(** While no write to it fails, the client's channel loses and reorders nothing:
    with the writer task running at any points of the loop, what the task took and what
    is still queued are together what was queued and the chunks of the loop, in order. *)
Theorem client_writes_fifo ops c w c' :
  client_writes ops c = (w, false, c') -> w ++ queued c' = queued c ++ omap id ops.
Proof.
  revert c w. induction ops as [|[b|] ops IH]; intros c w H; cbn [client_writes] in H.
  - simplify_eq. cbn. by rewrite app_nil_r.
  - unfold client_write in H. destruct (try_send b c) as [[e|] c1] eqn:Et;
      destruct (client_writes ops c1) as [[w1 ov] c2] eqn:E; [done|].
    apply try_send_None in Et as (_ & _ & Hq & _). cbn in H. simplify_eq.
    apply IH in E. rewrite E, Hq. cbn. by rewrite <- app_assoc.
  - destruct (try_recv c) as [o c1] eqn:Er. destruct (client_writes ops c1) as [[w1 ov] c2] eqn:E.
    simplify_eq. apply IH in E. rewrite <- app_assoc, E. cbn.
    destruct (queued c) as [|x q] eqn:Eq.
    + rewrite try_recv_nil in Er by done. simplify_eq. by rewrite Eq.
    + pose proof (try_recv_cons _ _ _ _ Eq) as (H1 & H2 & _). rewrite Er in H1, H2. cbn in *.
      by subst o; rewrite H2.
Qed.

(** A write that fails does not end the loop.  If the client's queue is full when
    a chunk [a] is written and the writer task takes one chunk before the next chunk [b]
    of the same loop, then [b] is queued behind the hole [a] left, and reaches the client
    although the connection is then reset. *)
Theorem client_write_hole c a b x q :
  is_closed c = false -> queued c = x :: q -> max_capacity c = zlen (queued c) ->
  exists c', client_writes [Some a; None; Some b] c = ([x], true, c') /\ queued c' = q ++ [b].
Proof.
  intros Hc Hq Hm. cbn [client_writes]. unfold client_write.
  rewrite try_send_full by (done || lia).
  pose proof (try_recv_cons _ _ _ _ Hq) as (H1 & H2 & H3 & H4).
  destruct (try_recv c) as [o c1]. cbn in *. subst o.
  rewrite Hq, zlen_cons in Hm.
  destruct (try_send_ok _ b c1) as (K1 & K2 & _); [congruence|rewrite H4, H2; lia|].
  destruct (try_send b c1) as [r c2]. cbn in *. subst r. exists c2. split; [done|].
  by rewrite K2, H2.
Qed.

(** Between the two stores of a remote FIN ([fin_received], then [fin_seq]) the
    grace wait and the heartbeat's completeness test read [fin_seq = 0] and take any
    stream for complete: a poll there ends the handler, where a poll after both stores
    waits for the missing frames. *)
Theorem sp_fin_seq_race now seen v sq :
  sp_closed v = false -> sp_fin_received v = false -> sp_fin_seq v = 0 ->
  0 <= expected (sp_reorder v) < sq ->
  grace_poll now seen (store_fin_received v) = TcCleanup /\
  grace_poll now None (set_sp_fin sq v) = TcGrace (Some now).
Proof.
  intros Hc Hf Hs He. unfold grace_poll, is_complete_through. cbn. rewrite Hc, Hs.
  destruct (Z.leb_spec 0 (expected (sp_reorder v))); [|lia].
  destruct (Z.leb_spec sq (expected (sp_reorder v))); [lia|].
  unfold sat_sub. by rewrite Z.sub_diag.
Qed.
End splitter_tcp.

(** ** Witnesses *)
#[local] Existing Instance RefTokio.
#[local] Existing Instance RefTokio_laws.

Definition demo_pool : TunnelPool := pool_add 0 (new_link 0) pool_new.
Definition demo_conn : VirtConn := new_virt_conn false 65536 0.
(** Connection 9 is the handler's, in the store at 0. *)
Definition demo_state : SState :=
  mkSState {[0%nat := demo_conn]} {[9 := 0%nat]} ∅ demo_pool 0.
Definition demo_turns : list tcp_input :=
  [(TcChunk [x61] true demo_pool, 1, demo_state); (TcChunk [x62; x63] true demo_pool, 2, demo_state);
   (TcEof, 3, demo_state); (TcFinish true demo_pool, 4, demo_state)].

Lemma tcp_client_stream_witness :
  exists fin lost,
    [frame_data 9 1 [x61]; frame_data 9 2 [x62; x63]; frame_fin 9 3] =
      data_frames 9 [[x61]; [x62; x63]] ++ fin_frames 9 fin [[x61]; [x62; x63]] /\
    [[x61]; [x62; x63]] = [[x61]; [x62; x63]] ++ lost.
Proof.
  destruct (tcp_client_stream demo_turns 9 0
    (mkTcpClient 9 0 3 (TcGrace None)
       [frame_data 9 1 [x61]; frame_data 9 2 [x62; x63]; frame_fin 9 3]) eq_refl)
    as (fin & lost & H1 & H2 & _).
  exists fin, lost. split; [exact H1|exact H2].
Defined.

Definition demo_fin_conn : VirtConn := set_sp_fin 5 demo_conn.

Lemma grace_wait_spec_witness :
  grace_run [(100, demo_fin_conn); (200, demo_fin_conn); (15100, demo_fin_conn)] None = TcCleanup.
Proof.
  apply (grace_wait_spec [(100, demo_fin_conn); (200, demo_fin_conn); (15100, demo_fin_conn)]).
  - repeat constructor; cbn; lia.
  - exists 15100, demo_fin_conn. split; [set_solver|]. do 3 right. split; [reflexivity|].
    exists 100, demo_fin_conn. split; [set_solver|]. split; [reflexivity|lia].
Defined.

(** A client channel of capacity 2. *)
Definition demo_client (q : list bytes) : chan bytes := RefChan q 2 false.

Lemma client_writes_fifo_witness :
  [[x61]] ++ queued (demo_client [[x62]; [x63]]) = queued (demo_client [[x61]]) ++ [[x62]; [x63]].
Proof.
  apply (client_writes_fifo [Some [x62]; None; Some [x63]] (demo_client [[x61]])).
  vm_compute. reflexivity.
Defined.

Lemma client_write_hole_witness :
  exists c', client_writes [Some [x62]; None; Some [x63]] (demo_client [[x60]; [x61]]) =
    ([[x60]], true, c') /\ queued c' = [[x61]; [x63]].
Proof. apply (client_write_hole (demo_client [[x60]; [x61]]) [x62] [x63] [x60] [[x61]]); reflexivity. Defined.

Lemma sp_fin_seq_race_witness :
  grace_poll 50 None (store_fin_received demo_conn) = TcCleanup /\
  grace_poll 50 None (set_sp_fin 5 demo_conn) = TcGrace (Some 50).
Proof. apply sp_fin_seq_race; [reflexivity..|split; zcompute]. Defined.
