(* ===== verification/SplitterUdp.v ===== *)
(** * The UDP association of the splitter

    Models the relay of [handle_udp_client] in [src/src/splitter.rs] as a machine: its
    [select!] loop over the relay socket, the keepalive connection and the wake-ups, the
    response task that sends what arrives on the channel to the client, and the end.
    The two tasks share the client's address. *)
From Stdlib Require Import ZArith Lia.
From Stdlib Require Import Strings.Byte.
From stdpp Require Import base numbers list option fin_maps gmap.
From S2P Require Import Prelude Runtime Frames Reorder Tunnel Net.
From S2P Require Import Socks5 Splitter SplitterTcp.
Local Open Scope Z_scope.

Inductive relay_phase : Set := UrReceiving | UrEnding | UrDone.

(** The handler's locals, whether the response task runs, and what went out: the
    datagrams to the client and the frames the tunnels took. *)
Record UdpRelay : Type := mkUdpRelay {
  ur_client : UdpClient;
  ur_phase : relay_phase;
  ur_responding : bool;
  ur_out : list (SocketAddr * bytes);
  ur_frames : list Frame;
}.

Inductive relay_event : Type :=
| UrDatagram (src : SocketAddr) (data : bytes)  (** [relay.recv_from] *)
| UrRecvError
| UrKeepaliveClosed                             (** the control connection ended *)
| UrNotified                                    (** [vconn.notify.notified()] *)
| UrResponse (ok : bool)                        (** the response task takes a datagram; [ok]: [send_to] succeeds *)
| UrFinish.                                     (** after the loop *)

Section splitter_udp.
Context {T : Tokio}.

(** The frame a tunnel took for a datagram. *)
Definition datagram_frames (src : SocketAddr) (data : bytes) (u : UdpClient) (s : SState) : list Frame :=
  let accept := match uc_addr u with None => true | Some a => bool_decide (a = src) end in
  let f := frame_data (uc_cid u) (uc_seq u) data in
  if accept && (send_tries 3 f (sp_pool s)).1 then [f] else [].

Definition relay_step (e : relay_event) (now : Z) (r : UdpRelay) (s : SState)
  : option (UdpRelay * SState) :=
  let u := ur_client r in
  let goto ph := mkUdpRelay u ph (ur_responding r) (ur_out r) (ur_frames r) in
  match sp_vcs s !! uc_vc u with
  | None => None
  | Some v =>
    match e, ur_phase r with
    | UrDatagram src data, UrReceiving =>
      let '(u', s') := udp_datagram src data now u s in
      Some (mkUdpRelay u' UrReceiving (ur_responding r) (ur_out r)
              (ur_frames r ++ datagram_frames src data u s), s')
    | UrRecvError, UrReceiving | UrKeepaliveClosed, UrReceiving => Some (goto UrEnding, s)
    | UrNotified, UrReceiving =>
      if has_permit (sp_notify v) then
        Some (goto (if sp_closed v then UrEnding else UrReceiving),
              sp_upd (fun v => set_sp_notify (notify_take (sp_notify v)) v) (uc_vc u) s)
      else None
    | UrResponse ok, _ =>
      if ur_responding r then
        match try_recv (to_client_tx v) with
        | (None, _) => None
        | (Some dgram, c) =>
          let s' := sp_upd (fun v => set_client c (sp_reorder v) v) (uc_vc u) s in
          match uc_addr u with
          | None => Some (r, s')
          | Some a =>
            if ok then Some (mkUdpRelay u (ur_phase r) true (ur_out r ++ [(a, dgram)]) (ur_frames r), s')
            else Some (mkUdpRelay u (ur_phase r) false (ur_out r) (ur_frames r), s')
          end
        end
      else None
    | UrFinish, UrEnding => Some (goto UrDone, udp_finish now u s)
    | _, _ => None
    end
  end.

(** A relay run on its own; the shared state before each turn is given by the other
    tasks. *)
Definition relay_input : Type := relay_event * Z * SState.
Fixpoint relay_run (es : list relay_input) (r : UdpRelay) : option UdpRelay :=
  match es with
  | [] => Some r
  | (e, now, s) :: es' =>
    match relay_step e now r s with Some (r', _) => relay_run es' r' | None => None end
  end.

(** As [udp_open] leaves it. *)
Definition relay_start (cid : Z) (i : nat) (client_addr : option SocketAddr) : UdpRelay :=
  mkUdpRelay (mkUdpClient cid i 1 client_addr) UrReceiving true [] [].

(** ** Whose datagrams *)
Definition received (x : relay_input) : option (SocketAddr * bytes) :=
  match x.1.1 with UrDatagram src data => Some (src, data) | _ => None end.

(** The address the association belongs to: the one the client announced, or else the
    source of the first datagram. *)
Definition owner (client_addr : option SocketAddr) (rs : list (SocketAddr * bytes)) : option SocketAddr :=
  match client_addr with Some a => Some a | None => fst <$> head rs end.

(** The datagrams of [a]. *)
Definition datagrams_of (a : SocketAddr) (rs : list (SocketAddr * bytes)) : list bytes :=
  omap (fun x => if decide (x.1 = a) then Some x.2 else None) rs.

Record relay_inv (cid : Z) (client_addr : option SocketAddr) (rs : list (SocketAddr * bytes))
    (r : UdpRelay) (ds : list bytes) : Prop := {
  ri_cid : uc_cid (ur_client r) = cid;
  ri_seq : uc_seq (ur_client r) = wrap 64 (1 + zlen ds);
  ri_addr : uc_addr (ur_client r) = owner client_addr rs;
  ri_frames : ur_frames r = data_frames cid ds;
  ri_ds : match owner client_addr rs with
          | Some a => ds `sublist_of` datagrams_of a rs /\ Forall (fun x => x.1 = a) (ur_out r)
          | None => ds = [] /\ ur_out r = []
          end;
}.

Lemma owner_snoc client_addr rs x :
  owner client_addr (rs ++ [x]) =
    match owner client_addr rs with Some a => Some a | None => Some x.1 end.
Proof. unfold owner. destruct client_addr as [a|]; [done|]. by destruct rs as [|y rs]. Qed.

Lemma datagrams_snoc a rs x :
  datagrams_of a (rs ++ [x]) = datagrams_of a rs ++ (if decide (x.1 = a) then [x.2] else []).
Proof. unfold datagrams_of. rewrite omap_app. cbn. by destruct (decide (x.1 = a)). Qed.

(** A datagram of the owner, or of a stranger. *)
Lemma relay_inv_datagram cid client_addr rs r ds src data now s :
  relay_inv cid client_addr rs r ds ->
  exists ds', relay_inv cid client_addr (rs ++ [(src, data)])
    (mkUdpRelay (udp_datagram src data now (ur_client r) s).1 (ur_phase r) (ur_responding r) (ur_out r)
       (ur_frames r ++ datagram_frames src data (ur_client r) s)) ds'.
Proof.
  intros [H1 H2 H3 H4 H5]. pose proof (owner_snoc client_addr rs (src, data)) as Ho. cbn [fst] in Ho.
  unfold udp_datagram, datagram_frames. rewrite H3.
  destruct (match owner client_addr rs with None => true | Some a => bool_decide (a = src) end) eqn:Ea;
    cbn [negb andb].
  2:{ destruct (owner client_addr rs) as [a|] eqn:Eo; [|done]. apply bool_decide_eq_false in Ea.
      exists ds. constructor; cbn; rewrite ?Ho, ?app_nil_r; try done; try congruence.
      destruct H5 as [D1 D2]. split; [|done]. rewrite datagrams_snoc. cbn.
      rewrite decide_False by congruence. by rewrite app_nil_r. }
  assert (owner client_addr (rs ++ [(src, data)]) = Some src) as Ho'.
  { rewrite Ho. destruct (owner client_addr rs); [|done]. apply bool_decide_eq_true in Ea. by subst. }
  assert (ds `sublist_of` datagrams_of src rs /\ Forall (fun x => x.1 = src) (ur_out r)) as [D1 D2].
  { destruct (owner client_addr rs); [apply bool_decide_eq_true in Ea; by subst|].
    destruct H5 as [-> ->]. split; [apply sublist_nil_l|constructor]. }
  destruct (send_tries 3 _ (sp_pool s)) as [[|] p] eqn:Es; cbn [fst snd].
  - exists (ds ++ [data]). constructor; cbn; rewrite ?Ho'; try done.
    + rewrite H2, u64_succ_wrap, zlen_app. f_equal. change (zlen [data]) with 1. lia.
    + by rewrite data_frames_snoc, H4, H1, H2.
    + split; [|done]. rewrite datagrams_snoc, decide_True by done. by apply sublist_app.
  - exists ds. constructor; cbn; rewrite ?Ho', ?app_nil_r; try done. split; [|done].
    rewrite datagrams_snoc, decide_True by done. by apply sublist_inserts_r.
Qed.

Lemma relay_inv_step cid client_addr rs r ds x r' s' :
  relay_inv cid client_addr rs r ds -> relay_step x.1.1 x.1.2 r x.2 = Some (r', s') ->
  exists ds', relay_inv cid client_addr (rs ++ option_list (received x)) r' ds'.
Proof.
  intros HI Hs. destruct x as [[e now] s]. cbn [fst snd] in Hs. unfold relay_step in Hs.
  destruct (sp_vcs s !! uc_vc (ur_client r)) as [v|]; [|done].
  assert (forall ph b, relay_inv cid client_addr (rs ++ [])
    (mkUdpRelay (ur_client r) ph b (ur_out r) (ur_frames r)) ds) as Hq.
  { intros ph b. rewrite app_nil_r. destruct HI. by constructor. }
  destruct e as [src data| | | |ok|]; cbn [received fst option_list].
  - destruct (ur_phase r) eqn:Ep; [|done..].
    destruct (relay_inv_datagram _ _ _ _ _ src data now s HI) as [ds' HI'].
    destruct (udp_datagram src data now (ur_client r) s) as [u' s1]. rewrite Ep in HI'. cbn in HI'.
    injection Hs as <- _. by exists ds'.
  - destruct (ur_phase r); simplify_eq. eexists. apply Hq.
  - destruct (ur_phase r); simplify_eq. eexists. apply Hq.
  - destruct (ur_phase r); [|done..]. destruct (has_permit _); simplify_eq. eexists. apply Hq.
  - assert (match ur_phase r with UrReceiving | UrEnding | UrDone => True end) as _ by by destruct (ur_phase r).
    destruct (ur_responding r) eqn:Er; [|by destruct (ur_phase r)].
    destruct (try_recv (to_client_tx v)) as [[dgram|] c]; [|by destruct (ur_phase r)].
    exists ds. destruct HI as [H1 H2 H3 H4 H5].
    destruct (uc_addr (ur_client r)) as [a|] eqn:Ea.
    + rewrite app_nil_r. rewrite <- H3 in H5. destruct H5 as [D1 D2].
      destruct ok, (ur_phase r); simplify_eq; constructor; cbn; rewrite ?Ea, <- ?H3; try done;
        (split; [done|]); try done; apply Forall_app; by split; [|constructor].
    + destruct (ur_phase r); simplify_eq; rewrite app_nil_r; by constructor; rewrite ?Ea.
  - destruct (ur_phase r); simplify_eq. eexists. apply Hq.
Qed.

Lemma relay_run_inv cid client_addr es : forall rs r ds r',
  relay_inv cid client_addr rs r ds -> relay_run es r = Some r' ->
  exists ds', relay_inv cid client_addr (rs ++ omap received es) r' ds'.
Proof.
  induction es as [|[[e now] s] es IH]; intros rs r ds r' HI Hr; cbn [relay_run] in Hr.
  - simplify_eq. exists ds. cbn. by rewrite app_nil_r.
  - destruct (relay_step e now r s) as [[r1 s1]|] eqn:E; [|done].
    destruct (relay_inv_step _ _ _ _ _ (e, now, s) _ _ HI E) as [ds1 HI1].
    destruct (IH _ _ _ _ HI1 Hr) as [ds2 HI2]. exists ds2. rewrite <- app_assoc in HI2.
    cbn [omap list_omap]. unfold received at 1 in HI2. unfold received at 1.
    by destruct e.
Qed.

Lemma relay_run_ok es cid i client_addr r :
  relay_run es (relay_start cid i client_addr) = Some r ->
  exists ds, relay_inv cid client_addr (omap received es) r ds.
Proof.
  intros Hr. assert (relay_inv cid client_addr [] (relay_start cid i client_addr) []) as H0.
  { constructor; [done|done|by destruct client_addr|done|].
    destruct client_addr; cbn; [split; [apply sublist_nil_l|constructor]|done]. }
  exact (relay_run_inv _ _ _ _ _ _ _ H0 Hr).
Qed.

Lemma relay_run_snoc es x r :
  relay_run (es ++ [x]) r =
    match relay_run es r with
    | Some r1 => match relay_step x.1.1 x.1.2 r1 x.2 with Some (r2, _) => Some r2 | None => None end
    | None => None
    end.
Proof.
  revert r. induction es as [|[[e now] s] es IH]; intros r; cbn [app relay_run].
  - destruct x as [[e now] s]. cbn. by destruct (relay_step e now r s) as [[??]|].
  - destruct (relay_step e now r s) as [[r1 ?]|]; [apply IH|done].
Qed.

(** ** Properties *)

(** C15: an association serves one client.  Its owner is the address the client announced,
    or else the source of the first datagram.  The frames it gave to the tunnels are
    DATA frames numbered 1, 2, 3, ... that carry datagrams of the owner, in the order
    they arrived, dropped where no tunnel took them; every datagram it sent out went to
    the owner; and a datagram of another source changes nothing at all. *)
Theorem udp_relay_private es cid i client_addr r :
  relay_run es (relay_start cid i client_addr) = Some r ->
  match owner client_addr (omap received es) with
  | Some a =>
    (exists ds, ur_frames r = data_frames cid ds /\ ds `sublist_of` datagrams_of a (omap received es)) /\
    Forall (fun x => x.1 = a) (ur_out r) /\
    (forall src data now s, src <> a ->
       udp_datagram src data now (ur_client r) s = (ur_client r, s) /\
       datagram_frames src data (ur_client r) s = [])
  | None => ur_frames r = [] /\ ur_out r = []
  end.
Proof.
  intros Hr. destruct (relay_run_ok _ _ _ _ _ Hr) as [ds [H1 H2 H3 H4 H5]].
  destruct (owner client_addr (omap received es)) as [a|].
  - destruct H5 as [D1 D2]. split; [by exists ds|]. split; [done|]. intros src data now s Hne.
    unfold udp_datagram, datagram_frames. rewrite H3.
    by rewrite bool_decide_eq_false_2 by congruence.
  - destruct H5 as [-> ->]. by rewrite H4.
Qed.
End splitter_udp.

(** ** Witness: a stranger between two datagrams of the client, and a response. *)
#[local] Existing Instance RefTokio.
#[local] Existing Instance RefTokio_laws.

Definition demo_addr (port : Z) : SocketAddr := mkSocketAddr (V4 [x7f; x00; x00; x01]) port.
Definition udp_vc : VirtConn := new_virt_conn true 65536 0.
Definition udp_state : SState := mkSState {[0%nat := udp_vc]} {[9 := 0%nat]} ∅ demo_pool 0.
Definition udp_answered : SState :=
  mkSState {[0%nat := set_client (RefChan [[x63]] 1024 false) (sp_reorder udp_vc) udp_vc]} {[9 := 0%nat]} ∅ demo_pool 0.
Definition demo_relay : list relay_input :=
  [(UrDatagram (demo_addr 5) [x61], 1, udp_state); (UrDatagram (demo_addr 6) [x7a], 2, udp_state);
   (UrDatagram (demo_addr 5) [x62], 3, udp_state); (UrResponse true, 4, udp_answered);
   (UrKeepaliveClosed, 5, udp_state); (UrFinish, 6, udp_state)].

Lemma udp_relay_private_witness :
  match relay_run demo_relay (relay_start 9 0 None) with
  | Some r => ur_frames r = [frame_data 9 1 [x61]; frame_data 9 2 [x62]] /\
              Forall (fun x => x.1 = demo_addr 5) (ur_out r) /\ ur_out r <> []
  | None => False
  end.
Proof.
  destruct (relay_run demo_relay (relay_start 9 0 None)) as [r|] eqn:E; [|vm_compute in E; discriminate E].
  destruct (udp_relay_private demo_relay 9 0 None r E) as (_ & H & _).
  split; [|split; [exact H|]]; vm_compute in E; injection E as <-; [reflexivity|discriminate].
Defined.
