(* ===== verification/SplitterSends.v ===== *)
(** * What the steps of the splitter put into the tunnels

    [sp_gets P s s']: from [s] to [s'] the links of the pool got only frames that satisfy
    [P], for every operation of [Splitter]: the control frames it sends itself, and what
    [send_async] and [send] sent for the handlers. *)
From Stdlib Require Import ZArith Lia.
From Stdlib Require Import Strings.Byte.
From stdpp Require Import base numbers list option fin_maps gmap.
From S2P Require Import Prelude Runtime Frames Reorder Tunnel Net.
From S2P Require Import Socks5 PoolSends Splitter SplitterFacts SplitterTcp SplitterUdp.
Local Open Scope Z_scope.

Section splitter_sends.
Context {T : Tokio} {TL : TokioLaws T} {D : DashIter} {B : BufMut}.

Lemma send_tries_gets (P : Frame -> Prop) n f p :
  ((send_tries n f p).1 = true -> P f) -> pool_gets P p (send_tries n f p).2.
Proof.
  revert p. induction n as [|n IH]; intros p; cbn [send_tries]; [done|].
  pose proof (send_gets_if P f p) as G. destruct (send f p) as [ok p1]. destruct ok; intros Hf; [by apply G|].
  etrans; [by apply G|by apply IH].
Qed.

(** What the SYNs of the two kinds of client say. *)
Definition tcp_syn (target : TargetAddr) : SynTarget := mkSynTarget PROTO_TCP (t_address target) (t_port target).
Definition udp_syn : SynTarget := mkSynTarget PROTO_UDP (show_ipv4 (replicate 4 Byte.x00)) 0.

(** The ids in the table are [u32]s, as their type says. *)
Definition ids_typed (s : SState) : Prop := map_Forall (fun c (_ : nat) => is_u32 c) (sp_conns s).

Definition sp_gets (P : Frame -> Prop) (s s' : SState) : Prop := pool_gets P (sp_pool s) (sp_pool s').

#[export] Instance sp_gets_preorder P : PreOrder (sp_gets P).
Proof. split; [intros s; by unfold sp_gets|intros s1 s2 s3 H1 H2; unfold sp_gets in *; by etrans]. Qed.

Lemma sp_gets_same P s s' : sp_pool s' = sp_pool s -> sp_gets P s s'.
Proof. intros E. unfold sp_gets. by rewrite E. Qed.

Context (P : Frame -> Prop) (PR : allows_resets P).

Lemma sp_gets_send f s : P f -> sp_gets P s (sp_send f s).
Proof. apply send_gets. Qed.

Lemma sp_gets_rst c s : is_u32 c -> sp_gets P s (sp_send (frame_rst c) s).
Proof. intros Hc. by apply sp_gets_send, PR. Qed.

Lemma reset_conn_gets c now s : is_u32 c -> sp_gets P s (reset_conn c now s).
Proof.
  intros Hc. unfold reset_conn. cbn zeta. destruct (sp_conns (sp_tombstone c now s) !! c); by apply (sp_gets_rst c s).
Qed.

Lemma inbound_gets f now s : is_u32 (conn_id f) -> sp_gets P s (handle_inbound_frame f now s).
Proof.
  intros Hc. unfold handle_inbound_frame, inbound_data, inbound_fin.
  destruct (has_flag f FLAG_DATA).
  { destruct (sp_conns s !! conn_id f) as [i|]; [|case_decide; by apply sp_gets_rst].
    destruct (sp_vcs s !! i) as [v|]; [|reflexivity]. destruct (sp_is_udp v).
    - destruct (try_send _ _) as [[e|] c]; by apply sp_gets_same.
    - destruct (on_frame _ _ _ v) as [[] v']; [|by apply sp_gets_same]. by apply (reset_conn_gets (conn_id f) now (sp_upd _ i s)). }
  destruct (has_flag f FLAG_FIN); [destruct (sp_conns s !! conn_id f); by apply sp_gets_same|].
  destruct (has_flag f FLAG_RST); [by apply reset_conn_gets|reflexivity].
Qed.

Lemma lost_gets lost now s :
  Forall (fun f => is_u32 (conn_id f) /\ P f) lost -> sp_gets P s (recover_lost_sp lost now s).
Proof.
  unfold recover_lost_sp. intros H. revert s. induction H as [|f lost [Hc Hf] H IH]; intros s; cbn [fold_left].
  { reflexivity. }
  etrans; [|apply IH]. destruct (negb _); [by apply sp_gets_send|].
  case_decide; [by apply reset_conn_gets|reflexivity].
Qed.

Lemma sweep_conn_gets now strong s e : is_u32 e.1 -> sp_gets P s (sp_sweep_conn now strong s e).
Proof.
  intros Hc. unfold sp_sweep_conn. destruct (sp_vcs s !! e.2) as [v|]; [|reflexivity].
  destruct (sweep_verdict_of now (strong e.2) v); [reflexivity|by apply (sp_gets_rst e.1)..].
Qed.

Context {DL : DashIterLaws D}.

Lemma heartbeat_gets now now_ms strong s : ids_typed s -> sp_gets P s (sp_heartbeat now now_ms strong s).
Proof.
  intros Hs. unfold sp_heartbeat. cbn zeta. set (s1 := sp_with_pool _ s). set (s2 := sp_with_time_wait _ s1).
  assert (sp_gets P s s2) as H2.
  { apply (sweep_gets P now_ms LINK_IDLE_TIMEOUT_MS (compact (sp_pool s))). }
  assert (Forall (fun e : Z * nat => is_u32 e.1) (dash_iter (sp_conns s2))) as Hl.
  { apply Forall_forall. intros [c i] Hin%elem_of_dash_iter. exact (Hs c i Hin). }
  etrans; [exact H2|]. clearbody s2. clear H2 s1 Hs.
  transitivity (fold_left (sp_sweep_conn now strong) (dash_iter (sp_conns s2)) s2); [|by unfold sp_gets].
  generalize dependent (dash_iter (sp_conns s2)). intros l Hl. revert s2.
  induction Hl as [|e l He Hl IH]; intros s2; cbn [fold_left]; [reflexivity|].
  etrans; [by apply (sweep_conn_gets now strong s2 e)|apply IH].
Qed.

(** The SYN goes out, or the connection is not there. *)
Lemma tcp_open_gets c i target reply w now s :
  (forall syn, syn_target_encode (tcp_syn target) = Ok syn -> (send (frame_syn c syn) (sp_pool s)).1 = true ->
     P (frame_syn c syn)) -> sp_gets P s (tcp_open c i target reply w now s).2.
Proof.
  intros Hs. unfold tcp_open. unfold tcp_syn in Hs. destruct (syn_target_encode _) as [syn|]; [|reflexivity].
  cbn [sp_pool]. pose proof (send_gets_if P (frame_syn c syn) (sp_pool s) (Hs syn eq_refl)) as G.
  destruct (send _ _) as [ok p]. destruct ok; [done|]. unfold remove_own. by case_decide.
Qed.

Lemma udp_open_gets c i addr reply w now s :
  (forall syn, syn_target_encode udp_syn = Ok syn -> (send (frame_syn c syn) (sp_pool s)).1 = true ->
     P (frame_syn c syn)) -> sp_gets P s (udp_open c i addr reply w now s).2.
Proof.
  intros Hs. unfold udp_open. unfold udp_syn in Hs. destruct (syn_target_encode _) as [syn|]; [|by unfold sp_gets].
  cbn [sp_pool]. pose proof (send_gets_if P (frame_syn c syn) (sp_pool s) (Hs syn eq_refl)) as G.
  destruct (send _ _) as [ok p]. by destruct ok.
Qed.

Lemma udp_datagram_gets src data now u s :
  Forall P (datagram_frames src data u s) -> sp_gets P s (udp_datagram src data now u s).2.
Proof.
  unfold udp_datagram, datagram_frames. destruct (match uc_addr u with None => true | Some _ => _ end); [|reflexivity].
  cbn [negb andb]. pose proof (send_tries_gets P 3 (frame_data (uc_cid u) (uc_seq u) data) (sp_pool s)) as G.
  destruct (send_tries _ _ _) as [[] p]; intros Hf; [|by apply G]. apply G. intros _. by apply Forall_cons_1 in Hf as [Hf _].
Qed.

Lemma udp_finish_gets now u s : is_u32 (uc_cid u) -> sp_gets P s (udp_finish now u s).
Proof.
  intros Hc. unfold udp_finish. etrans; [|by apply sp_gets_rst].
  unfold remove_own. case_decide; by apply sp_gets_same.
Qed.

(** A step of a UDP association. *)
Lemma relay_step_gets e now r s r' s' :
  is_u32 (uc_cid (ur_client r)) ->
  match e with UrDatagram src data => Forall P (datagram_frames src data (ur_client r) s) | _ => True end ->
  relay_step e now r s = Some (r', s') -> sp_gets P s s'.
Proof.
  intros Hc Hp Hs. unfold relay_step in Hs. destruct (sp_vcs s !! _) as [v|]; [|done].
  destruct e as [src data| | | |ok|].
  - destruct (ur_phase r); try done. pose proof (udp_datagram_gets src data now (ur_client r) s Hp) as G.
    destruct (udp_datagram _ _ _ _ _) as [u' s1]. by injection Hs as _ <-.
  - destruct (ur_phase r); try done. by injection Hs as _ <-.
  - destruct (ur_phase r); try done. by injection Hs as _ <-.
  - destruct (ur_phase r); try done. destruct (has_permit _); [|done]. injection Hs as _ <-. by apply sp_gets_same.
  - destruct (ur_responding r); [|done]. destruct (try_recv _) as [[dgram|] c]; [|done].
    destruct (uc_addr _); [destruct ok|]; injection Hs as _ <-; by apply sp_gets_same.
  - destruct (ur_phase r); try done. injection Hs as _ <-. by apply udp_finish_gets.
Qed.

(** A turn of a client handler, around what [send_async] did before. *)
Definition turn_pool (e : tcp_event) (p : TunnelPool) : Prop :=
  match e with TcChunk _ _ q | TcFinish _ q => pool_gets P p q | _ => True end.

Lemma tcp_step_gets e now t s t' s' :
  is_u32 (tc_cid t) -> turn_pool e (sp_pool s) -> tcp_step e now t s = Some (t', s') -> sp_gets P s s'.
Proof.
  intros Hc Hp Hs. unfold tcp_step in Hs. destruct (sp_vcs s !! tc_vc t) as [v|]; [|done].
  destruct e as [chunk sent p| | | |ok p| |], (tc_phase t) as [|r fr|seen| |]; try done; cbn [turn_pool] in Hp.
  - destruct sent; injection Hs as _ <-; exact Hp.
  - by injection Hs as _ <-.
  - by injection Hs as _ <-.
  - destruct (has_permit _); [|done]. destruct (sp_closed v); injection Hs as _ <-; by apply sp_gets_same.
  - assert (sp_gets P s (sp_send (frame_rst (tc_cid t)) s)) as G1 by by apply sp_gets_rst.
    assert (sp_gets P s (sp_send (frame_rst (tc_cid t)) (sp_with_pool p s))) as G2.
    { transitivity (sp_with_pool p s); [exact Hp|by apply sp_gets_rst]. }
    destruct r, fr; try destruct ok; injection Hs as _ <-; done.
  - by injection Hs as _ <-.
  - injection Hs as _ <-. unfold remove_own. case_decide; by apply sp_gets_same.
Qed.
End splitter_sends.
