(* ===== verification/TunnelTask.v ===== *)
(** * The task of one tunnel of the splitter

    Models the reconnect loop of [run_splitter] with [tunnel_read_loop] and the
    recovery of lost frames in [src/src/splitter.rs]: connect, read frames until the
    stream ends or the writer dies, wait for the drain task, recover what it lost, back
    off, connect again.  The connect and the sleeps are events. *)
From Stdlib Require Import ZArith Lia.
From Stdlib Require Import Strings.Byte.
From stdpp Require Import base numbers list option fin_maps gmap.
From S2P Require Import Prelude Runtime Frames Reorder Tunnel Net.
From S2P Require Import Socks5 Splitter SplitterFacts SplitterTcp.
Local Open Scope Z_scope.

Inductive tunnel_phase : Set :=
| TtConnect                    (** awaiting [establish_tunnel] *)
| TtReading (i : nat)          (** in [tunnel_read_loop] of link [i] *)
| TtDraining (i : nat)         (** awaiting the drain task *)
| TtBackoff (deadline : Z)
| TtStopped.

Record TunnelTask : Type := mkTunnelTask { tt_retry : Z; tt_phase : tunnel_phase }.

(** [shutdown] is what the flag reads. *)
Inductive tunnel_event : Type :=
| TvConnected (i : nat)
| TvConnectFailed (shutdown : bool)
| TvFrame (f : Frame)             (** the decoder's next frame *)
| TvReadEnd                       (** end of the stream, or an error of the decoder *)
| TvWriterDied
| TvDrained (shutdown : bool)     (** the drain task returned *)
| TvTick (shutdown : bool).       (** one turn of the interruptible sleep *)

Section tunnel_task.
Context {T : Tokio}.

Definition on_link (g : TunnelLink -> TunnelLink) (i : nat) (s : SState) : SState :=
  let p := sp_pool s in sp_with_pool (mkTunnelPool (alter g i (arcs p)) (links p) (rr p)) s.

(** After a session or a failed connect. *)
Definition back_off (shutdown : bool) (retry now : Z) : TunnelTask :=
  mkTunnelTask retry (if shutdown then TtStopped else TtBackoff (now + 1000 * reconnect_delay retry)).

(** After [tunnel_read_loop]: the link is dead and its drain task told to stop. *)
Definition end_session (l : TunnelLink) : TunnelLink :=
  set_stop (notify_one (stop l)) (set_alive false l).

Definition tunnel_step (e : tunnel_event) (now : Z) (t : TunnelTask) (s : SState)
  : option (TunnelTask * SState) :=
  match e, tt_phase t with
  | TvConnected i, TtConnect =>
    if decide (arcs (sp_pool s) !! i = None)
    then Some (mkTunnelTask 0 (TtReading i), sp_with_pool (pool_add i (new_link now) (sp_pool s)) s)
    else None
  | TvConnectFailed shutdown, TtConnect => Some (back_off shutdown (wrap 32 (tt_retry t + 1)) now, s)
  | TvFrame f, TtReading i =>
    Some (t, on_link (count_recv (zlen (payload f)) now) i (handle_inbound_frame f now s))
  | TvReadEnd, TtReading i => Some (mkTunnelTask (tt_retry t) (TtDraining i), on_link end_session i s)
  | TvWriterDied, TtReading i =>
    match arcs (sp_pool s) !! i with
    | Some l =>
      if has_permit (writer_died l)
      then Some (mkTunnelTask (tt_retry t) (TtDraining i),
                 on_link (fun l => end_session (set_writer_died (notify_take (writer_died l)) l)) i s)
      else None
    | None => None
    end
  | TvDrained shutdown, TtDraining i =>
    match arcs (sp_pool s) !! i with
    | Some l =>
      Some (back_off shutdown (tt_retry t) now,
            recover_lost_sp (lost_frames l) now (on_link (set_lost_frames []) i s))
    | None => None
    end
  | TvTick shutdown, TtBackoff deadline =>
    Some (mkTunnelTask (tt_retry t)
            (if shutdown then TtStopped else if deadline <=? now then TtConnect else TtBackoff deadline), s)
  | _, _ => None
  end.

(** A task run on its own; the shared state before each step is given by the others. *)
Definition tunnel_input : Type := tunnel_event * Z * SState.
Fixpoint tunnel_run (es : list tunnel_input) (t : TunnelTask) : option TunnelTask :=
  match es with
  | [] => Some t
  | (e, now, s) :: es' =>
    match tunnel_step e now t s with Some (t', _) => tunnel_run es' t' | None => None end
  end.

Definition tunnel_start : TunnelTask := mkTunnelTask 0 TtConnect.

(** Failed connects since the last session. *)
Definition failures (es : list tunnel_input) : Z :=
  fold_left (fun n x => match x.1.1 with
                        | TvConnected _ => 0
                        | TvConnectFailed _ => n + 1
                        | _ => n
                        end) es 0.

(** What the task waits, in seconds, by the failures so far. *)
Definition waits (k : Z) : Z := default 24 ([3; 6; 12] !! Z.to_nat k).

Lemma reconnect_delay_waits k : 0 <= k -> reconnect_delay k = waits k.
Proof.
  intros Hk. unfold reconnect_delay, waits.
  destruct (decide (k < 3)) as [Hs|Hs].
  - assert (k = 0 \/ k = 1 \/ k = 2) as [->|[->| ->]] by lia; reflexivity.
  - destruct (Z.eqb_spec k 0); [lia|]. rewrite (Z.min_r k 3) by lia.
    rewrite lookup_ge_None_2; [reflexivity|]. cbn. lia.
Qed.

Lemma failures_nonneg es : 0 <= failures es.
Proof.
  unfold failures. assert (forall n, 0 <= n -> 0 <= fold_left (fun n (x : tunnel_input) =>
    match x.1.1 with TvConnected _ => 0 | TvConnectFailed _ => n + 1 | _ => n end) es n) as H; [|by apply H].
  induction es as [|[[e ?] ?] es IH]; intros n Hn; [done|]. cbn. apply IH. destruct e; lia.
Qed.

Lemma tunnel_run_snoc es x t :
  tunnel_run (es ++ [x]) t =
    match tunnel_run es t with
    | Some t1 => fst <$> tunnel_step x.1.1 x.1.2 t1 x.2
    | None => None
    end.
Proof.
  revert t. induction es as [|[[e now] s] es IH]; intros t; cbn [app tunnel_run].
  - destruct x as [[e now] s]. cbn. by destruct (tunnel_step e now t s) as [[??]|].
  - destruct (tunnel_step e now t s) as [[t1 ?]|]; [apply IH|done].
Qed.

Lemma failures_snoc es e now s :
  failures (es ++ [(e, now, s)]) =
    match e with TvConnected _ => 0 | TvConnectFailed _ => failures es + 1 | _ => failures es end.
Proof. unfold failures. by rewrite fold_left_app. Qed.

Lemma failures_le es : failures es <= zlen es.
Proof.
  induction es as [|[[e now] s] es IH] using rev_ind; [done|].
  rewrite failures_snoc, zlen_app. change (zlen [(e, now, s)]) with 1. pose proof (zlen_nonneg es).
  destruct e; lia.
Qed.

(** The counter is the number of failures, and a session starts it anew. *)
Lemma tunnel_run_retry es t :
  zlen es < 2 ^ 32 -> tunnel_run es tunnel_start = Some t ->
  tt_retry t = failures es /\
  match tt_phase t with TtReading _ | TtDraining _ => failures es = 0 | _ => True end.
Proof.
  revert t. induction es as [|[[e now] s] es IH] using rev_ind; intros t Hn Hr; [cbn in Hr; by simplify_eq|].
  rewrite tunnel_run_snoc in Hr. destruct (tunnel_run es tunnel_start) as [t1|]; [|done].
  rewrite zlen_app in Hn. change (zlen [(e, now, s)]) with 1 in Hn.
  destruct (IH t1 ltac:(lia) eq_refl) as [H1 H2]. pose proof (failures_nonneg es). pose proof (failures_le es).
  rewrite failures_snoc. cbn [fst snd] in Hr. unfold tunnel_step in Hr.
  destruct e as [i|sd|f| | |sd|sd], (tt_phase t1) as [|i1|i1|d|] eqn:Ep; try done; cbn in Hr;
    repeat match type of Hr with context [match ?x with _ => _ end] => destruct x; try done end;
    injection Hr as <-; cbn; rewrite ?H1; try done; try (split; [|done]; apply wrap_small; lia).
  all: rewrite ?Ep; (split; [done || (apply wrap_small; lia)|first [done|by destruct sd]]).
Qed.

(** ** What a dead tunnel leaves *)

(** A frame that is not resent: DATA. *)
Definition is_lost_data (f : Frame) : Prop :=
  Z.land (flags f) (Z.lor FLAG_SYN (Z.lor FLAG_FIN FLAG_RST)) = 0.
#[local] Instance is_lost_data_dec f : Decision (is_lost_data f).
Proof. unfold is_lost_data. apply _. Defined.

Definition lost_data (fs : list Frame) : list Z := conn_id <$> filter is_lost_data fs.

Definition recover_one (f : Frame) (now : Z) (s : SState) : SState := recover_lost_sp [f] now s.

Lemma recover_cons f fs now s :
  recover_lost_sp (f :: fs) now s = recover_lost_sp fs now (recover_one f now s).
Proof. done. Qed.

Lemma reset_conn_conns cid now s c :
  sp_conns (reset_conn cid now s) !! c = if decide (c = cid) then None else sp_conns s !! c.
Proof.
  unfold reset_conn. cbn. destruct (sp_conns s !! cid) as [i|] eqn:E; cbn.
  - case_decide as Hc; [subst; by rewrite lookup_delete_eq|by rewrite lookup_delete_ne].
  - case_decide as Hc; [by subst|done].
Qed.

(** One lost frame. *)
Lemma recover_one_conns f now s c :
  sp_conns (recover_one f now s) !! c =
    if decide (is_lost_data f /\ c = conn_id f) then None else sp_conns s !! c.
Proof.
  unfold recover_one, recover_lost_sp. cbn [fold_left]. unfold is_lost_data.
  destruct (Z.eqb_spec (Z.land (flags f) (Z.lor FLAG_SYN (Z.lor FLAG_FIN FLAG_RST))) 0) as [E|E]; cbn [negb].
  - destruct (decide (is_Some (sp_conns s !! conn_id f))) as [Hs|Hn].
    + rewrite reset_conn_conns. destruct (decide (c = conn_id f)); [by rewrite decide_True|by rewrite decide_False by tauto].
    + destruct (decide (_ /\ c = conn_id f)) as [[_ ->]|]; [|done].
      destruct (sp_conns s !! conn_id f); [destruct Hn; by eexists|done].
  - by rewrite decide_False by tauto.
Qed.

Lemma recover_lost_conns fs now s c :
  sp_conns (recover_lost_sp fs now s) !! c =
    if decide (c ∈ lost_data fs) then None else sp_conns s !! c.
Proof.
  revert s. induction fs as [|f fs IH]; intros s.
  - rewrite decide_False; [done|]. apply not_elem_of_nil.
  - rewrite recover_cons, IH, recover_one_conns.
    unfold lost_data. rewrite filter_cons. destruct (decide (is_lost_data f)) as [Hf|Hf]; cbn [fmap list_fmap];
      repeat case_decide; try done; rewrite ?elem_of_cons in *; naive_solver.
Qed.

(** The connection of a lost DATA frame is reset. *)
Lemma reset_conn_resets cid now s i v :
  sp_conns s !! cid = Some i -> sp_vcs s !! i = Some v ->
  time_wait (reset_conn cid now s) !! cid = Some now /\
  exists v', sp_vcs (reset_conn cid now s) !! i = Some v' /\ sp_closed v' = true /\ sp_rst v' = true.
Proof.
  intros Hc Hv. unfold reset_conn. cbn. rewrite Hc. cbn. split; [by rewrite lookup_insert_eq|].
  rewrite lookup_alter_eq, Hv. cbn. by eexists.
Qed.

Lemma recover_lost_resets fs now s cid i v :
  cid ∈ lost_data fs -> sp_conns s !! cid = Some i -> sp_vcs s !! i = Some v ->
  let s' := recover_lost_sp fs now s in
  time_wait s' !! cid = Some now /\
  exists v', sp_vcs s' !! i = Some v' /\ sp_closed v' = true /\ sp_rst v' = true.
Proof.
  revert s v. induction fs as [|f fs IH]; intros s v Hin Hc Hv; [by apply elem_of_nil in Hin|].
  cbn zeta. rewrite recover_cons.
  destruct (decide (is_lost_data f /\ cid = conn_id f)) as [[Hf ->]|Hn].
  - assert (recover_one f now s = reset_conn (conn_id f) now s) as ->.
    { unfold recover_one, recover_lost_sp. cbn [fold_left]. rewrite Hf. cbn. by rewrite decide_True by by eexists. }
    destruct (reset_conn_resets _ now _ _ _ Hc Hv) as (Ht & v1 & Hv1 & Hc1 & Hr1).
    pose proof (sp_evolve_lost fs now (reset_conn (conn_id f) now s)) as [_ _ Etw Evc].
    destruct (Evc _ _ Hv1) as (v2 & Hv2 & C2 & R2 & _). split.
    + destruct (Etw _ _ Ht (ttl_now now)); done.
    + exists v2. auto.
  - pose proof (sp_evolve_lost [f] now s) as [_ _ _ Evc]. destruct (Evc _ _ Hv) as (v1 & Hv1 & _).
    apply (IH _ v1); [|by rewrite recover_one_conns, decide_False|done].
    unfold lost_data in Hin. rewrite filter_cons in Hin. case_decide as Hf; [|done].
    apply elem_of_cons in Hin as [->|?]; [tauto|done].
Qed.

(** Sending leaves the lost frames of every link alone. *)
Definition no_lost (i : nat) (a : gmap nat TunnelLink) : Prop :=
  exists l, a !! i = Some l /\ lost_frames l = [].

Lemma no_lost_insert i j l l' (a : gmap nat TunnelLink) :
  a !! j = Some l -> lost_frames l' = lost_frames l -> no_lost i a -> no_lost i (<[j := l']> a).
Proof.
  intros Hj Hl (k & Hk & Hn). destruct (decide (i = j)) as [->|Hne].
  - exists l'. rewrite lookup_insert_eq. split; [done|]. rewrite Hj in Hk. injection Hk as ->. by rewrite Hl.
  - exists k. by rewrite lookup_insert_ne.
Qed.

Lemma send_loop_no_lost f ids i a : no_lost i a -> no_lost i (send_loop f ids a).2.
Proof.
  revert a. induction ids as [|j ids IH]; intros a H; [done|]. cbn [send_loop].
  destruct (a !! j) as [l|] eqn:Hj; [|by apply IH]. destruct (alive l); [|by apply IH].
  destruct (try_send f (tx l)) as [[[|]|] c]; [apply IH..|cbn]; by eapply no_lost_insert.
Qed.

Lemma sp_send_no_lost f i s : no_lost i (arcs (sp_pool s)) -> no_lost i (arcs (sp_pool (sp_send f s))).
Proof.
  intros H. unfold sp_send, send. cbn. destruct (links (sp_pool s)) as [|j js]; [done|].
  pose proof (send_loop_no_lost f (rotation (rr (sp_pool s)) (j :: js)) i _ H) as H'.
  by destruct (send_loop _ _ _).
Qed.

Lemma recover_keeps_lost fs now i s :
  no_lost i (arcs (sp_pool s)) -> no_lost i (arcs (sp_pool (recover_lost_sp fs now s))).
Proof.
  revert s. induction fs as [|f fs IH]; intros s H; [done|]. rewrite recover_cons. apply IH.
  unfold recover_one, recover_lost_sp. cbn [fold_left].
  destruct (negb _); [by apply sp_send_no_lost|]. destruct (decide _); [|done].
  unfold reset_conn. cbn. apply sp_send_no_lost. by destruct (sp_conns s !! conn_id f).
Qed.

(** ** Properties *)

(** C37: when the task waits and how long.  Over any run (of fewer than 2^32 events): after
    a session it waits 3 s; after the first, second and each later failed connect in a
    row 6, 12 and 24 s; if the shutdown flag is set at that moment, or at any turn of the
    sleep, it stops instead; and it connects again only from a sleep whose deadline has
    passed. *)
Theorem tunnel_backoff es t e now s t' s' :
  zlen es < 2 ^ 32 - 1 -> tunnel_run es tunnel_start = Some t ->
  tunnel_step e now t s = Some (t', s') ->
  match e with
  | TvDrained shutdown => tt_phase t' = if shutdown then TtStopped else TtBackoff (now + 3000)
  | TvConnectFailed shutdown =>
    tt_phase t' = if shutdown then TtStopped else TtBackoff (now + 1000 * waits (failures es + 1))
  | TvTick shutdown =>
    (shutdown = true -> tt_phase t' = TtStopped) /\
    (tt_phase t' = TtConnect -> exists deadline, tt_phase t = TtBackoff deadline /\ deadline <= now)
  | TvConnected i => tt_phase t = TtConnect /\ tt_phase t' = TtReading i /\ i ∈ links (sp_pool s')
  | _ => tt_phase t' <> TtConnect
  end.
Proof.
  intros Hn Hr Hs. destruct (tunnel_run_retry es t ltac:(lia) Hr) as [H1 H2].
  pose proof (failures_nonneg es). pose proof (failures_le es).
  unfold tunnel_step in Hs.
  destruct e as [i|sd|f| | |sd|sd], (tt_phase t) as [|i'|i'|d|] eqn:Ep; try done.
  - case_decide; [|done]. injection Hs as <- <-. cbn. split_and!; [done|done|].
    apply elem_of_app. right. by apply list_elem_of_singleton.
  - injection Hs as <- <-. cbn. rewrite H1, wrap_small by lia. destruct sd; [done|].
    by rewrite reconnect_delay_waits by lia.
  - injection Hs as <- <-. by rewrite Ep.
  - injection Hs as <- <-. done.
  - destruct (arcs _ !! i') as [l|]; [|done]. destruct (has_permit _); [|done]. by injection Hs as <- <-.
  - destruct (arcs _ !! i') as [l|]; [|done]. injection Hs as <- <-. cbn. by rewrite H1, H2.
  - injection Hs as <- <-. cbn. split; [by intros ->|]. destruct sd; [done|].
    destruct (Z.leb_spec d now); [|done]. intros _. by exists d.
Qed.

End tunnel_task.

(** ** Witnesses *)
#[local] Existing Instance RefTokio.
#[local] Existing Instance RefTokio_laws.

(** Connection 9 sent a DATA frame and a FIN that link 0 never wrote. *)
Definition dead_link : TunnelLink :=
  set_lost_frames [frame_data 9 1 [x61]; frame_fin 8 1] (set_alive false (new_link 0)).
Definition dead_state : SState :=
  mkSState {[0%nat := demo_conn; 1%nat := demo_conn]} {[9 := 0%nat; 8 := 1%nat]} ∅
    (pool_add 0 dead_link pool_new) 0.


Lemma tunnel_backoff_witness :
  let es := [(TvConnectFailed false, 10, dead_state); (TvTick false, 7000, dead_state)] in
  tt_phase (mkTunnelTask 2 (TtBackoff 19000)) = TtBackoff (7000 + 1000 * waits (failures es + 1)).
Proof.
  apply (tunnel_backoff [(TvConnectFailed false, 10, dead_state); (TvTick false, 7000, dead_state)]
    (mkTunnelTask 1 TtConnect) (TvConnectFailed false) 7000 dead_state (mkTunnelTask 2 (TtBackoff 19000)) dead_state);
    [zcompute|reflexivity|reflexivity].
Defined.
