(* ===== verification/LinkTask.v ===== *)
(** * The tunnel links of the reassembler

    Models the tasks [run_tunnel_listener] starts for each accepted tunnel in
    [src/src/reassembler.rs], around [rstep]: the read loop with the dispatch of its
    frames, the SYN handlers it spawns under the permits of [syn_limit] or runs in place,
    and the end of both halves of a link. *)
From Stdlib Require Import ZArith Lia.
From Stdlib Require Import Strings.Byte.
From stdpp Require Import base numbers list option fin_maps gmap.
From S2P Require Import Prelude Runtime Frames Reorder Tunnel Net.
From S2P Require Import Socks5 Reassembler Splitter TunnelTask.
Local Open Scope Z_scope.

(** [tunnel_read_loop] of a link: in its [select!], awaiting the SYN handler [n] it runs
    in place, or returned. *)
Inductive reader_phase : Type :=
| LrReading
| LrHandshake (n : nat) (f : Frame)
| LrDone.

Section link_task.
Context {T : Tokio} {D : DashIter} {B : BufMut}.
Context (lookup_host : bytes -> Z -> option IpAddr) (window_bytes : Z).

(** The shared state; the free permits of [syn_limit]; the SYN handlers that were spawned
    and did not run yet; all spawned handlers, each with its permit; the read loops, and
    the links whose writer task runs. *)
Record LState : Type := mkLState {
  l_state : RState;
  l_permits : Z;
  l_queued : gmap nat Frame;
  l_spawned : gset nat;
  l_readers : gmap nat reader_phase;
  l_drains : gset nat;
}.

Definition with_state (s : RState) (x : LState) : LState :=
  mkLState s (l_permits x) (l_queued x) (l_spawned x) (l_readers x) (l_drains x).
Definition with_reader (i : nat) (r : reader_phase) (x : LState) : LState :=
  mkLState (l_state x) (l_permits x) (l_queued x) (l_spawned x) (<[i := r]> (l_readers x)) (l_drains x).

Definition on_rlink (g : TunnelLink -> TunnelLink) (i : nat) (s : RState) : RState :=
  let p := rpool s in with_rpool (mkTunnelPool (alter g i (arcs p)) (links p) (rr p)) s.

(** The counters after a frame was dispatched. *)
Definition frame_done (i : nat) (f : Frame) (now_ms : Z) (x : LState) : LState :=
  with_state (on_rlink (count_recv (zlen (payload f)) now_ms) i (l_state x)) x.

(** A spawned handler ends and drops its permit. *)
Definition release (n : nat) (x : LState) : LState :=
  mkLState (l_state x) (l_permits x + 1) (l_queued x) (l_spawned x ∖ {[n]}) (l_readers x) (l_drains x).

Definition waiting (n : nat) (s : RState) : Prop := is_Some (tasks s !! n).
#[global] Instance waiting_dec n s : Decision (waiting n s).
Proof. unfold waiting. apply _. Defined.

Inductive link_event : Type :=
| LvAccept (i : nat) (now_ms : Z)
| LvFrame (i : nat) (f : Frame) (n : nat) (now now_ms : Z) (** the decoder's next frame *)
| LvRun (n : nat) (now : Z)                      (** a spawned handler runs to its await *)
| LvResume (who : option nat) (n : nat) (e : REvent) (now now_ms : Z)
    (** a waiting handler ends; [who]: the link that runs it in place *)
| LvReadEnd (i : nat)                            (** end of the stream, or an error *)
| LvWriterDied (i : nat)
| LvDrained (i : nat)                            (** [drain_frames] returned *)
| LvOther (e : REvent) (now : Z).                (** the other tasks *)

(** The handler an event resumes. *)
Definition resumes (e : REvent) : option nat :=
  match e with EvUdpBound n _ _ | EvConnected n _ _ => Some n | _ => None end.
Definition is_other (e : REvent) : bool :=
  match e with EvFallback _ | EvReader _ _ | EvUdpResponse _ _ _ _ | EvHeartbeat _ => true | _ => false end.

(** A connection accepted by [run_tunnel_listener], and its two tasks. *)
Definition link_accept (i : nat) (now_ms : Z) (x : LState) : LState :=
  let s := l_state x in
  let s1 := accept_tunnel i now_ms s in
  if alive_count (rpool s) >=? MAX_TUNNEL_LINKS then with_state s1 x
  else mkLState s1 (l_permits x) (l_queued x) (l_spawned x) (<[i := LrReading]> (l_readers x)) ({[i]} ∪ l_drains x).

(** A frame in [tunnel_read_loop] and [dispatch_frame]. *)
Definition link_frame (i : nat) (f : Frame) (n : nat) (now now_ms : Z) (x : LState) : LState :=
  match dispatch_frame f (l_permits x) with
  | (true, permits) =>
    frame_done i f now_ms
      (mkLState (l_state x) permits (<[n := f]> (l_queued x)) ({[n]} ∪ l_spawned x) (l_readers x) (l_drains x))
  | (false, _) =>
    let x1 := with_state (handle_frame lookup_host f n now (l_state x)) x in
    if decide (waiting n (l_state x1)) then with_reader i (LrHandshake n f) x1 else frame_done i f now_ms x1
  end.

(** The spawned task of [dispatch_frame]. *)
Definition link_run_spawned (n : nat) (f : Frame) (now : Z) (x : LState) : LState :=
  let s1 := handle_frame lookup_host f n now (l_state x) in
  let x1 := mkLState s1 (l_permits x) (delete n (l_queued x)) (l_spawned x) (l_readers x) (l_drains x) in
  if decide (waiting n s1) then x1 else release n x1.

(** After [tunnel_read_loop]. *)
Definition link_end (g : TunnelLink -> TunnelLink) (i : nat) (x : LState) : LState :=
  with_reader i LrDone (with_state (on_rlink g i (l_state x)) x).

(** After [drain_frames]. *)
Definition link_drained (i : nat) (l : TunnelLink) (x : LState) : LState :=
  let s1 := recover_lost_de (lost_frames l) (on_rlink (set_lost_frames []) i (l_state x)) in
  mkLState s1 (l_permits x) (l_queued x) (l_spawned x) (l_readers x) (l_drains x ∖ {[i]}).

(** [None]: not possible in that state. *)
Definition link_step (e : link_event) (x : LState) : option LState :=
  let s := l_state x in
  match e with
  | LvAccept i now_ms => if decide (arcs (rpool s) !! i = None) then Some (link_accept i now_ms x) else None
  | LvFrame i f n now now_ms =>
    match l_readers x !! i with
    | Some LrReading =>
      if decide (hs_notifies s !! n = None /\ l_queued x !! n = None)
      then Some (link_frame i f n now now_ms x) else None
    | _ => None
    end
  | LvRun n now =>
    match l_queued x !! n with Some f => Some (link_run_spawned n f now x) | None => None end
  | LvResume who n e now now_ms =>
    if decide (resumes e = Some n) then
      match rstep lookup_host window_bytes e now s with
      | None => None
      | Some s1 =>
        let x1 := with_state s1 x in
        match who with
        | None => if decide (n ∈ l_spawned x) then Some (release n x1) else None
        | Some i =>
          match l_readers x !! i with
          | Some (LrHandshake m f) =>
            if decide (m = n) then Some (frame_done i f now_ms (with_reader i LrReading x1)) else None
          | _ => None
          end
        end
      end
    else None
  | LvReadEnd i =>
    match l_readers x !! i with Some LrReading => Some (link_end end_session i x) | _ => None end
  | LvWriterDied i =>
    match l_readers x !! i, arcs (rpool s) !! i with
    | Some LrReading, Some l =>
      if has_permit (writer_died l)
      then Some (link_end (fun l => end_session (set_writer_died (notify_take (writer_died l)) l)) i x) else None
    | _, _ => None
    end
  | LvDrained i =>
    if decide (i ∈ l_drains x) then
      match arcs (rpool s) !! i with Some l => Some (link_drained i l x) | None => None end
    else None
  | LvOther e now =>
    if is_other e then
      match rstep lookup_host window_bytes e now s with Some s1 => Some (with_state s1 x) | None => None end
    else None
  end.

Fixpoint link_run (es : list link_event) (x : LState) : option LState :=
  match es with
  | [] => Some x
  | e :: es' => match link_step e x with Some x' => link_run es' x' | None => None end
  end.

Definition links_start : LState :=
  mkLState (reassembler_init pool_new) MAX_CONCURRENT_SYN_HANDSHAKES ∅ ∅ ∅ ∅.
End link_task.
