(* ===== verification/LinkFacts.v ===== *)
(** * The tunnel links of the reassembler: permits, and what the links do to its state

    The permits of the SYN handlers over all runs of [link_step], and the refinement of
    [rstep] by it. *)
From Stdlib Require Import ZArith Lia.
From Stdlib Require Import Strings.Byte.
From stdpp Require Import base numbers list option fin_maps gmap.
From S2P Require Import Prelude Runtime Frames Reorder Tunnel Net.
From S2P Require Import Socks5 Reassembler Splitter TunnelTask LinkTask.
Local Open Scope Z_scope.

Section link_facts.
Context {T : Tokio} {D : DashIter} {B : BufMut}.
Context (lookup_host : bytes -> Z -> option IpAddr) (window_bytes : Z).

(** ** The handlers in flight

    [keeps]: a step that neither starts nor ends a SYN handler. *)
Record keeps (s s' : RState) : Prop := {
  k_tasks : tasks s' = tasks s;
  k_hs : dom (hs_notifies s') = dom (hs_notifies s);
}.

#[local] Instance keeps_preorder : PreOrder keeps.
Proof. split; [by split|]. intros s1 s2 s3 [A1 A2] [B1 B2]. split; congruence. Qed.

Lemma keeps_notify c s : keeps s (notify_cancel c s).
Proof. destruct c; split; try done. cbn. by rewrite dom_alter_L. Qed.

Lemma keeps_fold {A} (g : RState -> A -> RState) (l : list A) s :
  (forall s x, keeps s (g s x)) -> keeps s (fold_left g l s).
Proof. intros Hg. revert s. induction l as [|x l IH]; intros s; cbn; [reflexivity|]. etrans; [apply Hg|apply IH]. Qed.

(** Case analysis, down to record updates. *)
Ltac keeps := repeat (case_match || case_decide); simplify_eq; first [reflexivity|by split].

Lemma keeps_end c s : keeps s (end_handshake c s).
Proof. by split. Qed.
Lemma keeps_resets k s : keeps s (with_resets k s).
Proof. by split. Qed.
Lemma keeps_closed m s : keeps s (with_closed m s).
Proof. by split. Qed.
Lemma keeps_pending m b s : keeps s (with_pending m b s).
Proof. by split. Qed.
Lemma keeps_handshaking m s : keeps s (with_handshaking m s).
Proof. by split. Qed.
Lemma keeps_remove_conn c s : keeps s (remove_conn c s).
Proof. unfold remove_conn. keeps. Qed.
Lemma keeps_reset c now s : keeps s (reset_conn_de c now s).
Proof. unfold reset_conn_de, remove_conn. cbn. keeps. Qed.
Lemma keeps_remove_pending c s : keeps s (remove_pending c s).2.
Proof. unfold remove_pending. keeps. Qed.
Lemma keeps_finish i c now s : keeps s (finish_if_done i c now s).
Proof. unfold finish_if_done. keeps. Qed.
Lemma keeps_start_half i sq s : keeps s (start_half_close i sq s).
Proof. unfold start_half_close. keeps. Qed.
Lemma keeps_forward v p s : keeps s (forward_udp_datagram lookup_host v p s).
Proof. unfold forward_udp_datagram. keeps. Qed.

Lemma keeps_cancel c s : keeps s (cancel_pending c s).
Proof. unfold cancel_pending. destruct (pending s !! c); [|reflexivity]. etrans; [|apply keeps_notify]. by split. Qed.

Lemma keeps_fail c now s : keeps s (fail_pending_conn c now s).
Proof. unfold fail_pending_conn. etrans; [apply (keeps_cancel c)|]. by split. Qed.

Lemma keeps_evict k e now s : keeps s (evict k e now s).
Proof. unfold evict. etrans; [|etrans; [apply (keeps_notify (pe_cancel e))|by split]]. by split. Qed.

Lemma keeps_reserve fuel ex need now s : keeps s (try_reserve_pending fuel ex need now s).2.
Proof.
  revert s. induction fuel as [|fuel IH]; intros s; cbn [try_reserve_pending];
    (destruct (_ <=? _); [by split|]); destruct (oldest_entry ex (pending s)) as [[k e]|]; try reflexivity.
  etrans; [apply (keeps_evict k e now)|apply IH].
Qed.

Lemma keeps_data_conn i f now s : keeps s (data_conn lookup_host i f now s).
Proof.
  unfold data_conn. destruct (vcs s !! i) as [v|]; [|reflexivity]. destruct (is_udp v).
  - etrans; [apply (keeps_forward v (payload f))|by split].
  - destruct (deliver _ _ v) as [[| |] v1]; [|by split|etrans; [|apply keeps_reset]; by split].
    destruct (fin_received _); [etrans; [|apply keeps_finish]|]; by split.
Qed.

Lemma keeps_data_unknown f now s : keeps s (data_unknown f now s).2.
Proof.
  unfold data_unknown, reserve. case_decide; [by split|]. case_decide.
  - pose proof (keeps_reserve (size (pending s)) (Some (conn_id f)) (zlen (payload f)) now s) as Hr.
    destruct (try_reserve_pending _ _ _ _ _) as [[[]|] s1]; cbn [snd] in *;
      try (etrans; [exact Hr|apply keeps_fail]).
    etrans; [exact Hr|]. destruct (pending s1 !! conn_id f); [|by split].
    destruct (_ <? _); [by split|]. cbn [snd]. etrans; [|apply keeps_fail]. by split.
  - destruct (_ <? _); [|apply keeps_fail].
    pose proof (keeps_reserve (size (pending s)) None (zlen (payload f)) now s) as Hr.
    destruct (try_reserve_pending _ _ _ _ _) as [[[]|] s1]; cbn [snd] in *;
      (etrans; [exact Hr|first [apply keeps_fail|by split]]).
Qed.

Lemma keeps_handle_data f now s : keeps s (handle_data lookup_host f now s).
Proof.
  unfold handle_data. destruct (conns s !! conn_id f); [apply keeps_data_conn|].
  pose proof (keeps_data_unknown f now s) as H. destruct (data_unknown f now s) as [[] s']; cbn in H; [|done].
  destruct (conns s' !! conn_id f); [|done]. etrans; [exact H|apply keeps_data_conn].
Qed.

Lemma keeps_handle_fin f now s : keeps s (handle_fin f now s).
Proof.
  unfold handle_fin. destruct (conns s !! conn_id f) as [i|].
  - destruct (vcs s !! i) as [v|]; [|reflexivity]. destruct (is_udp v); [reflexivity|].
    etrans; [apply (keeps_start_half i (seq f))|apply keeps_finish].
  - case_decide; [reflexivity|]. destruct (pending s !! conn_id f); (destruct (_ <? _); [by split|apply keeps_fail]).
Qed.

Lemma keeps_handle_rst c now s : keeps s (handle_rst c now s).
Proof.
  unfold handle_rst. destruct (conns s !! c).
  - etrans; [|etrans; [apply (keeps_remove_conn c (tombstone c now s))|]]; by split.
  - etrans; [apply (keeps_cancel c)|]. by split.
Qed.

Lemma keeps_syn_fail c now s : keeps s (syn_fail c now s).
Proof. unfold syn_fail. etrans; [apply (keeps_remove_pending c)|]. by split. Qed.

Lemma keeps_drop c now s : keeps s (drop_cancelled c now s).
Proof. unfold drop_cancelled. etrans; [apply (keeps_remove_conn c)|]. by split. Qed.

Lemma keeps_syn_udp c i bound now s : keeps s (syn_udp lookup_host window_bytes c i bound now s).
Proof.
  unfold syn_udp. destruct bound as [sock|]; [|apply keeps_syn_fail].
  set (s1 := install_conn _ _ c s). assert (keeps s s1) as H1 by by split.
  pose proof (keeps_remove_pending c s1) as H2. destruct (remove_pending c s1) as [[e|] s2]; cbn in H2.
  - etrans; [exact H1|]. etrans; [exact H2|]. destruct (pe_cancelled e); [apply keeps_drop|].
    etrans; [|apply keeps_end]. apply keeps_fold. intros s3 f. destruct (has_flag f FLAG_DATA); [apply keeps_forward|reflexivity].
  - etrans; [exact H1|]. etrans; [exact H2|by split].
Qed.

Lemma keeps_syn_drain c i now s : keeps s (syn_drain c i now s).
Proof.
  unfold syn_drain. pose proof (keeps_remove_pending c s) as H. destruct (remove_pending c s) as [[e|] s1]; cbn in H;
    (etrans; [exact H|]); [|by split]. destruct (pe_cancelled e); [apply keeps_drop|].
  destruct (vcs s1 !! i) as [v|]; [|by split]. destruct (replay _ _ _) as [[[] fin] v'].
  - etrans; [|apply keeps_end]. etrans; [|apply keeps_reset]. by split.
  - etrans; [|apply keeps_end]. destruct fin as [sq|]; [|by split].
    etrans; [|apply keeps_finish]. etrans; [|apply keeps_start_half]. by split.
Qed.

Lemma keeps_connected c i o now s : keeps s (syn_connected window_bytes c i o now s).
Proof.
  destruct o; cbn; try apply keeps_syn_fail.
  - case_decide; [etrans; [apply (keeps_remove_pending c)|by split]|]. etrans; [|apply keeps_syn_drain]. by split.
  - etrans; [apply (keeps_remove_pending c)|]. by split.
Qed.

Lemma keeps_reader e now t s : keeps s (reader_step e now t s).2.
Proof.
  destruct e as [|chunk [| |] p|[| |] p]; cbn; try by split.
  - etrans; [|etrans; [apply (keeps_remove_conn (rd_cid t) (tombstone (rd_cid t) now (with_rpool p s)))|]]; by split.
  - etrans; [|apply keeps_finish]. by split.
  - etrans; [|apply keeps_finish]. by split.
  - etrans; [|apply keeps_finish]. by split.
Qed.

Lemma keeps_udp_response c sq a d now s : keeps s (udp_response c sq a d now s).2.
Proof.
  unfold udp_response. destruct (encode_udp_datagram _ d) as [b|]; [|reflexivity]. destruct (_ >? _); [reflexivity|].
  destruct (send _ _) as [[] p]; cbn; [|by split]. destruct (conns s !! c); by split.
Qed.

Lemma keeps_heartbeat now now_ms s : keeps s (heartbeat now now_ms s).
Proof.
  unfold heartbeat, sweep_stale_pending. etrans; [|apply keeps_resets]. etrans; [|apply keeps_fold].
  - etrans; [|apply keeps_pending]. etrans; [|apply keeps_handshaking]. etrans; [|apply keeps_closed].
    etrans; [|apply keeps_fold]; [by split|].
    intros s1 e. unfold sweep_conn. destruct (vcs s1 !! e.2) as [v|]; [|reflexivity]. destruct (conn_idle now v); [|reflexivity].
    etrans; [|etrans; [apply (keeps_remove_conn e.1 (tombstone e.1 now s1))|]]; by split.
  - intros s1 ke. unfold sweep_reset. etrans; [apply (keeps_notify (pe_cancel ke.2))|]. by split.
Qed.

Lemma keeps_lost lost s : keeps s (recover_lost_de lost s).
Proof. apply keeps_fold. intros s1 f. destruct (negb _); by split. Qed.

Lemma keeps_accept i now_ms s : keeps s (accept_tunnel i now_ms s).
Proof. unfold accept_tunnel. destruct (_ >=? _); by split. Qed.

Lemma keeps_other e now s s' :
  is_other e = true -> rstep lookup_host window_bytes e now s = Some s' -> keeps s s'.
Proof.
  intros He Hs. destruct e; try done; cbn in Hs.
  - case_decide; [|done]. injection Hs as <-. by split.
  - destruct (rd_done t); [done|]. injection Hs as <-. apply keeps_reader.
  - injection Hs as <-. apply keeps_udp_response.
  - injection Hs as <-. apply keeps_heartbeat.
Qed.

(** A step of the handler [n]: only its own entries change, and it waits only with its
    [Notify] in the store. *)
Record handler_step (n : nat) (s s' : RState) : Prop := {
  hd_tasks m : m <> n -> tasks s' !! m = tasks s !! m;
  hd_hs m : m <> n -> (m ∈ dom (hs_notifies s') <-> m ∈ dom (hs_notifies s));
  hd_known : waiting n s' -> n ∈ dom (hs_notifies s');
}.

Lemma keeps_handler n s s' : keeps s s' -> (waiting n s -> n ∈ dom (hs_notifies s)) -> handler_step n s s'.
Proof. intros [K1 K2] H. split; unfold waiting in *; rewrite ?K1, ?K2; auto. Qed.

Lemma handler_keeps n s s1 s2 : handler_step n s s1 -> keeps s1 s2 -> handler_step n s s2.
Proof. intros [H1 H2 H3] [K1 K2]. split; unfold waiting in *; rewrite ?K1, ?K2; auto. Qed.

Lemma handler_syn f n now s : ~ waiting n s -> handler_step n s (handle_syn f n now s).
Proof.
  intros Hw. assert (forall s', keeps s s' -> handler_step n s s') as Hk by (intros; by apply keeps_handler).
  unfold handle_syn. case_decide; [by apply Hk|]. destruct (bool_decide _); [by apply Hk; split|].
  set (s1 := with_handshaking _ s). set (s2 := with_notifies _ _).
  assert (handler_step n s s2) as H2.
  { split; cbn; [done| |].
    - intros m Hm. rewrite dom_insert_L, elem_of_union, elem_of_singleton. naive_solver.
    - intros _. rewrite dom_insert_L. set_solver. }
  case_decide; [eapply handler_keeps; [exact H2|]; etrans; [apply (keeps_remove_pending (conn_id f))|apply keeps_end]|].
  destruct (syn_target_decode _) as [t|]; [|eapply handler_keeps; [exact H2|apply keeps_syn_fail]].
  destruct (negb _ && negb _); [eapply handler_keeps; [exact H2|apply keeps_syn_fail]|].
  destruct H2 as [A1 A2 A3]. split; cbn.
  - intros m Hm. by rewrite lookup_insert_ne.
  - intros m Hm. rewrite dom_insert_L, elem_of_union, elem_of_singleton. naive_solver.
  - intros _. rewrite dom_insert_L. set_solver.
Qed.

Lemma handler_frame f n now s : ~ waiting n s -> handler_step n s (handle_frame lookup_host f n now s).
Proof.
  intros Hw. unfold handle_frame. destruct (has_flag f FLAG_SYN); [by apply handler_syn|].
  apply keeps_handler; [|done].
  destruct (has_flag f FLAG_DATA); [apply keeps_handle_data|].
  destruct (has_flag f FLAG_FIN); [apply keeps_handle_fin|].
  destruct (has_flag f FLAG_RST); [apply keeps_handle_rst|reflexivity].
Qed.

Lemma rstep_resumes e n now s s' :
  resumes e = Some n -> rstep lookup_host window_bytes e now s = Some s' ->
  waiting n s /\ keeps (with_tasks (delete n (tasks s)) s) s'.
Proof.
  intros He Hs. destruct e; try done; cbn in He; injection He as ->; cbn in Hs; (case_decide; [|done]);
    unfold resume in Hs; unfold waiting; destruct (tasks s !! n) as [[c|c t]|]; try done; injection Hs as <-.
  - split; [by eexists|apply keeps_syn_udp].
  - split; [by eexists|apply keeps_connected].
Qed.

(** ** The invariant of the permits *)
Record link_inv (x : LState) : Prop := {
  li_count : l_permits x + Z.of_nat (size (l_spawned x)) = MAX_CONCURRENT_SYN_HANDSHAKES;
  li_free : 0 <= l_permits x;
  li_known n : waiting n (l_state x) -> n ∈ dom (hs_notifies (l_state x));
  li_queued n f : l_queued x !! n = Some f -> n ∈ l_spawned x /\ n ∉ dom (hs_notifies (l_state x));
  li_spawned n : n ∈ l_spawned x -> is_Some (l_queued x !! n) \/ waiting n (l_state x);
  li_inline i n f : l_readers x !! i = Some (LrHandshake n f) -> waiting n (l_state x) /\ n ∉ l_spawned x;
  li_one i j n f g : l_readers x !! i = Some (LrHandshake n f) ->
    l_readers x !! j = Some (LrHandshake n g) -> i = j;
}.

Lemma link_inv_state s x : link_inv x -> keeps (l_state x) s -> link_inv (with_state s x).
Proof.
  intros [H1 H2 H3 H4 H5 H6 H7] [K1 K2]. split; unfold waiting in *; cbn in *; rewrite ?K1, ?K2; try done.
Qed.

(** A read loop that is not in a handler. *)
Lemma link_inv_reader i r x :
  link_inv x -> (forall n f, r <> LrHandshake n f) -> link_inv (with_reader i r x).
Proof.
  intros [H1 H2 H3 H4 H5 H6 H7] Hr. split; cbn; try done.
  - intros j n f [[-> Hj]|[_ Hj]]%lookup_insert_Some; [by destruct (Hr n f)|by eapply H6].
  - intros j k n f g [[-> Hj]|[_ Hj]]%lookup_insert_Some [[-> Hk]|[_ Hk]]%lookup_insert_Some;
      try done; try (by destruct (Hr n f)); try (by destruct (Hr n g)). by eapply H7.
Qed.

Lemma link_inv_done i f now_ms x : link_inv x -> link_inv (frame_done i f now_ms x).
Proof. intros H. by apply link_inv_state. Qed.

(** A frame of a read loop that spawns its handler. *)
Lemma link_inv_spawn n f permits x :
  link_inv x -> dispatch_frame f (l_permits x) = (true, permits) ->
  hs_notifies (l_state x) !! n = None -> l_queued x !! n = None ->
  link_inv (mkLState (l_state x) permits (<[n := f]> (l_queued x)) ({[n]} ∪ l_spawned x) (l_readers x) (l_drains x)).
Proof.
  intros HI Hd Hn Hq. destruct HI as [H1 H2 H3 H4 H5 H6 H7].
  apply not_elem_of_dom_2 in Hn.
  assert (n ∉ l_spawned x) as Hns by (intros [[? E]|Hw]%H5; [congruence|by apply Hn, H3]).
  unfold dispatch_frame in Hd. destruct (has_flag f FLAG_SYN); [|done]. cbn in Hd.
  destruct (Z.ltb_spec 0 (l_permits x)); [|done]. injection Hd as <-. split; cbn; try done.
  - rewrite size_union, size_singleton by set_solver. lia.
  - lia.
  - intros m g [[<- _]|[_ Hm]]%lookup_insert_Some; [set_solver|]. destruct (H4 m g Hm). set_solver.
  - intros m [->%elem_of_singleton|Hm]%elem_of_union; [left; rewrite lookup_insert_eq; by eexists|].
    destruct (H5 m Hm) as [[g Hg]|]; [|by right]. left. destruct (decide (n = m)) as [->|];
      [rewrite lookup_insert_eq; by eexists|rewrite lookup_insert_ne by done; by eexists].
  - intros i m g Hi. destruct (H6 i m g Hi) as [Hw Hm]. split; [done|].
    intros [->%elem_of_singleton|?]%elem_of_union; [by apply Hn, H3|done].
Qed.

(** The handler of a fresh [n] runs, in a read loop. *)
Lemma link_inv_frame n f now x :
  link_inv x -> hs_notifies (l_state x) !! n = None -> l_queued x !! n = None ->
  link_inv (with_state (handle_frame lookup_host f n now (l_state x)) x) /\
  n ∉ l_spawned x /\ (forall i g, l_readers x !! i <> Some (LrHandshake n g)).
Proof.
  intros [H1 H2 H3 H4 H5 H6 H7] Hn%not_elem_of_dom_2 Hq.
  assert (~ waiting n (l_state x)) as Hnw by (intros Hw; by apply Hn, H3).
  pose proof (handler_frame f n now (l_state x) Hnw) as [T1 T2 T3].
  assert (n ∉ l_spawned x) as Hns by (intros [[? E]|Hw]%H5; [congruence|done]).
  assert (forall m, m <> n -> waiting m (handle_frame lookup_host f n now (l_state x)) <-> waiting m (l_state x)) as Hw.
  { intros m Hm. unfold waiting. by rewrite T1. }
  split; [|split; [done|intros i g Hi; by destruct (H6 _ _ _ Hi)]]. split; cbn; try done.
  - intros m Hm. destruct (decide (m = n)) as [->|Hne]; [by apply T3|]. apply T2; [done|]. by apply H3, Hw.
  - intros m g Hm. destruct (decide (m = n)) as [->|Hne]; [congruence|]. rewrite T2 by done. by eapply H4.
  - intros m Hm. rewrite Hw by (intros ->; done). auto.
  - intros i m g Hi. destruct (H6 _ _ _ Hi). rewrite Hw by (intros ->; done). done.
Qed.

Lemma waiting_step n m s s' : handler_step n s s' -> m <> n -> waiting m s' <-> waiting m s.
Proof. intros [T1 _ _] Hm. unfold waiting. by rewrite T1. Qed.

(** A spawned handler runs to an await, or to its end. *)
Lemma link_inv_await n s x :
  link_inv x -> n ∈ l_spawned x -> handler_step n (l_state x) s -> waiting n s ->
  link_inv (mkLState s (l_permits x) (delete n (l_queued x)) (l_spawned x) (l_readers x) (l_drains x)).
Proof.
  intros [H1 H2 H3 H4 H5 H6 H7] Hn Hs Hw. pose proof Hs as [T1 T2 T3]. split; cbn; try done.
  - intros m Hm. destruct (decide (m = n)) as [->|Hne]; [by apply T3|]. apply T2; [done|].
    by apply H3, (waiting_step n m _ _ Hs).
  - intros m f [Hne Hm]%lookup_delete_Some. rewrite T2 by done. by eapply H4.
  - intros m Hm. destruct (decide (m = n)) as [->|Hne]; [by right|]. rewrite lookup_delete_ne by done.
    rewrite (waiting_step n m _ _ Hs) by done. auto.
  - intros i m f Hi. destruct (H6 i m f Hi). rewrite (waiting_step n m _ _ Hs) by (by intros ->). done.
Qed.

Lemma link_inv_finish n s x :
  link_inv x -> n ∈ l_spawned x -> handler_step n (l_state x) s ->
  link_inv (release n (mkLState s (l_permits x) (delete n (l_queued x)) (l_spawned x) (l_readers x) (l_drains x))).
Proof.
  intros [H1 H2 H3 H4 H5 H6 H7] Hn Hs. pose proof Hs as [T1 T2 T3]. split; cbn; try done.
  - rewrite size_difference, size_singleton by set_solver.
    assert (size (l_spawned x) <> 0%nat) by (intros E%size_empty_inv; set_solver). lia.
  - lia.
  - intros m Hm. destruct (decide (m = n)) as [->|Hne]; [by apply T3|]. apply T2; [done|].
    by apply H3, (waiting_step n m _ _ Hs).
  - intros m f [Hne Hm]%lookup_delete_Some. rewrite T2 by done. destruct (H4 m f Hm). set_solver.
  - intros m [Hm Hne%not_elem_of_singleton]%elem_of_difference. rewrite lookup_delete_ne by done.
    rewrite (waiting_step n m _ _ Hs) by done. auto.
  - intros i m f Hi. destruct (H6 i m f Hi). rewrite (waiting_step n m _ _ Hs) by (by intros ->). set_solver.
Qed.

(** The handler a read loop ran in place ends. *)
Lemma link_inv_return i n f s x :
  link_inv x -> l_readers x !! i = Some (LrHandshake n f) -> handler_step n (l_state x) s ->
  link_inv (with_reader i LrReading (with_state s x)).
Proof.
  intros [H1 H2 H3 H4 H5 H6 H7] Hi Hs. pose proof Hs as [T1 T2 T3]. destruct (H6 _ _ _ Hi) as [Hw Hns].
  split; cbn; try done.
  - intros m Hm. destruct (decide (m = n)) as [->|Hne]; [by apply T3|]. apply T2; [done|].
    by apply H3, (waiting_step n m _ _ Hs).
  - intros m g Hm. destruct (decide (m = n)) as [->|Hne]; [by destruct (H4 _ _ Hm)|]. rewrite T2 by done. by eapply H4.
  - intros m Hm. rewrite (waiting_step n m _ _ Hs) by (by intros ->). auto.
  - intros j m g [[? ?]|[Hj Hm]]%lookup_insert_Some; [done|]. destruct (H6 _ _ _ Hm).
    rewrite (waiting_step n m _ _ Hs); [done|]. intros ->. by destruct (H7 _ _ _ _ _ Hi Hm).
  - intros j k m g h [[? ?]|[_ Hj]]%lookup_insert_Some [[? ?]|[_ Hk]]%lookup_insert_Some; try done. by eapply H7.
Qed.

Lemma handler_resumes e n now s s' :
  resumes e = Some n -> rstep lookup_host window_bytes e now s = Some s' ->
  (waiting n s -> n ∈ dom (hs_notifies s)) -> handler_step n s s'.
Proof.
  intros He Hs Hk. destruct (rstep_resumes _ _ _ _ _ He Hs) as [Hw H].
  eapply handler_keeps; [|exact H]. split; cbn.
  - intros m Hm. by rewrite lookup_delete_ne.
  - done.
  - intros _. by apply Hk.
Qed.

(** An inline SYN handler of a fresh [n] makes its read loop wait. *)
Lemma link_inv_inline i n f x :
  link_inv x -> waiting n (l_state x) -> n ∉ l_spawned x ->
  (forall j g, l_readers x !! j <> Some (LrHandshake n g)) -> link_inv (with_reader i (LrHandshake n f) x).
Proof.
  intros [H1 H2 H3 H4 H5 H6 H7] Hw Hns Hr. split; cbn; try done.
  - intros j m g [[<- E]|[_ Hj]]%lookup_insert_Some; [injection E as <- <-; done|by eapply H6].
  - intros j k m g h [[<- E]|[_ Hj]]%lookup_insert_Some [[<- E']|[_ Hk]]%lookup_insert_Some; try done.
    + injection E as <- <-. by destruct (Hr k h).
    + injection E' as <- <-. by destruct (Hr j g).
    + by eapply H7.
Qed.

Lemma link_step_inv e x x' : link_inv x -> link_step lookup_host window_bytes e x = Some x' -> link_inv x'.
Proof.
  intros HI Hs. destruct e as [i now_ms|i f n now now_ms|n now|who n e now now_ms|i|i|i|e now]; cbn in Hs.
  - case_decide; [|done]. injection Hs as <-. unfold link_accept.
    assert (link_inv (with_state (accept_tunnel i now_ms (l_state x)) x)) as H1
      by (apply link_inv_state; [done|apply keeps_accept]).
    destruct (_ >=? _); [done|].
    pose proof (link_inv_reader i LrReading _ H1 ltac:(done)) as [A1 A2 A3 A4 A5 A6 A7]. by split.
  - destruct (l_readers x !! i) as [[|m g|]|]; try done. case_decide as Hn; [|done]. destruct Hn as [Hn Hq].
    injection Hs as <-. unfold link_frame. destruct (dispatch_frame f (l_permits x)) as [[] permits] eqn:Hd.
    + by apply link_inv_done, link_inv_spawn.
    + destruct (link_inv_frame n f now x HI Hn Hq) as (H1 & Hns & Hr).
      case_decide as Hw; [by apply link_inv_inline|by apply link_inv_done].
  - destruct (l_queued x !! n) as [f|] eqn:Hq; [|done]. destruct (li_queued _ HI _ _ Hq) as [Hn Hd].
    assert (~ waiting n (l_state x)) as Hnw by (intros Hw; by apply Hd, (li_known _ HI)).
    pose proof (handler_frame f n now (l_state x) Hnw) as Hh.
    injection Hs as <-. unfold link_run_spawned. case_decide as Hw; [by apply link_inv_await|by apply link_inv_finish].
  - case_decide as He; [|done]. destruct (rstep lookup_host window_bytes e now (l_state x)) as [s1|] eqn:Er; [|done].
    pose proof (handler_resumes _ _ _ _ _ He Er (li_known _ HI n)) as Hh.
    destruct (rstep_resumes _ _ _ _ _ He Er) as [Hw _]. destruct who as [i|].
    + destruct (l_readers x !! i) as [[|m f|]|] eqn:Hi; try done. case_decide; [|done]. subst m.
      injection Hs as <-. apply link_inv_done. by eapply link_inv_return.
    + case_decide as Hn; [|done]. injection Hs as <-.
      pose proof (link_inv_finish n s1 x HI Hn Hh) as H1. rewrite delete_id in H1; [exact H1|].
      destruct (l_queued x !! n) as [f|] eqn:Hq; [|done]. destruct (li_queued _ HI _ _ Hq) as [_ Hd].
      destruct Hd. by apply (li_known _ HI).
  - destruct (l_readers x !! i) as [[|m f|]|]; try done. injection Hs as <-.
    apply link_inv_reader; [|done]. by apply link_inv_state.
  - destruct (l_readers x !! i) as [[|m f|]|]; try done. destruct (arcs _ !! i) as [l|]; [|done].
    destruct (has_permit _); [|done]. injection Hs as <-. apply link_inv_reader; [|done]. by apply link_inv_state.
  - case_decide; [|done]. destruct (arcs _ !! i) as [l|]; [|done]. injection Hs as <-.
    assert (link_inv (with_state (recover_lost_de (lost_frames l) (on_rlink (set_lost_frames []) i (l_state x))) x))
      as [A1 A2 A3 A4 A5 A6 A7]; [|by split].
    apply link_inv_state; [done|]. etrans; [|apply keeps_lost]. by split.
  - destruct (is_other e) eqn:He; [|done]. destruct (rstep _ _ e now (l_state x)) as [s1|] eqn:Er; [|done].
    injection Hs as <-. apply link_inv_state; [done|by eapply keeps_other].
Qed.

Lemma link_run_inv es x x' : link_inv x -> link_run lookup_host window_bytes es x = Some x' -> link_inv x'.
Proof.
  revert x. induction es as [|e es IH]; intros x HI Hr; cbn in Hr; [by injection Hr as <-|].
  destruct (link_step lookup_host window_bytes e x) as [x1|] eqn:E; [|done]. eapply IH; [|done]. by eapply link_step_inv.
Qed.

Lemma links_start_inv : link_inv links_start.
Proof.
  split; cbn; try done.
  intros n [t Ht]. cbn in Ht. by rewrite lookup_empty in Ht.
Qed.

(** A waiting handler can always end: its connect times out, at the latest. *)
Lemma waiting_ends n now s :
  waiting n s -> exists e s', resumes e = Some n /\ rstep lookup_host window_bytes e now s = Some s'.
Proof.
  intros [t Ht]. set (j := fresh (dom (vcs s))).
  assert (vcs s !! j = None) as Hj by (apply not_elem_of_dom; apply is_fresh).
  destruct t as [c|c t].
  - exists (EvUdpBound n j None). eexists. split; [done|]. cbn. rewrite decide_True by done.
    unfold resume. by rewrite Ht.
  - exists (EvConnected n j ConnectTimeout). eexists. split; [done|]. cbn. rewrite decide_True by done.
    unfold resume. by rewrite Ht.
Qed.

(** ** The links refine the reassembler *)

(** What a link does to the pool alone is what any other task may do to it. *)
Definition pool_event (p : TunnelPool) : REvent :=
  EvReader (egress_reader_init 0 0) (RdChunk [] RaceCancelled p).

Lemma pool_event_run p now s :
  rrun lookup_host window_bytes [(pool_event p, now)] s = Some (with_rpool p s).
Proof. done. Qed.

(** The frames an event delivers satisfy [P], the fallback timers that fire [F]. *)
Definition comes_from (P : Frame -> Prop) (F : nat -> Z -> Prop) (r : REvent * Z) : Prop :=
  match r.1 with EvFrame f _ => P f | EvFallback i => F i r.2 | _ => True end.

(** The state after, reached by such steps of the reassembler. *)
Definition simulated (P : Frame -> Prop) (F : nat -> Z -> Prop) (s s' : RState) : Prop :=
  exists res, rrun lookup_host window_bytes res s = Some s' /\ Forall (comes_from P F) res.

#[local] Instance simulated_preorder P F : PreOrder (simulated P F).
Proof.
  split; [intros s; by exists []|]. intros s1 s2 s3 (r1 & R1 & F1) (r2 & R2 & F2). exists (r1 ++ r2).
  split; [|by apply Forall_app]. clear F1. revert s1 R1.
  induction r1 as [|[e now] r1 IH]; intros s1 R1; cbn in *; [by injection R1 as ->|].
  destruct (rstep _ _ e now s1) as [s|]; [by apply IH|done].
Qed.

Lemma simulated_step P F e now s s' :
  rstep lookup_host window_bytes e now s = Some s' -> comes_from P F (e, now) -> simulated P F s s'.
Proof. intros Hs Hf. exists [(e, now)]. cbn. rewrite Hs. split; [done|by constructor]. Qed.

Lemma simulated_pool P F g i s : simulated P F s (on_rlink g i s).
Proof. eexists. split; [apply (pool_event_run _ 0)|by repeat constructor]. Qed.

Lemma simulated_frame (P : Frame -> Prop) F f n now s :
  P f -> hs_notifies s !! n = None -> simulated P F s (handle_frame lookup_host f n now s).
Proof. intros Hf Hn. apply (simulated_step P F (EvFrame f n) now); [|done]. cbn. by rewrite decide_True. Qed.

Lemma link_sim (P : Frame -> Prop) F e x x' :
  link_inv x -> (forall n f, l_queued x !! n = Some f -> P f) ->
  (forall i f n now ms, e = LvFrame i f n now ms -> P f) -> (forall i now, e = LvOther (EvFallback i) now -> F i now) ->
  link_step lookup_host window_bytes e x = Some x' ->
  simulated P F (l_state x) (l_state x') /\ (forall n f, l_queued x' !! n = Some f -> P f).
Proof.
  intros HI Hq He Hfb Hs. destruct e as [i now_ms|i f n now now_ms|n now|who n e now now_ms|i|i|i|e now]; cbn in Hs.
  - case_decide as Hi; [|done]. injection Hs as <-. unfold link_accept. split.
    + apply (simulated_step P F (EvAccept i now_ms) 0); [|done]. cbn. rewrite decide_True by done. by destruct (_ >=? _).
    + by destruct (_ >=? _).
  - destruct (l_readers x !! i) as [[|m g|]|]; try done. case_decide as Hn; [|done]. destruct Hn as [Hn _].
    specialize (He _ _ _ _ _ eq_refl). injection Hs as <-. unfold link_frame. destruct (dispatch_frame _ _) as [[] permits].
    + split; [apply simulated_pool|]. cbn. intros m g [[_ <-]|[_ Hm]]%lookup_insert_Some; [done|by eapply Hq].
    + cbn [l_state with_state]. case_decide; (split; [|done]); [by apply simulated_frame|].
      etrans; [by apply (simulated_frame P F f n now)|apply simulated_pool].
  - destruct (l_queued x !! n) as [f|] eqn:Hf; [|done]. injection Hs as <-. unfold link_run_spawned.
    destruct (li_queued _ HI _ _ Hf) as [_ Hd%not_elem_of_dom_1].
    case_decide; (split; [by apply simulated_frame; [eapply Hq|]|]); cbn; intros m g [_ Hm]%lookup_delete_Some;
      by eapply Hq.
  - case_decide as Hr; [|done]. destruct (rstep lookup_host window_bytes e now (l_state x)) as [s1|] eqn:Er; [|done].
    assert (simulated P F (l_state x) s1) as Hsim by (eapply simulated_step; [exact Er|by destruct e]).
    destruct who as [i|].
    + destruct (l_readers x !! i) as [[|m f|]|]; try done. case_decide; [|done]. injection Hs as <-.
      split; [|done]. etrans; [exact Hsim|apply simulated_pool].
    + case_decide; [|done]. by injection Hs as <-.
  - destruct (l_readers x !! i) as [[|m f|]|]; try done. injection Hs as <-. split; [apply simulated_pool|done].
  - destruct (l_readers x !! i) as [[|m f|]|]; try done. destruct (arcs _ !! i) as [l|]; [|done].
    destruct (has_permit _); [|done]. injection Hs as <-. split; [apply simulated_pool|done].
  - case_decide; [|done]. destruct (arcs _ !! i) as [l|]; [|done]. injection Hs as <-. split; [|done].
    etrans; [apply simulated_pool|]. by eapply (simulated_step P F (EvLost (lost_frames l)) 0).
  - destruct (is_other e) eqn:Ho; [|done]. destruct (rstep _ _ e now (l_state x)) as [s1|] eqn:Er; [|done].
    injection Hs as <-. split; [|done]. eapply simulated_step; [exact Er|]. destruct e; try done. by apply Hfb.
Qed.

(** C19: SYN handshakes are bounded, and none of them stops a tunnel for good.  Over any
    number of links and any order of frames, handshakes, link deaths and other events,
    the spawned handlers and the free permits are [MAX_CONCURRENT_SYN_HANDSHAKES]
    together, so no permit leaks; each spawned handler is still to run or waits at its
    await, where it can end at any time, and its permit is then free again; and a read
    loop that ran a SYN in place, for want of a permit, can go on with its next frame. *)
Theorem syn_permits es x now now_ms :
  link_run lookup_host window_bytes es links_start = Some x ->
  0 <= l_permits x /\ l_permits x + Z.of_nat (size (l_spawned x)) = MAX_CONCURRENT_SYN_HANDSHAKES /\
  (forall n, n ∈ l_spawned x ->
    is_Some (link_step lookup_host window_bytes (LvRun n now) x) \/
    exists e x', link_step lookup_host window_bytes (LvResume None n e now now_ms) x = Some x' /\
      l_permits x' = l_permits x + 1 /\ n ∉ l_spawned x') /\
  (forall i n f, l_readers x !! i = Some (LrHandshake n f) ->
    exists e x', link_step lookup_host window_bytes (LvResume (Some i) n e now now_ms) x = Some x' /\
      l_readers x' !! i = Some LrReading).
Proof.
  intros Hr. pose proof (link_run_inv _ _ _ links_start_inv Hr) as HI.
  split; [by apply li_free|]. split; [by apply li_count|]. split.
  - intros n Hn. destruct (li_spawned _ HI n Hn) as [[f Hf]|Hw].
    + left. cbn. rewrite Hf. by eexists.
    + right. destruct (waiting_ends n now _ Hw) as (e & s' & He & Es). exists e. eexists.
      cbn. rewrite decide_True by done. rewrite Es, decide_True by done. split; [done|]. cbn.
      split; [done|set_solver].
  - intros i n f Hi. destruct (li_inline _ HI _ _ _ Hi) as [Hw _].
    destruct (waiting_ends n now _ Hw) as (e & s' & He & Es). exists e. eexists.
    cbn. rewrite decide_True by done. rewrite Es, Hi, decide_True by done. split; [done|]. cbn.
    by rewrite lookup_insert_eq.
Qed.

(** What is shown of the reassembler's steps holds with its links around them.  The
    state any run of the links reaches is one that a run of [rstep] reaches from the same
    start, in which every frame that comes to [handle_frame] is one a decoder of the links
    gave: the read loops, the spawned handlers and the tasks of dying links add no
    behaviour of their own. *)
Theorem links_refine es x :
  link_run lookup_host window_bytes es links_start = Some x ->
  exists res, rrun lookup_host window_bytes res (reassembler_init pool_new) = Some (l_state x) /\
    forall f n t, (EvFrame f n, t) ∈ res -> exists i m now ms, LvFrame i f m now ms ∈ es.
Proof.
  set (P := fun f => exists i m now ms, LvFrame i f m now ms ∈ es).
  assert (forall es' y y', (forall e, e ∈ es' -> e ∈ es) -> link_inv y -> (forall n f, l_queued y !! n = Some f -> P f) ->
    link_run lookup_host window_bytes es' y = Some y' -> simulated P (fun _ _ => True) (l_state y) (l_state y')) as H.
  { induction es' as [|e es' IH]; intros y y' Hin HI Hq Hr; cbn in Hr; [injection Hr as <-; reflexivity|].
    destruct (link_step lookup_host window_bytes e y) as [y1|] eqn:E; [|done].
    destruct (link_sim P (fun _ _ => True) e y y1 HI Hq) as [Hsim Hq1]; [|done|exact E|].
    { intros i f n now ms ->. exists i, n, now, ms. apply Hin, elem_of_cons. by left. }
    etrans; [exact Hsim|]. apply (IH y1); [|by eapply link_step_inv|done|done].
    intros e' He'. apply Hin, elem_of_cons. by right. }
  intros Hr. destruct (H es links_start x (fun _ He => He) links_start_inv) as (res & Hres & Hf); [|exact Hr|].
  { intros n f Hn. cbn in Hn. by rewrite lookup_empty in Hn. }
  exists res. split; [exact Hres|]. intros f n t Hin. rewrite Forall_forall in Hf. exact (Hf _ Hin).
Qed.
End link_facts.

(** ** Witness *)
#[local] Existing Instance RefTokio.
#[local] Existing Instance RefBufMut.
#[local] Existing Instance RefDashIter.

Definition link_dns (host : bytes) (port : Z) : option IpAddr := None.
Definition link_syn (k : nat) : Frame :=
  frame_syn (1 + Z.of_nat k) (be_bytes 1 PROTO_TCP ++ be_bytes 2 1 ++ [Byte.x61] ++ be_bytes 2 80).

(** One tunnel and 65 SYNs: 64 are spawned, and the last blocks the read loop.  Half of
    the spawned ones start. *)
Definition syn_flood : list link_event :=
  LvAccept 0 0 :: map (fun k => LvFrame 0 (link_syn k) k 1 1) (List.seq 0 65) ++
  map (fun k => LvRun k 2) (List.seq 0 32).

Lemma syn_permits_witness :
  match link_run link_dns 65536 syn_flood links_start with
  | Some x => l_permits x = 0 /\ size (l_spawned x) = 64%nat /\
              l_readers x !! 0%nat = Some (LrHandshake 64 (link_syn 64)) /\
              exists e x', link_step link_dns 65536 (LvResume (Some 0%nat) 64 e 9 9) x = Some x'
  | None => False
  end.
Proof.
  destruct (link_run link_dns 65536 syn_flood links_start) as [x|] eqn:E; [|vm_compute in E; discriminate E].
  destruct (syn_permits link_dns 65536 syn_flood x 9 9 E) as (_ & Hc & _ & Hi).
  assert (l_permits x = 0 /\ l_readers x !! 0%nat = Some (LrHandshake 64 (link_syn 64))) as [Hp Hr].
  { vm_compute in E. injection E as <-. split; vm_compute; reflexivity. }
  split; [exact Hp|]. split; [rewrite Hp in Hc; unfold MAX_CONCURRENT_SYN_HANDSHAKES in Hc; lia|].
  split; [exact Hr|]. destruct (Hi _ _ _ Hr) as (e & x' & Hs & _). exists e, x'. exact Hs.
Defined.

(** A DATA frame overtakes the SYN of its connection on another link; its tunnel ends. *)
Definition two_links : list link_event :=
  [LvAccept 0 0; LvAccept 1 0; LvFrame 0 (frame_data 1 1 [Byte.x61]) 0 1 1; LvFrame 1 (link_syn 0) 0 2 2;
   LvReadEnd 0; LvRun 0 3; LvDrained 0; LvResume None 0 (EvConnected 0 7 ConnectOk) 4 4].

Lemma links_refine_witness :
  match link_run link_dns 65536 two_links links_start with
  | Some x => (expected ∘ reorder <$> vcs (l_state x) !! 7%nat) = Some 2 /\ l_permits x = 64 /\
      exists res, rrun link_dns 65536 res (reassembler_init pool_new) = Some (l_state x)
  | None => False
  end.
Proof.
  destruct (link_run link_dns 65536 two_links links_start) as [x|] eqn:E; [|vm_compute in E; discriminate E].
  destruct (links_refine link_dns 65536 two_links x E) as (res & Hr & _).
  split; [vm_compute in E; injection E as <-; vm_compute; reflexivity|].
  split; [vm_compute in E; injection E as <-; vm_compute; reflexivity|]. exists res. exact Hr.
Defined.
