(* ===== verification/AcceptLoop.v ===== *)
(** * The accept loop of the splitter and its limit

    Models the accept loop of [run_splitter] and the frame [handle_client] puts around a
    client in [src/src/splitter.rs]: the test of the connection limit, the wait for a
    slot, and where a handler counts itself in, counts itself out and wakes the loop.
    Several handlers run at once; each step below is one of their atomic actions. *)
From Stdlib Require Import ZArith Lia.
From stdpp Require Import base numbers list option fin_maps gmap.
From S2P Require Import Prelude Runtime Splitter.
Local Open Scope Z_scope.

Inductive accept_phase : Set :=
| AcTest            (** before the test of the limit *)
| AcWaitSlot        (** awaiting [conn_slot.notified()] *)
| AcAccept          (** awaiting [listener.accept()] *)
| AcStopped.

Inductive handler_phase : Set :=
| HdSpawned                  (** [handle_client] not yet polled *)
| HdHandshake                (** counted in [half_open] *)
| HdChoosing                 (** before [alloc_conn_id] and the insertion into [conns] *)
| HdServing (listed : bool)  (** in the client handler; [listed]: its entry is in [conns] *)
| HdLeaving.                 (** before its last [conn_slot.notify_one()] *)

#[global] Instance handler_phase_eq_dec : EqDecision handler_phase.
Proof. solve_decision. Defined.

Section accept_loop.
Context {T : Tokio}.

Record AcceptLoop : Type := mkAcceptLoop {
  al_phase : accept_phase;
  al_slot : notify;            (** [conn_slot] *)
  al_half_open : Z;
  al_conns : Z;                (** [conns.len()] *)
  al_handlers : gmap Z handler_phase;
}.

Inductive accept_event : Type :=
| AvTest (shutdown : bool)
| AvSlot                               (** [notified()] takes a permit *)
| AvWaiters                            (** the heartbeat's [notify_waiters()] *)
| AvAccepted (h : Z)                   (** a client; its handler is spawned *)
| AvStart (h : Z)                      (** [half_open.fetch_add(1)] *)
| AvHandshake (h : Z) (ok : bool)      (** ended, and [half_open.fetch_sub(1)] *)
| AvServe (h : Z) (id_found listed : bool)
                                       (** [alloc_conn_id]; the entry inserted, or an error before *)
| AvUnlist (h : Z)                     (** its entry removed, by whomever *)
| AvEnd (h : Z)                        (** the client handler returned *)
| AvNotify (h : Z).                    (** [conn_slot.notify_one()] *)

Definition al_with_handler (h : Z) (ph : option handler_phase) (a : AcceptLoop) : AcceptLoop :=
  mkAcceptLoop (al_phase a) (al_slot a) (al_half_open a) (al_conns a)
    (match ph with Some p => <[h := p]> (al_handlers a) | None => delete h (al_handlers a) end).
Definition al_goto (ph : accept_phase) (a : AcceptLoop) : AcceptLoop :=
  mkAcceptLoop ph (al_slot a) (al_half_open a) (al_conns a) (al_handlers a).
Definition al_count (half conn : Z) (a : AcceptLoop) : AcceptLoop :=
  mkAcceptLoop (al_phase a) (al_slot a) (al_half_open a + half) (al_conns a + conn) (al_handlers a).
Definition al_notify (n : notify) (a : AcceptLoop) : AcceptLoop :=
  mkAcceptLoop (al_phase a) n (al_half_open a) (al_conns a) (al_handlers a).

Definition accept_step (e : accept_event) (a : AcceptLoop) : option AcceptLoop :=
  match e with
  | AvTest shutdown =>
    match al_phase a with
    | AcTest =>
      Some (al_goto (if shutdown then AcStopped
                     else if al_conns a + al_half_open a >=? MAX_CONCURRENT_CONNS then AcWaitSlot
                     else AcAccept) a)
    | _ => None
    end
  | AvSlot =>
    match al_phase a with
    | AcWaitSlot =>
      if has_permit (al_slot a) then Some (al_goto AcTest (al_notify (notify_take (al_slot a)) a)) else None
    | _ => None
    end
  | AvWaiters => Some (match al_phase a with AcWaitSlot => al_goto AcTest a | _ => a end)
  | AvAccepted h =>
    match al_phase a, al_handlers a !! h with
    | AcAccept, None => Some (al_goto AcTest (al_with_handler h (Some HdSpawned) a))
    | _, _ => None
    end
  | AvStart h =>
    match al_handlers a !! h with
    | Some HdSpawned => Some (al_count 1 0 (al_with_handler h (Some HdHandshake) a))
    | _ => None
    end
  | AvHandshake h ok =>
    match al_handlers a !! h with
    | Some HdHandshake =>
      Some (al_count (-1) 0 (al_with_handler h (Some (if ok then HdChoosing else HdLeaving)) a))
    | _ => None
    end
  | AvServe h id_found listed =>
    match al_handlers a !! h with
    | Some HdChoosing =>
      if id_found then
        Some (al_count 0 (if listed then 1 else 0) (al_with_handler h (Some (HdServing listed)) a))
      else Some (al_with_handler h None a)
    | _ => None
    end
  | AvUnlist h =>
    match al_handlers a !! h with
    | Some (HdServing true) => Some (al_count 0 (-1) (al_with_handler h (Some (HdServing false)) a))
    | _ => None
    end
  | AvEnd h =>
    match al_handlers a !! h with
    | Some (HdServing false) => Some (al_with_handler h (Some HdLeaving) a)
    | _ => None
    end
  | AvNotify h =>
    match al_handlers a !! h with
    | Some HdLeaving => Some (al_notify (notify_one (al_slot a)) (al_with_handler h None a))
    | _ => None
    end
  end.

Fixpoint accept_run (es : list accept_event) (a : AcceptLoop) : option AcceptLoop :=
  match es with
  | [] => Some a
  | e :: es' => match accept_step e a with Some a' => accept_run es' a' | None => None end
  end.

Definition accept_start : AcceptLoop := mkAcceptLoop AcTest notify_new 0 0 ∅.

(** ** The counters *)
Definition counts_half (ph : handler_phase) : Z := match ph with HdHandshake => 1 | _ => 0 end.
Definition counts_conn (ph : handler_phase) : Z := match ph with HdServing true => 1 | _ => 0 end.

(** No draw of ids failed: [alloc_conn_id] gives up only after 1024 ids in use. *)
Definition id_available (e : accept_event) : Prop :=
  match e with AvServe _ id_found _ => id_found = true | _ => True end.

Record accept_inv (a : AcceptLoop) : Prop := {
  ai_half : al_half_open a = map_total counts_half (al_handlers a);
  ai_conn : al_conns a = map_total counts_conn (al_handlers a);
  ai_wait : al_phase a = AcWaitSlot -> has_permit (al_slot a) = false -> al_handlers a <> ∅;
}.
End accept_loop.

Section accept_facts.
Context {T : Tokio} {TL : TokioLaws T}.

Lemma accept_inv_start : accept_inv accept_start.
Proof. constructor; [done..|]. by intros. Qed.

(** A handler moves on. *)
Lemma accept_inv_move a h ph ph' half conn :
  accept_inv a -> al_handlers a !! h = Some ph ->
  half = counts_half ph' - counts_half ph -> conn = counts_conn ph' - counts_conn ph ->
  accept_inv (al_count half conn (al_with_handler h (Some ph') a)).
Proof.
  intros [H1 H2 H3] Hh -> ->. constructor; cbn.
  - rewrite (map_total_insert _ _ _ ph) by done. lia.
  - rewrite (map_total_insert _ _ _ ph) by done. lia.
  - intros _ _. apply insert_non_empty.
Qed.

Lemma accept_inv_step e a a' :
  accept_inv a -> id_available e -> accept_step e a = Some a' -> accept_inv a'.
Proof.
  intros HI He Hs. pose proof HI as [H1 H2 H3]. destruct e as [sd| | |h|h|h ok|h idf li|h|h|h]; cbn in Hs.
  - destruct (al_phase a); [|done..]. injection Hs as <-. constructor; cbn; [done|done|].
    destruct sd; [done|]. destruct (Z.geb_spec (al_conns a + al_half_open a) MAX_CONCURRENT_CONNS) as [Hc|Hc]; [|done].
    intros _ _ E. rewrite H1, H2, E, !map_total_empty in Hc. unfold MAX_CONCURRENT_CONNS in Hc. lia.
  - destruct (al_phase a); try done. destruct (has_permit (al_slot a)); [|done]. injection Hs as <-. by constructor.
  - injection Hs as <-. destruct (al_phase a) eqn:Ep; [exact HI| |exact HI|exact HI]. by constructor.
  - destruct (al_phase a); try done. destruct (al_handlers a !! h) eqn:Eh; [done|]. injection Hs as <-.
    constructor; cbn; [by rewrite map_total_insert_new..|done].
  - destruct (al_handlers a !! h) as [[]|] eqn:Eh; try done. injection Hs as <-. by eapply accept_inv_move.
  - destruct (al_handlers a !! h) as [[]|] eqn:Eh; try done. injection Hs as <-.
    destruct ok; by eapply accept_inv_move.
  - cbn in He. subst idf. destruct (al_handlers a !! h) as [[]|] eqn:Eh; try done. injection Hs as <-.
    destruct li; by eapply accept_inv_move.
  - destruct (al_handlers a !! h) as [[| | |[]|]|] eqn:Eh; try done. injection Hs as <-. by eapply accept_inv_move.
  - destruct (al_handlers a !! h) as [[| | |[]|]|] eqn:Eh; try done. injection Hs as <-.
    pose proof (accept_inv_move a h _ HdLeaving 0 0 HI Eh eq_refl eq_refl) as [K1 K2 K3]. cbn in K1, K2, K3.
    rewrite Z.add_0_r in K1, K2. by constructor.
  - destruct (al_handlers a !! h) as [[]|] eqn:Eh; try done. injection Hs as <-. constructor; cbn.
    + rewrite (map_total_delete _ _ _ _ Eh). cbn. lia.
    + rewrite (map_total_delete _ _ _ _ Eh). cbn. lia.
    + intros _. by rewrite has_permit_one.
Qed.

Lemma accept_run_inv es a a' :
  accept_inv a -> Forall id_available es -> accept_run es a = Some a' -> accept_inv a'.
Proof.
  intros HI Hes. revert a HI. induction Hes as [|e es He Hes IH]; intros a HI Hr; cbn in Hr; [by simplify_eq|].
  destruct (accept_step e a) as [a1|] eqn:E; [|done]. eapply IH; [|done]. by eapply accept_inv_step.
Qed.

(** What is left of a handler's life. *)
Definition rest_of (h : Z) (ph : handler_phase) : list accept_event :=
  match ph with
  | HdSpawned => [AvStart h; AvHandshake h false; AvNotify h]
  | HdHandshake => [AvHandshake h false; AvNotify h]
  | HdChoosing => [AvServe h true false; AvEnd h; AvNotify h]
  | HdServing true => [AvUnlist h; AvEnd h; AvNotify h]
  | HdServing false => [AvEnd h; AvNotify h]
  | HdLeaving => [AvNotify h]
  end.

Lemma rest_of_run a h ph :
  al_handlers a !! h = Some ph ->
  exists a', accept_run (rest_of h ph) a = Some a' /\ al_phase a' = al_phase a /\
    has_permit (al_slot a') = true.
Proof.
  intros Hh. destruct ph as [| | |[]|]; cbn [rest_of accept_run accept_step]; rewrite Hh;
    cbn; rewrite ?lookup_insert_eq; cbn; rewrite ?lookup_insert_eq; cbn;
    rewrite ?lookup_insert_eq; cbn; eexists; (split; [done|]); cbn; by rewrite has_permit_one.
Qed.


(** ** The limit *)

(** A handler that is, or may come to be, counted. *)
Definition admitted (ph : handler_phase) : Z :=
  match ph with HdSpawned | HdHandshake | HdChoosing | HdServing true => 1 | HdServing false | HdLeaving => 0 end.

(** At the test every handler that will be counted is counted: none is between its spawn
    and its first step, or between its handshake and its entry in the table. *)
Definition all_counted (a : AcceptLoop) : Prop :=
  map_Forall (fun _ ph => ph <> HdSpawned /\ ph <> HdChoosing) (al_handlers a).

Fixpoint prompt (es : list accept_event) (a : AcceptLoop) : Prop :=
  match es with
  | [] => True
  | e :: es' =>
    match e with AvTest _ => all_counted a | _ => True end /\
    match accept_step e a with Some a' => prompt es' a' | None => True end
  end.

Record limit_inv (a : AcceptLoop) : Prop := {
  lm_half : al_half_open a = map_total counts_half (al_handlers a);
  lm_conn : al_conns a = map_total counts_conn (al_handlers a);
  lm_all : map_total admitted (al_handlers a) <= MAX_CONCURRENT_CONNS;
  lm_accept : al_phase a = AcAccept -> map_total admitted (al_handlers a) < MAX_CONCURRENT_CONNS;
}.

Lemma counted_admitted (m : gmap Z handler_phase) :
  map_total counts_half m + map_total counts_conn m <= map_total admitted m.
Proof.
  induction m as [|h ph m Hh IH] using map_ind; [by rewrite !map_total_empty|].
  rewrite !map_total_insert_new by done. destruct ph as [| | |[]|]; cbn; lia.
Qed.

Lemma all_counted_admitted (m : gmap Z handler_phase) :
  map_Forall (fun _ ph => ph <> HdSpawned /\ ph <> HdChoosing) m ->
  map_total admitted m = map_total counts_half m + map_total counts_conn m.
Proof.
  induction m as [|h ph m Hh IH] using map_ind; intros Hm; [by rewrite !map_total_empty|].
  apply map_Forall_insert in Hm as [[H1 H2] Hm]; [|done]. rewrite !map_total_insert_new, IH by done.
  destruct ph as [| | |[]|]; cbn; try done; lia.
Qed.

(** A handler moves on and does not come to count more. *)
Lemma limit_inv_move a h ph ph' half conn :
  limit_inv a -> al_handlers a !! h = Some ph -> admitted ph' <= admitted ph ->
  half = counts_half ph' - counts_half ph -> conn = counts_conn ph' - counts_conn ph ->
  limit_inv (al_count half conn (al_with_handler h (Some ph') a)).
Proof.
  intros [H1 H2 H3 H4] Hh Hle -> ->. constructor; cbn; rewrite (map_total_insert _ _ _ ph) by done; [lia..|].
  intros Hp. specialize (H4 Hp). lia.
Qed.

(** One that is not counted ends. *)
Lemma limit_inv_gone a h ph slot :
  limit_inv a -> al_handlers a !! h = Some ph -> counts_half ph = 0 -> counts_conn ph = 0 ->
  limit_inv (al_notify slot (al_with_handler h None a)).
Proof.
  intros [H1 H2 H3 H4] Hh E1 E2. constructor; cbn; rewrite (map_total_delete _ _ _ _ Hh); try lia.
  - destruct ph as [| | |[]|]; cbn; lia.
  - intros Hp. specialize (H4 Hp). destruct ph as [| | |[]|]; cbn; lia.
Qed.

Lemma limit_inv_step e a a' :
  limit_inv a -> match e with AvTest _ => all_counted a | _ => True end -> accept_step e a = Some a' -> limit_inv a'.
Proof.
  intros HI He Hs. pose proof HI as [H1 H2 H3 H4]. destruct e as [sd| | |h|h|h ok|h idf li|h|h|h]; cbn in Hs.
  - destruct (al_phase a); [|done..]. injection Hs as <-. constructor; cbn; [done..|]. destruct sd; [done|].
    destruct (Z.geb_spec (al_conns a + al_half_open a) MAX_CONCURRENT_CONNS) as [Hc|Hc]; [done|].
    intros _. rewrite (all_counted_admitted _ He). lia.
  - destruct (al_phase a); try done. destruct (has_permit (al_slot a)); [|done]. injection Hs as <-. by constructor.
  - injection Hs as <-. destruct (al_phase a) eqn:Ep; [exact HI| |exact HI|exact HI]. by constructor.
  - destruct (al_phase a); try done. destruct (al_handlers a !! h) eqn:Eh; [done|]. injection Hs as <-.
    specialize (H4 eq_refl). constructor; cbn; rewrite ?map_total_insert_new by done; cbn; [done|done|lia|done].
  - destruct (al_handlers a !! h) as [[]|] eqn:Eh; try done. injection Hs as <-. by eapply limit_inv_move.
  - destruct (al_handlers a !! h) as [[]|] eqn:Eh; try done. injection Hs as <-. destruct ok; by eapply limit_inv_move.
  - destruct (al_handlers a !! h) as [[]|] eqn:Eh; try done. destruct idf; injection Hs as <-.
    + destruct li; by eapply limit_inv_move.
    + by apply (limit_inv_gone a h HdChoosing (al_slot a)).
  - destruct (al_handlers a !! h) as [[| | |[]|]|] eqn:Eh; try done. injection Hs as <-. by eapply limit_inv_move.
  - destruct (al_handlers a !! h) as [[| | |[]|]|] eqn:Eh; try done. injection Hs as <-.
    pose proof (limit_inv_move a h _ HdLeaving 0 0 HI Eh ltac:(done) eq_refl eq_refl) as [K1 K2 K3 K4]. cbn in *.
    rewrite Z.add_0_r in K1, K2. by constructor.
  - destruct (al_handlers a !! h) as [[]|] eqn:Eh; try done. injection Hs as <-. by eapply limit_inv_gone.
Qed.

Lemma limit_inv_run es a a' : limit_inv a -> prompt es a -> accept_run es a = Some a' -> limit_inv a'.
Proof.
  revert a. induction es as [|e es IH]; intros a HI Hp Hr; cbn in Hr; [by simplify_eq|].
  destruct Hp as [He Hp]. destruct (accept_step e a) as [a1|] eqn:E; [|done]. eapply IH; [|exact Hp|done].
  by eapply limit_inv_step.
Qed.

(** A burst: [n] clients accepted before any of their handlers runs. *)
Lemma accept_run_app es1 es2 a :
  accept_run (es1 ++ es2) a = match accept_run es1 a with Some a1 => accept_run es2 a1 | None => None end.
Proof. revert a. induction es1 as [|e es1 IH]; intros a; cbn; [done|]. by destruct (accept_step e a). Qed.

Lemma burst_accepted n :
  exists es a, accept_run es accept_start = Some a /\ al_phase a = AcTest /\ al_half_open a = 0 /\ al_conns a = 0 /\
    (forall k, (k < n)%nat -> al_handlers a !! Z.of_nat k = Some HdSpawned) /\
    (forall k, (n <= k)%nat -> al_handlers a !! Z.of_nat k = None).
Proof.
  induction n as [|n (es & a & Hr & Hp & Hh & Hc & H1 & H2)].
  - exists [], accept_start. by split_and!; [..|intros k Hk; lia|].
  - exists (es ++ [AvTest false; AvAccepted (Z.of_nat n)]). eexists. rewrite accept_run_app, Hr. cbn.
    rewrite Hp, Hh, Hc. cbn. rewrite (H2 n) by lia. split; [reflexivity|]. cbn. split_and!; try done.
    + intros k Hk. destruct (decide (k = n)) as [->|Hne]; [by rewrite lookup_insert_eq|].
      rewrite lookup_insert_ne by lia. apply H1. lia.
    + intros k Hk. rewrite lookup_insert_ne by lia. apply H2. lia.
Qed.

Lemma burst_started n m :
  (m <= n)%nat -> exists es a, accept_run es accept_start = Some a /\ al_half_open a = Z.of_nat m /\
    (forall k, (m <= k < n)%nat -> al_handlers a !! Z.of_nat k = Some HdSpawned).
Proof.
  induction m as [|m IH]; intros Hm.
  - destruct (burst_accepted n) as (es & a & Hr & _ & Hh & _ & H1 & _). exists es, a. split_and!; [done|done|].
    intros k Hk. apply H1. lia.
  - destruct IH as (es & a & Hr & Hh & H1); [lia|]. exists (es ++ [AvStart (Z.of_nat m)]). eexists.
    rewrite accept_run_app, Hr. cbn. rewrite (H1 m) by lia. split; [reflexivity|]. cbn. split; [lia|].
    intros k Hk. rewrite lookup_insert_ne by lia. apply H1. lia.
Qed.

(** C30: the connection limit.  In every run in which, whenever the loop tests the limit, each
    handler has taken its first step and none is between its handshake and its entry in the
    table, the handlers in a handshake and the listed connections never exceed 4096
    together.  The test alone does not ensure it: a handler is counted only once it runs,
    so a burst of clients that is accepted before their handlers start passes the same
    test, and as many as there are in the burst are admitted. *)
Theorem connection_limit :
  (forall es a, prompt es accept_start -> accept_run es accept_start = Some a ->
     al_half_open a + al_conns a <= MAX_CONCURRENT_CONNS) /\
  (forall n, exists es a, accept_run es accept_start = Some a /\ al_half_open a = Z.of_nat n).
Proof.
  split.
  - intros es a Hp Hr. assert (limit_inv accept_start) as H0 by by constructor.
    destruct (limit_inv_run es _ _ H0 Hp Hr) as [H1 H2 H3 _]. pose proof (counted_admitted (al_handlers a)). lia.
  - intros n. destruct (burst_started n n ltac:(lia)) as (es & a & Hr & Hh & _). by exists es, a.
Qed.
End accept_facts.

(** ** Witness: two clients, one in its handshake, one served. *)
#[local] Existing Instance RefTokio.
#[local] Existing Instance RefTokio_laws.

Definition two_clients : list accept_event :=
  [AvTest false; AvAccepted 1; AvStart 1; AvTest false; AvAccepted 2; AvHandshake 1 true; AvStart 2;
   AvServe 1 true true].


#[local] Instance all_counted_dec a : Decision (all_counted a).
Proof. unfold all_counted. apply _. Defined.

Lemma two_clients_prompt : prompt two_clients accept_start.
Proof.
  assert (forall a, bool_decide (all_counted a) = true -> all_counted a) as H by (intros a; apply bool_decide_eq_true_1).
  unfold two_clients. repeat (split; [first [exact I|apply H; vm_compute; reflexivity]|cbn [accept_step]]); exact I.
Qed.

Lemma connection_limit_witness :
  match accept_run two_clients accept_start with
  | Some a => al_half_open a + al_conns a <= MAX_CONCURRENT_CONNS /\ al_half_open a + al_conns a = 2
  | None => False
  end.
Proof.
  destruct (accept_run two_clients accept_start) as [a|] eqn:E; [|vm_compute in E; discriminate E].
  split; [exact (proj1 connection_limit two_clients a two_clients_prompt E)|].
  vm_compute in E. injection E as <-. reflexivity.
Defined.
