(* ===== verification/ClientConn.v ===== *)
(** * A connection of the splitter with its client's writer task

    Models the response side of a TCP client in [src/src/splitter.rs] as a machine:
    [VirtConn::on_frame] cut at each [try_send] of its loop, the FIN, the removal of the
    connection, and the writer task [handle_tcp_client] spawns, one step per await
    point.  The task runs at any moment, also between two writes of one loop. *)
From Stdlib Require Import ZArith Lia.
From Stdlib Require Import Strings.Byte.
From stdpp Require Import base numbers list option fin_maps gmap.
From S2P Require Import Prelude Runtime Frames Reorder Tunnel Net Socks5 Reassembler Splitter.
Local Open Scope Z_scope.

(** ** What [read_from_egress] sends *)
Section reader_frames.
Context {T : Tokio}.

(** The frames the tunnels took in a turn of [read_from_egress], apart from an RST. *)
Definition reader_frames (e : reader_event) (t : EgressReader) : list Frame :=
  match e with
  | RdChunk chunk RaceSent _ => [frame_data (rd_cid t) (rd_seq t) chunk]
  | RdEof RaceSent _ => [frame_fin (rd_cid t) (rd_seq t)]
  | _ => []
  end.

(** The turns of one task, each with the time and the state it meets; [None]: a turn
    after the task returned. *)
Definition reader_input : Type := reader_event * Z * RState.

Fixpoint reader_run (es : list reader_input) (t : EgressReader) : option (EgressReader * list Frame) :=
  match es with
  | [] => Some (t, [])
  | (e, now, s) :: es' =>
    if rd_done t then None
    else match reader_run es' (reader_step e now t s).1 with
         | Some (t', fs) => Some (t', reader_frames e t ++ fs)
         | None => None
         end
  end.
End reader_frames.

(** ** The writer task *)
Inductive cw_exit : Set := CwDrained | CwBroken.

Inductive cw_phase : Type :=
| CwRecv                        (** awaiting [rx.recv()] *)
| CwWrite (chunk : bytes)       (** awaiting [write_all(&chunk)] under the timeout *)
| CwShutdown (why : cw_exit)    (** awaiting [client_writer.shutdown()] *)
| CwReturned (why : cw_exit).   (** the receiver is dropped *)

Record ClientWriter : Type := mkClientWriter {
  cw_at : cw_phase;
  cw_out : bytes;  (** everything the client's socket accepted *)
}.

(** A failed or timed out write may have put [n] bytes of the chunk out. *)
Inductive cw_event : Set := CwPoll (senders_gone : bool) | CwWritten | CwFailed (n : nat) | CwShut.

Section client_conn.
Context {T : Tokio}.

Definition client_writer_step (e : cw_event) (w : ClientWriter) (c : chan bytes)
  : option (ClientWriter * chan bytes) :=
  let out := cw_out w in
  match e, cw_at w with
  | CwPoll gone, CwRecv =>
    match try_recv c with
    | (Some chunk, c') => Some (mkClientWriter (CwWrite chunk) out, c')
    | (None, _) => if gone then Some (mkClientWriter (CwShutdown CwDrained) out, c) else None
    end
  | CwWritten, CwWrite chunk => Some (mkClientWriter CwRecv (out ++ chunk), c)
  | CwFailed n, CwWrite chunk => Some (mkClientWriter (CwShutdown CwBroken) (out ++ take n chunk), c)
  | CwShut, CwShutdown why => Some (mkClientWriter (CwReturned why) out, chan_close c)
  | _, _ => None
  end.

(** ** The connection *)

(** The loop of an [on_frame] call under way: the chunks it has still to write, the
    length of the payload it was called with, and whether a write failed. *)
Record FrameLoop : Type := mkFrameLoop { fl_rest : list bytes; fl_len : Z; fl_overflow : bool }.

Record ClientConn : Type := mkClientConn {
  cc_vc : VirtConn;
  cc_writer : ClientWriter;
  cc_loop : option FrameLoop;  (** [Some]: a call holds the reorder lock *)
  cc_live : bool;              (** in the connection table *)
  cc_broken : bool;            (** some call found an overflow or a failed write: it returns true *)
}.

Definition client_conn_start (window_bytes now : Z) : ClientConn :=
  mkClientConn (new_virt_conn false window_bytes now) (mkClientWriter CwRecv []) None true false.

Inductive client_event : Type :=
| CeData (sq : Z) (p : bytes)   (** [on_frame]: the lock taken, the frame pushed *)
| CeSend                        (** one [try_send] of the loop *)
| CeLoopEnd (now : Z)           (** the statistics, the lock released *)
| CeFin (sq : Z)
| CeReset                       (** [reset_conn] *)
| CeRemove                      (** the handler or the heartbeat removes the entry *)
| CeWriter (e : cw_event).

(** [None]: not possible in that state.  [on_frame] runs under a reference into the
    table, so the entry is not removed meanwhile; a frame for a connection that was
    removed does not reach it. *)
Definition client_step (e : client_event) (s : ClientConn) : option ClientConn :=
  let v := cc_vc s in
  match e, cc_loop s with
  | CeData sq p, None =>
    if cc_live s then
      let '(r, ro) := push (sp_reorder v) sq p in
      let loop := if accepted r then Some (mkFrameLoop (ready r) (zlen p) false) else None in
      Some (mkClientConn (set_client (to_client_tx v) ro v) (cc_writer s) loop true
              (cc_broken s || overflow r))
    else Some s
  | CeSend, Some (mkFrameLoop (b :: rest) n ov) =>
    let '(failed, c) := client_write b (to_client_tx v) in
    Some (mkClientConn (set_client c (sp_reorder v) v) (cc_writer s)
            (Some (mkFrameLoop rest n (ov || failed))) (cc_live s) (cc_broken s || failed))
  | CeLoopEnd now, Some (mkFrameLoop [] n _) =>
    Some (mkClientConn (touch now (sp_count_recv n v)) (cc_writer s) None (cc_live s) (cc_broken s))
  | CeFin sq, _ =>
    if cc_live s
    then Some (mkClientConn (set_sp_fin sq v) (cc_writer s) (cc_loop s) true (cc_broken s))
    else Some s
  | CeReset, None =>
    if cc_live s then Some (mkClientConn (kill_conn v) (cc_writer s) None false (cc_broken s))
    else Some s
  | CeRemove, None => Some (mkClientConn v (cc_writer s) None false (cc_broken s))
  | CeWriter we, _ =>
    if (match we with CwPoll gone => gone && cc_live s | _ => false end) then None
    else match client_writer_step we (cc_writer s) (to_client_tx v) with
         | Some (w, c) =>
           Some (mkClientConn (set_client c (sp_reorder v) v) w (cc_loop s) (cc_live s) (cc_broken s))
         | None => None
         end
  | _, _ => None
  end.

Fixpoint client_run (es : list client_event) (s : ClientConn) : option ClientConn :=
  match es with
  | [] => Some s
  | e :: es' => match client_step e s with Some s' => client_run es' s' | None => None end
  end.
End client_conn.
