(* ===== verification/ClientFacts.v ===== *)
(** * What reaches the client

    The frames of [read_from_egress], and the bytes the client's writer task writes, for
    any interleaving of the response frames, the FIN, the removal of the connection and
    the steps of the task. *)
From Stdlib Require Import ZArith Lia.
From Stdlib Require Import Strings.Byte.
From stdpp Require Import base numbers list option fin_maps gmap.
From S2P Require Import Prelude Runtime Frames Reorder Tunnel Net.
From S2P Require Import Socks5 Reassembler Splitter SplitterTcp ClientConn.
Local Open Scope Z_scope.

Section reader_facts.
Context {T : Tokio}.

(** The bytes a turn read from the target, and those a tunnel took. *)
Definition resp_read (x : reader_input) : option bytes :=
  match x.1.1 with RdChunk c _ _ => Some c | _ => None end.
Definition resp_sent (x : reader_input) : option bytes :=
  match x.1.1 with RdChunk c RaceSent _ => Some c | _ => None end.

(** [read_from_egress] from number [k] on: DATA frames [k], [k + 1], ... with the chunks
    the tunnels took, then at most one FIN. *)
Lemma reader_run_frames es cid i k t fs :
  reader_run es (mkEgressReader cid i (wrap 64 k) false) = Some (t, fs) ->
  exists fin lost,
    fs = imap (fun j c => frame_data cid (wrap 64 (k + Z.of_nat j)) c) (omap resp_sent es) ++
         (if fin : bool then [frame_fin cid (wrap 64 (k + zlen (omap resp_sent es)))] else []) /\
    omap resp_read es = omap resp_sent es ++ lost /\ (length lost <= 1)%nat /\
    (fin = true -> lost = []).
Proof.
  revert k t fs. induction es as [|[[e now] s] es IH]; intros k t fs H.
  { cbn in H. simplify_eq. exists false, []. by split_and!; [| |cbn; lia|]. }
  assert (forall t1 t2 f1, rd_done t1 = true -> reader_run es t1 = Some (t2, f1) -> es = [] /\ f1 = []) as Hdone.
  { intros t1 t2 f1 Hd Hr. destruct es as [|[[??]?] ?]; cbn in Hr; [by simplify_eq|by rewrite Hd in Hr]. }
  cbn [reader_run rd_done] in H. destruct e as [|c [| |] p|[| |] p]; cbn [reader_step fst rd_cid rd_vc rd_seq] in H.
  2:{ destruct (reader_run es _) as [[t1 f1]|] eqn:E; [|done].
      rewrite u64_succ_wrap in E. apply IH in E as (fin & lost & -> & Hr & Hl & Hf).
      simplify_eq. exists fin, lost. cbn [omap list_omap resp_sent resp_read fst imap app].
      rewrite Hr. split_and!; try done. cbn [reader_frames rd_cid rd_seq]. rewrite Z.add_0_r. cbn [app].
      f_equal. f_equal.
      - apply imap_ext. intros j x _. cbn. do 2 f_equal. lia.
      - destruct fin; [|done]. rewrite zlen_cons. do 3 f_equal. lia. }
  all: destruct (reader_run es _) as [[t1 f1]|] eqn:E; [|done];
    apply Hdone in E as [-> ->]; [|done]; simplify_eq; cbn.
  - exists false, []. split_and!; (done || (cbn; lia)).
  - exists false, [c]. split_and!; (done || (cbn; lia)).
  - exists false, [c]. split_and!; (done || (cbn; lia)).
  - exists true, []. rewrite Z.add_0_r. split_and!; (done || (cbn; lia)).
  - exists false, []. split_and!; (done || (cbn; lia)).
  - exists false, []. split_and!; (done || (cbn; lia)).
Qed.

Lemma reader_run_stream es cid i t fs :
  reader_run es (egress_reader_init cid i) = Some (t, fs) ->
  exists fin lost,
    fs = data_frames cid (omap resp_sent es) ++ fin_frames cid fin (omap resp_sent es) /\
    omap resp_read es = omap resp_sent es ++ lost /\ (length lost <= 1)%nat /\
    (fin = true -> lost = []).
Proof. intros H. by apply (reader_run_frames es cid i 1 t). Qed.
End reader_facts.

(** ** The client's connection *)
Section client_facts.
Context {T : Tokio} {TL : TokioLaws T}.
Variable src : Z -> bytes.
Variable n : Z.

(** The events of a response of [n] frames: its DATA frames, and a FIN that carries
    [n + 1]. *)
Definition faithful (e : client_event) : Prop :=
  match e with
  | CeData k p => 1 <= k <= n /\ p = src k
  | CeFin sq => sq = n + 1
  | _ => True
  end.

Definition held (ph : cw_phase) : bytes := match ph with CwWrite chunk => chunk | _ => [] end.

(** The task and the channel hold the chunks [acc] the channel accepted. *)
Definition holds (live : bool) (c : chan bytes) (w : ClientWriter) (acc : list bytes) : Prop :=
  match cw_at w with
  | CwShutdown why | CwReturned why =>
    cw_out w `prefix_of` concat acc /\ (why = CwDrained -> live = false /\ cw_out w = concat acc)
  | ph => cw_out w ++ held ph ++ concat (queued c) = concat acc
  end.

Record resp_inv (seen : list Z) (s : ClientConn) (acc : list bytes) (e : Z) : Prop := {
  cl_stream : stream_inv src seen (sp_reorder (cc_vc s));
  cl_seen k : k ∈ seen -> 1 <= k <= n;
  cl_e : 1 <= e <= expected (sp_reorder (cc_vc s));
  cl_loop : match cc_loop s with
            | Some l => fl_rest l = chunks src e (expected (sp_reorder (cc_vc s))) /\ cc_live s = true
            | None => e = expected (sp_reorder (cc_vc s))
            end;
  cl_acc : acc `sublist_of` chunks src 1 e;
  cl_whole : cc_broken s = false -> acc = chunks src 1 e;
  cl_kept : cc_broken s = false -> nothing_lost seen (sp_reorder (cc_vc s));
  cl_holds : holds (cc_live s) (to_client_tx (cc_vc s)) (cc_writer s) acc;
  cl_fin : sp_fin_received (cc_vc s) = true -> sp_fin_seq (cc_vc s) = n + 1;
}.

Lemma resp_inv_init limit now :
  0 <= limit -> resp_inv [] (client_conn_start limit now) [] 1.
Proof.
  intros Hl. constructor; cbn; try done.
  - by apply with_limit_stream_inv.
  - by intros k ?%elem_of_nil.
  - by intros _ k ?%elem_of_nil.
  - unfold holds. cbn. by rewrite queued_new.
Qed.

(** A chunk more in the channel. *)
Lemma holds_grow live c c' w acc b :
  queued c' = queued c ++ [b] -> holds live c w acc -> (live = true) ->
  holds live c' w (acc ++ [b]).
Proof.
  intros Hq H ->. unfold holds in *. destruct (cw_at w) as [|chunk|why|why];
    [by rewrite Hq, !concat_app, !app_assoc, <- (app_assoc (cw_out w)), H..| |];
    destruct H as [Hp Hd]; (split; [rewrite concat_app; etrans; [exact Hp|by eexists]|]);
    intros Hw; by destruct (Hd Hw).
Qed.

Lemma holds_live live c w acc : holds live c w acc -> holds false c w acc.
Proof. unfold holds. destruct (cw_at w); naive_solver. Qed.

Lemma holds_writer live c w acc we w' c' :
  holds live c w acc -> client_writer_step we w c = Some (w', c') ->
  (we = CwPoll true -> live = false) -> holds live c' w' acc.
Proof.
  intros H Hs Hg. unfold client_writer_step in Hs. destruct w as [ph out]. unfold holds in H.
  cbn [cw_at cw_out] in *.
  destruct we as [gone| |k|], ph as [|chunk|why|why]; try done; cbn [held app] in H.
  - destruct (try_recv_cases c) as [[Hq Er]|(b & q & c1 & Hq & Er & <- & _)]; rewrite Er in Hs.
    + destruct gone; [|done]. simplify_eq. unfold holds. cbn [cw_at cw_out].
      rewrite Hq, app_nil_r in H. split; [by rewrite H|auto].
    + simplify_eq. unfold holds. cbn [cw_at cw_out held]. by rewrite <- H, Hq.
  - simplify_eq. unfold holds. cbn [cw_at cw_out held app]. by rewrite <- app_assoc.
  - simplify_eq. unfold holds. cbn [cw_at cw_out]. split; [|done]. rewrite <- H.
    apply prefix_app. rewrite <- (take_drop k chunk) at 2. rewrite <- app_assoc. by eexists.
  - simplify_eq. exact H.
Qed.

(** A frame pushed. *)
Lemma resp_inv_push seen v w acc e broken k r ro :
  0 <= n < 2 ^ 64 - 2 -> resp_inv seen (mkClientConn v w None true broken) acc e -> 1 <= k <= n ->
  push (sp_reorder v) k (src k) = (r, ro) ->
  resp_inv (k :: seen)
    (mkClientConn (set_client (to_client_tx v) ro v) w
       (if accepted r then Some (mkFrameLoop (ready r) (zlen (src k)) false) else None) true
       (broken || overflow r)) acc e.
Proof.
  intros Hn [H1 H2 H3 H4 H5 H6 H7 H8 H9] Hk P. cbn in H1, H2, H3, H4, H5, H6, H7, H8, H9. subst e.
  destruct (push_stream src seen _ k (src k) r ro H1 ltac:(lia) ltac:(done) P) as (G1 & G2 & G3 & G4).
  constructor; cbn; try done.
  - intros j [->|?]%elem_of_cons; auto.
  - lia.
  - destruct (accepted r) eqn:Ea; [by cbn; rewrite G3|].
    unfold push in P. repeat case_match; by simplify_eq.
  - by intros [? _]%orb_false_iff; auto.
  - intros [? ?]%orb_false_iff; auto.
Qed.

(** A chunk given to the channel, or refused by it. *)
Lemma resp_inv_send seen v w acc e broken b rest m ov failed c :
  resp_inv seen (mkClientConn v w (Some (mkFrameLoop (b :: rest) m ov)) true broken) acc e ->
  client_write b (to_client_tx v) = (failed, c) ->
  exists acc', resp_inv seen (mkClientConn (set_client c (sp_reorder v) v) w
    (Some (mkFrameLoop rest m (ov || failed))) true (broken || failed)) acc' (e + 1).
Proof.
  intros [H1 H2 H3 H4 H5 H6 H7 H8 H9] Hw. cbn in H1, H2, H3, H4, H5, H6, H7, H8, H9.
  destruct H4 as [Hr _].
  assert (e < expected (sp_reorder v)) as Hlt.
  { destruct (decide (e < expected (sp_reorder v))); [done|].
    replace (expected (sp_reorder v)) with e in Hr by lia. by rewrite chunks_nil in Hr. }
  rewrite chunks_cons in Hr by done. injection Hr as -> Hr.
  assert (chunks src 1 (e + 1) = chunks src 1 e ++ [src e]) as Hsnoc.
  { rewrite (chunks_app src 1 e (e + 1)) by lia. by rewrite (chunks_cons src e), chunks_nil by lia. }
  unfold client_write in Hw. destruct (try_send (src e) (to_client_tx v)) as [[err|] c1] eqn:Et; simplify_eq.
  - apply try_send_err in Et as ->. exists acc. rewrite !orb_true_r.
    constructor; cbn; try done; [lia|]. rewrite Hsnoc. by apply sublist_inserts_r.
  - apply try_send_None in Et as (_ & _ & Hq & _). exists (acc ++ [src e]). rewrite !orb_false_r.
    constructor; cbn; try done; [lia| | |].
    + rewrite Hsnoc. by apply sublist_app.
    + intros Hb. by rewrite Hsnoc, H6.
    + by eapply holds_grow.
Qed.

(** An event that is no frame leaves what was seen. *)
Ltac quiet_event := intros _; split_and!; [done|by intros|by intros [?|[? ?]]].

Lemma resp_inv_step seen s acc e ev s' :
  0 <= n < 2 ^ 64 - 2 -> resp_inv seen s acc e -> faithful ev -> client_step ev s = Some s' ->
  exists seen' acc' e', resp_inv seen' s' acc' e' /\ (cc_live s' = true -> cc_live s = true) /\
    (cc_broken s' = false -> cc_broken s = false) /\
    (cc_live s' = true -> (forall k, k ∈ seen -> k ∈ seen') /\
      (forall k p, ev = CeData k p -> k ∈ seen') /\
      (sp_fin_received (cc_vc s) = true \/ (exists sq, ev = CeFin sq) ->
       sp_fin_received (cc_vc s') = true)).
Proof.
  intros Hn HI Hf Hs. pose proof HI as [H1 H2 H3 H4 H5 H6 H7 H8 H9].
  destruct s as [v w loop live broken]. cbn [cc_vc cc_writer cc_loop cc_live cc_broken] in *.
  destruct ev as [k p| |now|sq| | |we]; cbn [client_step cc_vc cc_writer cc_loop cc_live cc_broken] in Hs.
  - destruct loop as [l|]; [done|]. destruct live; [|injection Hs as <-; by exists seen, acc, e].
    destruct Hf as [Hk ->]. destruct (push (sp_reorder v) k (src k)) as [r ro] eqn:P.
    injection Hs as <-. exists (k :: seen), acc, e.
    split_and!; [by apply resp_inv_push|done|by intros [? _]%orb_false_iff|].
    intros _. split_and!; [intros j ?; apply elem_of_cons; by right| |by intros [?|[??]]].
    intros ? ? ?. simplify_eq. apply elem_of_cons. by left.
  - destruct loop as [[[|b rest] m ov]|]; [done| |done]. destruct H4 as [_ ->].
    destruct (client_write b (to_client_tx v)) as [failed c] eqn:Ew. injection Hs as <-.
    destruct (resp_inv_send _ _ _ _ _ _ _ _ _ _ _ _ HI Ew) as [acc' HI'].
    exists seen, acc', (e + 1). split_and!; [done|done|by intros [? _]%orb_false_iff|by quiet_event].
  - destruct loop as [[[|b rest] m ov]|]; [|done|done]. injection Hs as <-. destruct H4 as [Hr ->].
    exists seen, acc, e. split_and!; [|done|done|by quiet_event].
    constructor; cbn; try done. cbn in Hr.
    destruct (decide (e < expected (sp_reorder v))); [by rewrite chunks_cons in Hr by done|lia].
  - destruct live; injection Hs as <-; exists seen, acc, e; [|by split_and!; [|done|done|done]].
    split_and!; [|done|done|by intros _; split_and!; [done|by intros|]]. by constructor.
  - destruct loop; [done|]. destruct live; injection Hs as <-; exists seen, acc, e; [|by split_and!; [|done|done|done]].
    split_and!; [|done|done|done]. constructor; cbn; try done. by eapply holds_live.
  - destruct loop; [done|]. injection Hs as <-. exists seen, acc, e. split_and!; [|done|done|done].
    constructor; cbn; try done. by eapply holds_live.
  - destruct (match we with CwPoll gone => gone && live | _ => false end) eqn:Eg; [done|].
    destruct (client_writer_step we w (to_client_tx v)) as [[w1 c1]|] eqn:E; [|done]. injection Hs as <-.
    exists seen, acc, e. split_and!; [|done|done|by quiet_event].
    constructor; cbn; try done. eapply holds_writer; [exact H8|exact E|]. intros ->. cbn in Eg. exact Eg.
Qed.

Lemma resp_run_inv es seen s acc e s' :
  0 <= n < 2 ^ 64 - 2 -> resp_inv seen s acc e -> Forall faithful es -> client_run es s = Some s' ->
  exists seen' acc' e', resp_inv seen' s' acc' e' /\ (cc_live s' = true -> cc_live s = true) /\
    (cc_broken s' = false -> cc_broken s = false) /\
    (cc_live s' = true -> (forall k, k ∈ seen -> k ∈ seen') /\
      (forall k p, CeData k p ∈ es -> k ∈ seen') /\
      (sp_fin_received (cc_vc s) = true \/ (exists sq, CeFin sq ∈ es) ->
       sp_fin_received (cc_vc s') = true)).
Proof.
  intros Hn HI Hes. revert seen s acc e HI. induction Hes as [|ev es Hf Hes IH]; intros seen s acc e HI Hr;
    cbn in Hr.
  - simplify_eq. exists seen, acc, e. split_and!; try done. intros _. split_and!; [done| |].
    + by intros k p ?%elem_of_nil.
    + by intros [?|[sq ?%elem_of_nil]].
  - destruct (client_step ev s) as [s1|] eqn:E; [|done].
    destruct (resp_inv_step _ _ _ _ _ _ Hn HI Hf E) as (seen1 & acc1 & e1 & HI1 & A1 & B1 & C1).
    destruct (IH _ _ _ _ HI1 Hr) as (seen2 & acc2 & e2 & HI2 & A2 & B2 & C2).
    exists seen2, acc2, e2. split_and!; [done|auto|auto|]. intros Hl.
    destruct (C2 Hl) as (C21 & C22 & C23). destruct (C1 (A2 Hl)) as (C11 & C12 & C13).
    split_and!; [auto| |].
    + intros k p [Hx|?]%elem_of_cons; [apply C21; by eapply C12|by eapply C22].
    + intros [?|[sq [Hx|?]%elem_of_cons]]; apply C23;
        [left; apply C13; by left|left; apply C13; right; by exists sq|right; by exists sq].
Qed.

(** The flag of a FIN comes from a FIN. *)
Lemma fin_flag_event es s s' :
  client_run es s = Some s' -> sp_fin_received (cc_vc s') = true ->
  sp_fin_received (cc_vc s) = true \/ exists sq, CeFin sq ∈ es.
Proof.
  revert s. induction es as [|ev es IH]; intros s Hr Hf; cbn in Hr; [simplify_eq; by left|].
  destruct (client_step ev s) as [s1|] eqn:E; [|done].
  destruct (IH s1 Hr Hf) as [H|[sq H]]; [|right; exists sq; apply elem_of_cons; by right].
  destruct s as [v w loop live broken].
  destruct ev as [k p| |t|sq| | |we]; [..|cbn in E; case_match; [done|]; case_match; [|done]; case_match; simplify_eq; by left];
    cbn in E; repeat (case_match; try done); simplify_eq; try (by left);
    right; exists sq; apply elem_of_cons; by left.
Qed.

(** The bytes of a connection in such a state. *)
Lemma resp_inv_bytes seen s acc e :
  0 <= n -> resp_inv seen s acc e ->
  (exists acc, acc `sublist_of` chunks src 1 (n + 1) /\ cw_out (cc_writer s) `prefix_of` concat acc) /\
  (cc_broken s = false ->
    cw_out (cc_writer s) `prefix_of` upto src (n + 1) /\
    (cw_at (cc_writer s) = CwReturned CwDrained -> sp_fin_received (cc_vc s) = true ->
     is_complete_through (sp_reorder (cc_vc s)) (sp_fin_seq (cc_vc s)) = true ->
     cw_out (cc_writer s) = upto src (n + 1))).
Proof.
  intros Hn [H1 H2 H3 H4 H5 H6 H7 H8 H9].
  assert (expected (sp_reorder (cc_vc s)) <= n + 1) as Hle.
  { destruct (decide (expected (sp_reorder (cc_vc s)) <= n + 1)); [done|].
    assert (n + 1 ∈ seen) as Hin%H2 by (apply (si_below _ _ _ H1); lia). lia. }
  assert (cw_out (cc_writer s) `prefix_of` concat acc) as Hp.
  { unfold holds in H8. destruct (cw_at (cc_writer s)); [rewrite <- H8; by eexists..|by destruct H8|by destruct H8]. }
  assert (chunks src 1 (n + 1) = chunks src 1 e ++ chunks src e (n + 1)) as Hall by (apply chunks_app; lia).
  split.
  - exists acc. split; [|done]. rewrite Hall. by apply sublist_inserts_r.
  - intros Hb. specialize (H6 Hb). split.
    + unfold upto. rewrite Hall, concat_app, <- H6. etrans; [exact Hp|by eexists].
    + intros Hw Hf Hc. unfold is_complete_through in Hc. rewrite (H9 Hf) in Hc. zbool.
      unfold holds in H8. rewrite Hw in H8. destruct H8 as [_ H8]. destruct (H8 eq_refl) as [Hlive ->].
      destruct (cc_loop s) as [l|]; [destruct H4; congruence|]. rewrite H6. unfold upto. do 2 f_equal. lia.
Qed.

(** The task writes the [k] queued chunks and finds the senders gone. *)
Definition drain_schedule (k : nat) : list client_event :=
  concat (replicate k [CeWriter (CwPoll false); CeWriter CwWritten]) ++
  [CeWriter (CwPoll true); CeWriter CwShut].

Lemma drain_schedule_run q v out loop broken :
  queued (to_client_tx v) = q ->
  exists v', client_run (drain_schedule (length q))
      (mkClientConn v (mkClientWriter CwRecv out) loop false broken) =
    Some (mkClientConn v' (mkClientWriter (CwReturned CwDrained) (out ++ concat q)) loop false broken).
Proof.
  revert out v. induction q as [|b q IH]; intros out v Hq; unfold drain_schedule;
    cbn [length replicate concat app client_run client_step cc_vc cc_writer cc_loop cc_live cc_broken andb];
    unfold client_writer_step at 1; cbn [cw_at cw_out].
  - rewrite try_recv_nil by done. cbn. rewrite app_nil_r. by eexists.
  - pose proof (try_recv_cons _ _ _ _ Hq) as (H1 & H2 & _).
    destruct (try_recv (to_client_tx v)) as [o c1]. cbn in H1, H2. subst o. cbn.
    rewrite app_assoc. by apply IH.
Qed.

(** C11: the end of the response reaches the client.  Once all the frames and the FIN
    have arrived at a connection that is still in the table, in whatever order, and no
    call of [on_frame] found it broken, every poll of the grace wait lets the handler
    end; and after the entry is removed the writer task, waiting for a chunk, has only
    to write what is queued: it then finds the senders gone and returns with the whole
    response written. *)
Theorem response_completes es limit now s :
  0 <= n < 2 ^ 64 - 2 -> 0 <= limit -> Forall faithful es ->
  client_run es (client_conn_start limit now) = Some s ->
  cc_live s = true -> cc_broken s = false -> cc_loop s = None ->
  (forall k, 1 <= k <= n -> exists p, CeData k p ∈ es) -> CeFin (n + 1) ∈ es ->
  (forall t seen, grace_poll t seen (cc_vc s) = TcCleanup) /\
  (cw_at (cc_writer s) = CwRecv ->
   exists s', client_run (CeRemove :: drain_schedule (length (queued (to_client_tx (cc_vc s))))) s = Some s' /\
     cw_at (cc_writer s') = CwReturned CwDrained /\
     cw_out (cc_writer s') = concat (chunks src 1 (n + 1))).
Proof.
  intros Hn Hl Hes Hr Hlive Hb Hloop Hall Hf.
  destruct (resp_run_inv _ _ _ _ _ _ Hn (resp_inv_init limit now Hl) Hes Hr)
    as (seen & acc & e & [H1 H2 H3 H4 H5 H6 H7 H8 H9] & _ & _ & Hev).
  destruct (Hev Hlive) as (_ & Hin & Hfr). specialize (Hfr ltac:(right; by eexists)).
  rewrite Hloop in H4. specialize (H6 Hb). specialize (H7 Hb).
  assert (e = n + 1) as Heq.
  { destruct (Z.lt_trichotomy e (n + 1)) as [Hlt|[?|Hgt]]; [|done|].
    - destruct (Hall e ltac:(lia)) as (p & Hk%Hin).
      destruct (H7 e Hk) as [?|[q Hq]]; [lia|]. apply (wf_keys _ (si_wf _ _ _ H1)) in Hq. lia.
    - assert (n + 1 ∈ seen) as Hk%H2 by (apply (si_below _ _ _ H1); lia). lia. }
  split.
  - intros t seen0. unfold grace_poll, is_complete_through. rewrite Hfr, (H9 Hfr).
    destruct (Z.leb_spec (n + 1) (expected (sp_reorder (cc_vc s)))); [|lia]. by destruct (sp_closed _).
  - intros Hph. destruct s as [v [ph out] loop live broken]. cbn in *. subst ph loop.
    destruct (drain_schedule_run (queued (to_client_tx v)) v out None broken eq_refl) as [v' Hrun].
    eexists. split; [exact Hrun|]. split; [done|]. cbn.
    unfold holds in H8. cbn in H8. rewrite H8, H6. by do 2 f_equal.
Qed.
End client_facts.

(** ** The cut of [on_frame] *)
Section on_frame_cut.
Context {T : Tokio}.

Lemma send_loop_run bs v w m ov broken :
  client_run (replicate (length bs) CeSend) (mkClientConn v w (Some (mkFrameLoop bs m ov)) true broken) =
    Some (mkClientConn (set_client (client_write_all bs (to_client_tx v)).2 (sp_reorder v) v) w
      (Some (mkFrameLoop [] m (ov || (client_write_all bs (to_client_tx v)).1))) true
      (broken || (client_write_all bs (to_client_tx v)).1)).
Proof.
  revert v ov broken. induction bs as [|b bs IH]; intros v ov broken; cbn [length replicate client_run].
  - cbn. rewrite !orb_false_r. by destruct v.
  - cbn [client_step cc_loop cc_vc cc_writer cc_live cc_broken client_write_all].
    destruct (client_write b (to_client_tx v)) as [failed c1]. rewrite IH. cbn.
    destruct (client_write_all bs c1) as [ov2 c2]. cbn. by rewrite !orb_assoc.
Qed.

(** Without the writer task in between, the steps of a call make exactly the state
    and the result of [on_frame]. *)
Theorem on_frame_steps sq p now s :
  cc_loop s = None -> cc_live s = true ->
  let r := (push (sp_reorder (cc_vc s)) sq p).1 in
  client_run (CeData sq p :: if accepted r then replicate (length (ready r)) CeSend ++ [CeLoopEnd now] else []) s =
    Some (mkClientConn (on_frame sq p now (cc_vc s)).2 (cc_writer s) None true
            (cc_broken s || (on_frame sq p now (cc_vc s)).1)).
Proof.
  destruct s as [v w loop live broken]. cbn [cc_vc cc_writer cc_loop cc_live cc_broken]. intros -> ->.
  unfold on_frame. cbn [client_run client_step cc_vc cc_writer cc_loop cc_live cc_broken].
  destruct (push (sp_reorder v) sq p) as [r ro] eqn:P. cbn [fst].
  destruct (push_outcome _ _ _ _ _ P) as [[Ha Ho]|[Ha _]]; rewrite Ha; [|done].
  assert (forall es1 es2 s0, client_run (es1 ++ es2) s0 =
    match client_run es1 s0 with Some s1 => client_run es2 s1 | None => None end) as Happ.
  { intros es1 es2. induction es1 as [|ev es1 IH]; intros s0; [done|]. cbn. by destruct (client_step ev s0). }
  rewrite Happ, send_loop_run, Ho. cbn. destruct (client_write_all _ _) as [ov c]. cbn.
  by rewrite !orb_false_r.
Qed.
End on_frame_cut.

(** ** Witnesses *)
#[local] Existing Instance RefTokio.
#[local] Existing Instance RefTokio_laws.

Definition resp_src (k : Z) : bytes := [byte_of_Z (96 + k)].
(** The second frame and the FIN before the first. *)
Definition demo_answer : list client_event :=
  [CeData 2 (resp_src 2); CeLoopEnd 5; CeFin 3; CeData 1 (resp_src 1); CeSend; CeSend; CeLoopEnd 6].
Definition demo_answered : ClientConn :=
  default (client_conn_start 65536 0) (client_run demo_answer (client_conn_start 65536 0)).

Lemma response_completes_witness :
  grace_poll 7 None (cc_vc demo_answered) = TcCleanup /\
  exists s', client_run (CeRemove :: drain_schedule 2) demo_answered = Some s' /\
    cw_out (cc_writer s') = resp_src 1 ++ resp_src 2.
Proof.
  destruct (response_completes resp_src 2 demo_answer 65536 0 demo_answered) as [H1 H2].
  - lia.
  - lia.
  - repeat constructor; cbn; lia.
  - vm_compute. reflexivity.
  - vm_compute. reflexivity.
  - vm_compute. reflexivity.
  - vm_compute. reflexivity.
  - intros k Hk. exists (resp_src k). assert (k = 1 \/ k = 2) as [-> | ->] by lia; unfold demo_answer;
      [by apply (list_elem_of_lookup_2 _ 3)|by apply (list_elem_of_lookup_2 _ 0)].
  - by apply (list_elem_of_lookup_2 _ 2).
  - split; [apply H1|]. destruct H2 as (s' & Hr & _ & Ho); [vm_compute; reflexivity|]. exists s'. split; [exact Hr|exact Ho].
Defined.

Lemma on_frame_steps_witness :
  client_run [CeData 1 [x61]; CeSend; CeLoopEnd 5] (client_conn_start 65536 0) =
    Some (mkClientConn (on_frame 1 [x61] 5 (cc_vc (client_conn_start 65536 0))).2
      (mkClientWriter CwRecv []) None true false).
Proof. exact (on_frame_steps 1 [x61] 5 (client_conn_start 65536 0) eq_refl eq_refl). Defined.
