(* ===== verification/SplitterStream.v ===== *)
(** * The whole splitter, one response's stream

    [ystep] puts the writer tasks of all clients, and the calls of [on_frame] under way,
    beside the state of the splitter.  In any run of it the bytes written to one client
    come from its own response: the machine of [ClientConn] is what the splitter does
    to that connection. *)
From Stdlib Require Import ZArith Lia.
From Stdlib Require Import Strings.Byte.
From stdpp Require Import base numbers list option fin_maps gmap.
From S2P Require Import Prelude Runtime Frames Reorder Tunnel Net.
From S2P Require Import Socks5 Reassembler Splitter SplitterTcp SplitterUdp ClientConn ClientFacts.
Local Open Scope Z_scope.

(** ** The splitter with its writer tasks *)
Section machine.
Context {T : Tokio} {D : DashIter} {B : BufMut}.
Context (window_bytes : Z).

(** [yl]: the [on_frame] calls under way, with their cid; [y_due]: the resets to come
    after a call that returned true; [y_broken]: the connections of such calls. *)
Record YState : Type := mkYState {
  ys : SState;
  yw : gmap nat ClientWriter;
  yl : gmap nat (Z * FrameLoop);
  y_due : list Z;
  y_broken : list nat;
}.

Definition client_writer_start : ClientWriter := mkClientWriter CwRecv [].
Definition client_writer_of (ws : gmap nat ClientWriter) (i : nat) : ClientWriter :=
  default client_writer_start (ws !! i).

Inductive YEvent : Type :=
| YS (e : SEvent) (now : Z)      (** any step but the DATA of a TCP connection *)
| YPush (f : Frame)              (** such a DATA frame: the lock taken, the frame pushed *)
| YSend (i : nat)                (** one [try_send] of the loop *)
| YEnd (i : nat) (now : Z)       (** the statistics, the lock released *)
| YReset (k : nat) (now : Z)     (** the reset that a call asked for *)
| YW (i : nat) (we : cw_event)
| YRelay (r : UdpRelay) (e : relay_event) (now : Z)  (** a step of a UDP association *)
| YPool (p : TunnelPool).        (** the links changed: their tasks, a pass of [send_async] *)

(** The connection a DATA frame is delivered to. *)
Definition tcp_data (f : Frame) (s : SState) : option (nat * VirtConn) :=
  if has_flag f FLAG_DATA then
    match sp_conns s !! conn_id f with
    | Some i => match sp_vcs s !! i with
                | Some v => if sp_is_udp v then None else Some (i, v)
                | None => None
                end
    | None => None
    end
  else None.

(** A call under way holds a reference into the table, so its entry stays: a step that
    would remove it waits. *)
Definition held (s : SState) (ls : gmap nat (Z * FrameLoop)) : Prop :=
  map_Forall (fun i l => sp_conns s !! l.1 = Some i) ls.

#[global] Instance held_dec s ls : Decision (held s ls).
Proof. unfold held. apply _. Defined.

(** All clones of the sender are gone: the entry was one of them. *)
Definition unlisted (i : nat) (s : SState) : Prop := map_Forall (fun _ j => j <> i) (sp_conns s).

#[global] Instance unlisted_dec i s : Decision (unlisted i s).
Proof. unfold unlisted. apply _. Defined.

Definition ystep (e : YEvent) (y : YState) : option YState :=
  let s := ys y in
  match e with
  | YS e now =>
    if match e with SvInbound f => bool_decide (is_Some (tcp_data f s)) | _ => false end then None
    else match sstep window_bytes e now s with
         | Some s' =>
           if decide (held s' (yl y)) then Some (mkYState s' (yw y) (yl y) (y_due y) (y_broken y)) else None
         | None => None
         end
  | YPush f =>
    match tcp_data f s with
    | None => None
    | Some (i, v) =>
      if decide (yl y !! i = None) then
        let '(r, ro) := push (sp_reorder v) (seq f) (payload f) in
        let s' := sp_upd (fun _ => set_client (to_client_tx v) ro v) i s in
        Some (mkYState s' (yw y)
          (if accepted r
           then <[i := (conn_id f, mkFrameLoop (ready r) (zlen (payload f)) false)]> (yl y) else yl y)
          (if overflow r then y_due y ++ [conn_id f] else y_due y)
          (if overflow r then i :: y_broken y else y_broken y))
      else None
    end
  | YSend i =>
    match yl y !! i, sp_vcs s !! i with
    | Some (cid, mkFrameLoop (b :: rest) n ov), Some v =>
      let '(failed, c) := client_write b (to_client_tx v) in
      Some (mkYState (sp_upd (fun _ => set_client c (sp_reorder v) v) i s) (yw y)
        (<[i := (cid, mkFrameLoop rest n (ov || failed))]> (yl y)) (y_due y)
        (if failed then i :: y_broken y else y_broken y))
    | _, _ => None
    end
  | YEnd i now =>
    match yl y !! i, sp_vcs s !! i with
    | Some (cid, mkFrameLoop [] n ov), Some v =>
      Some (mkYState (sp_upd (fun _ => touch now (sp_count_recv n v)) i s) (yw y) (delete i (yl y))
        (if ov then y_due y ++ [cid] else y_due y) (y_broken y))
    | _, _ => None
    end
  | YReset k now =>
    match y_due y !! k with
    | None => None
    | Some cid =>
      let s' := reset_conn cid now s in
      if decide (held s' (yl y)) then Some (mkYState s' (yw y) (yl y) (delete k (y_due y)) (y_broken y)) else None
    end
  | YW i we =>
    match sp_vcs s !! i with
    | None => None
    | Some v =>
      if sp_is_udp v || match we with CwPoll gone => gone && negb (bool_decide (unlisted i s)) | _ => false end
      then None
      else match client_writer_step we (client_writer_of (yw y) i) (to_client_tx v) with
           | Some (w, c) =>
             Some (mkYState (sp_upd (fun _ => set_client c (sp_reorder v) v) i s) (<[i := w]> (yw y))
               (yl y) (y_due y) (y_broken y))
           | None => None
           end
    end
  | YRelay r e now =>
    match sp_vcs s !! uc_vc (ur_client r), relay_step e now r s with
    | Some v, Some (_, s') =>
      if sp_is_udp v && bool_decide (held s' (yl y))
      then Some (mkYState s' (yw y) (yl y) (y_due y) (y_broken y)) else None
    | _, _ => None
    end
  | YPool p => Some (mkYState (sp_with_pool p s) (yw y) (yl y) (y_due y) (y_broken y))
  end.

Fixpoint yrun (es : list YEvent) (y : YState) : option YState :=
  match es with
  | [] => Some y
  | e :: es' => match ystep e y with Some y' => yrun es' y' | None => None end
  end.

Definition ystart (p : TunnelPool) : YState := mkYState (splitter_init p) ∅ ∅ [] [].
End machine.

Section one_response.
Context {T : Tokio} {TL : TokioLaws T} {D : DashIter} {B : BufMut}.
Context (window_bytes : Z).

(** The connection id, its response of [n] frames, whether the reader sent a FIN. *)
Variable cid : Z.
Variable src : Z -> bytes.
Variable n : Z.
Variable fin_sent : bool.

(** ** One connection *)
Definition in_response (broken : bool) (v : VirtConn) (w : ClientWriter) (l : option FrameLoop)
    (live : bool) : Prop :=
  (exists seen acc e, resp_inv src n seen (mkClientConn v w l live broken) acc e) /\
  (sp_fin_received v = true -> fin_sent = true).

Lemma in_response_start now :
  0 <= window_bytes -> in_response false (new_virt_conn false window_bytes now) client_writer_start None true.
Proof. intros Hw. split; [|done]. exists [], [], 1. by apply (resp_inv_init src n window_bytes now). Qed.

Lemma in_response_step b v w l live ev b' v' w' l' live' :
  0 <= n < 2 ^ 64 - 2 -> in_response b v w l live -> faithful src n ev ->
  (forall sq, ev = CeFin sq -> fin_sent = true) ->
  client_step ev (mkClientConn v w l live b) = Some (mkClientConn v' w' l' live' b') ->
  in_response b' v' w' l' live'.
Proof.
  intros Hn [(seen & acc & e & HI) Hf] Hev Hfin Hs. split.
  - destruct (resp_inv_step _ _ _ _ _ _ _ _ Hn HI Hev Hs) as (seen' & acc' & e' & HI' & _).
    by exists seen', acc', e'.
  - intros Hfr. destruct (fin_flag_event [ev] _ (mkClientConn v' w' l' live' b') ltac:(cbn; by rewrite Hs) Hfr)
      as [?|[sq Hsq]]; [by apply Hf|].
    apply list_elem_of_singleton in Hsq. by eapply Hfin.
Qed.

(** The fields the bytes depend on. *)
Definition same_response (v v' : VirtConn) : Prop :=
  to_client_tx v' = to_client_tx v /\ sp_reorder v' = sp_reorder v /\
  sp_fin_received v' = sp_fin_received v /\ sp_fin_seq v' = sp_fin_seq v /\ sp_is_udp v' = sp_is_udp v.

Lemma in_response_same b v v' w l live :
  same_response v v' -> in_response b v w l live -> in_response b v' w l live.
Proof.
  intros (E1 & E2 & E3 & E4 & _) [(seen & acc & e & [H1 H2 H3 H4 H5 H6 H7 H8 H9]) Hf]. split; [|by rewrite E3].
  exists seen, acc, e. split; cbn in *; by rewrite ?E1, ?E2, ?E3, ?E4.
Qed.

Lemma in_response_dead b v w live : in_response b v w None live -> in_response b v w None false.
Proof.
  intros [(seen & acc & e & [H1 H2 H3 H4 H5 H6 H7 H8 H9]) Hf]. split; [|done].
  exists seen, acc, e. split; cbn in *; try done. by eapply holds_live.
Qed.

Lemma in_response_fin b v w l live :
  in_response b v w l live -> fin_sent = true -> in_response b (set_sp_fin (n + 1) v) w l live.
Proof.
  intros [(seen & acc & e & [H1 H2 H3 H4 H5 H6 H7 H8 H9]) Hf] Hs. split; [|done].
  exists seen, acc, e. by split.
Qed.

(** ** The connections that ever belonged to [cid] *)

Section mine.
Context (mine : list nat) (ws : gmap nat ClientWriter) (ls : gmap nat (Z * FrameLoop)) (broken : list nat).

(** An entry or a call under way keeps the connection from ending. *)
Definition live_at (i : nat) (s : SState) : bool :=
  bool_decide (sp_conns s !! cid = Some i) || bool_decide (is_Some (ls !! i)).

Record ours (s : SState) : Prop := {
  ou_dom c i : sp_conns s !! c = Some i -> is_Some (sp_vcs s !! i);
  ou_mine i : sp_conns s !! cid = Some i -> i ∈ mine;
  ou_own i c : i ∈ mine -> sp_conns s !! c = Some i -> c = cid;
  ou_vcs i : i ∈ mine -> exists v, sp_vcs s !! i = Some v /\
    (sp_is_udp v = false ->
     in_response (bool_decide (i ∈ broken)) v (client_writer_of ws i) (snd <$> ls !! i) (live_at i s));
  ou_fresh i : sp_vcs s !! i = None -> ws !! i = None /\ ls !! i = None /\ i ∉ broken;
}.

(** Steps that touch no connection and no entry. *)
Definition calm (s s' : SState) : Prop := sp_vcs s' = sp_vcs s /\ sp_conns s' = sp_conns s.

Lemma ours_calm s s' : calm s s' -> ours s -> ours s'.
Proof. intros [Q1 Q2] [H1 H2 H3 H4 H5]. split; unfold live_at in *; by rewrite ?Q1, ?Q2. Qed.

Lemma ours_set i v s :
  ours s -> is_Some (sp_vcs s !! i) ->
  (i ∈ mine -> sp_is_udp v = false ->
   in_response (bool_decide (i ∈ broken)) v (client_writer_of ws i) (snd <$> ls !! i) (live_at i s)) ->
  ours (sp_upd (fun _ => v) i s).
Proof.
  intros [H1 H2 H3 H4 H5] [v0 Hv0] Hv. split; cbn; try done.
  - intros c j Hc. destruct (decide (i = j)) as [->|Hne].
    + by rewrite lookup_alter_eq, Hv0.
    + rewrite lookup_alter_ne by done. eauto.
  - intros j Hj. destruct (decide (i = j)) as [->|Hne].
    + exists v. rewrite lookup_alter_eq, Hv0. auto.
    + rewrite lookup_alter_ne by done. auto.
  - intros j Hj. apply H5. destruct (decide (i = j)) as [->|Hne].
    + by rewrite lookup_alter_eq, Hv0 in Hj.
    + by rewrite lookup_alter_ne in Hj.
Qed.

Lemma sp_upd_at g i v s : sp_vcs s !! i = Some v -> sp_upd g i s = sp_upd (fun _ => g v) i s.
Proof.
  intros Hv. unfold sp_upd. f_equal. apply map_eq. intros j. destruct (decide (i = j)) as [->|Hne].
  - by rewrite !lookup_alter_eq, Hv.
  - by rewrite !lookup_alter_ne.
Qed.

Lemma sp_upd_absent g i s : sp_vcs s !! i = None -> calm s (sp_upd g i s).
Proof.
  intros Hi. split; [|done]. cbn. apply map_eq. intros j. destruct (decide (i = j)) as [->|Hne].
  - by rewrite lookup_alter_eq, Hi.
  - by rewrite lookup_alter_ne.
Qed.

(** One of ours, as it is. *)
Lemma ours_at i v s :
  ours s -> i ∈ mine -> sp_vcs s !! i = Some v -> sp_is_udp v = false ->
  in_response (bool_decide (i ∈ broken)) v (client_writer_of ws i) (snd <$> ls !! i) (live_at i s).
Proof. intros HI Hi Hv. destruct (ou_vcs _ HI i Hi) as (v0 & Hv0 & H). rewrite Hv in Hv0. by injection Hv0 as <-. Qed.

Lemma ours_upd g i s :
  (forall v, sp_vcs s !! i = Some v -> same_response v (g v)) -> ours s -> ours (sp_upd g i s).
Proof.
  intros Hg HI. destruct (sp_vcs s !! i) as [v|] eqn:Hv; [|by eapply ours_calm; [apply sp_upd_absent|]].
  rewrite (sp_upd_at _ _ v) by done. apply ours_set; [done|by eexists|]. intros Hi Hu.
  specialize (Hg v eq_refl). eapply in_response_same; [exact Hg|]. apply (ours_at i v s HI Hi Hv).
  destruct Hg as (_&_&_&_&E). congruence.
Qed.

Lemma ours_delete c s : ours s -> ours (sp_with_conns (delete c (sp_conns s)) s).
Proof.
  intros [H1 H2 H3 H4 H5]. split; cbn; try done.
  - intros c' i [_ Hi]%lookup_delete_Some. eauto.
  - intros i [_ Hi]%lookup_delete_Some. auto.
  - intros i c' Hi [_ Hc]%lookup_delete_Some. eauto.
  - intros i Hi. destruct (H4 i Hi) as (v & Hv & H). exists v. split; [done|]. intros Hu. specialize (H Hu).
    unfold live_at in *. cbn. destruct (ls !! i) as [l|] eqn:El.
    + rewrite (bool_decide_eq_true_2 (is_Some (Some l))), orb_true_r in * by by eexists. exact H.
    + rewrite (bool_decide_eq_false_2 (is_Some None)), orb_false_r in * by by intros [??].
      destruct (bool_decide (delete c (sp_conns s) !! cid = Some i)) eqn:E; [|by eapply in_response_dead].
      apply bool_decide_eq_true, lookup_delete_Some in E as [_ E].
      by rewrite (bool_decide_eq_true_2 _ E) in H.
Qed.

Lemma calm_pool p s : calm s (sp_with_pool p s).
Proof. done. Qed.
Lemma calm_send f s : calm s (sp_send f s).
Proof. done. Qed.
Lemma calm_tombstone c now s : calm s (sp_tombstone c now s).
Proof. done. Qed.
Lemma calm_resets k s : calm s (sp_with_resets k s).
Proof. done. Qed.
Lemma calm_time_wait m s : calm s (sp_with_time_wait m s).
Proof. done. Qed.

Lemma ours_kill i s : ours s -> ours (sp_upd kill_conn i s).
Proof. apply ours_upd. by repeat split. Qed.

Lemma ours_reset c now s : ours s -> ours (reset_conn c now s).
Proof.
  intros HI. unfold reset_conn. eapply ours_calm; [apply calm_resets|]. eapply ours_calm; [apply calm_send|].
  cbn. destruct (sp_conns s !! c) as [i|]; [|by eapply ours_calm; [apply calm_tombstone|]].
  apply ours_kill. apply (ours_delete c (sp_tombstone c now s)). by eapply ours_calm; [apply calm_tombstone|].
Qed.

Lemma ours_remove_own c i s : ours s -> ours (remove_own c i s).
Proof. intros HI. unfold remove_own. case_decide; [by apply ours_delete|done]. Qed.

Lemma ours_inbound f now s :
  ours s -> tcp_data f s = None -> (conn_id f = cid -> stream_frame src n fin_sent f) ->
  ours (handle_inbound_frame f now s).
Proof.
  intros HI Hd Hf. unfold handle_inbound_frame. destruct (has_flag f FLAG_DATA) eqn:Ed.
  - unfold tcp_data in Hd. rewrite Ed in Hd. unfold inbound_data.
    destruct (sp_conns s !! conn_id f) as [i|] eqn:Hc; [|case_decide; eapply ours_calm; [apply calm_send|done|apply calm_send|done]].
    destruct (sp_vcs s !! i) as [v|] eqn:Hv; [|done]. destruct (sp_is_udp v) eqn:Hu; [|done].
    destruct (try_send _ _) as [[e|] c]; apply ours_set; try done; try (by eexists);
      intros _ Hu'; cbn in Hu'; congruence.
  - destruct (has_flag f FLAG_FIN) eqn:Efin.
    + unfold inbound_fin. destruct (sp_conns s !! conn_id f) as [i|] eqn:Hc; [|done].
      destruct (ou_dom _ HI _ _ Hc) as [v Hv]. rewrite (sp_upd_at _ _ v) by done.
      apply ours_set; [done|by eexists|]. intros Hi Hu.
      destruct (sp_is_udp v) eqn:Hu'; [congruence|].
      specialize (Hf (ou_own _ HI _ _ Hi Hc)). unfold stream_frame in Hf. rewrite Ed, Efin in Hf.
      destruct Hf as [Hs ->]. apply in_response_fin; [|done]. by apply ours_at.
    + destruct (has_flag f FLAG_RST); [by apply ours_reset|done].
Qed.

Lemma ours_fold {A} (g : SState -> A -> SState) (l : list A) s :
  (forall s x, ours s -> ours (g s x)) -> ours s -> ours (fold_left g l s).
Proof. intros Hg. revert s. induction l as [|x l IH]; intros s HG; cbn; [done|]. apply IH; auto. Qed.

Lemma ours_sweep now strong s e : ours s -> ours (sp_sweep_conn now strong s e).
Proof.
  intros HI. unfold sp_sweep_conn. destruct (sp_vcs s !! e.2) as [v|]; [|done].
  assert (forall g, (forall v, same_response v (g v)) ->
    ours (sp_with_conns (delete e.1 (sp_conns s))
            (sp_tombstone e.1 now (sp_send (frame_rst e.1) (sp_upd g e.2 s))))) as Hsw.
  { intros g Hg. apply (ours_delete e.1 (sp_tombstone e.1 now (sp_send (frame_rst e.1) (sp_upd g e.2 s)))).
    eapply ours_calm; [apply calm_tombstone|]. eapply ours_calm; [apply calm_send|]. by apply ours_upd. }
  destruct (sweep_verdict_of now (strong e.2) v); [done|by apply Hsw; repeat split..].
Qed.

Lemma ours_heartbeat now now_ms strong s : ours s -> ours (sp_heartbeat now now_ms strong s).
Proof.
  intros HI. unfold sp_heartbeat. eapply ours_calm; [apply calm_resets|].
  apply ours_fold; [intros; by apply ours_sweep|]. eapply ours_calm; [apply calm_time_wait|].
  by eapply ours_calm; [apply calm_pool|].
Qed.

Lemma ours_lost lost now s : ours s -> ours (recover_lost_sp lost now s).
Proof.
  apply ours_fold. intros s1 f HI. destruct (negb _); [by eapply ours_calm; [apply calm_send|]|].
  case_decide; [by apply ours_reset|done].
Qed.

Lemma ours_tcp e now t s t' s' : ours s -> tcp_step e now t s = Some (t', s') -> ours s'.
Proof.
  intros HI Hs. unfold tcp_step in Hs. destruct (sp_vcs s !! tc_vc t) as [v|]; [|done].
  assert (forall p, ours (sp_with_pool p s)) as Hp by (intros p; by eapply ours_calm; [apply calm_pool|]).
  assert (forall p f, ours (sp_send f (sp_with_pool p s))) as Hpf
    by (intros p f; by eapply ours_calm; [apply calm_send|]).
  destruct e, (tc_phase t); try done; repeat case_match; simplify_eq; try done;
    try (apply ours_upd; [by repeat split|done || apply Hp]); try apply Hpf; try apply Hp;
    try (by eapply ours_calm; [apply calm_send|]).
  apply ours_remove_own. by eapply ours_calm; [apply calm_tombstone|].
Qed.

Lemma ours_datagram a data now u s : ours s -> ours (udp_datagram a data now u s).2.
Proof.
  intros HI. unfold udp_datagram. destruct (negb _); [done|]. destruct (send_tries _ _ _) as [sent p].
  destruct sent; cbn; [apply ours_upd; [by repeat split|]|]; by eapply ours_calm; [apply calm_pool|].
Qed.

Lemma ours_udp_finish now u s : ours s -> ours (udp_finish now u s).
Proof.
  intros HI. unfold udp_finish. eapply ours_calm; [apply calm_send|]. apply ours_remove_own.
  by eapply ours_calm; [apply calm_tombstone|].
Qed.

(** A step of a UDP association takes from its own channel only. *)
Lemma ours_relay e now r s r' s' v :
  sp_vcs s !! uc_vc (ur_client r) = Some v -> sp_is_udp v = true -> ours s ->
  relay_step e now r s = Some (r', s') -> ours s'.
Proof.
  intros Hv Hu HI Hs. unfold relay_step in Hs. rewrite Hv in Hs.
  assert (forall c, ours (sp_upd (fun v => set_client c (sp_reorder v) v) (uc_vc (ur_client r)) s)) as Ht.
  { intros c. rewrite (sp_upd_at _ _ v) by done. apply ours_set; [done|by eexists|]. intros _ Hf. cbn in Hf. congruence. }
  destruct e as [a data| | | |ok|].
  - destruct (ur_phase r); try done. pose proof (ours_datagram a data now (ur_client r) s HI) as H.
    destruct (udp_datagram _ _ _ _ _) as [u' s1]. by injection Hs as _ <-.
  - destruct (ur_phase r); try done. by injection Hs as _ <-.
  - destruct (ur_phase r); try done. by injection Hs as _ <-.
  - destruct (ur_phase r); try done. destruct (has_permit _); [|done]. injection Hs as _ <-.
    apply ours_upd; [by repeat split|done].
  - destruct (ur_responding r); [|done]. destruct (try_recv _) as [[dgram|] c]; [|done].
    destruct (uc_addr _); [destruct ok|]; injection Hs as _ <-; apply Ht.
  - destruct (ur_phase r); try done. injection Hs as _ <-. by apply ours_udp_finish.
Qed.
End mine.

(** ** The steps that change who is ours, their writers or their calls *)
Section evolve.
Context (Hn : 0 <= n < 2 ^ 64 - 2) (Hw : 0 <= window_bytes).

Definition claims (c : Z) (i : nat) (mine : list nat) : list nat :=
  if decide (c = cid) then i :: mine else mine.

Definition installed (c : Z) (i : nat) (v : VirtConn) (s : SState) : SState :=
  mkSState (<[i := v]> (sp_vcs s)) (<[c := i]> (sp_conns s)) (time_wait s) (sp_pool s) (sp_resets s).

Lemma ours_install mine ws ls broken c i v s :
  ours mine ws ls broken s -> sp_vcs s !! i = None ->
  (sp_is_udp v = false -> in_response false v client_writer_start None true) ->
  ours (claims c i mine) ws ls broken (installed c i v s).
Proof.
  intros [H1 H2 H3 H4 H5] Hi Hv.
  assert (i ∉ mine) as Hni by (intros Hm; destruct (H4 i Hm) as (v0 & E & _); congruence).
  assert (forall c', sp_conns s !! c' = Some i -> False) as Hnc.
  { intros c' Hc. destruct (H1 c' i Hc) as [v0 E]. congruence. }
  destruct (H5 i Hi) as (Hwi & Hli & Hbi). unfold claims, installed. split; cbn.
  - intros c' j [[<- <-]|[_ Hj]]%lookup_insert_Some; rewrite lookup_insert_is_Some'; [by left|right; eauto].
  - intros j [[-> <-]|[Hc Hj]]%lookup_insert_Some.
    + rewrite decide_True by done. apply elem_of_cons. by left.
    + rewrite decide_False by done. auto.
  - intros j c' Hj [[<- <-]|[Hc Hc']]%lookup_insert_Some; case_decide; try done.
    + apply elem_of_cons in Hj as [->|Hj]; [by destruct (Hnc c')|eauto].
    + eauto.
  - intros j Hj. destruct (decide (j = i)) as [->|Hji].
    + exists v. rewrite lookup_insert_eq. split; [done|]. intros Hu. case_decide as E; [|done].
      unfold live_at, client_writer_of. cbn. rewrite E, lookup_insert_eq, Hwi, Hli.
      rewrite (bool_decide_eq_false_2 (i ∈ broken)) by done. rewrite (bool_decide_eq_true_2 (Some i = Some i)) by done.
      by apply Hv.
    + assert (j ∈ mine) as Hjm by (case_decide; [by apply elem_of_cons in Hj as [?|?]|done]).
      destruct (H4 j Hjm) as (v0 & Hv0 & H). exists v0. rewrite lookup_insert_ne by done. split; [done|].
      intros Hu. specialize (H Hu). unfold live_at in *. cbn. destruct (decide (c = cid)) as [->|Hc].
      * rewrite lookup_insert_eq. rewrite (bool_decide_eq_false_2 (Some i = Some j)) by congruence. cbn.
        destruct (ls !! j) as [l|] eqn:El.
        -- rewrite (bool_decide_eq_true_2 (is_Some (Some l))) in * by by eexists. by rewrite orb_true_r in H.
        -- rewrite (bool_decide_eq_false_2 (is_Some None)) by by intros [??]. by eapply in_response_dead.
      * by rewrite lookup_insert_ne.
  - intros j [Hj _]%lookup_insert_None. auto.
Qed.

(** Some more connections are ours after the step. *)
Definition follows (mine : list nat) (ws : gmap nat ClientWriter) (ls : gmap nat (Z * FrameLoop))
    (broken : list nat) (s : SState) : Prop :=
  exists mine', (forall j, j ∈ mine -> j ∈ mine') /\ ours mine' ws ls broken s.

Lemma follows_open mine ws ls broken c i v s (g : SState -> SState) :
  (forall mine s, ours mine ws ls broken s -> ours mine ws ls broken (g s)) ->
  ours mine ws ls broken s -> sp_vcs s !! i = None ->
  (sp_is_udp v = false -> in_response false v client_writer_start None true) ->
  follows mine ws ls broken (g (installed c i v s)).
Proof.
  intros Hg HI Hi Hv. exists (claims c i mine). split.
  - intros j Hj. unfold claims. case_decide; [|done]. apply elem_of_cons. by right.
  - apply Hg. by apply ours_install.
Qed.

Lemma follows_tcp_open mine ws ls broken c i target reply now s :
  ours mine ws ls broken s -> sp_vcs s !! i = None ->
  follows mine ws ls broken (tcp_open c i target reply window_bytes now s).2.
Proof.
  intros HI Hi. unfold tcp_open. destruct (syn_target_encode _) as [syn|]; [|by exists mine].
  set (s1 := mkSState _ _ _ _ _). destruct (send (frame_syn c syn) (sp_pool s1)) as [ok p].
  destruct ok; cbn [snd].
  - apply (follows_open mine ws ls broken c i (new_virt_conn false window_bytes now) s (sp_with_pool p));
      [|done|done|by intros _; apply in_response_start].
    intros. by eapply ours_calm; [apply calm_pool|].
  - apply (follows_open mine ws ls broken c i (new_virt_conn false window_bytes now) s
      (fun s => remove_own c i (sp_with_pool p s))); [|done|done|by intros _; apply in_response_start].
    intros. apply ours_remove_own. by eapply ours_calm; [apply calm_pool|].
Qed.

Lemma follows_udp_open mine ws ls broken c i addr reply now s :
  ours mine ws ls broken s -> sp_vcs s !! i = None ->
  follows mine ws ls broken (udp_open c i addr reply window_bytes now s).2.
Proof.
  intros HI Hi. unfold udp_open.
  assert (forall g, (forall mine s, ours mine ws ls broken s -> ours mine ws ls broken (g s)) ->
    follows mine ws ls broken (g (installed c i (new_virt_conn true window_bytes now) s))) as Hg.
  { intros g Hg. by apply (follows_open mine ws ls broken c i (new_virt_conn true window_bytes now) s g). }
  set (s1 := mkSState _ _ _ _ _). destruct (syn_target_encode _) as [syn|]; [|by apply (Hg (fun s => s))].
  destruct (send (frame_syn c syn) (sp_pool s1)) as [ok p]. destruct ok; cbn [snd].
  - apply (Hg (sp_with_pool p)). intros. by eapply ours_calm; [apply calm_pool|].
  - apply (Hg (fun s => let s2 := sp_with_pool p s in sp_with_conns (delete c (sp_conns s2)) s2)).
    intros. apply (ours_delete mine0 ws ls broken c (sp_with_pool p s0)). by eapply ours_calm; [apply calm_pool|].
Qed.

Definition from_reader (e : YEvent) : Prop :=
  match e with
  | YS (SvInbound f) _ | YPush f => conn_id f = cid -> stream_frame src n fin_sent f
  | _ => True
  end.

Lemma follows_sstep mine ws ls broken e now s s' :
  ours mine ws ls broken s -> from_reader (YS e now) ->
  (forall f, e = SvInbound f -> tcp_data f s = None) ->
  sstep window_bytes e now s = Some s' -> follows mine ws ls broken s'.
Proof.
  intros HI He Hd Hs. destruct e; cbn [sstep] in Hs; cbn in He.
  - injection Hs as <-. exists mine. split; [done|]. apply ours_inbound; auto.
  - injection Hs as <-. exists mine. split; [done|]. by apply ours_heartbeat.
  - injection Hs as <-. exists mine. split; [done|]. by apply ours_lost.
  - case_decide as Hi; [|done]. destruct (alloc_conn_id _ _ s) as [c|]; injection Hs as <-;
      [by apply follows_tcp_open|by exists mine].
  - case_decide as Hi; [|done]. destruct (alloc_conn_id _ _ s) as [c|]; injection Hs as <-;
      [by apply follows_udp_open|by exists mine].
  - apply fmap_Some in Hs as ([t' s1] & Hs & ->). exists mine. split; [done|]. by eapply ours_tcp.
  - injection Hs as <-. exists mine. split; [done|]. by apply ours_datagram.
  - injection Hs as <-. exists mine. split; [done|]. by apply ours_udp_finish.
Qed.

(** A connection changed with its writer, its call and its mark. *)
Lemma ours_change mine ws ls broken ws' ls' broken' i v v' s :
  ours mine ws ls broken s -> sp_vcs s !! i = Some v -> sp_is_udp v' = sp_is_udp v ->
  (forall j, j <> i -> ws' !! j = ws !! j /\ ls' !! j = ls !! j /\ (j ∈ broken' <-> j ∈ broken)) ->
  (i ∈ mine -> sp_is_udp v = false ->
   in_response (bool_decide (i ∈ broken)) v (client_writer_of ws i) (snd <$> ls !! i) (live_at ls i s) ->
   in_response (bool_decide (i ∈ broken')) v' (client_writer_of ws' i) (snd <$> ls' !! i) (live_at ls' i s)) ->
  ours mine ws' ls' broken' (sp_upd (fun _ => v') i s).
Proof.
  intros [H1 H2 H3 H4 H5] Hv Hu Hj Hr.
  assert (forall j, is_Some (sp_vcs s !! j) -> is_Some (alter (fun _ => v') i (sp_vcs s) !! j)) as Hdom.
  { intros j Hs. destruct (decide (i = j)) as [->|]; [by rewrite lookup_alter_eq, Hv|by rewrite lookup_alter_ne]. }
  split; cbn; try done; [by eauto| |].
  - intros j Hjm. destruct (H4 j Hjm) as (v0 & Hv0 & H). destruct (decide (j = i)) as [->|Hji].
    + rewrite Hv in Hv0. injection Hv0 as <-. exists v'. rewrite lookup_alter_eq, Hv. split; [done|].
      rewrite Hu. intros Hu'. apply Hr; auto.
    + exists v0. rewrite lookup_alter_ne by done. split; [done|]. intros Hu'. specialize (H Hu').
      destruct (Hj j Hji) as (E1 & E2 & E3). unfold live_at, client_writer_of in *. cbn.
      rewrite E1, E2, (bool_decide_ext _ _ E3). exact H.
  - intros j Hjn. destruct (decide (j = i)) as [->|Hji]; [by rewrite lookup_alter_eq, Hv in Hjn|].
    rewrite lookup_alter_ne in Hjn by done. destruct (H5 j Hjn) as (? & ? & ?).
    destruct (Hj j Hji) as (-> & -> & E3). split_and!; [done|done|]. by rewrite E3.
Qed.

Definition response_ok (mine : list nat) (y : YState) : Prop :=
  ours mine (yw y) (yl y) (y_broken y) (ys y) /\ held (ys y) (yl y).

Lemma marked (i : nat) (o : bool) broken :
  bool_decide (i ∈ if o then i :: broken else broken) = bool_decide (i ∈ broken) || o.
Proof.
  destruct o; [|by rewrite orb_false_r]. rewrite orb_true_r. apply bool_decide_eq_true_2.
  apply elem_of_cons. by left.
Qed.

Lemma marked_other (i j : nat) (o : bool) broken : j <> i -> (j ∈ if o then i :: broken else broken) <-> j ∈ broken.
Proof. intros Hj. destruct o; [|done]. rewrite elem_of_cons. naive_solver. Qed.

Lemma tcp_data_inv f s i v :
  tcp_data f s = Some (i, v) ->
  has_flag f FLAG_DATA = true /\ sp_conns s !! conn_id f = Some i /\ sp_vcs s !! i = Some v /\
  sp_is_udp v = false.
Proof.
  unfold tcp_data. destruct (has_flag f FLAG_DATA); [|done]. destruct (sp_conns s !! conn_id f) as [j|]; [|done].
  destruct (sp_vcs s !! j) as [v0|] eqn:Hv; [|done]. destruct (sp_is_udp v0) eqn:Hu; [done|].
  intros H. injection H as <- <-. done.
Qed.

(** The entry of a connection of ours, found at [c], keeps it live. *)
Lemma live_found mine ws ls broken c i s :
  ours mine ws ls broken s -> i ∈ mine -> sp_conns s !! c = Some i -> c = cid /\ forall ls', live_at ls' i s = true.
Proof.
  intros HI Hi Hc. pose proof (ou_own _ _ _ _ _ HI i c Hi Hc) as E. split; [done|]. intros ls'.
  rewrite E in Hc. unfold live_at. by rewrite bool_decide_eq_true_2.
Qed.

Lemma step_push mine y f y' :
  response_ok mine y -> from_reader (YPush f) -> ystep window_bytes (YPush f) y = Some y' -> response_ok mine y'.
Proof.
  intros [HI Hh] He Hs. cbn in Hs, He.
  destruct (tcp_data f (ys y)) as [[i v]|] eqn:Hd; [|done]. apply tcp_data_inv in Hd as (Hf & Hc & Hv & Hu).
  case_decide as Hl; [|done]. destruct (push (sp_reorder v) (seq f) (payload f)) as [r ro] eqn:P.
  injection Hs as <-. split; cbn.
  - eapply (ours_change _ _ _ _ _ _ _ i v); [exact HI|done|done| |].
    + intros j Hj. split_and!; [done| |by apply marked_other]. destruct (accepted r); [by rewrite lookup_insert_ne|done].
    + intros Hi _. destruct (live_found _ _ _ _ _ _ _ HI Hi Hc) as [E Hlive].
      specialize (He E). unfold stream_frame in He. rewrite Hf in He. destruct He as [Hk Hp].
      change (live_at (if accepted r then _ else _) i _) with
        (live_at (if accepted r then <[i := (conn_id f, mkFrameLoop (ready r) (zlen (payload f)) false)]> (yl y)
                  else yl y) i (ys y)).
      rewrite !Hlive, Hl, marked. intros H. cbn in H.
      eapply (in_response_step _ v _ None true (CeData (seq f) (payload f))); [done|exact H|by split|done|].
      cbn. rewrite P. destruct (accepted r); [by rewrite lookup_insert_eq|by rewrite Hl].
  - unfold held in *. cbn. destruct (accepted r); [|done]. by apply map_Forall_insert_2.
Qed.

Lemma step_send mine y i y' :
  response_ok mine y -> ystep window_bytes (YSend i) y = Some y' -> response_ok mine y'.
Proof.
  intros [HI Hh] Hs. cbn in Hs. destruct (yl y !! i) as [[c [[|b rest] k ov]]|] eqn:Hl; [done| |done].
  destruct (sp_vcs (ys y) !! i) as [v|] eqn:Hv; [|done].
  destruct (client_write b (to_client_tx v)) as [failed ch] eqn:Ew. injection Hs as <-.
  pose proof (map_Forall_lookup_1 _ _ _ _ Hh Hl) as Hc. cbn in Hc. split; cbn.
  - eapply (ours_change _ _ _ _ _ _ _ i v); [exact HI|done|done| |].
    + intros j Hj. split_and!; [done|by rewrite lookup_insert_ne|by apply marked_other].
    + intros Hi _. destruct (live_found _ _ _ _ _ _ _ HI Hi Hc) as [_ Hlive].
      rewrite Hlive, marked, lookup_insert_eq, Hl. cbn. intros H.
      change (live_at _ i _) with (live_at (<[i := (c, mkFrameLoop rest k (ov || failed))]> (yl y)) i (ys y)).
      rewrite Hlive. eapply (in_response_step _ v _ _ true CeSend); [done|exact H|done|done|].
      cbn. by rewrite Ew.
  - unfold held in *. by apply map_Forall_insert_2.
Qed.

Lemma step_end mine y i now y' :
  response_ok mine y -> ystep window_bytes (YEnd i now) y = Some y' -> response_ok mine y'.
Proof.
  intros [HI Hh] Hs. cbn in Hs. destruct (yl y !! i) as [[c [[|b rest] k ov]]|] eqn:Hl; [|done|done].
  destruct (sp_vcs (ys y) !! i) as [v|] eqn:Hv; [|done]. injection Hs as <-.
  pose proof (map_Forall_lookup_1 _ _ _ _ Hh Hl) as Hc. cbn in Hc. split; cbn.
  - eapply (ours_change _ _ _ _ _ _ _ i v); [exact HI|done|done| |].
    + intros j Hj. by rewrite lookup_delete_ne.
    + intros Hi _. destruct (live_found _ _ _ _ _ _ _ HI Hi Hc) as [_ Hlive].
      rewrite Hlive, lookup_delete_eq, Hl. cbn. intros H.
      change (live_at _ i _) with (live_at (delete i (yl y)) i (ys y)).
      rewrite Hlive. by eapply (in_response_step _ v _ _ true (CeLoopEnd now)); [done|exact H|done|done|].
  - unfold held in *. by apply map_Forall_delete.
Qed.

Lemma step_writer mine y i we y' :
  response_ok mine y -> ystep window_bytes (YW i we) y = Some y' -> response_ok mine y'.
Proof.
  intros [HI Hh] Hs. cbn in Hs. destruct (sp_vcs (ys y) !! i) as [v|] eqn:Hv; [|done].
  destruct (sp_is_udp v || _) eqn:Hg; [done|]. apply orb_false_iff in Hg as [_ Hg].
  destruct (client_writer_step we _ _) as [[w c]|] eqn:Ew; [|done]. injection Hs as <-. split; cbn; [|done].
  eapply (ours_change _ _ _ _ _ _ _ i v); [exact HI|done|done| |].
  - intros j Hj. by rewrite lookup_insert_ne.
  - intros Hi _ H. unfold client_writer_of at 1. rewrite lookup_insert_eq. cbn.
    change (live_at _ i _) with (live_at (yl y) i (ys y)).
    eapply (in_response_step _ v _ _ _ (CeWriter we)); [done|exact H|done|done|].
    cbn. rewrite Ew. destruct we as [[]| | |]; try done. cbn [andb] in *.
    replace (live_at (yl y) i (ys y)) with false; [done|].
    apply negb_false_iff, bool_decide_eq_true in Hg. unfold unlisted in Hg. symmetry. unfold live_at.
    apply orb_false_iff. split; apply bool_decide_eq_false_2.
    + intros Hc. by apply (map_Forall_lookup_1 _ _ _ _ Hg Hc).
    + intros [[c0 l] Hl]. pose proof (map_Forall_lookup_1 _ _ _ _ Hh Hl) as Hc.
      by apply (map_Forall_lookup_1 _ _ _ _ Hg Hc).
Qed.

Lemma ystep_ok mine e y y' :
  response_ok mine y -> from_reader e -> ystep window_bytes e y = Some y' ->
  exists mine', (forall j, j ∈ mine -> j ∈ mine') /\ response_ok mine' y'.
Proof.
  intros HG He Hs. destruct e as [e now|f|i|i now|k now|i we|r e now|p].
  - destruct HG as [HI Hh]. cbn [ystep] in Hs.
    destruct (match e with SvInbound f => _ | _ => false end) eqn:Hd; [done|].
    destruct (sstep window_bytes e now (ys y)) as [s'|] eqn:Es; [|done]. case_decide as Hheld; [|done].
    assert (forall f, e = SvInbound f -> tcp_data f (ys y) = None) as Hnd.
    { intros f ->. apply bool_decide_eq_false in Hd. by apply eq_None_not_Some. }
    injection Hs as <-. destruct (follows_sstep _ _ _ _ _ _ _ _ HI He Hnd Es) as (m' & Hm & HI').
    by exists m'.
  - exists mine. split; [done|]. by eapply step_push.
  - exists mine. split; [done|]. by eapply step_send.
  - exists mine. split; [done|]. by eapply step_end.
  - destruct HG as [HI Hh]. cbn in Hs. destruct (y_due y !! k) as [c|]; [|done]. case_decide; [|done].
    injection Hs as <-. exists mine. split; [done|]. split; [|done]. by apply ours_reset.
  - exists mine. split; [done|]. by eapply step_writer.
  - destruct HG as [HI Hh]. cbn in Hs. destruct (sp_vcs (ys y) !! uc_vc (ur_client r)) as [v|] eqn:Hv; [|done].
    destruct (relay_step e now r (ys y)) as [[r' s']|] eqn:Er; [|done].
    destruct (sp_is_udp v && _) eqn:Hu; [|done]. apply andb_true_iff in Hu as [Hu Hheld%bool_decide_eq_true].
    injection Hs as <-. exists mine. split; [done|]. split; [|done]. by eapply ours_relay.
  - destruct HG as [HI Hh]. injection Hs as <-. exists mine. split; [done|]. split; [|done].
    by eapply ours_calm; [apply calm_pool|].
Qed.

Lemma yrun_ok es : forall mine y y',
  response_ok mine y -> Forall from_reader es -> yrun window_bytes es y = Some y' ->
  exists mine', (forall j, j ∈ mine -> j ∈ mine') /\ response_ok mine' y'.
Proof.
  induction es as [|e es IH]; intros mine y y' HG Hes Hr; cbn in Hr.
  { injection Hr as <-. by exists mine. }
  apply Forall_cons in Hes as [He Hes]. destruct (ystep window_bytes e y) as [y1|] eqn:Es; [|done].
  destruct (ystep_ok _ _ _ _ HG He Es) as (m1 & Hm1 & HG1).
  destruct (IH _ _ _ HG1 Hes Hr) as (m2 & Hm2 & HG2). exists m2. auto.
Qed.

Lemma response_ok_start p : response_ok [] (ystart p).
Proof.
  split; [|by apply map_Forall_empty]. split; cbn.
  - intros c i H. by rewrite lookup_empty in H.
  - intros i H. by rewrite lookup_empty in H.
  - by intros i c ?%elem_of_nil.
  - by intros i ?%elem_of_nil.
  - intros i _. split_and!; [apply lookup_empty|apply lookup_empty|apply not_elem_of_nil].
Qed.
End evolve.

(** A connection that was ever in the table for [cid], at any later time, also after it has
    left the table. *)
Lemma yrun_bytes es1 es2 p y1 y i :
  0 <= n < 2 ^ 64 - 2 -> 0 <= window_bytes -> Forall from_reader (es1 ++ es2) ->
  yrun window_bytes es1 (ystart p) = Some y1 -> sp_conns (ys y1) !! cid = Some i ->
  yrun window_bytes es2 y1 = Some y ->
  exists v, sp_vcs (ys y) !! i = Some v /\
    (sp_is_udp v = false ->
     let w := client_writer_of (yw y) i in
     (exists kept, kept `sublist_of` chunks src 1 (n + 1) /\ cw_out w `prefix_of` concat kept) /\
     (i ∉ y_broken y ->
      cw_out w `prefix_of` upto src (n + 1) /\
      (cw_at w = CwReturned CwDrained -> sp_fin_received v = true ->
       is_complete_through (sp_reorder v) (sp_fin_seq v) = true ->
       cw_out w = upto src (n + 1) /\ fin_sent = true))).
Proof.
  intros Hn Hw Hes Hr1 Hi Hr2. apply Forall_app in Hes as [He1 He2].
  destruct (yrun_ok Hn Hw es1 [] (ystart p) y1 (response_ok_start p) He1 Hr1) as (m1 & _ & HG1).
  pose proof (ou_mine _ _ _ _ _ (proj1 HG1) i Hi) as Him.
  destruct (yrun_ok Hn Hw es2 m1 y1 y HG1 He2 Hr2) as (m2 & Hm & [HI _]).
  destruct (ou_vcs _ _ _ _ _ HI i (Hm i Him)) as (v & Hv & H).
  exists v. split; [done|]. intros Hu. destruct (H Hu) as [(seen & acc & e & Hinv) Hfin].
  destruct (resp_inv_bytes _ _ _ _ _ _ (proj1 Hn) Hinv) as [P1 P2]. split; [exact P1|]. intros Hb.
  destruct P2 as [P2 P3]; [by apply bool_decide_eq_false_2|]. split; [exact P2|].
  intros Hd Hfr Hc. split; [by apply P3|auto].
Qed.
End one_response.
