(* ===== verification/SplitterNode.v ===== *)
(** * The splitter process

    All parts of [src/src/splitter.rs] in one state: the shared state with the writer
    tasks of the clients ([SplitterStream]), the handlers of TCP clients with the
    [send_async] each may be in, the UDP relays, the tunnel tasks ([TunnelTask]) and the
    links with their drain tasks and sockets ([Wires]).  A client comes with the bytes of its
    SOCKS5 handshake, and more bytes arrive later; a frame comes from the decoder of a
    tunnel; everything else is the process's own. *)
From Stdlib Require Import ZArith Lia.
From Stdlib Require Import Strings.Byte.
From stdpp Require Import base numbers list option fin_maps gmap.
From S2P Require Import Prelude Runtime Frames Reorder Tunnel Net.
From S2P Require Import Socks5 Wire PoolSends Wires Reassembler.
From S2P Require Import Splitter SplitterFacts SplitterTcp SplitterUdp SplitterSends TunnelTask.
From S2P Require Import ClientConn ClientFacts SplitterStream.
Local Open Scope Z_scope.

(** ** A client handler with its sends *)

(** Awaiting nothing that concerns the tunnels, [send_async] of a chunk that was read, or
    [send_async] of the FIN; [full] is the local of that name. *)
Inductive sending : Type :=
| NotSending
| SendingChunk (chunk : bytes) (full : list nat)
| SendingFin (full : list nat).

Section node.
Context {T : Tokio} {D : DashIter} {B : BufMut}.

Inductive handler_event : Type :=
| HvArrive (b : bytes)     (** bytes of the client arrive at the socket *)
| HvRead (n : nat)         (** [client_reader.read] returned [n] bytes, or all there are *)
| HvTurn (e : tcp_event)   (** another arm of the [select!], a turn of the grace wait, the end *)
| HvFin                    (** after the loop: the FIN is handed to [send_async] *)
| HvNoFin                  (** after the loop: there is no FIN to send *)
| HvPass                   (** one pass of the loop of [send_async] *)
| HvTimeout.               (** [data_send_timeout] expired *)

(** The local state of [handle_tcp_client], with [accepted.target] and the client's socket:
    [h_hello] is what had arrived when the handshake ended, [h_stream] what the client sent
    after its request, [h_unread] what of it was not read yet.  [h_turns]: the turns so far,
    with what each saw. *)
Record Handler : Type := mkHandler {
  h_task : TcpClient;
  h_hello : bytes;
  h_target : TargetAddr;
  h_stream : bytes;
  h_unread : bytes;
  h_sending : sending;
  h_turns : list tcp_input;
}.

(** [close_reason != "rst" && !force_rst]. *)
Definition fin_needed (ph : tcp_phase) : bool :=
  match ph with
  | TcClosing ReasonRst _ => false
  | TcClosing _ force_rst => negb force_rst
  | _ => false
  end.
Definition is_closing (ph : tcp_phase) : bool := match ph with TcClosing _ _ => true | _ => false end.
Definition is_reading (ph : tcp_phase) : bool := match ph with TcReading => true | _ => false end.
Definition plain_turn (e : tcp_event) : bool :=
  match e with TcEof | TcReadErr | TcNotified | TcPoll | TcRemove => true | _ => false end.

Definition handler_waits (sn : sending) (h : Handler) : Handler :=
  mkHandler (h_task h) (h_hello h) (h_target h) (h_stream h) (h_unread h) sn (h_turns h).
Definition handler_socket (stream unread : bytes) (sn : sending) (h : Handler) : Handler :=
  mkHandler (h_task h) (h_hello h) (h_target h) stream unread sn (h_turns h).

Definition handler_turn (e : tcp_event) (now : Z) (h : Handler) (s : SState) : option (Handler * YEvent) :=
  match tcp_step e now (h_task h) s with
  | Some (t, _) =>
    Some (mkHandler t (h_hello h) (h_target h) (h_stream h) (h_unread h) NotSending (h_turns h ++ [(e, now, s)]),
          YS (SvTcp (h_task h) e) now)
  | None => None
  end.

Definition handler_pass (f : Frame) (full : list nat) (wait : list nat -> sending)
    (sent : TunnelPool -> tcp_event) (now : Z) (h : Handler) (s : SState) : option (Handler * YEvent) :=
  match send_async_pass f full (sp_pool s) with
  | (AsyncSent, p) => handler_turn (sent p) now h s
  | (AsyncAgain full', p) => Some (handler_waits (wait full') h, YPool p)
  | (AsyncSleep, p) => Some (handler_waits (wait []) h, YPool p)
  | (AsyncWaitAdded, p) => Some (handler_waits (wait full) h, YPool p)
  end.

(** What the handler does to the shared state is one [YEvent].  [read] returns no bytes only
    when all were read and the client closed its half. *)
Definition handler_step (e : handler_event) (now : Z) (h : Handler) (s : SState)
  : option (Handler * YEvent) :=
  let t := h_task h in
  match e, h_sending h with
  | HvArrive b, sn =>
    if is_reading (tc_phase t)
    then Some (handler_socket (h_stream h ++ b) (h_unread h ++ b) sn h, YPool (sp_pool s)) else None
  | HvRead n, NotSending =>
    let chunk := take n (h_unread h) in
    if decide (is_reading (tc_phase t) = true /\ chunk <> [])
    then Some (handler_socket (h_stream h) (drop n (h_unread h)) (SendingChunk chunk []) h, YPool (sp_pool s))
    else None
  | HvTurn e, NotSending =>
    if plain_turn e && match e with TcEof => bool_decide (h_unread h = []) | _ => true end
    then handler_turn e now h s else None
  | HvFin, NotSending =>
    if fin_needed (tc_phase t) then Some (handler_waits (SendingFin []) h, YPool (sp_pool s)) else None
  | HvNoFin, NotSending =>
    if is_closing (tc_phase t) && negb (fin_needed (tc_phase t))
    then handler_turn (TcFinish false (sp_pool s)) now h s else None
  | HvPass, SendingChunk chunk full =>
    handler_pass (frame_data (tc_cid t) (tc_seq t) chunk) full (SendingChunk chunk)
      (TcChunk chunk true) now h s
  | HvPass, SendingFin full =>
    if fin_needed (tc_phase t) then
      handler_pass (frame_fin (tc_cid t) (tc_seq t)) full SendingFin (TcFinish true) now h s
    else None
  | HvTimeout, SendingChunk chunk _ => handler_turn (TcChunk chunk false (sp_pool s)) now h s
  | HvTimeout, SendingFin _ => handler_turn (TcFinish false (sp_pool s)) now h s
  | _, _ => None
  end.

(** A UDP association, what its client sent to open it, the address it announced, and its
    turns so far. *)
Record Relay : Type := mkRelay {
  u_relay : UdpRelay;
  u_hello : bytes;
  u_addr : option SocketAddr;
  u_turns : list relay_input;
}.

(** ** The process *)
Context (window_bytes : Z) (f64_exp : f64 -> f64).

Record Node : Type := mkNode {
  n_y : YState;
  n_handlers : gmap nat Handler;
  n_udp : gmap nat Relay;
  n_tasks : gmap nat TunnelTask;
  n_wires : gmap nat Wire;
}.

Definition n_state (n : Node) : SState := ys (n_y n).
Definition n_arcs (n : Node) : gmap nat TunnelLink := arcs (sp_pool (n_state n)).
Definition with_handlers (hs : gmap nat Handler) (n : Node) : Node :=
  mkNode (n_y n) hs (n_udp n) (n_tasks n) (n_wires n).
Definition with_udp (us : gmap nat Relay) (n : Node) : Node :=
  mkNode (n_y n) (n_handlers n) us (n_tasks n) (n_wires n).
Definition with_task (k : nat) (t : TunnelTask) (n : Node) : Node :=
  mkNode (n_y n) (n_handlers n) (n_udp n) (<[k := t]> (n_tasks n)) (n_wires n).
Definition with_wires (ws : gmap nat Wire) (n : Node) : Node :=
  mkNode (n_y n) (n_handlers n) (n_udp n) (n_tasks n) ws.

(** One step of the shared state; the links' tasks see what it did to the links. *)
Definition node_do (e : YEvent) (n : Node) : option Node :=
  match ystep window_bytes e (n_y n) with
  | Some y => Some (mkNode y (n_handlers n) (n_udp n) (n_tasks n) (sync_wires (arcs (sp_pool (ys y))) (n_wires n)))
  | None => None
  end.

Inductive node_event : Type :=
| NvClient (ids : list Z) (h : nat) (relay : option SocketAddr) (hello : bytes) (now : Z)
    (** the handshake of a client that sent [hello] ended *)
| NvHandler (h : nat) (e : handler_event) (now : Z)
| NvRelay (i : nat) (e : relay_event) (now : Z)
| NvFrame (k : nat) (f : Frame) (now : Z)        (** the decoder of tunnel [k] returned [f] *)
| NvTunnel (k : nat) (e : tunnel_event) (now : Z) (** the other steps of its task *)
| NvDrain (i : nat) (e : drain_event)             (** the drain task of link [i] *)
| NvOther (e : YEvent).                           (** heartbeat, writers, deliveries *)

(** The random ids are [u32]s. *)
#[global] Instance is_u32_dec c : Decision (is_u32 c).
Proof. unfold is_u32. apply _. Defined.
#[global] Instance frame_typed_dec f : Decision (frame_typed f).
Proof. unfold frame_typed. apply _. Defined.

Definition other_event (e : YEvent) : bool :=
  match e with
  | YS (SvHeartbeat _ _) _ | YSend _ | YEnd _ _ | YReset _ _ | YW _ _ => true
  | _ => false
  end.

(** The handler that starts when the id was found and the SYN was sent; [rest]: what the
    client sent behind its request. *)
Definition opened_handler (ids : list Z) (h : nat) (hello : bytes) (target : TargetAddr) (reply rest : bytes)
    (now : Z) (s : SState) : option Handler :=
  match alloc_conn_id ALLOC_TRIES ids s with
  | Some cid =>
    (fun t => mkHandler t hello target rest rest NotSending []) <$> (tcp_open cid h target reply window_bytes now s).1.2
  | None => None
  end.
Definition opened_udp (ids : list Z) (i : nat) (hello : bytes) (addr : option SocketAddr) (reply : bytes)
    (now : Z) (s : SState) : option Relay :=
  match alloc_conn_id ALLOC_TRIES ids s with
  | Some cid =>
    (fun u => mkRelay (mkUdpRelay u UrReceiving true [] []) hello addr []) <$>
      (udp_open cid i addr reply window_bytes now s).1.2
  | None => None
  end.

(** [handle_client]: after the handshake, an id and the client's handler. *)
Definition node_client (ids : list Z) (h : nat) (relay : option SocketAddr) (hello : bytes) (now : Z)
    (n : Node) : option Node :=
  if decide (n_handlers n !! h = None /\ n_udp n !! h = None /\ Forall is_u32 ids) then
    match socks5_server_accept relay hello [] with
    | (Ok (Connect target, reply), rest, _) =>
      node_do (YS (SvTcpOpen ids h target reply) now)
        (match opened_handler ids h hello target reply rest now (n_state n) with
         | Some H => with_handlers (<[h := H]> (n_handlers n)) n | None => n end)
    | (Ok (UdpAssociate _ addr, reply), _, _) =>
      node_do (YS (SvUdpOpen ids h addr reply) now)
        (match opened_udp ids h hello addr reply now (n_state n) with
         | Some r => with_udp (<[h := r]> (n_udp n)) n | None => n end)
    | (Err _, _, _) => Some n
    end
  else None.

(** The frame is handled, then counted on its link. *)
Definition node_frame (i : nat) (f : Frame) (now : Z) (n : Node) : option Node :=
  match node_do (match tcp_data f (n_state n) with Some _ => YPush f | None => YS (SvInbound f) now end) n with
  | Some n1 => node_do (YPool (sp_pool (on_link (count_recv (zlen (payload f)) now) i (n_state n1)))) n1
  | None => None
  end.

(** The drain task of link [i] has returned: what it lost is taken and recovered. *)
Definition node_recover (i : nat) (now : Z) (n : Node) : option Node :=
  match n_arcs n !! i, n_wires n !! i with
  | Some l, Some w =>
    if returned (d_phase (wi_drain w)) then
      match node_do (YPool (sp_pool (on_link (set_lost_frames []) i (n_state n)))) n with
      | Some n1 => node_do (YS (SvLost (lost_frames l)) now) n1
      | None => None
      end
    else None
  | _, _ => None
  end.

Definition node_tunnel (k : nat) (e : tunnel_event) (now : Z) (n : Node) : option Node :=
  let t := default tunnel_start (n_tasks n !! k) in
  match tunnel_step e now t (n_state n) with
  | None => None
  | Some (t', s') =>
    let n1 := with_task k t' n in
    match e, tt_phase t with
    | TvFrame _, _ => None
    | TvDrained _, TtDraining i => node_recover i now n1
    | _, _ => node_do (YPool (sp_pool s')) n1
    end
  end.

Definition node_step (e : node_event) (n : Node) : option Node :=
  let s := n_state n in
  match e with
  | NvClient ids h relay hello now => node_client ids h relay hello now n
  | NvHandler h ev now =>
    match n_handlers n !! h with
    | Some H =>
      match handler_step ev now H s with
      | Some (H', ye) => node_do ye (with_handlers (<[h := H']> (n_handlers n)) n)
      | None => None
      end
    | None => None
    end
  | NvRelay i ev now =>
    match n_udp n !! i with
    | Some r =>
      match relay_step ev now (u_relay r) s with
      | Some (r', _) =>
        node_do (YRelay (u_relay r) ev now)
          (with_udp (<[i := mkRelay r' (u_hello r) (u_addr r) (u_turns r ++ [(ev, now, s)])]> (n_udp n)) n)
      | None => None
      end
    | None => None
    end
  | NvFrame k f now =>
    match tt_phase (default tunnel_start (n_tasks n !! k)) with
    | TtReading i => if decide (frame_typed f) then node_frame i f now n else None
    | _ => None
    end
  | NvTunnel k ev now => node_tunnel k ev now n
  | NvDrain i ev =>
    match drain_at f64_exp i ev (n_arcs n) (n_wires n) with
    | Some (a, ws) =>
      match ystep window_bytes (YPool (mkTunnelPool a (links (sp_pool s)) (rr (sp_pool s)))) (n_y n) with
      | Some y => Some (mkNode y (n_handlers n) (n_udp n) (n_tasks n) ws)
      | None => None
      end
    | None => None
    end
  | NvOther ye => if other_event ye then node_do ye n else None
  end.

Fixpoint node_run (es : list node_event) (n : Node) : option Node :=
  match es with
  | [] => Some n
  | e :: es' => match node_step e n with Some n' => node_run es' n' | None => None end
  end.

Definition node_start : Node := mkNode (ystart pool_new) ∅ ∅ ∅ ∅.
End node.
