(* ===== verification/SplitterNodeFacts.v ===== *)
(** * What leaves the splitter

    In any run of the splitter process, every SYN, DATA and FIN frame that ever got into a
    tunnel was sent by the handler, or the UDP relay, that owns its id. *)
From Stdlib Require Import ZArith Lia.
From Stdlib Require Import Strings.Byte.
From stdpp Require Import base numbers list option fin_maps gmap.
From S2P Require Import Prelude Runtime Frames Reorder Tunnel Net.
From S2P Require Import Socks5 Socks5Facts Wire PoolSends Wires Reassembler.
From S2P Require Import Splitter SplitterFacts SplitterTcp SplitterUdp SplitterSends TunnelTask.
From S2P Require Import ClientConn ClientFacts SplitterStream SplitterNode.
Local Open Scope Z_scope.

Section node_facts.
Context {T : Tokio} {TL : TokioLaws T} {D : DashIter} {DL : DashIterLaws D} {B : BufMut} {BL : BufMutLaws B}.
Context (window_bytes : Z) (f64_exp : f64 -> f64).

(** ** The shared state *)

(** All ids it holds are [u32]s. *)
Record y_typed (y : YState) : Prop := {
  yt_conns : ids_typed (ys y);
  yt_calls : map_Forall (fun _ (l : Z * FrameLoop) => is_u32 l.1) (yl y);
  yt_due : Forall is_u32 (y_due y);
}.

(** If the SYN of a new connection goes out, it satisfies [P]. *)
Definition syn_goes (P : Frame -> Prop) (c : Z) (st : SynTarget) (s : SState) : Prop :=
  forall syn, syn_target_encode st = Ok syn -> (send (frame_syn c syn) (sp_pool s)).1 = true -> P (frame_syn c syn).

(** What an event has to satisfy for the links to get only frames with [P]. *)
Definition event_sends (P : Frame -> Prop) (y : YState) (e : YEvent) : Prop :=
  match e with
  | YS (SvInbound f) _ | YPush f => is_u32 (conn_id f)
  | YS (SvLost lost) _ => Forall (fun f => is_u32 (conn_id f) /\ P f) lost
  | YS (SvTcpOpen ids _ target _) _ =>
    Forall is_u32 ids /\ forall c, alloc_conn_id ALLOC_TRIES ids (ys y) = Some c -> syn_goes P c (tcp_syn target) (ys y)
  | YS (SvUdpOpen ids _ _ _) _ =>
    Forall is_u32 ids /\ forall c, alloc_conn_id ALLOC_TRIES ids (ys y) = Some c -> syn_goes P c udp_syn (ys y)
  | YS (SvTcp t e) _ => is_u32 (tc_cid t) /\ turn_pool P e (sp_pool (ys y))
  | YS (SvUdp u src data) _ => Forall P (datagram_frames src data u (ys y))
  | YS (SvUdpFinish u) _ => is_u32 (uc_cid u)
  | YRelay r e _ => is_u32 (uc_cid (ur_client r)) /\
      match e with UrDatagram src data => Forall P (datagram_frames src data (ur_client r) (ys y)) | _ => True end
  | YPool p => arcs_step P (arcs (sp_pool (ys y))) (arcs p)
  | _ => True
  end.

Lemma typed_evolve now s s' : sp_evolve now s s' -> ids_typed s -> ids_typed s'.
Proof. intros H Ht c i Hc. apply (se_conns _ _ _ H) in Hc. exact (Ht c i Hc). Qed.

Lemma sp_evolve_relay e now r s r' s' : relay_step e now r s = Some (r', s') -> sp_evolve now s s'.
Proof.
  intros Hs. unfold relay_step in Hs. destruct (sp_vcs s !! _) as [v|]; [|done].
  destruct e as [src data| | | |ok|].
  - destruct (ur_phase r); try done. pose proof (sp_evolve_udp src data now (ur_client r) s) as H.
    destruct (udp_datagram _ _ _ _ _) as [u' s1]. by injection Hs as _ <-.
  - destruct (ur_phase r); try done. by injection Hs as _ <-.
  - destruct (ur_phase r); try done. by injection Hs as _ <-.
  - destruct (ur_phase r); try done. destruct (has_permit _); [|done]. injection Hs as _ <-. by apply sp_evolve_upd.
  - destruct (ur_responding r); [|done]. destruct (try_recv _) as [[dgram|] c]; [|done].
    destruct (uc_addr _); [destruct ok|]; injection Hs as _ <-; by apply sp_evolve_upd.
  - destruct (ur_phase r); try done. injection Hs as _ <-. unfold udp_finish.
    etrans; [apply (sp_evolve_remove_own now (uc_cid (ur_client r)) (uc_vc (ur_client r)))|apply sp_evolve_send].
Qed.

Lemma typed_open now s s' c i (udp : bool) target addr reply :
  s' = (if udp then (udp_open c i addr reply window_bytes now s).2
        else (tcp_open c i target reply window_bytes now s).2) ->
  sp_conns s !! c = None -> is_u32 c -> ids_typed s -> ids_typed s'.
Proof.
  intros He Hn Hc Ht c' j Hj. destruct (open_other _ _ _ _ _ _ _ _ _ _ He Hn) as (H1 & _ & _).
  destruct (decide (c' = c)) as [->|Hne]; [done|]. rewrite H1 in Hj by done. exact (Ht c' j Hj).
Qed.

Lemma sstep_sends (P : Frame -> Prop) e now y s' :
  allows_resets P -> ids_typed (ys y) -> event_sends P y (YS e now) ->
  sstep window_bytes e now (ys y) = Some s' -> ids_typed s' /\ sp_gets P (ys y) s'.
Proof.
  intros PR Ht He Hs. destruct e as [f|now_ms strong|lost|ids i target reply|ids i addr reply|t ev|u src data|u];
    cbn [sstep event_sends] in *.
  - injection Hs as <-. split; [by eapply typed_evolve; [apply (sp_evolve_inbound f now)|]|by apply inbound_gets].
  - injection Hs as <-. split; [by eapply typed_evolve; [apply (sp_evolve_heartbeat now)|]|by apply heartbeat_gets].
  - injection Hs as <-. split; [by eapply typed_evolve; [apply (sp_evolve_lost lost now)|]|by apply lost_gets].
  - destruct He as [Hids Hsyn]. case_decide; [|done]. destruct (alloc_conn_id _ _ _) as [c|] eqn:Ea;
      [|injection Hs as <-; split; [done|reflexivity]].
    pose proof Ea as Ea'. apply alloc_spec in Ea as (Hc & _ & Hn & _). rewrite Forall_forall in Hids. specialize (Hids c Hc).
    injection Hs as <-. split; [|by apply tcp_open_gets, Hsyn].
    by apply (typed_open now (ys y) _ c i false target None reply).
  - destruct He as [Hids Hsyn]. case_decide; [|done]. destruct (alloc_conn_id _ _ _) as [c|] eqn:Ea;
      [|injection Hs as <-; split; [done|reflexivity]].
    pose proof Ea as Ea'. apply alloc_spec in Ea as (Hc & _ & Hn & _). rewrite Forall_forall in Hids. specialize (Hids c Hc).
    injection Hs as <-. split; [|by apply udp_open_gets, Hsyn].
    by apply (typed_open now (ys y) _ c i true (mkTargetAddr [] 0) addr reply).
  - destruct He as [Hc Hp]. destruct (tcp_step ev now t (ys y)) as [[t' s1]|] eqn:Et; [|done]. injection Hs as <-.
    split; [by eapply typed_evolve; [by eapply sp_evolve_tcp|]|by eapply tcp_step_gets].
  - injection Hs as <-. split; [by eapply typed_evolve; [apply (sp_evolve_udp src data now)|]|by apply udp_datagram_gets].
  - injection Hs as <-. split; [|by apply udp_finish_gets]. eapply typed_evolve; [|exact Ht].
    unfold udp_finish. etrans; [apply (sp_evolve_remove_own now (uc_cid u) (uc_vc u))|apply sp_evolve_send].
Qed.

(** The [frame] operations of the delivery leave the links alone. *)
Lemma ystep_sends (P : Frame -> Prop) e y y' :
  allows_resets P -> y_typed y -> event_sends P y e -> ystep window_bytes e y = Some y' ->
  y_typed y' /\ arcs_step P (arcs (sp_pool (ys y))) (arcs (sp_pool (ys y'))).
Proof.
  intros PR [T1 T2 T3] He Hs.
  assert (forall s w l d b, sp_pool s = sp_pool (ys y) -> ids_typed s ->
    map_Forall (fun _ (l : Z * FrameLoop) => is_u32 l.1) l -> Forall is_u32 d -> y' = mkYState s w l d b ->
    y_typed y' /\ arcs_step P (arcs (sp_pool (ys y))) (arcs (sp_pool (ys y')))) as Hq.
  { intros s w l d b E H1 H2 H3 ->. split; [by split|]. cbn. rewrite E. by apply arcs_step_gets. }
  destruct e as [e now|f|i|i now|k now|i we|r e now|p]; cbn [ystep] in Hs.
  - destruct (match e with SvInbound f => _ | _ => false end); [done|].
    destruct (sstep window_bytes e now (ys y)) as [s'|] eqn:Es; [|done]. case_decide; [|done]. injection Hs as <-.
    destruct (sstep_sends P e now y s' PR T1 He Es) as [H1 H2]. split; [by split|by apply arcs_step_gets].
  - destruct (tcp_data f (ys y)) as [[i v]|]; [|done]. case_decide; [|done].
    destruct (push _ _ _) as [r ro]. injection Hs as Hs. eapply Hq; [..|symmetry; exact Hs]; [done|done| |].
    + destruct (accepted r); [|done]. by apply map_Forall_insert_2.
    + destruct (overflow r); [|done]. apply Forall_app. split; [done|by constructor].
  - destruct (yl y !! i) as [[c [[|b rest] k ov]]|] eqn:Hl; [done| |done]. pose proof (T2 _ _ Hl) as Hc.
    destruct (sp_vcs (ys y) !! i) as [v|]; [|done]. destruct (client_write b _) as [failed ch].
    injection Hs as Hs. eapply Hq; [..|symmetry; exact Hs]; [done|done| |done]. by apply map_Forall_insert_2.
  - destruct (yl y !! i) as [[c [[|b rest] k ov]]|] eqn:Hl; [|done|done]. pose proof (T2 _ _ Hl) as Hc.
    destruct (sp_vcs (ys y) !! i) as [v|]; [|done]. injection Hs as Hs.
    eapply Hq; [..|symmetry; exact Hs]; [done|done|by apply map_Forall_delete|].
    destruct ov; [|done]. apply Forall_app. split; [done|by constructor].
  - destruct (y_due y !! k) as [c|] eqn:Hk; [|done]. case_decide; [|done]. injection Hs as <-.
    assert (is_u32 c) as Hc by (by eapply Forall_lookup_1 in Hk).
    split; [|apply arcs_step_gets; by apply (reset_conn_gets P PR c now (ys y))].
    split; cbn; [by eapply typed_evolve; [apply (sp_evolve_reset now c)|]|done|by apply Forall_delete].
  - destruct (sp_vcs (ys y) !! i) as [v|]; [|done]. destruct (sp_is_udp v || _); [done|].
    destruct (client_writer_step _ _ _) as [[w c]|]; [|done]. injection Hs as Hs.
    by eapply Hq; [..|symmetry; exact Hs].
  - destruct (sp_vcs (ys y) !! _) as [v|]; [|done]. destruct (relay_step e now r (ys y)) as [[r' s']|] eqn:Er; [|done].
    destruct (_ && _); [|done]. injection Hs as <-. destruct He as [Hc Hp].
    split; [|apply arcs_step_gets; by apply (relay_step_gets P PR e now r (ys y) r' s')].
    split; cbn; [|done..]. by eapply typed_evolve; [eapply sp_evolve_relay|].
  - injection Hs as <-. split; [by split|]. exact He.
Qed.

(** ** Handlers *)

(** The SYN of a client that wants [st]. *)
Definition syn_of (cid : Z) (st : SynTarget) (f : Frame) : Prop :=
  exists syn, syn_target_encode st = Ok syn /\ f = frame_syn cid syn.

(** The frames of a client. *)
Definition handler_frame (H : Handler) (f : Frame) : Prop :=
  f ∈ tc_sent (h_task H) \/ syn_of (tc_cid (h_task H)) (tcp_syn (h_target H)) f.
Definition relay_frame (x : Relay) (f : Frame) : Prop :=
  f ∈ ur_frames (u_relay x) \/ syn_of (uc_cid (ur_client (u_relay x))) udp_syn f.

(** What the links may hold. *)
Definition owned (hs : gmap nat Handler) (us : gmap nat Relay) (f : Frame) : Prop :=
  (exists h H, hs !! h = Some H /\ handler_frame H f) \/ (exists i x, us !! i = Some x /\ relay_frame x f).
Definition emitted (hs : gmap nat Handler) (us : gmap nat Relay) : Frame -> Prop := vouched (owned hs us).

(** The chunk that was read and waits for a tunnel. *)
Definition in_flight (sn : sending) : bytes := match sn with SendingChunk c _ => c | _ => [] end.

(** The handler read the end of the client's stream. *)
Definition is_eof (e : tcp_event) : bool := match e with TcEof => true | _ => false end.
Definition saw_eof (H : Handler) : bool := existsb (fun x : tcp_input => is_eof x.1.1) (h_turns H).

(** A handler is what its turns made of it, and its turns read what its client sent, in order. *)
Record handler_ok (h : nat) (H : Handler) : Prop := {
  ho_cid : is_u32 (tc_cid (h_task H));
  ho_run : tcp_run (h_turns H) (client_start (tc_cid (h_task H)) h) = Some (h_task H);
  ho_hello : exists rest, requests (h_hello H) (Connect (h_target H)) rest /\ rest `prefix_of` h_stream H;
  ho_socket : h_stream H = concat (omap read_chunk (h_turns H)) ++ in_flight (h_sending H) ++ h_unread H;
  ho_eof : saw_eof H = true -> is_reading (tc_phase (h_task H)) = false /\ h_unread H = [] /\ in_flight (h_sending H) = [];
}.

Lemma handler_target_typed h H : handler_ok h H -> syn_target_typed (tcp_syn (h_target H)).
Proof.
  intros HH. destruct (ho_hello _ _ HH) as (rest & Hr & _). destruct (requests_typed _ _ _ Hr) as [H1 H2].
  by split; [vm_compute|split].
Qed.

(** From [H] to [H']: the same connection, more frames. *)
Record handler_grows (H H' : Handler) : Prop := {
  hg_cid : tc_cid (h_task H') = tc_cid (h_task H);
  hg_target : h_target H' = h_target H;
  hg_sent : tc_sent (h_task H) `prefix_of` tc_sent (h_task H');
}.

Lemma handler_grows_frame H H' f : handler_grows H H' -> handler_frame H f -> handler_frame H' f.
Proof.
  intros [E1 E2 [rest Hp]] [Hf|Hf]; [left|right; by rewrite E1, E2]. rewrite Hp. apply elem_of_app. by left.
Qed.

Lemma handler_waits_ok (Q : Prop) h H sn :
  handler_ok h H -> in_flight sn = in_flight (h_sending H) -> Q ->
  handler_ok h (handler_waits sn H) /\ handler_grows H (handler_waits sn H) /\ Q.
Proof.
  intros [H1 H2 H3 H4 H5] E HQ. split; [|by split; [split|]]. by split; cbn; rewrite ?E.
Qed.

(** Bytes arrive. *)
Lemma handler_arrive_ok h H b :
  handler_ok h H -> is_reading (tc_phase (h_task H)) = true ->
  handler_ok h (handler_socket (h_stream H ++ b) (h_unread H ++ b) (h_sending H) H) /\
  handler_grows H (handler_socket (h_stream H ++ b) (h_unread H ++ b) (h_sending H) H).
Proof.
  intros [H1 H2 (rest & H3 & H3') H4 H5] Hr. split; [|by split]. split; cbn; [done|done| |by rewrite H4, !app_assoc|].
  - exists rest. split; [done|by apply prefix_app_r].
  - intros He. destruct (H5 He) as [E _]. congruence.
Qed.

(** A chunk is read. *)
Lemma handler_read_ok h H n :
  handler_ok h H -> is_reading (tc_phase (h_task H)) = true -> in_flight (h_sending H) = [] ->
  let H' := handler_socket (h_stream H) (drop n (h_unread H)) (SendingChunk (take n (h_unread H)) []) H in
  handler_ok h H' /\ handler_grows H H'.
Proof.
  intros [H1 H2 H3 H4 H5] Hr Hf. split; [|by split]. split; cbn; [done|done|done| |].
  - by rewrite H4, Hf, take_drop.
  - intros He. destruct (H5 He) as [E _]. congruence.
Qed.

(** No turn goes back to reading. *)
Lemma tcp_step_reading e now t s t' s' :
  tcp_step e now t s = Some (t', s') -> is_reading (tc_phase t') = true ->
  is_reading (tc_phase t) = true /\ e <> TcEof.
Proof.
  unfold tcp_step. destruct (sp_vcs s !! tc_vc t) as [v|]; [|done].
  destruct e as [c b p| | | |b p| |], (tc_phase t) as [|r force|seen| |] eqn:Eph; try done; intros Hs.
  - by injection Hs as <- _.
  - destruct r, force, b; injection Hs as <- _; cbn; by rewrite ?Eph.
  - injection Hs as <- _. cbn. unfold grace_poll. by repeat case_match.
  - by injection Hs as <- _.
Qed.

Lemma tcp_step_grows e now t s t' s' :
  tcp_step e now t s = Some (t', s') -> tc_cid t' = tc_cid t /\ tc_sent t `prefix_of` tc_sent t'.
Proof.
  unfold tcp_step. destruct (sp_vcs s !! tc_vc t) as [v|]; [|done].
  destruct e as [c b p| | | |b p| |], (tc_phase t) as [|r force|seen| |]; try done; intros Hs.
  - destruct b; injection Hs as <- _; [|done]. split; [done|by eexists].
  - by injection Hs as <- _.
  - by injection Hs as <- _.
  - destruct (has_permit _); [|done]. by destruct (sp_closed v); injection Hs as <- _.
  - destruct r, force, b; injection Hs as <- _; cbn; by eauto using prefix_app_r.
  - by injection Hs as <- _.
  - by injection Hs as <- _.
Qed.

(** What a turn reads is what was in flight, and it sees the end only behind all bytes. *)
Definition turn_reads (e : tcp_event) (H : Handler) : Prop :=
  match e with TcChunk c _ _ => in_flight (h_sending H) = c | _ => in_flight (h_sending H) = [] end /\
  (e = TcEof -> h_unread H = []).

Lemma handler_turn_ok h H e now s H' ye :
  handler_ok h H -> turn_reads e H -> handler_turn e now H s = Some (H', ye) ->
  handler_ok h H' /\ handler_grows H H' /\ ye = YS (SvTcp (h_task H) e) now.
Proof.
  intros [Hc Hr Hh Hk He] [Hf Hz] Hs. unfold handler_turn in Hs.
  destruct (tcp_step e now (h_task H) s) as [[t s1]|] eqn:Et; [|done].
  injection Hs as <- <-. pose proof (tcp_step_grows _ _ _ _ _ _ Et) as [E Hp]. split_and!; [|by split|done].
  split; cbn [h_task h_turns h_hello h_target h_stream h_unread h_sending in_flight]; [by rewrite E| |exact Hh| |].
  - rewrite E, (tcp_run_snoc (h_turns H) (e, now, s)), Hr. cbn. by rewrite Et.
  - rewrite Hk, omap_app, concat_app, <- app_assoc. f_equal. cbn. destruct e; cbn; by rewrite Hf, ?app_nil_r.
  - unfold saw_eof. cbn [h_turns]. rewrite existsb_app. cbn [existsb fst]. rewrite orb_false_r.
    assert (is_reading (tc_phase t) = true -> saw_eof H = false /\ is_eof e = false) as Hn.
    { intros Hrd. destruct (tcp_step_reading _ _ _ _ _ _ Et Hrd) as [H1 H2]. split; [|by destruct e].
      apply not_true_is_false. intros Hx. destruct (He Hx) as [H3 _]. congruence. }
    intros [Hx|Hx]%orb_true_iff; split_and!; try done.
    + apply not_true_is_false. intros Hrd. destruct (Hn Hrd) as [H1 _]. unfold saw_eof in H1. congruence.
    + by apply He.
    + apply not_true_is_false. intros Hrd. destruct (Hn Hrd). congruence.
    + apply Hz. by destruct e.
Qed.

(** A pass that did not send put nothing into a link. *)
Lemma send_async_pass_keeps P f full p :
  (send_async_pass f full p).1 <> AsyncSent -> pool_gets P p (send_async_pass f full p).2.
Proof.
  unfold send_async_pass. destruct (weighted_pick_cases full p) as [[_ ->]|(i & _ & ->)].
  - by destruct (alive_links p).
  - cbn [arcs links rr]. destruct (arcs p !! i) as [l|] eqn:Hl; [|intros _; by apply pool_gets_arcs].
    destruct (try_send f (tx l)) as [[[]|] c] eqn:E; cbn [fst snd]; [| |done]; intros _; apply try_send_err in E as ->;
      apply (arcs_get_insert P _ i l); try done; by apply link_gets_same.
Qed.

(** The frame a turn sends joins those of its handler. *)
Definition sent_in (f : Frame) (e : tcp_event) (H H' : Handler) (s : SState) (now : Z) : Prop :=
  frame_typed f -> handler_turn e now H s = Some (H', YS (SvTcp (h_task H) e) now) -> f ∈ tc_sent (h_task H').

Lemma sent_in_chunk chunk p H H' s now :
  sent_in (frame_data (tc_cid (h_task H)) (tc_seq (h_task H)) chunk) (TcChunk chunk true p) H H' s now.
Proof.
  intros _ Hs. unfold handler_turn, tcp_step in Hs. destruct (sp_vcs s !! _); [|done].
  destruct (tc_phase (h_task H)); try done. injection Hs as <-. cbn. apply elem_of_app. right. by apply list_elem_of_singleton.
Qed.

Lemma sent_in_fin p H H' s now :
  fin_needed (tc_phase (h_task H)) = true ->
  sent_in (frame_fin (tc_cid (h_task H)) (tc_seq (h_task H))) (TcFinish true p) H H' s now.
Proof.
  intros Hf _ Hs. unfold handler_turn, tcp_step in Hs. destruct (sp_vcs s !! _); [|done].
  destruct (tc_phase (h_task H)) as [|r force|seen| |]; try done.
  destruct r, force; try done; injection Hs as <-; cbn; apply elem_of_app; right; by apply list_elem_of_singleton.
Qed.

Lemma handler_seq h H : handler_ok h H -> 0 <= tc_seq (h_task H) < 2 ^ 64.
Proof.
  intros HI. destruct (tcp_run_inv _ _ _ _ (ho_run _ _ HI)) as (fin & lost & [_ _ -> _ _ _ _ _]). by apply wrap_range.
Qed.

Lemma handler_pass_ok (P : Frame -> Prop) f full wait sent now h H y H' ye :
  handler_ok h H -> frame_typed f -> (forall p, turn_reads (sent p) H) ->
  (forall l, in_flight (wait l) = in_flight (h_sending H)) ->
  (forall p, turn_pool P (sent p) (sp_pool (ys y)) = pool_gets P (sp_pool (ys y)) p) ->
  (forall p, sent_in f (sent p) H H' (ys y) now) ->
  (forall f, frame_typed f -> f ∈ tc_sent (h_task H') -> P f) ->
  handler_pass f full wait sent now H (ys y) = Some (H', ye) ->
  handler_ok h H' /\ handler_grows H H' /\ event_sends P y ye.
Proof.
  intros HI Hf Hrd Hw Ht Hsent HP Hs. unfold handler_pass in Hs.
  pose proof (send_async_pass_keeps P f full (sp_pool (ys y))) as K.
  pose proof (send_async_pass_gets P f full (sp_pool (ys y))) as G.
  destruct (send_async_pass f full (sp_pool (ys y))) as [[|full'| |] p]; cbn [fst snd] in K, G.
  - pose proof Hs as Hs'. apply (handler_turn_ok h) in Hs as (H1 & H2 & ->); [|done|apply Hrd].
    split_and!; [done|done|]. split; [apply HI|]. rewrite Ht. apply G, HP; [done|]. by eapply Hsent.
  - injection Hs as <- <-. apply handler_waits_ok; [done|apply Hw|]. cbn [event_sends]. by apply arcs_step_gets, K.
  - injection Hs as <- <-. apply handler_waits_ok; [done|apply Hw|]. cbn [event_sends]. by apply arcs_step_gets, K.
  - injection Hs as <- <-. apply handler_waits_ok; [done|apply Hw|]. cbn [event_sends]. by apply arcs_step_gets, K.
Qed.

Lemma handler_step_ok (P : Frame -> Prop) e now h H y H' ye :
  handler_ok h H -> (forall f, frame_typed f -> f ∈ tc_sent (h_task H') -> P f) ->
  handler_step e now H (ys y) = Some (H', ye) ->
  handler_ok h H' /\ handler_grows H H' /\ event_sends P y ye.
Proof.
  intros HI HP Hs. pose proof (handler_seq h H HI) as Hseq. pose proof (ho_cid _ _ HI) as Hc.
  assert (forall e, turn_reads e H -> turn_pool P e (sp_pool (ys y)) -> handler_turn e now H (ys y) = Some (H', ye) ->
    handler_ok h H' /\ handler_grows H H' /\ event_sends P y ye) as Hturn.
  { intros e0 Hrd Hp Ht. apply (handler_turn_ok h) in Ht as (H1 & H2 & ->); [|done|done]. by split_and!. }
  assert (arcs_step P (arcs (sp_pool (ys y))) (arcs (sp_pool (ys y)))) as Hrefl by by apply arcs_step_gets.
  unfold handler_step in Hs. destruct e as [b|n|e| | | |]; cycle 1;
    destruct (h_sending H) as [|chunk0 full|full] eqn:Esn; try done; cycle -1.
  all: try (destruct (is_reading _) eqn:Hr; [|done]; injection Hs as <- <-; rewrite <- Esn;
    destruct (handler_arrive_ok h H b HI Hr); by split_and!).
  all: try (by apply (Hturn (TcChunk chunk0 false (sp_pool (ys y)))); [by split; [rewrite Esn|]|cbn [turn_pool]|]).
  all: try (by apply (Hturn (TcFinish false (sp_pool (ys y)))); [by split; [rewrite Esn|]|cbn [turn_pool]|]).
  - case_decide as Hd; [|done]. injection Hs as <- <-. destruct Hd as [Hr _].
    destruct (handler_read_ok h H n HI Hr ltac:(by rewrite Esn)). by split_and!.
  - destruct (plain_turn e) eqn:He; [|done]. cbn [andb] in Hs. destruct (match e with TcEof => _ | _ => _ end) eqn:Hz; [|done].
    apply (Hturn e); [|by destruct e|done]. split; [by rewrite Esn; destruct e|]. intros ->. by apply bool_decide_eq_true in Hz.
  - destruct (fin_needed _); [|done]. injection Hs as <- <-. apply handler_waits_ok; [done|by rewrite Esn|done].
  - destruct (_ && _); [|done]. apply (Hturn (TcFinish false (sp_pool (ys y)))); [by split; [rewrite Esn|]|cbn [turn_pool]; reflexivity|done].
  - eapply (handler_pass_ok P); [exact HI| | | | | | |exact Hs]; [by split|by split; [rewrite Esn|]|by rewrite Esn|done|intros p; apply sent_in_chunk|done].
  - destruct (fin_needed _) eqn:Hfin; [|done].
    eapply (handler_pass_ok P); [exact HI| | | | | | |exact Hs]; [by split|by split; [rewrite Esn|]|by rewrite Esn|done|intros p; by apply sent_in_fin|done].
Qed.

(** ** The process *)
Record relay_ok (i : nat) (x : Relay) : Prop := {
  uo_hello : exists a rest, requests (u_hello x) (UdpAssociate a (u_addr x)) rest;
  uo_cid : is_u32 (uc_cid (ur_client (u_relay x)));
  uo_run : relay_run (u_turns x) (relay_start (uc_cid (ur_client (u_relay x))) i (u_addr x)) = Some (u_relay x);
}.

Record relay_grows (x x' : Relay) : Prop := {
  ug_cid : uc_cid (ur_client (u_relay x')) = uc_cid (ur_client (u_relay x));
  ug_sent : ur_frames (u_relay x) `prefix_of` ur_frames (u_relay x');
}.

Lemma relay_grows_frame x x' f : relay_grows x x' -> relay_frame x f -> relay_frame x' f.
Proof.
  intros [E [rest Hp]] [Hf|Hf]; [left|right; by rewrite E]. rewrite Hp. apply elem_of_app. by left.
Qed.

(** Everything but the tunnels. *)
Record parts_ok (n : Node) : Prop := {
  po_typed : y_typed (n_y n);
  po_handlers : map_Forall handler_ok (n_handlers n);
  po_udp : map_Forall relay_ok (n_udp n);
}.

Definition node_emits (n : Node) : Frame -> Prop := emitted (n_handlers n) (n_udp n).

Record node_inv (n : Node) : Prop := {
  nv_parts : parts_ok n;
  nv_wires : wires_ok (node_emits n) (n_arcs n) (n_wires n);
}.

(** No handler and no relay is forgotten. *)
Record grows (n n' : Node) : Prop := {
  gr_handlers h H : n_handlers n !! h = Some H -> exists H', n_handlers n' !! h = Some H' /\ handler_grows H H';
  gr_udp i x : n_udp n !! i = Some x -> exists x', n_udp n' !! i = Some x' /\ relay_grows x x';
}.

#[export] Instance handler_grows_preorder : PreOrder handler_grows.
Proof.
  split; [intros H; by split|]. intros H1 H2 H3 [A1 A2 A3] [B1 B2 B3]. split; [congruence|congruence|by etrans].
Qed.
#[export] Instance relay_grows_preorder : PreOrder relay_grows.
Proof. split; [intros x; by split|]. intros x1 x2 x3 [A1 A2] [B1 B2]. split; [congruence|by etrans]. Qed.

#[export] Instance grows_preorder : PreOrder grows.
Proof.
  split.
  - intros n. split; [intros h H Hh; by exists H|intros i x Hi; by exists x].
  - intros n1 n2 n3 [A1 A2] [B1 B2]. split.
    + intros h H Hh. destruct (A1 h H Hh) as (H2 & Hh2 & G1). destruct (B1 h H2 Hh2) as (H3 & Hh3 & G2).
      exists H3. split; [done|by etrans].
    + intros i x Hi. destruct (A2 i x Hi) as (x2 & Hi2 & G1). destruct (B2 i x2 Hi2) as (x3 & Hi3 & G2).
      exists x3. split; [done|by etrans].
Qed.

Lemma grows_same n n' : n_handlers n' = n_handlers n -> n_udp n' = n_udp n -> grows n n'.
Proof. intros E1 E2. split; rewrite ?E1, ?E2; [intros h H Hh; by exists H|intros i x Hi; by exists x]. Qed.

Lemma grows_emits n n' f : grows n n' -> node_emits n f -> node_emits n' f.
Proof.
  intros [G1 G2]. apply vouched_mono. intros [(h & H & Hh & Hs)|(i & x & Hi & Hs)].
  - left. destruct (G1 h H Hh) as (H' & Hh' & G). exists h, H'. split; [done|by eapply handler_grows_frame].
  - right. destruct (G2 i x Hi) as (x' & Hi' & G). exists i, x'. split; [done|by eapply relay_grows_frame].
Qed.

(** A step of the shared state, after the records of a handler or a relay changed. *)
Lemma node_do_inv e n n0 n' :
  wires_ok (node_emits n0) (n_arcs n0) (n_wires n0) -> n_y n = n_y n0 -> n_wires n = n_wires n0 -> grows n0 n ->
  parts_ok n -> event_sends (node_emits n) (n_y n) e -> node_do window_bytes e n = Some n' ->
  node_inv n' /\ grows n0 n' /\ n_handlers n' = n_handlers n /\ n_udp n' = n_udp n.
Proof.
  intros HW Ey Ew HG [Hp1 Hp2 Hp3] He Hs. unfold node_do in Hs.
  destruct (ystep window_bytes e (n_y n)) as [y|] eqn:Es; [|done]. injection Hs as <-.
  destruct (ystep_sends _ e _ y (vouched_resets _) Hp1 He Es) as [Ht Ha].
  split_and!; [|etrans; [exact HG|by apply grows_same]|done|done]. split; [by split|].
  cbn [n_wires n_arcs]. eapply wires_sync_ok; [apply vouched_typed| |exact Ha].
  rewrite Ew, Ey. eapply wires_ok_mono; [|exact HW]. intros f Hf. exact (grows_emits n0 n f HG Hf).
Qed.

(** When nothing but the shared state changes. *)
Lemma node_do_same e n n' :
  node_inv n -> event_sends (node_emits n) (n_y n) e -> node_do window_bytes e n = Some n' ->
  node_inv n' /\ grows n n'.
Proof.
  intros [HP HW] He Hs. destruct (node_do_inv e n n n' HW eq_refl eq_refl ltac:(reflexivity) HP He Hs) as (H1 & H2 & _).
  done.
Qed.

Lemma parts_task k t n : parts_ok n -> parts_ok (with_task k t n).
Proof. intros [H1 H2 H3]. by split. Qed.

Lemma inv_task k t n : node_inv n -> node_inv (with_task k t n) /\ grows n (with_task k t n).
Proof. intros [HP HW]. split; [split; [by apply parts_task|exact HW]|]. by apply grows_same. Qed.

(** A link whose flags and counters changed. *)
Lemma on_link_step P g i s :
  (forall l, link_gets P l (g l)) -> arcs_step P (arcs (sp_pool s)) (arcs (sp_pool (on_link g i s))).
Proof.
  intros Hg. apply arcs_step_gets. intros j. cbn. destruct (decide (j = i)) as [->|Hj].
  - rewrite lookup_alter_eq. destruct (arcs (sp_pool s) !! i); by constructor.
  - rewrite lookup_alter_ne by done. destruct (arcs (sp_pool s) !! j); by constructor.
Qed.

Lemma node_frame_inv i f now n n' :
  node_inv n -> frame_typed f -> node_frame window_bytes i f now n = Some n' -> node_inv n' /\ grows n n'.
Proof.
  intros HI [Hf _] Hs. unfold node_frame in Hs. destruct (node_do _ _ n) as [n1|] eqn:E1; [|done].
  edestruct node_do_same as [HI1 G1]; [exact HI| |exact E1|]; [by destruct (tcp_data f (n_state n))|].
  edestruct node_do_same as [HI2 G2]; [exact HI1| |exact Hs|split; [done|by etrans]].
  cbn [event_sends]. apply on_link_step. intros l. by apply link_gets_same.
Qed.

Lemma node_recover_inv i now n n' :
  node_inv n -> node_recover window_bytes i now n = Some n' -> node_inv n' /\ grows n n'.
Proof.
  intros HI Hs. unfold node_recover in Hs. destruct (n_arcs n !! i) as [l|] eqn:Hl; [|done].
  destruct (n_wires n !! i) as [w|] eqn:Hw; [|done]. destruct (returned _) eqn:Hr; [|done].
  destruct (node_do _ _ n) as [n1|] eqn:E1; [|done].
  assert (node_inv n1 /\ grows n n1) as [HI1 G1].
  { destruct HI as [[Hp1 Hp2 Hp3] HW]. injection E1 as <-. split; [|by apply grows_same].
    split; [split; [by destruct Hp1|done|done]|].
    set (a := arcs (sp_pool (on_link (set_lost_frames []) i (n_state n)))).
    assert (a = <[i := set_lost_frames [] l]> (n_arcs n)) as Ha by by apply alter_as_insert.
    change (wires_ok (node_emits n) a (sync_wires a (n_wires n))). rewrite Ha.
    eapply wires_sync_ok; [apply vouched_typed| |by apply arcs_step_gets].
    apply (wires_ok_taken _ _ _ i l HW Hl). intros w0 E. congruence. }
  edestruct node_do_same as [HI2 G2]; [exact HI1| |exact Hs|split; [done|by etrans]].
  cbn [event_sends]. destruct HI as [_ HW]. specialize (HW i). rewrite Hl, Hw in HW. inversion HW as [? ? [_ _ Hlost _]|]. subst.
  eapply Forall_impl; [exact Hlost|]. intros f Hf. split; [by eapply vouched_u32|by eapply grows_emits].
Qed.

Lemma tunnel_step_pool (P : Frame -> Prop) e now t s t' s' :
  tunnel_step e now t s = Some (t', s') ->
  match e with TvFrame _ | TvDrained _ => True | _ => arcs_step P (arcs (sp_pool s)) (arcs (sp_pool s')) end.
Proof.
  unfold tunnel_step. assert (arcs_step P (arcs (sp_pool s)) (arcs (sp_pool s))) as Hrefl by by apply arcs_step_gets.
  destruct e as [i|sd|f| | |sd|sd], (tt_phase t) as [|i1|i1|d|]; try done; intros Hs.
  - case_decide as Hi; [|done]. injection Hs as _ <-. by apply arcs_step_add, new_link_fresh.
  - by injection Hs as _ <-.
  - injection Hs as _ <-. apply on_link_step. intros l. by apply link_gets_same.
  - destruct (arcs (sp_pool s) !! i1) as [l|]; [|done]. destruct (has_permit _); [|done]. injection Hs as _ <-.
    apply on_link_step. intros l0. by apply link_gets_same.
  - by injection Hs as _ <-.
Qed.

Lemma node_tunnel_inv k e now n n' :
  node_inv n -> node_tunnel window_bytes k e now n = Some n' -> node_inv n' /\ grows n n'.
Proof.
  intros HI Hs. unfold node_tunnel in Hs. set (t := default tunnel_start (n_tasks n !! k)) in *.
  destruct (tunnel_step e now t (n_state n)) as [[t' s']|] eqn:Et; [|done].
  destruct (inv_task k t' n HI) as [HI1 G1]. pose proof (tunnel_step_pool (node_emits n) e now t _ _ _ Et) as Hp.
  assert (forall ye, event_sends (node_emits n) (n_y n) ye -> node_do window_bytes ye (with_task k t' n) = Some n' ->
    node_inv n' /\ grows n n') as Hdo.
  { intros ye He Hd. edestruct (node_do_same ye (with_task k t' n)) as [HI2 G2]; [exact HI1|exact He|exact Hd|].
    split; [done|by etrans]. }
  destruct e as [i|sd|f| | |sd|sd]; try done; try (eapply Hdo; [|exact Hs]; exact Hp).
  unfold tunnel_step in Et. destruct (tt_phase t) as [| |i| |]; try done.
  destruct (node_recover_inv i now _ _ HI1 Hs) as [HI2 G2]. split; [done|by etrans].
Qed.

Lemma grows_handler h H n :
  (forall H0, n_handlers n !! h = Some H0 -> handler_grows H0 H) ->
  grows n (with_handlers (<[h := H]> (n_handlers n)) n).
Proof.
  intros Hg. split; cbn; [|intros i x Hi; by exists x]. intros h0 H0 Hh0. destruct (decide (h0 = h)) as [->|Hne].
  - rewrite lookup_insert_eq. exists H. auto.
  - rewrite lookup_insert_ne by done. by exists H0.
Qed.

Lemma grows_relay i x n :
  (forall x0, n_udp n !! i = Some x0 -> relay_grows x0 x) -> grows n (with_udp (<[i := x]> (n_udp n)) n).
Proof.
  intros Hg. split; cbn; [intros h H Hh; by exists H|]. intros j x0 Hj. destruct (decide (j = i)) as [->|Hne].
  - rewrite lookup_insert_eq. exists x. auto.
  - rewrite lookup_insert_ne by done. by exists x0.
Qed.

(** A SYN that went out belongs to the client that starts. *)
Lemma opened_handler_ok ids h hello target reply rest now s :
  Forall is_u32 ids -> requests hello (Connect target) rest ->
  (forall H, opened_handler window_bytes ids h hello target reply rest now s = Some H -> handler_ok h H) /\
  (forall c syn, alloc_conn_id ALLOC_TRIES ids s = Some c -> syn_target_encode (tcp_syn target) = Ok syn ->
     (send (frame_syn c syn) (sp_pool s)).1 = true -> is_u32 c /\
     exists H, opened_handler window_bytes ids h hello target reply rest now s = Some H /\
       handler_frame H (frame_syn c syn)).
Proof.
  intros Hids Hreq. unfold opened_handler. destruct (alloc_conn_id _ _ _) as [c|] eqn:Ea; [|by split].
  apply alloc_spec in Ea as (Hc & _). rewrite Forall_forall in Hids. specialize (Hids c Hc).
  unfold tcp_open. change (mkSynTarget PROTO_TCP (t_address target) (t_port target)) with (tcp_syn target).
  destruct (syn_target_encode (tcp_syn target)) as [syn|] eqn:Es; [|by split]. cbn [sp_pool].
  destruct (send (frame_syn c syn) (sp_pool s)) as [ok p] eqn:E; split.
  - intros H Hs. destruct ok; [|done]. cbn in Hs. injection Hs as <-. split; cbn; [done|done| |done|].
    + by exists rest.
    + done.
  - intros ? ? [= <-] [= <-] Hok. rewrite E in Hok. cbn in Hok. subst ok. split; [exact Hids|].
    cbn. eexists. split; [done|]. right. by exists syn.
Qed.

Lemma opened_udp_ok ids i hello a rest addr reply now s :
  Forall is_u32 ids -> requests hello (UdpAssociate a addr) rest ->
  (forall x, opened_udp window_bytes ids i hello addr reply now s = Some x -> relay_ok i x) /\
  (forall c syn, alloc_conn_id ALLOC_TRIES ids s = Some c -> syn_target_encode udp_syn = Ok syn ->
     (send (frame_syn c syn) (sp_pool s)).1 = true -> is_u32 c /\
     exists x, opened_udp window_bytes ids i hello addr reply now s = Some x /\ relay_frame x (frame_syn c syn)).
Proof.
  intros Hids Hreq. unfold opened_udp. destruct (alloc_conn_id _ _ _) as [c|] eqn:Ea; [|by split].
  apply alloc_spec in Ea as (Hc & _). rewrite Forall_forall in Hids. specialize (Hids c Hc).
  unfold udp_open. change (mkSynTarget PROTO_UDP (show_ipv4 (replicate 4 Byte.x00)) 0) with udp_syn.
  destruct (syn_target_encode udp_syn) as [syn|] eqn:Es; [|by split]. cbn [sp_pool].
  destruct (send (frame_syn c syn) (sp_pool s)) as [ok p] eqn:E; split.
  - intros H Hs. destruct ok; [|done]. cbn in Hs. injection Hs as <-. split; cbn; [by exists a, rest|done|done].
  - intros ? ? [= <-] [= <-] Hok. rewrite E in Hok. cbn in Hok. subst ok. split; [exact Hids|].
    cbn. eexists. split; [done|]. right. by exists syn.
Qed.

(** A step of an association. *)
Lemma relay_step_ok e now i x s r' s' :
  relay_ok i x -> relay_step e now (u_relay x) s = Some (r', s') ->
  let x' := mkRelay r' (u_hello x) (u_addr x) (u_turns x ++ [(e, now, s)]) in
  relay_ok i x' /\ relay_grows x x' /\
  match e with
  | UrDatagram src data => ur_frames r' = ur_frames (u_relay x) ++ datagram_frames src data (ur_client (u_relay x)) s
  | _ => True
  end.
Proof.
  intros [Hh Hc Hr] Hs x'.
  assert (relay_run (u_turns x') (relay_start (uc_cid (ur_client (u_relay x))) i (u_addr x)) = Some r') as Hr'.
  { unfold x'. cbn [u_turns]. rewrite (relay_run_snoc (u_turns x) (e, now, s)), Hr. cbn. by rewrite Hs. }
  destruct (relay_run_ok _ _ _ _ _ Hr') as (ds & Hinv). pose proof (ri_cid _ _ _ _ _ Hinv) as Ec.
  unfold relay_step in Hs. destruct (sp_vcs s !! _) as [v|]; [|done].
  split_and!; [split; cbn; [exact Hh|by rewrite Ec..]| |].
  - split; [exact Ec|]. cbn. destruct e as [src data| | | |ok|].
    + destruct (ur_phase _); try done. destruct (udp_datagram _ _ _ _ _) as [u' s1]. injection Hs as <- _. by eexists.
    + destruct (ur_phase _); try done. by injection Hs as <- _.
    + destruct (ur_phase _); try done. by injection Hs as <- _.
    + destruct (ur_phase _); try done. destruct (has_permit _); [|done]. by injection Hs as <- _.
    + destruct (ur_responding _); [|done]. destruct (try_recv _) as [[dgram|] c]; [|done].
      destruct (uc_addr _); [destruct ok|]; by injection Hs as <- _.
    + destruct (ur_phase _); try done. by injection Hs as <- _.
  - destruct e as [src data| | | | |]; try done. destruct (ur_phase _); try done.
    destruct (udp_datagram _ _ _ _ _) as [u' s1]. by injection Hs as <- _.
Qed.

(** Frames of an association are typed. *)
Lemma relay_frame_typed i x f : relay_ok i x -> f ∈ ur_frames (u_relay x) -> frame_typed f.
Proof.
  intros [_ Hc Hr] Hf. destruct (relay_run_ok _ _ _ _ _ Hr) as (ds & [_ _ _ E _]). rewrite E in Hf.
  apply list_elem_of_lookup_1 in Hf as [j Hj]. unfold data_frames in Hj. rewrite list_lookup_imap in Hj.
  destruct (ds !! j); [|done]. injection Hj as <-. split; [exact Hc|]. split; [by apply wrap_range|done].
Qed.

Lemma other_event_sends P y e : other_event e = true -> event_sends P y e.
Proof. destruct e as [[]| | | | | | |]; done. Qed.

Lemma node_drain_inv i e n n' :
  node_inv n -> node_step window_bytes f64_exp (NvDrain i e) n = Some n' -> node_inv n' /\ grows n n'.
Proof.
  intros [[Hp1 Hp2 Hp3] HW] Hs. cbn [node_step] in Hs.
  destruct (drain_at f64_exp i e (n_arcs n) (n_wires n)) as [[a ws]|] eqn:Ed; [|done]. injection Hs as <-.
  split; [|by apply grows_same]. split; [split; [by destruct Hp1|done|done]|].
  exact (drain_at_ok f64_exp _ i e _ _ a ws HW Ed).
Qed.

Lemma node_handler_inv h e now n n' :
  node_inv n -> node_step window_bytes f64_exp (NvHandler h e now) n = Some n' -> node_inv n' /\ grows n n'.
Proof.
  intros [[Hp1 Hp2 Hp3] HW] Hs. cbn [node_step] in Hs. destruct (n_handlers n !! h) as [H|] eqn:Hh; [|done].
  destruct (handler_step e now H (n_state n)) as [[H' ye]|] eqn:Es; [|done].
  set (n1 := with_handlers (<[h := H']> (n_handlers n)) n) in *.
  destruct (handler_step_ok (node_emits n1) e now h H (n_y n) H' ye) as (H1 & H2 & H3).
  - exact (Hp2 h H Hh).
  - intros f Hf Hin. split; [done|]. intros _. left. exists h, H'. cbn. rewrite lookup_insert_eq. split; [done|by left].
  - exact Es.
  - destruct (node_do_inv ye n1 n n' HW eq_refl eq_refl) as (HI & HG & _); [|split| |exact Hs|done]; try done.
    + apply grows_handler. intros H0 E. rewrite Hh in E. by injection E as <-.
    + by apply map_Forall_insert_2.
Qed.

Lemma node_open_inv (ye : YEvent) n n1 n' :
  node_inv n -> n_y n1 = n_y n -> n_wires n1 = n_wires n -> grows n n1 -> parts_ok n1 ->
  event_sends (node_emits n1) (n_y n1) ye -> node_do window_bytes ye n1 = Some n' -> node_inv n' /\ grows n n'.
Proof.
  intros [_ HW] E1 E2 HG HP He Hs. destruct (node_do_inv ye n1 n n' HW E1 E2 HG HP He Hs) as (? & ? & _). done.
Qed.

Lemma node_tcp_open_inv ids h hello target reply rest now n n' :
  node_inv n -> n_handlers n !! h = None -> Forall is_u32 ids -> requests hello (Connect target) rest ->
  node_do window_bytes (YS (SvTcpOpen ids h target reply) now)
    (match opened_handler window_bytes ids h hello target reply rest now (n_state n) with
     | Some H => with_handlers (<[h := H]> (n_handlers n)) n | None => n end) = Some n' -> node_inv n' /\ grows n n'.
Proof.
  intros HI Hh Hids Hreq Hs. pose proof HI as [[Hp1 Hp2 Hp3] _].
  destruct (opened_handler_ok ids h hello target reply rest now (n_state n) Hids Hreq) as [Hnew Hsyn].
  destruct (opened_handler _ _ _ _ _ _ _ _ _) as [H|] eqn:Eo; (eapply node_open_inv; [exact HI| | | | | |exact Hs]); try done.
  - apply grows_handler. intros H0 E. congruence.
  - split; [done| |done]. apply map_Forall_insert_2; [by apply Hnew|done].
  - split; [done|]. intros c Hc syn He Hok. destruct (Hsyn c syn Hc He Hok) as (Hu & H0 & [= <-] & Hf).
    split; [by split|]. intros _. left. exists h, H. cbn. by rewrite lookup_insert_eq.
  - split; [done|]. intros c Hc syn He Hok. by destruct (Hsyn c syn Hc He Hok) as (_ & H0 & ? & _).
Qed.

Lemma node_udp_open_inv ids i hello a addr reply rest now n n' :
  node_inv n -> n_udp n !! i = None -> Forall is_u32 ids -> requests hello (UdpAssociate a addr) rest ->
  node_do window_bytes (YS (SvUdpOpen ids i addr reply) now)
    (match opened_udp window_bytes ids i hello addr reply now (n_state n) with
     | Some r => with_udp (<[i := r]> (n_udp n)) n | None => n end) = Some n' -> node_inv n' /\ grows n n'.
Proof.
  intros HI Hh Hids Hreq Hs. pose proof HI as [[Hp1 Hp2 Hp3] _].
  destruct (opened_udp_ok ids i hello a rest addr reply now (n_state n) Hids Hreq) as [Hnew Hsyn].
  destruct (opened_udp _ _ _ _ _ _ _ _) as [x|] eqn:Eo; (eapply node_open_inv; [exact HI| | | | | |exact Hs]); try done.
  - apply grows_relay. intros x0 E. congruence.
  - split; [done|done|]. apply map_Forall_insert_2; [by apply Hnew|done].
  - split; [done|]. intros c Hc syn He Hok. destruct (Hsyn c syn Hc He Hok) as (Hu & x0 & [= <-] & Hf).
    split; [by split|]. intros _. right. exists i, x. cbn. by rewrite lookup_insert_eq.
  - split; [done|]. intros c Hc syn He Hok. by destruct (Hsyn c syn Hc He Hok) as (_ & x0 & ? & _).
Qed.

(** What a client's handshake may lead to. *)
Lemma node_client_cases ids h relay hello now n n' :
  node_client window_bytes ids h relay hello now n = Some n' ->
  n_handlers n !! h = None /\ n_udp n !! h = None /\ Forall is_u32 ids /\
  (n' = n \/
   (exists target reply rest, requests hello (Connect target) rest /\
      node_do window_bytes (YS (SvTcpOpen ids h target reply) now)
        (match opened_handler window_bytes ids h hello target reply rest now (n_state n) with
         | Some H => with_handlers (<[h := H]> (n_handlers n)) n | None => n end) = Some n') \/
   (exists a addr reply rest, requests hello (UdpAssociate a addr) rest /\
      node_do window_bytes (YS (SvUdpOpen ids h addr reply) now)
        (match opened_udp window_bytes ids h hello addr reply now (n_state n) with
         | Some r => with_udp (<[h := r]> (n_udp n)) n | None => n end) = Some n')).
Proof.
  unfold node_client. case_decide as Hg; [|done]. destruct Hg as (H1 & H2 & H3). intros Hs. do 3 (split; [done|]).
  destruct (socks5_server_accept relay hello []) as [[[[[target|a addr] reply]|e] rest] out] eqn:E.
  - right; left. exists target, reply, rest. split; [|done]. by exists relay, reply, out.
  - right; right. exists a, addr, reply, rest. split; [|done]. by exists relay, reply, out.
  - left. by injection Hs.
Qed.

Lemma node_relay_inv i e now n n' :
  node_inv n -> node_step window_bytes f64_exp (NvRelay i e now) n = Some n' -> node_inv n' /\ grows n n'.
Proof.
  intros HI Hs. cbn [node_step] in Hs. destruct (n_udp n !! i) as [x|] eqn:Hu; [|done].
  destruct (relay_step e now (u_relay x) (n_state n)) as [[r' s']|] eqn:Es; [|done].
  pose proof HI as [[Hp1 Hp2 Hp3] _]. pose proof (Hp3 i x Hu) as Hx.
  destruct (relay_step_ok e now i x (n_state n) r' s' Hx Es) as (H1 & H2 & H3).
  eapply node_open_inv; [exact HI| | | | | |exact Hs]; [done|done| | |].
  - apply grows_relay. intros x0 E. rewrite Hu in E. by injection E as <-.
  - split; [done|done|]. by apply map_Forall_insert_2.
  - split; [apply Hx|]. destruct e as [src data| | | | |]; try done. apply Forall_forall. intros f Hf.
    assert (f ∈ ur_frames r') as Hin by (rewrite H3; apply elem_of_app; by right).
    split; [by apply (relay_frame_typed i _ f H1)|]. intros _. right. eexists i, _. cbn. rewrite lookup_insert_eq.
    split; [done|by left].
Qed.

Lemma node_step_inv e n n' :
  node_inv n -> node_step window_bytes f64_exp e n = Some n' -> node_inv n' /\ grows n n'.
Proof.
  intros HI Hs. destruct e as [ids h relay hello now|h e now|i e now|k f now|k e now|i e|ye].
  - apply node_client_cases in Hs as (Hh & Hu & Hids & [->|[(target & reply & rest & Hr & Hs)|(a & addr & reply & rest & Hr & Hs)]]).
    + by split.
    + by eapply node_tcp_open_inv.
    + by eapply node_udp_open_inv.
  - by eapply node_handler_inv.
  - by eapply node_relay_inv.
  - cbn [node_step] in Hs. destruct (tt_phase _) as [|i| | |]; try done. case_decide; [|done].
    by eapply node_frame_inv.
  - by eapply node_tunnel_inv.
  - by eapply node_drain_inv.
  - cbn [node_step] in Hs. destruct (other_event ye) eqn:Ho; [|done].
    eapply node_do_same; [exact HI|by apply other_event_sends|exact Hs].
Qed.

Lemma node_start_inv : node_inv node_start.
Proof.
  split; [split; [split|..]|].
  - intros c i H. cbn in H. by rewrite lookup_empty in H.
  - apply map_Forall_empty.
  - constructor.
  - apply map_Forall_empty.
  - apply map_Forall_empty.
  - intros i. cbn. rewrite !lookup_empty. constructor.
Qed.

Lemma node_run_inv es : forall n n',
  node_inv n -> node_run window_bytes f64_exp es n = Some n' -> node_inv n' /\ grows n n'.
Proof.
  induction es as [|e es IH]; intros n n' HI Hr; cbn in Hr; [injection Hr as <-; by split|].
  destruct (node_step window_bytes f64_exp e n) as [n1|] eqn:Es; [|done].
  destruct (node_step_inv _ _ _ HI Es) as [HI1 G1]. destruct (IH _ _ HI1 Hr) as [HI2 G2]. split; [done|by etrans].
Qed.

(** ** The process refines its shared state *)

(** The frames an event delivers satisfy [P]. *)
Definition y_comes (P : Frame -> Prop) (e : YEvent) : Prop :=
  match e with YS (SvInbound f) _ | YPush f => P f | _ => True end.

Definition y_simulated (P : Frame -> Prop) (y y' : YState) : Prop :=
  exists es, yrun window_bytes es y = Some y' /\ Forall (y_comes P) es.

#[export] Instance y_simulated_preorder P : PreOrder (y_simulated P).
Proof.
  split; [intros y; by exists []|]. intros y1 y2 y3 (r1 & R1 & F1) (r2 & R2 & F2). exists (r1 ++ r2).
  split; [|by apply Forall_app]. clear F1. revert y1 R1.
  induction r1 as [|e r1 IH]; intros y1 R1; cbn in *; [by injection R1 as ->|].
  destruct (ystep _ e y1) as [y|]; [by apply IH|done].
Qed.

Lemma node_do_sim P e n n' :
  y_comes P e -> node_do window_bytes e n = Some n' -> y_simulated P (n_y n) (n_y n').
Proof.
  intros He Hs. unfold node_do in Hs. destruct (ystep window_bytes e (n_y n)) as [y|] eqn:Ey; [|done].
  injection Hs as <-. exists [e]. cbn. rewrite Ey. split; [done|by constructor].
Qed.

(** What [handler_step] does is a turn, a pass, or nothing to the shared state. *)
Lemma handler_step_is_turn (Q : YEvent -> Prop) e now H s H' ye :
  Q (YPool (sp_pool s)) -> (forall e, handler_turn e now H s = Some (H', ye) -> Q ye) ->
  (forall f full w st, handler_pass f full w st now H s = Some (H', ye) -> Q ye) ->
  handler_step e now H s = Some (H', ye) -> Q ye.
Proof.
  intros H0 Ht Hp. unfold handler_step.
  destruct e as [b|n|e| | | |]; [destruct (is_reading _); [by intros [= _ <-]|done]|..];
    destruct (h_sending H) as [|c0 full|full]; try done; try apply Ht; try apply Hp;
    repeat case_match; try done; try apply Ht; try apply Hp; by intros [= _ <-].
Qed.

Lemma handler_step_comes P e now H s H' ye : handler_step e now H s = Some (H', ye) -> y_comes P ye.
Proof.
  assert (forall e, handler_turn e now H s = Some (H', ye) -> y_comes P ye) as Ht.
  { intros e0. unfold handler_turn. destruct (tcp_step _ _ _ _) as [[t s1]|]; [|done]. by intros [= _ <-]. }
  assert (forall f full w st, handler_pass f full w st now H s = Some (H', ye) -> y_comes P ye) as Hp.
  { intros f full w st. unfold handler_pass. destruct (send_async_pass _ _ _) as [[|full'| |] p];
      [apply Ht|by intros [= _ <-]..]. }
  apply (handler_step_is_turn (fun ye => y_comes P ye)); [done|exact Ht|exact Hp].
Qed.

Lemma node_sim (P : Frame -> Prop) e n n' :
  (forall k f now, e = NvFrame k f now -> P f) -> node_step window_bytes f64_exp e n = Some n' ->
  y_simulated P (n_y n) (n_y n').
Proof.
  intros He Hs. destruct e as [ids h relay hello now|h e now|i e now|k f now|k e now|i e|ye];
    cbn [node_step] in Hs.
  - apply node_client_cases in Hs as (_ & _ & _ & [->|[(target & reply & rest & _ & Hs)|(a & addr & reply & rest & _ & Hs)]]).
    + reflexivity.
    + destruct (opened_handler _ _ _ _ _ _ _ _ _); by eapply node_do_sim in Hs.
    + destruct (opened_udp _ _ _ _ _ _ _ _); by eapply node_do_sim in Hs.
  - destruct (n_handlers n !! h) as [H|]; [|done]. destruct (handler_step _ _ _ _) as [[H' ye]|] eqn:Eh; [|done].
    eapply node_do_sim in Hs; [exact Hs|]. by eapply handler_step_comes.
  - destruct (n_udp n !! i) as [x|]; [|done]. destruct (relay_step _ _ _ _) as [[r' s']|]; [|done].
    by eapply node_do_sim in Hs.
  - destruct (tt_phase _) as [|i| | |]; try done. case_decide; [|done]. unfold node_frame in Hs.
    destruct (node_do _ _ n) as [n1|] eqn:E1; [|done]. specialize (He _ _ _ eq_refl).
    etrans; [eapply node_do_sim; [|exact E1]; by destruct (tcp_data _ _)|by eapply node_do_sim; [|exact Hs]].
  - unfold node_tunnel in Hs. destruct (tunnel_step _ _ _ _) as [[t' s']|]; [|done].
    destruct e; try done; try (by eapply node_do_sim in Hs).
    destruct (tt_phase _) as [| |i| |]; try (by eapply node_do_sim in Hs). unfold node_recover in Hs.
    destruct (n_arcs _ !! i); [|done]. destruct (n_wires _ !! i); [|done]. destruct (returned _); [|done].
    destruct (node_do _ _ (with_task k t' n)) as [n1|] eqn:E1; [|done].
    change (n_y n) with (n_y (with_task k t' n)).
    etrans; [by eapply node_do_sim; [|exact E1]|by eapply node_do_sim; [|exact Hs]].
  - destruct (drain_at _ _ _ _ _) as [[a ws]|]; [|done]. injection Hs as <-. eexists [YPool _].
    split; [reflexivity|by constructor].
  - destruct (other_event ye) eqn:Ho; [|done]. eapply node_do_sim in Hs; [exact Hs|].
    by destruct ye as [[]| | | | | | |].
Qed.
End node_facts.
