(* ===== verification/SplitterOrigin.v ===== *)
(** * What the clients of a UDP association are given

    Every datagram that the splitter sends to the client of an association was the payload
    of a DATA frame that arrived for the association's id: nothing else gets into the
    channel of its response task.  [spares s s'] says that from [s] to [s'] no channel of
    a UDP connection changed; all steps but three have that form. *)
From Stdlib Require Import ZArith Lia.
From Stdlib Require Import Strings.Byte.
From stdpp Require Import base numbers list option fin_maps gmap.
From S2P Require Import Prelude Runtime Frames Reorder Tunnel Net.
From S2P Require Import Socks5 Wire PoolSends Wires Reassembler.
From S2P Require Import Splitter SplitterFacts SplitterTcp SplitterUdp SplitterSends TunnelTask.
From S2P Require Import ClientConn SplitterStream SplitterNode SplitterNodeFacts.
Local Open Scope Z_scope.

Section spares.
Context {T : Tokio} {TL : TokioLaws T} {D : DashIter} {B : BufMut}.
Context (window_bytes : Z).

Definition udp_same (v v' : VirtConn) : Prop :=
  sp_is_udp v' = sp_is_udp v /\ (sp_is_udp v = true -> to_client_tx v' = to_client_tx v).

#[local] Instance udp_same_preorder : PreOrder udp_same.
Proof.
  split; [by intros v|]. intros v1 v2 v3 [A1 A2] [B1 B2]. split; [congruence|]. intros H.
  rewrite B2 by congruence. auto.
Qed.

Record spares (s s' : SState) : Prop := {
  sr_conns c i : sp_conns s' !! c = Some i -> sp_conns s !! c = Some i;
  sr_vcs i v : sp_vcs s !! i = Some v -> exists v', sp_vcs s' !! i = Some v' /\ udp_same v v';
}.

#[export] Instance spares_preorder : PreOrder spares.
Proof.
  split.
  - intros s. split; [done|]. intros i v Hv. by exists v.
  - intros s1 s2 s3 [A1 A2] [B1 B2]. split; [auto|]. intros i v1 H1. destruct (A2 i v1 H1) as (v2 & H2 & E2).
    destruct (B2 i v2 H2) as (v3 & H3 & E3). exists v3. split; [done|by etrans].
Qed.

Lemma spares_same s s' : sp_vcs s' = sp_vcs s -> sp_conns s' = sp_conns s -> spares s s'.
Proof. intros E1 E2. split; rewrite ?E1, ?E2; [done|]. intros i v Hv. by exists v. Qed.

Ltac same := by apply spares_same.

Lemma spares_upd g i s : (forall v, sp_vcs s !! i = Some v -> udp_same v (g v)) -> spares s (sp_upd g i s).
Proof.
  intros Hg. split; [done|]. intros j v Hv. cbn. destruct (decide (i = j)) as [->|Hne].
  - rewrite lookup_alter_eq, Hv. exists (g v). auto.
  - rewrite lookup_alter_ne by done. by exists v.
Qed.

(** A TCP connection replaced. *)
Lemma spares_set i v v' s :
  sp_vcs s !! i = Some v -> sp_is_udp v = false -> sp_is_udp v' = false -> spares s (sp_upd (fun _ => v') i s).
Proof. intros Hv H1 H2. apply spares_upd. intros v0 Hv0. rewrite Hv in Hv0. injection Hv0 as <-. split; congruence. Qed.

Lemma spares_unmap c s : spares s (sp_with_conns (delete c (sp_conns s)) s).
Proof. split; cbn; [by intros c' i [_ ?]%lookup_delete_Some|]. intros i v Hv. by exists v. Qed.

Lemma spares_send f s : spares s (sp_send f s).
Proof. same. Qed.
Lemma spares_pool p s : spares s (sp_with_pool p s).
Proof. same. Qed.
Lemma spares_tombstone c now s : spares s (sp_tombstone c now s).
Proof. same. Qed.

Lemma spares_fold {A} (g : SState -> A -> SState) (l : list A) s :
  (forall s x, spares s (g s x)) -> spares s (fold_left g l s).
Proof. intros Hg. revert s. induction l as [|x l IH]; intros s; cbn; [reflexivity|]. etrans; [apply Hg|apply IH]. Qed.

(** ** The operations *)
Lemma spares_remove_own c i s : spares s (remove_own c i s).
Proof. unfold remove_own. case_decide; [apply spares_unmap|reflexivity]. Qed.

Lemma spares_reset c now s : spares s (reset_conn c now s).
Proof.
  unfold reset_conn. cbn zeta. etrans; [apply (spares_tombstone c now)|]. set (s1 := sp_tombstone c now s).
  destruct (sp_conns s1 !! c) as [i|]; [|same].
  etrans; [apply (spares_unmap c)|]. etrans; [apply (spares_upd kill_conn i); by intros v|same].
Qed.

Lemma on_frame_keeps_udp sq p now v : sp_is_udp (on_frame sq p now v).2 = sp_is_udp v.
Proof.
  unfold on_frame. destruct (push _ _ _) as [r ro]. destruct (accepted r); [|done]. by destruct (client_write_all _ _).
Qed.

(** Frames, but the DATA of a UDP association. *)
Lemma spares_inbound f now s :
  (has_flag f FLAG_DATA = true -> forall i v, sp_conns s !! conn_id f = Some i -> sp_vcs s !! i = Some v -> sp_is_udp v = false) ->
  spares s (handle_inbound_frame f now s).
Proof.
  intros Hu. unfold handle_inbound_frame, inbound_data, inbound_fin. destruct (has_flag f FLAG_DATA).
  { destruct (sp_conns s !! conn_id f) as [i|] eqn:Hc; [|case_decide; apply spares_send].
    destruct (sp_vcs s !! i) as [v|] eqn:Hv; [|reflexivity]. specialize (Hu eq_refl i v eq_refl Hv). rewrite Hu.
    pose proof (on_frame_keeps_udp (seq f) (payload f) now v) as E. destruct (on_frame _ _ _ v) as [ov v']. cbn in E.
    assert (spares s (sp_upd (fun _ => v') i s)) as H by (apply (spares_set i v); congruence).
    destruct ov; [|done]. etrans; [exact H|apply spares_reset]. }
  destruct (has_flag f FLAG_FIN).
  - destruct (sp_conns s !! conn_id f); [|reflexivity]. apply spares_upd. intros v _. by destruct (sp_is_udp v) eqn:E.
  - destruct (has_flag f FLAG_RST); [apply spares_reset|reflexivity].
Qed.

Lemma spares_sweep now strong s e : spares s (sp_sweep_conn now strong s e).
Proof.
  unfold sp_sweep_conn. destruct (sp_vcs s !! e.2) as [v|]; [|reflexivity].
  assert (forall g, (forall v, udp_same v (g v)) -> spares s (sp_with_conns (delete e.1 (sp_conns s))
    (sp_tombstone e.1 now (sp_send (frame_rst e.1) (sp_upd g e.2 s))))) as H.
  { intros g Hg. etrans; [by apply (spares_upd g e.2)|]. etrans; [apply (spares_send (frame_rst e.1))|].
    etrans; [apply (spares_tombstone e.1 now)|]. apply (spares_unmap e.1 (sp_tombstone e.1 now (sp_send (frame_rst e.1) (sp_upd g e.2 s)))). }
  destruct (sweep_verdict_of _ _ v); [reflexivity|apply H; by intros ?..].
Qed.

Lemma spares_heartbeat now now_ms strong s : spares s (sp_heartbeat now now_ms strong s).
Proof.
  unfold sp_heartbeat. cbn zeta. set (s2 := sp_with_time_wait _ _). assert (spares s s2) as H2 by same.
  etrans; [exact H2|]. transitivity (fold_left (sp_sweep_conn now strong) (dash_iter (sp_conns s2)) s2); [|same].
  apply spares_fold. intros. apply spares_sweep.
Qed.

Lemma spares_lost lost now s : spares s (recover_lost_sp lost now s).
Proof.
  apply spares_fold. intros s1 f. destruct (negb _); [apply spares_send|]. case_decide; [apply spares_reset|reflexivity].
Qed.

Lemma spares_tcp e now t s t' s' : tcp_step e now t s = Some (t', s') -> spares s s'.
Proof.
  intros Hs. unfold tcp_step in Hs. destruct (sp_vcs s !! tc_vc t) as [v|]; [|done].
  assert (forall p, spares s (sp_with_pool p s)) as Hp by (intros p; apply spares_pool).
  assert (forall p g, (forall v, udp_same v (g v)) -> spares s (sp_upd g (tc_vc t) (sp_with_pool p s))) as Hg
    by (intros p g H; etrans; [apply (Hp p)|by apply spares_upd]).
  destruct e, (tc_phase t); try done; repeat case_match; simplify_eq; try reflexivity; try apply Hp; try same.
  - apply Hg. by intros v0.
  - apply spares_upd. by intros v0.
  - apply spares_upd. by intros v0.
  - apply spares_upd. by intros v0.
  - apply Hg. by intros v0.
  - etrans; [apply (spares_tombstone (tc_cid t) now)|apply spares_remove_own].
Qed.

Lemma spares_datagram src data now u s : spares s (udp_datagram src data now u s).2.
Proof.
  unfold udp_datagram. destruct (negb _); [reflexivity|]. destruct (send_tries _ _ _) as [[] p]; cbn; [|apply spares_pool].
  etrans; [apply (spares_pool p)|]. by apply spares_upd.
Qed.

Lemma spares_udp_finish now u s : spares s (udp_finish now u s).
Proof.
  unfold udp_finish. etrans; [apply (spares_tombstone (uc_cid u) now)|].
  etrans; [apply (spares_remove_own (uc_cid u) (uc_vc u))|apply spares_send].
Qed.
End spares.

(** ** The channels of the associations *)
Section fed.
Context {T : Tokio} {TL : TokioLaws T} {D : DashIter} {DL : DashIterLaws D} {B : BufMut} {BL : BufMutLaws B}.
Context (window_bytes : Z) (f64_exp : f64 -> f64).
(** What holds of the frames received. *)
Context (P : Frame -> Prop).

Definition relay_cid (x : Relay) : Z := uc_cid (ur_client (u_relay x)).

(** The payload of a DATA frame that arrived for [c]. *)
Definition fed (c : Z) (b : bytes) : Prop :=
  exists f, P f /\ has_flag f FLAG_DATA = true /\ conn_id f = c /\ payload f = b.

Record relay_fed (i : nat) (x : Relay) (s : SState) : Prop := {
  rf_vc : uc_vc (ur_client (u_relay x)) = i;
  rf_out : Forall (fun d => fed (relay_cid x) d.2) (ur_out (u_relay x));
  rf_chan : exists v, sp_vcs s !! i = Some v /\ sp_is_udp v = true /\ Forall (fed (relay_cid x)) (queued (to_client_tx v));
}.

Record fed_inv (n : Node) : Prop := {
  fi_dom c i : sp_conns (n_state n) !! c = Some i -> is_Some (sp_vcs (n_state n) !! i);
  fi_conns c i v : sp_conns (n_state n) !! c = Some i -> sp_vcs (n_state n) !! i = Some v -> sp_is_udp v = true ->
    exists x, n_udp n !! i = Some x /\ relay_cid x = c;
  fi_relays i x : n_udp n !! i = Some x -> relay_fed i x (n_state n);
  fi_calls i : is_Some (yl (n_y n) !! i) -> exists v, sp_vcs (n_state n) !! i = Some v /\ sp_is_udp v = false;
}.

(** What stays of a relay in the other tasks' steps, and in most of its own. *)
Record relay_kept (x x' : Relay) : Prop := {
  rk_cid : relay_cid x' = relay_cid x;
  rk_vc : uc_vc (ur_client (u_relay x')) = uc_vc (ur_client (u_relay x));
  rk_out : ur_out (u_relay x') = ur_out (u_relay x);
}.

#[local] Instance relay_kept_refl : Reflexive relay_kept.
Proof. by intros x. Qed.

(** The calls of [on_frame] under way are those of before, or of a TCP connection. *)
Definition calls_ok (y y' : YState) : Prop :=
  forall i, is_Some (yl y' !! i) -> is_Some (yl y !! i) \/ exists v, sp_vcs (ys y) !! i = Some v /\ sp_is_udp v = false.

Lemma calls_same y y' : yl y' = yl y -> calls_ok y y'.
Proof. intros E i. rewrite E. by left. Qed.

Lemma fed_step n n' :
  spares (n_state n) (n_state n') -> calls_ok (n_y n) (n_y n') ->
  (forall i, option_Forall2 relay_kept (n_udp n !! i) (n_udp n' !! i)) -> fed_inv n -> fed_inv n'.
Proof.
  intros [S1 S2] HC HU [F1 F2 F3 F4]. split.
  - intros c i Hc. destruct (F1 c i (S1 c i Hc)) as [v Hv]. destruct (S2 i v Hv) as (v' & -> & _). by eexists.
  - intros c i v' Hc Hv' Hu. apply S1 in Hc. destruct (F1 c i Hc) as [v Hv]. destruct (S2 i v Hv) as (v2 & Hv2 & E & _).
    rewrite Hv' in Hv2. injection Hv2 as <-. destruct (F2 c i v Hc Hv ltac:(congruence)) as (x & Hx & Ex).
    specialize (HU i). rewrite Hx in HU. inversion HU as [? x' [K1 K2 K3] E1 E2|]. subst. exists x'. split; [done|congruence].
  - intros i x' Hx'. specialize (HU i). rewrite Hx' in HU. inversion HU as [x ? [K1 K2 K3] E1 E2|]. subst. symmetry in E1.
    destruct (F3 i x E1) as [R1 R2 (v & Hv & Hu & Hq)]. destruct (S2 i v Hv) as (v' & Hv' & E & Et). split.
    + congruence.
    + by rewrite K3, K1.
    + exists v'. split; [done|]. split; [congruence|]. by rewrite Et, K1.
  - intros i Hi. destruct (HC i Hi) as [Hi0|(v & Hv & Hu)]; [destruct (F4 i Hi0) as (v & Hv & Hu)|];
      destruct (S2 i v Hv) as (v' & Hv' & E & _); exists v'; (split; [done|congruence]).
Qed.

Lemma udp_refl (us : gmap nat Relay) i : option_Forall2 relay_kept (us !! i) (us !! i).
Proof. destruct (us !! i); by constructor. Qed.

(** ** The steps of the shared state *)

(** All but an open, the DATA of an association, and a step of a relay. *)
Definition plain_event (y : YState) (e : YEvent) : Prop :=
  match e with
  | YS (SvInbound f) _ => has_flag f FLAG_DATA = true -> forall i v,
      sp_conns (ys y) !! conn_id f = Some i -> sp_vcs (ys y) !! i = Some v -> sp_is_udp v = false
  | YS (SvTcpOpen _ _ _ _) _ | YS (SvUdpOpen _ _ _ _) _ | YRelay _ _ _ => False
  | _ => True
  end.

Lemma sstep_spares e now y s' :
  plain_event y (YS e now) -> sstep window_bytes e now (ys y) = Some s' -> spares (ys y) s'.
Proof.
  intros He Hs. destruct e; cbn in He; try done; cbn [sstep] in Hs.
  - injection Hs as <-. by apply spares_inbound.
  - injection Hs as <-. apply spares_heartbeat.
  - injection Hs as <-. apply spares_lost.
  - apply fmap_Some in Hs as ([t' s1] & Hs & ->). by eapply spares_tcp.
  - injection Hs as <-. apply spares_datagram.
  - injection Hs as <-. apply spares_udp_finish.
Qed.

Lemma ystep_spares e y y' :
  (forall i, is_Some (yl y !! i) -> exists v, sp_vcs (ys y) !! i = Some v /\ sp_is_udp v = false) ->
  plain_event y e -> ystep window_bytes e y = Some y' -> spares (ys y) (ys y') /\ calls_ok y y'.
Proof.
  intros HC He Hs. destruct e as [e now|f|i|i now|k now|i we|r e now|p]; cbn [ystep] in Hs; try done.
  - destruct (match e with SvInbound f => _ | _ => false end); [done|].
    destruct (sstep window_bytes e now (ys y)) as [s'|] eqn:Es; [|done]. case_decide; [|done]. injection Hs as <-.
    split; [by eapply sstep_spares|by apply calls_same].
  - destruct (tcp_data f (ys y)) as [[i v]|] eqn:Ed; [|done]. case_decide; [|done].
    assert (sp_vcs (ys y) !! i = Some v /\ sp_is_udp v = false) as [Hv Hu].
    { unfold tcp_data in Ed. destruct (has_flag f FLAG_DATA); [|done]. destruct (sp_conns _ !! _) as [j|]; [|done].
      destruct (sp_vcs _ !! j) as [v0|] eqn:Hv; [|done]. destruct (sp_is_udp v0) eqn:Hu; [done|]. by injection Ed as <- <-. }
    destruct (push _ _ _) as [r ro]. injection Hs as <-. split; [by eapply spares_set|]. intros j. cbn.
    destruct (accepted r); [|by left]. destruct (decide (j = i)) as [->|Hne]; [right; by exists v|].
    rewrite lookup_insert_ne by done. by left.
  - destruct (yl y !! i) as [[c [[|b rest] k ov]]|] eqn:Hl; try done.
    destruct (HC i ltac:(by eexists)) as (v & Hv & Hu). rewrite Hv in Hs. destruct (client_write b _) as [failed ch].
    injection Hs as <-. split; [by eapply spares_set|]. intros j. cbn. destruct (decide (j = i)) as [->|Hne];
      [right; by exists v|]. rewrite lookup_insert_ne by done. by left.
  - destruct (yl y !! i) as [[c [[|b rest] k ov]]|] eqn:Hl; try done.
    destruct (HC i ltac:(by eexists)) as (v & Hv & Hu). rewrite Hv in Hs. injection Hs as <-.
    split; [by eapply spares_set|]. intros j [l Hj]. cbn in Hj. apply lookup_delete_Some in Hj as [_ Hj]. left. by eexists.
  - destruct (y_due y !! k) as [c|]; [|done]. case_decide; [|done]. injection Hs as <-.
    split; [apply spares_reset|by apply calls_same].
  - destruct (sp_vcs (ys y) !! i) as [v|] eqn:Hv; [|done]. destruct (sp_is_udp v) eqn:Hu; [done|]. cbn [orb] in Hs.
    destruct (match we with CwPoll gone => _ | _ => false end); [done|].
    destruct (client_writer_step _ _ _) as [[w c]|]; [|done]. injection Hs as <-.
    split; [by eapply spares_set|by apply calls_same].
  - injection Hs as <-. split; [apply spares_pool|by apply calls_same].
Qed.

Lemma fed_plain e n n1 n' :
  fed_inv n -> n_y n1 = n_y n -> (forall i, option_Forall2 relay_kept (n_udp n !! i) (n_udp n1 !! i)) ->
  plain_event (n_y n) e -> node_do window_bytes e n1 = Some n' -> fed_inv n'.
Proof.
  intros HF Ey HU He Hs. unfold node_do in Hs. destruct (ystep window_bytes e (n_y n1)) as [y|] eqn:Es; [|done].
  injection Hs as <-. rewrite Ey in Es. destruct (ystep_spares e (n_y n) y (fi_calls _ HF) He Es) as [HS HC].
  by apply (fed_step n).
Qed.

(** ** The channels change *)

(** The channel of one association, with what its response task sent. *)
Lemma fed_set n i v x v' x' w ls d b hs t ws :
  fed_inv n -> sp_vcs (n_state n) !! i = Some v -> sp_is_udp v = true -> n_udp n !! i = Some x ->
  sp_is_udp v' = true -> Forall (fed (relay_cid x)) (queued (to_client_tx v')) ->
  relay_cid x' = relay_cid x -> uc_vc (ur_client (u_relay x')) = i ->
  Forall (fun d => fed (relay_cid x) d.2) (ur_out (u_relay x')) -> ls = yl (n_y n) ->
  fed_inv (mkNode (mkYState (sp_upd (fun _ => v') i (n_state n)) w ls d b) hs (<[i := x']> (n_udp n)) t ws).
Proof.
  intros [F1 F2 F3 F4] Hv Hu Hx Hu' Hq' Ec Ei Ho ->. split; cbn.
  - intros c j Hj. destruct (F1 c j Hj) as [v0 Hv0]. destruct (decide (i = j)) as [->|Hne].
    + rewrite lookup_alter_eq, Hv0. by eexists.
    + rewrite lookup_alter_ne by done. by eexists.
  - intros c j v0 Hj Hv0 Hu0. destruct (decide (i = j)) as [->|Hne].
    + destruct (F2 c j v Hj Hv Hu) as (x0 & Hx0 & E). rewrite Hx in Hx0. injection Hx0 as <-.
      exists x'. rewrite lookup_insert_eq. split; [done|congruence].
    + rewrite lookup_alter_ne in Hv0 by done. rewrite lookup_insert_ne by done. exact (F2 c j v0 Hj Hv0 Hu0).
  - intros j x0 Hx0. destruct (decide (i = j)) as [->|Hne].
    + rewrite lookup_insert_eq in Hx0. injection Hx0 as <-. split; [done|by rewrite Ec|].
      exists v'. cbn. rewrite lookup_alter_eq, Hv, Ec. done.
    + rewrite lookup_insert_ne in Hx0 by done. destruct (F3 j x0 Hx0) as [R1 R2 (v0 & Hv0 & Hu0 & Hq0)].
      split; [done|done|]. exists v0. cbn. by rewrite lookup_alter_ne.
  - intros j Hj. destruct (F4 j Hj) as (v0 & Hv0 & Hu0). exists v0. rewrite lookup_alter_ne; [done|].
    intros ->. rewrite Hv in Hv0. injection Hv0 as <-. congruence.
Qed.

Lemma association_or_not f s :
  (exists i v, has_flag f FLAG_DATA = true /\ sp_conns s !! conn_id f = Some i /\ sp_vcs s !! i = Some v /\ sp_is_udp v = true) \/
  (has_flag f FLAG_DATA = true -> forall i v, sp_conns s !! conn_id f = Some i -> sp_vcs s !! i = Some v -> sp_is_udp v = false).
Proof.
  destruct (has_flag f FLAG_DATA); [|by right]. destruct (sp_conns s !! conn_id f) as [i|] eqn:Hc; [|by right].
  destruct (sp_vcs s !! i) as [v|] eqn:Hv; [|right; intros; congruence].
  destruct (sp_is_udp v) eqn:Hu; [left; by exists i, v|right; intros; congruence].
Qed.

(** DATA for an association joins its channel. *)
Lemma fed_inbound f now n n' :
  fed_inv n -> P f -> node_do window_bytes (YS (SvInbound f) now) n = Some n' -> fed_inv n'.
Proof.
  intros HF Hf Hs. destruct (association_or_not f (n_state n)) as [(i & v & Hd & Hc & Hv & Hu)|Hn].
  2:{ eapply (fed_plain (YS (SvInbound f) now) n n); [done|done|apply udp_refl|exact Hn|exact Hs]. }
  unfold node_do in Hs. cbn [ystep] in Hs. destruct (bool_decide _); [done|]. cbn [sstep] in Hs. case_decide; [|done].
  injection Hs as <-. unfold handle_inbound_frame, inbound_data. change (ys (n_y n)) with (n_state n).
  rewrite Hd, Hc, Hv, Hu. destruct (fi_conns _ HF _ _ _ Hc Hv Hu) as (x & Hx & Ex).
  destruct (fi_relays _ HF i x Hx) as [R1 R2 (v0 & Hv0 & Hu0 & Hq0)]. rewrite Hv in Hv0. injection Hv0 as <-.
  rewrite <- (insert_id (n_udp n) i x) by done.
  destruct (try_send (payload f) (to_client_tx v)) as [[err|] c] eqn:Et; eapply fed_set; try done; cbn.
  - by apply try_send_err in Et as ->.
  - apply try_send_None in Et as (_ & _ & -> & _). apply Forall_app. split; [done|]. constructor; [|constructor].
    by exists f.
Qed.

(** A new connection [v] at [i]; if its entry stays and it is an association, its relay has
    started. *)
Lemma fed_new n i v (y : YState) hs us t ws :
  fed_inv n -> sp_vcs (n_state n) !! i = None -> sp_vcs (ys y) = <[i := v]> (sp_vcs (n_state n)) ->
  yl y = yl (n_y n) -> (forall j, j <> i -> us !! j = n_udp n !! j) ->
  (forall x, us !! i = Some x -> uc_vc (ur_client (u_relay x)) = i /\ ur_out (u_relay x) = [] /\
     sp_is_udp v = true /\ queued (to_client_tx v) = []) ->
  (forall c j, sp_conns (ys y) !! c = Some j -> sp_conns (n_state n) !! c = Some j \/
     j = i /\ (sp_is_udp v = true -> exists x, us !! i = Some x /\ relay_cid x = c)) ->
  fed_inv (mkNode y hs us t ws).
Proof.
  intros [F1 F2 F3 F4] Hi Ev El Hus Hx Hc. split; cbn.
  - intros c j Hj. change (is_Some (sp_vcs (ys y) !! j)). rewrite Ev. destruct (decide (j = i)) as [->|Hne].
    + rewrite lookup_insert_eq. by eexists.
    + rewrite lookup_insert_ne by done. destruct (Hc c j Hj) as [Hj'|[-> _]]; [eauto|done].
  - intros c j v0 Hj. change (sp_vcs (ys y) !! j = Some v0 -> sp_is_udp v0 = true -> exists x, us !! j = Some x /\ relay_cid x = c).
    rewrite Ev. destruct (Hc c j Hj) as [Hj'|[-> H]].
    + destruct (F1 c j Hj') as [v1 Hv1]. assert (j <> i) as Hne by (intros ->; congruence).
      rewrite lookup_insert_ne by done. rewrite Hus by done. eauto.
    + rewrite lookup_insert_eq. intros [= <-]. exact H.
  - intros j x Hj. destruct (decide (j = i)) as [->|Hne].
    + destruct (Hx x Hj) as (H1 & H2 & H3 & H4). split; [done|by rewrite H2|]. exists v.
      change (sp_vcs (ys y) !! i = Some v /\ sp_is_udp v = true /\ Forall (fed (relay_cid x)) (queued (to_client_tx v))).
      by rewrite Ev, lookup_insert_eq, H4.
    + rewrite Hus in Hj by done. destruct (F3 j x Hj) as [R1 R2 (v0 & R3)]. split; [done|done|]. exists v0.
      change (sp_vcs (ys y) !! j = Some v0 /\ sp_is_udp v0 = true /\ Forall (fed (relay_cid x)) (queued (to_client_tx v0))).
      by rewrite Ev, lookup_insert_ne.
  - intros j Hj. rewrite El in Hj. destruct (F4 j Hj) as (v0 & Hv0 & Hu0). exists v0.
    change (sp_vcs (ys y) !! j = Some v0 /\ sp_is_udp v0 = false). rewrite Ev, lookup_insert_ne; [done|congruence].
Qed.

(** ** Opening *)
Lemma udp_syn_encodes : exists syn, syn_target_encode udp_syn = Ok syn.
Proof. eexists. rewrite syn_encode_spec. reflexivity. Qed.

Lemma fed_relay_absent n i : fed_inv n -> sp_vcs (n_state n) !! i = None -> n_udp n !! i = None.
Proof.
  intros HF Hi. destruct (n_udp n !! i) as [x|] eqn:Hx; [|done].
  destruct (fi_relays _ HF i x Hx) as [_ _ (v & Hv & _)]. congruence.
Qed.

Lemma fed_tcp_open ids h target reply now n n1 n' :
  fed_inv n -> n_y n1 = n_y n -> n_udp n1 = n_udp n ->
  node_do window_bytes (YS (SvTcpOpen ids h target reply) now) n1 = Some n' -> fed_inv n'.
Proof.
  intros HF Ey Eu Hs. unfold node_do in Hs. rewrite Ey in Hs. cbn [ystep sstep] in Hs.
  destruct (decide (sp_vcs (ys (n_y n)) !! h = None)) as [Hi|]; [|done]. change (sp_vcs (n_state n) !! h = None) in Hi.
  assert (forall y t ws, ys y = n_state n -> yl y = yl (n_y n) -> fed_inv (mkNode y (n_handlers n1) (n_udp n1) t ws)) as Hid.
  { intros y t ws E1 E2. apply (fed_step n); [|by apply calls_same|intros i; cbn; rewrite Eu; apply udp_refl|done].
    unfold n_state at 2. cbn. by rewrite E1. }
  destruct (alloc_conn_id _ _ _) as [c|]; [|case_decide; [|done]; injection Hs as <-; by apply Hid].
  case_decide; [|done]. injection Hs as <-. unfold tcp_open.
  destruct (syn_target_encode _) as [syn|]; [|by apply Hid]. cbn [sp_pool].
  assert (forall y t ws, sp_vcs (ys y) = <[h := new_virt_conn false window_bytes now]> (sp_vcs (n_state n)) ->
    (forall c' j, sp_conns (ys y) !! c' = Some j -> <[c := h]> (sp_conns (n_state n)) !! c' = Some j) ->
    yl y = yl (n_y n) -> fed_inv (mkNode y (n_handlers n1) (n_udp n1) t ws)) as Hnew.
  { intros y t ws Ev Ec El. apply (fed_new n h (new_virt_conn false window_bytes now)); [done|done|done|done|by rewrite Eu| |].
    - intros x. by rewrite Eu, (fed_relay_absent n h).
    - intros c' j Hj. apply Ec, lookup_insert_Some in Hj as [[_ <-]|[_ Hj]]; [by right|by left]. }
  destruct (send _ _) as [[] p]; apply Hnew; try done; cbn; unfold remove_own; cbn; case_decide; try done; cbn.
  intros c' j Hj. by apply lookup_delete_Some in Hj as [_ ?].
Qed.

Lemma udp_open_cases c i addr reply now s :
  exists s', (udp_open c i addr reply window_bytes now s).2 = s' /\
    sp_vcs s' = <[i := new_virt_conn true window_bytes now]> (sp_vcs s) /\
    (((udp_open c i addr reply window_bytes now s).1.2 = Some (mkUdpClient c i 1 addr) /\
      sp_conns s' = <[c := i]> (sp_conns s)) \/
     ((udp_open c i addr reply window_bytes now s).1.2 = None /\ sp_conns s' = delete c (<[c := i]> (sp_conns s)))).
Proof.
  unfold udp_open. destruct udp_syn_encodes as [syn Hsyn]. unfold udp_syn in Hsyn. rewrite Hsyn.
  destruct (send _ _) as [[] p]; eexists; (split; [reflexivity|split; [reflexivity|]]); [left|right]; done.
Qed.

(** What an open does, to the state and to the relays. *)
Lemma udp_open_step ids i hello addr reply now s s' :
  sstep window_bytes (SvUdpOpen ids i addr reply) now s = Some s' ->
  sp_vcs s !! i = None /\
  ((s' = s /\ opened_udp window_bytes ids i hello addr reply now s = None) \/
   exists c, sp_vcs s' = <[i := new_virt_conn true window_bytes now]> (sp_vcs s) /\
    ((opened_udp window_bytes ids i hello addr reply now s = Some (mkRelay (relay_start c i addr) hello addr []) /\
      sp_conns s' = <[c := i]> (sp_conns s)) \/
     (opened_udp window_bytes ids i hello addr reply now s = None /\ sp_conns s' = delete c (<[c := i]> (sp_conns s))))).
Proof.
  cbn [sstep]. unfold opened_udp. case_decide as Hi; [|done]. destruct (alloc_conn_id _ _ _) as [c|];
    [|intros [= <-]; split; [done|by left]].
  destruct (udp_open_cases c i addr reply now s) as (s1 & E & Ev & [[Eo Ec]|[Eo Ec]]); rewrite E, Eo;
    intros [= <-]; (split; [done|right; exists c; split; [done|]]); [left|right]; done.
Qed.

Lemma fed_udp_open ids i hello addr reply now n n1 n' :
  fed_inv n -> n_y n1 = n_y n ->
  n_udp n1 = match opened_udp window_bytes ids i hello addr reply now (n_state n) with
             | Some r => <[i := r]> (n_udp n) | None => n_udp n end ->
  node_do window_bytes (YS (SvUdpOpen ids i addr reply) now) n1 = Some n' -> fed_inv n'.
Proof.
  intros HF Ey Eu Hs. unfold node_do in Hs. rewrite Ey in Hs. cbn [ystep] in Hs. unfold n_state in Eu.
  destruct (sstep _ _ _ _) as [s1|] eqn:Es; [|done]. case_decide; [|done]. injection Hs as <-.
  destruct (udp_open_step ids i hello addr reply now _ _ Es) as [Hi Hc]. pose proof (fed_relay_absent n i HF Hi) as Hx.
  destruct Hc as [[-> E]|(c & Ev & [[E Ec]|[E Ec]])]; rewrite E in Eu.
  - apply (fed_step n); [by apply spares_same|by apply calls_same| |done]. intros j. cbn. rewrite Eu. apply udp_refl.
  - eapply (fed_new n i (new_virt_conn true window_bytes now)); [exact HF|exact Hi|exact Ev|reflexivity| | |]; rewrite Eu.
    + intros j Hne. by apply lookup_insert_ne.
    + intros x. rewrite lookup_insert_eq. intros [= <-]. split_and!; [done|done|done|]. apply queued_new.
    + intros c' j. cbn [ys]. rewrite Ec. intros [[<- <-]|[_ Hj]]%lookup_insert_Some; [right|by left]. split; [done|]. intros _.
      eexists. rewrite lookup_insert_eq. by split.
  - eapply (fed_new n i (new_virt_conn true window_bytes now)); [exact HF|exact Hi|exact Ev|reflexivity| | |]; rewrite Eu.
    + done.
    + intros x. by rewrite Hx.
    + intros c' j. cbn [ys]. rewrite Ec. intros [Hne Hj]%lookup_delete_Some. rewrite lookup_insert_ne in Hj by done. by left.
Qed.

(** ** A step of an association *)
Lemma fed_relay i x e now n n' r' s' :
  fed_inv n -> n_udp n !! i = Some x -> relay_step e now (u_relay x) (n_state n) = Some (r', s') ->
  node_do window_bytes (YRelay (u_relay x) e now)
    (with_udp (<[i := mkRelay r' (u_hello x) (u_addr x) (u_turns x ++ [(e, now, n_state n)])]> (n_udp n)) n) = Some n' ->
  fed_inv n'.
Proof.
  intros HF Hx Hr Hs. destruct (fi_relays _ HF i x Hx) as [R1 R2 (v & Hv & Hu & Hq)].
  unfold node_do in Hs. cbn [ystep with_udp n_y] in Hs. change (ys (n_y n)) with (n_state n) in Hs.
  rewrite R1, Hv, Hr, Hu in Hs. case_bool_decide; [|done]. cbn [andb] in Hs. injection Hs as <-.
  assert (forall r1 s1 y t ws, spares (n_state n) s1 -> uc_cid (ur_client r1) = relay_cid x ->
    uc_vc (ur_client r1) = i -> ur_out r1 = ur_out (u_relay x) -> ys y = s1 -> yl y = yl (n_y n) ->
    fed_inv (mkNode y (n_handlers n) (<[i := mkRelay r1 (u_hello x) (u_addr x) (u_turns x ++ [(e, now, n_state n)])]> (n_udp n)) t ws)) as Hkeep.
  { intros r1 s1 y t ws HS Ec Ei Eo Ey El. apply (fed_step n); [by rewrite <- Ey in HS|by apply calls_same| |done].
    intros j. cbn. destruct (decide (i = j)) as [->|Hne]; [|rewrite lookup_insert_ne by done; apply udp_refl].
    rewrite lookup_insert_eq, Hx. constructor. split; [exact Ec|by rewrite R1|exact Eo]. }
  unfold relay_step in Hr. rewrite R1, Hv in Hr. destruct e as [src data| | | |ok|].
  - destruct (ur_phase _); try done. pose proof (spares_datagram src data now (ur_client (u_relay x)) (n_state n)) as HS.
    assert (uc_cid (udp_datagram src data now (ur_client (u_relay x)) (n_state n)).1 = relay_cid x /\
      uc_vc (udp_datagram src data now (ur_client (u_relay x)) (n_state n)).1 = i) as [E1 E2].
    { unfold udp_datagram. destruct (negb _); [done|]. by destruct (send_tries _ _ _) as [[] p]. }
    destruct (udp_datagram _ _ _ _ _) as [u1 s1]. injection Hr as <- <-. by eapply Hkeep.
  - destruct (ur_phase _); try done. injection Hr as <- <-. by eapply Hkeep.
  - destruct (ur_phase _); try done. injection Hr as <- <-. by eapply Hkeep.
  - destruct (ur_phase _); try done. destruct (has_permit _); [|done]. injection Hr as <- <-.
    eapply Hkeep; [apply (spares_upd (fun v => set_sp_notify (notify_take (sp_notify v)) v) i); by intros v0|done..].
  - destruct (ur_responding _); [|done].
    destruct (try_recv_cases (to_client_tx v)) as [[_ E]|(b & q & c & Eq & E & Ec & _)]; rewrite E in Hr; [done|].
    rewrite Eq in Hq. apply Forall_cons in Hq as [Hb Hq]. rewrite <- Ec in Hq.
    rewrite (sp_upd_at (fun v => set_client c (sp_reorder v) v) i v) in Hr by done.
    destruct (uc_addr (ur_client (u_relay x))) as [a|]; [destruct ok|]; injection Hr as <- <-; eapply (fed_set n i v x); try done.
    cbn. apply Forall_app. split; [done|by constructor].
  - destruct (ur_phase _); try done. injection Hr as <- <-. eapply Hkeep; [apply (spares_udp_finish now (ur_client (u_relay x)))|done..].
Qed.

(** ** The process *)
Lemma handler_step_plain e now h s H' ye y : handler_step e now h s = Some (H', ye) -> plain_event y ye.
Proof.
  assert (forall e, handler_turn e now h s = Some (H', ye) -> plain_event y ye) as Ht.
  { intros e0. unfold handler_turn. destruct (tcp_step _ _ _ _) as [[t s1]|]; [|done]. by intros [= _ <-]. }
  apply (handler_step_is_turn (plain_event y)); [done|exact Ht|].
  intros f full w st. unfold handler_pass. destruct (send_async_pass _ _ _) as [[|full'| |] p]; [apply Ht|by intros [= _ <-]..].
Qed.

Lemma fed_same e n n1 n' :
  fed_inv n -> n_y n1 = n_y n -> n_udp n1 = n_udp n -> plain_event (n_y n) e ->
  node_do window_bytes e n1 = Some n' -> fed_inv n'.
Proof. intros HF Ey Eu. apply fed_plain; [done|done|]. intros i. rewrite Eu. apply udp_refl. Qed.

Lemma fed_recover i now n n' : fed_inv n -> node_recover window_bytes i now n = Some n' -> fed_inv n'.
Proof.
  intros HF Hs. unfold node_recover in Hs. destruct (n_arcs n !! i); [|done]. destruct (n_wires n !! i); [|done].
  destruct (returned _); [|done]. destruct (node_do _ (YPool _) n) as [n1|] eqn:E1; [|done].
  eapply (fed_same (YS (SvLost _) now) n1 n1); [|done|done|done|exact Hs]. by eapply (fed_same (YPool _) n n).
Qed.

Lemma fed_tunnel k e now n n' : fed_inv n -> node_tunnel window_bytes k e now n = Some n' -> fed_inv n'.
Proof.
  intros HF Hs. unfold node_tunnel in Hs. destruct (tunnel_step _ _ _ _) as [[t' s']|]; [|done].
  assert (fed_inv (with_task k t' n)) as HF1 by (by apply (fed_step n); [|apply calls_same|intros; apply udp_refl|]).
  destruct e, (tt_phase (default tunnel_start (n_tasks n !! k))); try done;
    first [exact (fed_recover _ now _ _ HF1 Hs)|exact (fed_same (YPool (sp_pool s')) n (with_task k t' n) _ HF eq_refl eq_refl I Hs)].
Qed.

Lemma fed_node_step e n n' :
  fed_inv n -> (forall k f now, e = NvFrame k f now -> P f) ->
  node_step window_bytes f64_exp e n = Some n' -> fed_inv n'.
Proof.
  intros HF HP Hs. destruct e as [ids h relay hello now|h e now|i e now|k f now|k e now|i e|ye]; cbn [node_step] in Hs.
  - apply node_client_cases in Hs as (_ & _ & _ & [->|[(target & reply & rest & _ & Hs)|(a & addr & reply & rest & _ & Hs)]]).
    + done.
    + eapply (fed_tcp_open ids h target reply now n); [done| | |exact Hs]; by destruct (opened_handler _ _ _ _ _ _ _ _ _).
    + eapply (fed_udp_open ids h hello addr reply now n); [done| | |exact Hs]; by destruct (opened_udp _ _ _ _ _ _ _ _).
  - destruct (n_handlers n !! h) as [H|]; [|done]. destruct (handler_step _ _ _ _) as [[H' ye]|] eqn:Eh; [|done].
    eapply (fed_same ye n _ n' HF); [| | |exact Hs]; [done|done|]. by eapply handler_step_plain.
  - destruct (n_udp n !! i) as [x|] eqn:Hx; [|done]. destruct (relay_step _ _ _ _) as [[r' s']|] eqn:Er; [|done].
    by eapply fed_relay.
  - destruct (tt_phase _) as [|i| | |]; try done. case_decide; [|done]. unfold node_frame in Hs.
    destruct (node_do _ _ n) as [n1|] eqn:E1; [|done]. eapply (fed_same (YPool _) n1 n1); [|done|done|done|exact Hs].
    destruct (tcp_data f (n_state n)); [by eapply (fed_same (YPush f) n n)|].
    eapply fed_inbound; [done|by eapply HP|exact E1].
  - by eapply fed_tunnel.
  - destruct (drain_at _ _ _ _ _) as [[a ws]|]; [|done]. injection Hs as <-.
    apply (fed_step n); [apply spares_pool|by apply calls_same|intros; apply udp_refl|done].
  - destruct (other_event ye) eqn:Ho; [|done]. eapply (fed_same ye n n); try done. by destruct ye as [[]| | | | | | |].
Qed.

Lemma fed_start : fed_inv node_start.
Proof.
  split; cbn.
  - intros c i H. by rewrite lookup_empty in H.
  - intros c i v H. by rewrite lookup_empty in H.
  - intros i x H. by rewrite lookup_empty in H.
  - intros i [l H]. by rewrite lookup_empty in H.
Qed.
End fed.

Lemma fed_inv_mono `{Tokio} (P Q : Frame -> Prop) n : (forall f, P f -> Q f) -> fed_inv P n -> fed_inv Q n.
Proof.
  intros HPQ [F1 F2 F3 F4]. assert (forall c b, fed P c b -> fed Q c b) as Hm.
  { intros c b (f & Hf & Hr). exists f. auto. }
  split; [done|done| |done]. intros i x Hx. destruct (F3 i x Hx) as [R1 R2 (v & Hv & Hu & Hq)]. split; [done| |].
  - eapply Forall_impl; [exact R2|]. intros d. apply Hm.
  - exists v. split; [done|]. split; [done|]. eapply Forall_impl; [exact Hq|]. intros b. apply Hm.
Qed.
