(* ===== verification/ReassemblerNode.v ===== *)
(** * The reassembler process

    All parts of [src/src/reassembler.rs] in one state: the tunnel links with their read
    loops and SYN handlers ([LinkTask]), the writer tasks ([ReassemblerStream]), the
    readers of the target sockets with the [send_async] each may be in, the readers of the
    UDP sockets, and the drain tasks and sockets of the links ([Wires]). *)
From Stdlib Require Import ZArith Lia.
From Stdlib Require Import Strings.Byte.
From stdpp Require Import base numbers list option fin_maps gmap.
From S2P Require Import Prelude Runtime Frames Reorder Tunnel Net.
From S2P Require Import Socks5 Wire PoolSends Wires Reassembler.
From S2P Require Import EgressWriter ReassemblerStream Splitter TunnelTask LinkTask.
From S2P Require Import ClientConn SplitterStream SplitterNode.
Local Open Scope Z_scope.

(** ** [read_from_egress] with its sends *)
Inductive egress_event : Type :=
| RvArrive (b : bytes)     (** bytes of the target arrive at the socket *)
| RvRead (n : nat)         (** [rd.read] returned [n] bytes, or all there are *)
| RvEof (err : bool)       (** it returned 0 or an error: the FIN is handed to [send_async] *)
| RvPass                   (** one pass of the loop of [send_async] *)
| RvTimeout                (** [data_send_timeout] expired *)
| RvCancel.                (** a [cancel.notified()] arm *)

Section node.
Context {T : Tokio} {D : DashIter} {B : BufMut}.

(** The local state and the target's socket: [e_target] is what it is connected to,
    [e_stream] what the target sent so far, [e_unread] what of it was not read yet.  [e_turns] and [e_sent]: the turns so far, and
    the frames the tunnels took. *)
Record Reader : Type := mkReader {
  e_task : EgressReader;
  e_target : SynTarget;
  e_stream : bytes;
  e_unread : bytes;
  e_sending : sending;
  e_turns : list reader_input;
  e_sent : list Frame;
}.

Definition reader_waits (sn : sending) (r : Reader) : Reader :=
  mkReader (e_task r) (e_target r) (e_stream r) (e_unread r) sn (e_turns r) (e_sent r).
Definition reader_socket (stream unread : bytes) (sn : sending) (r : Reader) : Reader :=
  mkReader (e_task r) (e_target r) stream unread sn (e_turns r) (e_sent r).

(** What a turn does to the shared state is one [XEvent]. *)
Definition reader_turn (e : reader_event) (now : Z) (r : Reader) (s : RState) : option (Reader * XEvent) :=
  if rd_done (e_task r) then None
  else
    Some (mkReader (reader_step e now (e_task r) s).1 (e_target r) (e_stream r) (e_unread r) NotSending
            (e_turns r ++ [(e, now, s)]) (e_sent r ++ reader_frames e (e_task r)),
          XR (EvReader (e_task r) e) now).

Definition reader_pass (f : Frame) (full : list nat) (wait : list nat -> sending)
    (sent : TunnelPool -> reader_event) (now : Z) (r : Reader) (s : RState) : option (Reader * XEvent) :=
  match send_async_pass f full (rpool s) with
  | (AsyncSent, p) => reader_turn (sent p) now r s
  | (AsyncAgain full', p) => Some (reader_waits (wait full') r, XPool p)
  | (AsyncSleep, p) => Some (reader_waits (wait []) r, XPool p)
  | (AsyncWaitAdded, p) => Some (reader_waits (wait full) r, XPool p)
  end.

(** [notify_one] was called on [cancel] of the connection. *)
Definition is_cancelled (t : EgressReader) (s : RState) : bool :=
  match vcs s !! rd_vc t with Some v => has_permit (cancel v) | None => false end.

Definition egress_read_step (e : egress_event) (now : Z) (r : Reader) (s : RState)
  : option (Reader * XEvent) :=
  let t := e_task r in
  match e, e_sending r with
  | RvArrive b, sn =>
    if rd_done t then None else Some (reader_socket (e_stream r ++ b) (e_unread r ++ b) sn r, XPool (rpool s))
  | RvRead n, NotSending =>
    let chunk := take n (e_unread r) in
    if decide (rd_done t = false /\ chunk <> [])
    then Some (reader_socket (e_stream r) (drop n (e_unread r)) (SendingChunk chunk []) r, XPool (rpool s))
    else None
  | RvEof err, NotSending =>
    if rd_done t || negb (err || bool_decide (e_unread r = [])) then None
    else Some (reader_waits (SendingFin []) r, XPool (rpool s))
  | RvPass, SendingChunk chunk full =>
    reader_pass (frame_data (rd_cid t) (rd_seq t) chunk) full (SendingChunk chunk)
      (RdChunk chunk RaceSent) now r s
  | RvPass, SendingFin full =>
    reader_pass (frame_fin (rd_cid t) (rd_seq t)) full SendingFin (RdEof RaceSent) now r s
  | RvTimeout, SendingChunk chunk _ => reader_turn (RdChunk chunk RaceTimeout (rpool s)) now r s
  | RvTimeout, SendingFin _ => reader_turn (RdEof RaceTimeout (rpool s)) now r s
  | RvCancel, sn =>
    if is_cancelled t s then
      reader_turn (match sn with
                   | NotSending => RdCancel
                   | SendingChunk chunk _ => RdChunk chunk RaceCancelled (rpool s)
                   | SendingFin _ => RdEof RaceCancelled (rpool s)
                   end) now r s
    else None
  | _, _ => None
  end.

(** ** The process *)
Context (lookup_host : bytes -> Z -> option IpAddr) (window_bytes : Z) (f64_exp : f64 -> f64).

(** The response reader of a UDP connection: its id, its next number, whether its loop ended,
    and what it received so far. *)
Record Responder : Type := mkResponder {
  q_cid : Z;
  q_seq : Z;
  q_done : bool;
  q_received : list (SocketAddr * bytes);
}.

Record RNode : Type := mkRNode {
  r_l : LState;
  r_w : gmap nat EgressWriter;
  r_readers : gmap nat Reader;
  r_udp : gmap nat Responder;
  r_wires : gmap nat Wire;
}.

Definition r_state (n : RNode) : RState := l_state (r_l n).
Definition r_arcs (n : RNode) : gmap nat TunnelLink := arcs (rpool (r_state n)).
Definition r_x (n : RNode) : XState := mkXState (r_state n) (r_w n).
Definition with_readers (rs : gmap nat Reader) (n : RNode) : RNode :=
  mkRNode (r_l n) (r_w n) rs (r_udp n) (r_wires n).
Definition with_responders (us : gmap nat Responder) (n : RNode) : RNode :=
  mkRNode (r_l n) (r_w n) (r_readers n) us (r_wires n).
Definition with_rwires (ws : gmap nat Wire) (n : RNode) : RNode :=
  mkRNode (r_l n) (r_w n) (r_readers n) (r_udp n) ws.

(** The tunnels' tasks see what a step did to the links. *)
Definition rnode_put (x : LState) (ws : gmap nat EgressWriter) (n : RNode) : RNode :=
  mkRNode x ws (r_readers n) (r_udp n) (sync_wires (arcs (rpool (l_state x))) (r_wires n)).

Definition rnode_do (e : XEvent) (n : RNode) : option RNode :=
  match xstep lookup_host window_bytes e (r_x n) with
  | Some x => Some (rnode_put (with_state (xs x) (r_l n)) (xw x) n)
  | None => None
  end.

(** The tasks a SYN handler spawns once its connection is installed. *)
Definition spawn (e : link_event) (s s' : RState) (n : RNode) : RNode :=
  match e with
  | LvResume _ _ (EvConnected k i _) _ _ =>
    match tasks s !! k, vcs s' !! i with
    | Some (TaskConnect cid st), Some _ =>
      with_readers (<[i := mkReader (egress_reader_init cid i) st [] [] NotSending [] []]> (r_readers n)) n
    | _, _ => n
    end
  | LvResume _ _ (EvUdpBound k i _) _ _ =>
    match tasks s !! k, vcs s' !! i with
    | Some (TaskUdpBind cid), Some _ => with_responders (<[i := mkResponder cid 1 false []]> (r_udp n)) n
    | _, _ => n
    end
  | _ => n
  end.

(** New identifiers are new; frames are decoded ones; what a link lost is taken after its
    drain task returned; the other events are those of the readers and of [RnOther]. *)
Definition link_allowed (n : RNode) (e : link_event) : Prop :=
  match e with
  | LvFrame _ f _ _ _ => frame_typed f
  | LvResume _ _ (EvConnected _ i _) _ _ => r_readers n !! i = None
  | LvResume _ _ (EvUdpBound _ i _) _ _ => r_udp n !! i = None
  | LvDrained i => match r_wires n !! i with Some w => returned (d_phase (wi_drain w)) = true | None => False end
  | LvOther _ _ => False
  | _ => True
  end.
#[global] Instance link_allowed_dec n e : Decision (link_allowed n e).
Proof. destruct e as [| | |? ? [] ? ?| | |i|]; cbn; try apply _. destruct (r_wires n !! i); apply _. Defined.

Definition rnode_link (e : link_event) (n : RNode) : option RNode :=
  if decide (link_allowed n e) then
    match link_step lookup_host window_bytes e (r_l n) with
    | Some x => Some (rnode_put x (r_w n) (spawn e (r_state n) (l_state x) n))
    | None => None
    end
  else None.

Inductive rnode_event : Type :=
| RnLink (e : link_event)
| RnReader (i : nat) (e : egress_event) (now : Z)
| RnDatagram (i : nat) (src : SocketAddr) (data : bytes) (now : Z)
| RnResponderEnd (i : nat)              (** [cancel.notified()], or an error of [recv_from] *)
| RnDrain (i : nat) (e : drain_event)
| RnOther (e : XEvent).                 (** fallback timers, heartbeat, writer tasks *)

Definition other_xevent (e : XEvent) : bool :=
  match e with XR (EvFallback _) _ | XR (EvHeartbeat _) _ | XW _ _ => true | _ => false end.

(** The response reader after a datagram. *)
Definition respond (src : SocketAddr) (data : bytes) (now : Z) (q : Responder) (s : RState) : Responder :=
  mkResponder (q_cid q) (udp_response (q_cid q) (q_seq q) src data now s).1 false (q_received q ++ [(src, data)]).

Definition rnode_step (e : rnode_event) (n : RNode) : option RNode :=
  let s := r_state n in
  match e with
  | RnLink e => rnode_link e n
  | RnReader i ev now =>
    match r_readers n !! i with
    | Some r =>
      match egress_read_step ev now r s with
      | Some (r', xe) => rnode_do xe (with_readers (<[i := r']> (r_readers n)) n)
      | None => None
      end
    | None => None
    end
  | RnDatagram i src data now =>
    match r_udp n !! i with
    | Some q =>
      if q_done q then None
      else
        rnode_do (XR (EvUdpResponse (q_cid q) (q_seq q) src data) now)
          (with_responders (<[i := respond src data now q s]> (r_udp n)) n)
    | None => None
    end
  | RnResponderEnd i =>
    match r_udp n !! i with
    | Some q => Some (with_responders (<[i := mkResponder (q_cid q) (q_seq q) true (q_received q)]> (r_udp n)) n)
    | None => None
    end
  | RnDrain i ev =>
    match drain_at f64_exp i ev (r_arcs n) (r_wires n) with
    | Some (a, ws) =>
      let s' := with_rpool (mkTunnelPool a (links (rpool s)) (rr (rpool s))) s in
      Some (mkRNode (with_state s' (r_l n)) (r_w n) (r_readers n) (r_udp n) ws)
    | None => None
    end
  | RnOther xe => if other_xevent xe then rnode_do xe n else None
  end.

Fixpoint rnode_run (es : list rnode_event) (n : RNode) : option RNode :=
  match es with
  | [] => Some n
  | e :: es' => match rnode_step e n with Some n' => rnode_run es' n' | None => None end
  end.

Definition rnode_start : RNode := mkRNode links_start ∅ ∅ ∅ ∅.
End node.
