(* ===== verification/ReassemblerNodeFacts.v ===== *)
(** * What leaves the reassembler, and what it does with what arrives

    In any run of the reassembler process, every DATA and FIN frame of a connection that
    ever got into a tunnel was sent by the reader of that connection; and the process adds
    nothing to the steps of [ReassemblerStream]: its state is one that [xrun] reaches with
    the frames the tunnels gave. *)
From Stdlib Require Import ZArith Lia.
From Stdlib Require Import Strings.Byte.
From stdpp Require Import base numbers list option fin_maps gmap.
From S2P Require Import Prelude Runtime Frames Reorder Tunnel Net.
From S2P Require Import Socks5 Wire PoolSends Wires Reassembler.
From S2P Require Import EgressWriter ReassemblerStream ReassemblerSends.
From S2P Require Import Splitter SplitterTcp TunnelTask LinkTask LinkFacts ClientConn ClientFacts.
From S2P Require Import SplitterStream SplitterNode SplitterNodeFacts ReassemblerNode.
Local Open Scope Z_scope.

Section rnode_facts.
Context {T : Tokio} {TL : TokioLaws T} {D : DashIter} {DL : DashIterLaws D} {B : BufMut} {BL : BufMutLaws B}.
Context (lookup_host : bytes -> Z -> option IpAddr) (window_bytes : Z) (f64_exp : f64 -> f64).

(** ** Readers *)

(** A reader is what its turns made of it, and its turns read what the target sent, in order. *)
Record reader_ok (i : nat) (r : Reader) : Prop := {
  ro_cid : is_u32 (rd_cid (e_task r));
  ro_seq : 0 <= rd_seq (e_task r) < 2 ^ 64;
  ro_run : reader_run (e_turns r) (egress_reader_init (rd_cid (e_task r)) i) = Some (e_task r, e_sent r);
  ro_socket : e_stream r = concat (omap resp_read (e_turns r)) ++ in_flight (e_sending r) ++ e_unread r;
}.

Definition reader_grows (r r' : Reader) : Prop :=
  rd_cid (e_task r') = rd_cid (e_task r) /\ e_target r' = e_target r /\ e_sent r `prefix_of` e_sent r'.

#[export] Instance reader_grows_preorder : PreOrder reader_grows.
Proof.
  split; [by intros r|]. intros r1 r2 r3 (A1 & A2 & A3) (B1 & B2 & B3). split_and!; [congruence..|by etrans].
Qed.

Lemma reader_run_snoc es x t :
  reader_run (es ++ [x]) t =
    match reader_run es t with
    | Some (t1, fs) =>
      if rd_done t1 then None else Some ((reader_step x.1.1 x.1.2 t1 x.2).1, fs ++ reader_frames x.1.1 t1)
    | None => None
    end.
Proof.
  revert t. induction es as [|[[e now] s] es IH]; intros t; cbn [app reader_run].
  - destruct x as [[e now] s]. cbn. destruct (rd_done t); [done|]. by rewrite app_nil_r.
  - destruct (rd_done t); [done|]. rewrite IH. destruct (reader_run es _) as [[t1 fs]|]; [|done].
    destruct (rd_done t1); [done|]. by rewrite app_assoc.
Qed.

Lemma reader_step_keeps e now t s :
  let t' := (reader_step e now t s).1 in
  rd_cid t' = rd_cid t /\ (0 <= rd_seq t < 2 ^ 64 -> 0 <= rd_seq t' < 2 ^ 64).
Proof. destruct e as [|c [| |] p|[| |] p]; cbn; split; try done. intros _. by apply wrap_range. Qed.

(** What a turn reads is what was in flight. *)
Definition reader_reads (e : reader_event) (r : Reader) : Prop :=
  match e with RdChunk c _ _ => in_flight (e_sending r) = c | _ => in_flight (e_sending r) = [] end.

Lemma reader_turn_ok i e now r s r' xe :
  reader_ok i r -> reader_reads e r -> reader_turn e now r s = Some (r', xe) ->
  reader_ok i r' /\ reader_grows r r' /\ xe = XR (EvReader (e_task r) e) now /\
  e_sent r' = e_sent r ++ reader_frames e (e_task r).
Proof.
  intros [Hc Hq Hr Hk] Hf Hs. unfold reader_turn in Hs. destruct (rd_done (e_task r)) eqn:Hd; [done|].
  injection Hs as <- <-. destruct (reader_step_keeps e now (e_task r) s) as [E Hseq].
  split_and!; [|split_and!; [exact E|done|by eexists]|done|done].
  split; cbn [e_task e_turns e_sent e_stream e_unread e_sending in_flight]; [by rewrite E|auto| |].
  - by rewrite E, (reader_run_snoc (e_turns r) (e, now, s)), Hr, Hd.
  - rewrite Hk, omap_app, concat_app, <- app_assoc. f_equal. unfold reader_reads in Hf.
    cbn. destruct e; cbn; by rewrite Hf, ?app_nil_r.
Qed.

Lemma reader_socket_ok (Q : Prop) i r b unread sn :
  reader_ok i r -> in_flight sn ++ unread = in_flight (e_sending r) ++ e_unread r ++ b -> Q ->
  reader_ok i (reader_socket (e_stream r ++ b) unread sn r) /\
  reader_grows r (reader_socket (e_stream r ++ b) unread sn r) /\ Q.
Proof.
  intros [H1 H2 H3 H4] E HQ. split; [|by split; [split_and!|]]. split; cbn; [done..|]. by rewrite H4, E, <- !app_assoc.
Qed.

Lemma reader_waits_ok (Q : Prop) i r sn :
  reader_ok i r -> in_flight sn = in_flight (e_sending r) -> Q ->
  reader_ok i (reader_waits sn r) /\ reader_grows r (reader_waits sn r) /\ Q.
Proof. intros [H1 H2 H3 H4] E HQ. split; [|by split; [split_and!|]]. split; cbn; by rewrite ?E. Qed.

(** What an event has to satisfy for the links to get only frames with [P]. *)
Definition xevent_sends (P : Frame -> Prop) (s : RState) (e : XEvent) : Prop :=
  match e with
  | XR (EvReader t e) _ => is_u32 (rd_cid t) /\ reader_pool P e (rpool s)
  | XR (EvUdpResponse c sq src data) _ => forall dgram,
      encode_udp_datagram (mkTargetAddr (normalize_ip (sa_ip src)) (sa_port src)) data = Ok dgram ->
      P (frame_data c sq dgram)
  | XR (EvFallback _) _ | XR (EvHeartbeat _) _ | XW _ _ => True
  | XPool p => pool_gets P (rpool s) p
  | _ => False
  end.

Lemma reader_pass_ok (P : Frame -> Prop) f full wait sent now i r s r' xe :
  reader_ok i r -> frame_typed f -> (forall p, reader_reads (sent p) r) ->
  (forall l, in_flight (wait l) = in_flight (e_sending r)) ->
  (forall p, reader_pool P (sent p) (rpool s) = pool_gets P (rpool s) p) ->
  (forall p, reader_frames (sent p) (e_task r) = [f]) ->
  (forall f, frame_typed f -> f ∈ e_sent r' -> P f) ->
  reader_pass f full wait sent now r s = Some (r', xe) ->
  reader_ok i r' /\ reader_grows r r' /\ xevent_sends P s xe.
Proof.
  intros HI Hf Hrd Hw Ht Hsent HP Hs. unfold reader_pass in Hs.
  pose proof (send_async_pass_keeps P f full (rpool s)) as K.
  pose proof (send_async_pass_gets P f full (rpool s)) as G.
  destruct (send_async_pass f full (rpool s)) as [[|full'| |] p]; cbn [fst snd] in K, G.
  - apply (reader_turn_ok i) in Hs as (H1 & H2 & -> & H3); [|done|apply Hrd]. split_and!; [done|done|].
    split; [apply HI|]. rewrite Ht. apply G, HP; [done|]. rewrite H3, Hsent. apply elem_of_app. right.
    by apply list_elem_of_singleton.
  - injection Hs as <- <-. apply reader_waits_ok; [done|apply Hw|]. by apply K.
  - injection Hs as <- <-. apply reader_waits_ok; [done|apply Hw|]. by apply K.
  - injection Hs as <- <-. apply reader_waits_ok; [done|apply Hw|]. by apply K.
Qed.

Lemma egress_read_ok (P : Frame -> Prop) e now i r s r' xe :
  reader_ok i r -> (forall f, frame_typed f -> f ∈ e_sent r' -> P f) ->
  egress_read_step e now r s = Some (r', xe) ->
  reader_ok i r' /\ reader_grows r r' /\ xevent_sends P s xe.
Proof.
  intros HI HP Hs. pose proof (ro_seq _ _ HI) as Hseq. pose proof (ro_cid _ _ HI) as Hc.
  assert (pool_gets P (rpool s) (rpool s)) as Hrefl by reflexivity.
  assert (forall e, reader_reads e r -> reader_pool P e (rpool s) -> reader_turn e now r s = Some (r', xe) ->
    reader_ok i r' /\ reader_grows r r' /\ xevent_sends P s xe) as Hturn.
  { intros e0 Hrd Hp Ht. apply (reader_turn_ok i) in Ht as (H1 & H2 & -> & _); [|done|done]. by split_and!. }
  unfold egress_read_step in Hs. destruct e as [b|n|err| | |].
  - destruct (rd_done _); [done|]. injection Hs as <- <-. by apply reader_socket_ok.
  - destruct (e_sending r) eqn:Es; try done. case_decide; [|done]. injection Hs as <- <-.
    rewrite <- (app_nil_r (e_stream r)). apply reader_socket_ok; [done| |done].
    by rewrite Es, app_nil_r; cbn; rewrite take_drop.
  - destruct (e_sending r) eqn:Es; try done. destruct (_ || _); [done|]. injection Hs as <- <-.
    apply reader_waits_ok; [done|by rewrite Es|done].
  - destruct (e_sending r) as [|chunk full|full] eqn:Es; try done; pose proof (f_equal in_flight Es) as Ef;
      (eapply (reader_pass_ok P); [exact HI| | | | | | |exact Hs]);
      [by split|by intros p|by intros l|done|done|done|by split|by intros p|by intros l|done|done|done].
  - destruct (e_sending r) as [|chunk full|full] eqn:Es; try done; pose proof (f_equal in_flight Es) as Ef;
      (eapply Hturn; [| |exact Hs]; [exact Ef|exact Hrefl]).
  - destruct (is_cancelled _ _); [|done]. eapply Hturn; [| |exact Hs]; unfold reader_reads; by destruct (e_sending r).
Qed.

(** ** The shared state *)
Lemma xstep_sends (P : Frame -> Prop) e x x' :
  allows_resets P -> r_typed (xs x) -> xevent_sends P (xs x) e -> xstep lookup_host window_bytes e x = Some x' ->
  r_typed (xs x') /\ pool_gets P (rpool (xs x)) (rpool (xs x')) /\ keeps (xs x) (xs x').
Proof.
  intros PR Ht He Hs. destruct e as [e now|i we|p]; cbn [xstep] in Hs.
  - assert (sends P (xs x) (xs x') /\ keeps (xs x) (xs x')) as [H K]; [|destruct (H Ht); done].
    destruct (rstep lookup_host window_bytes e now (xs x)) as [s|] eqn:Es; [|done]. injection Hs as <-. cbn [xs].
    assert (is_other e = true -> keeps (xs x) s) as Hk by (intros; by eapply keeps_other).
    destruct e; cbn [xevent_sends] in He; try done; (split; [|by apply Hk]); cbn in Es.
    + case_decide; [|done]. injection Es as <-. apply sends_upd.
    + destruct (rd_done t); [done|]. injection Es as <-. destruct He. by apply sends_reader.
    + injection Es as <-. by apply sends_udp_response.
    + injection Es as <-. by apply sends_heartbeat.
  - destruct (vcs (xs x) !! i) as [v|]; [|done]. destruct (writer_step _ _ v) as [[w' v']|]; [|done].
    injection Hs as <-. cbn [xs]. destruct (sends_upd P (fun _ => v') i (xs x) Ht) as [H1 H2]. split_and!; [done|done|by split].
  - injection Hs as <-. cbn [xs]. destruct (sends_pool P p (xs x) He Ht) as [H1 H2]. split_and!; [done|done|by split].
Qed.

Lemma rstep_resumes_sends (P : Frame -> Prop) e n now s s' :
  allows_resets P -> resumes e = Some n -> rstep lookup_host window_bytes e now s = Some s' -> sends P s s'.
Proof.
  intros PR He Hs Ht. destruct e; try done; cbn in He; injection He as ->; cbn in Hs; (case_decide; [|done]);
    unfold resume in Hs; destruct (tasks s !! n) as [[c|c t]|] eqn:Et; try done; injection Hs as <-;
    pose proof (rt_tasks _ Ht n _ Et) as Hc; cbn in Hc; revert Ht;
    match goal with |- r_typed s -> r_typed ?s' /\ _ => change (sends P s s') end.
  - etrans; [apply (sends_untask P n)|by apply sends_syn_udp].
  - etrans; [apply (sends_untask P n)|by apply sends_connected].
Qed.

Lemma rlink_gets P g i s :
  (forall l, link_gets P l (g l)) -> pool_gets P (rpool s) (rpool (on_rlink g i s)).
Proof.
  intros Hg j. cbn. destruct (decide (j = i)) as [->|Hj].
  - rewrite lookup_alter_eq. destruct (arcs (rpool s) !! i); by constructor.
  - rewrite lookup_alter_ne by done. destruct (arcs (rpool s) !! j); by constructor.
Qed.

Lemma rlink_sends P g i s : (forall l, link_gets P l (g l)) -> sends P s (on_rlink g i s).
Proof. intros Hg. by apply sends_pool, rlink_gets. Qed.

(** The links, before and after a step of a link task; what a dead link lost is taken. *)
Definition taken_arcs (e : link_event) (a : gmap nat TunnelLink) : gmap nat TunnelLink :=
  match e with LvDrained i => alter (set_lost_frames []) i a | _ => a end.

Lemma conj3 {P Q R : Prop} : P /\ Q -> R -> P /\ Q /\ R.
Proof. tauto. Qed.

Lemma sends_arcs P s s' :
  sends P s s' -> r_typed s -> r_typed s' /\ arcs_step P (arcs (rpool s)) (arcs (rpool s')).
Proof. intros H Ht. destruct (H Ht). split; [done|by apply arcs_step_gets]. Qed.

Lemma link_sends (P : Frame -> Prop) e x x' :
  allows_resets P -> r_typed (l_state x) -> (forall n f, l_queued x !! n = Some f -> frame_typed f) ->
  (forall i f n now ms, e = LvFrame i f n now ms -> frame_typed f) ->
  (forall i l, e = LvDrained i -> arcs (rpool (l_state x)) !! i = Some l ->
     Forall (fun f => is_u32 (conn_id f) /\ P f) (lost_frames l)) ->
  (forall e' now, e <> LvOther e' now) ->
  link_step lookup_host window_bytes e x = Some x' ->
  r_typed (l_state x') /\
  arcs_step P (taken_arcs e (arcs (rpool (l_state x)))) (arcs (rpool (l_state x'))) /\
  (forall n f, l_queued x' !! n = Some f -> frame_typed f).
Proof.
  intros PR Ht Hq Hf Hl Ho Hs.
  assert (forall s', sends P (l_state x) s' -> r_typed s' /\ arcs_step P (arcs (rpool (l_state x))) (arcs (rpool s'))) as Hsends
    by (intros s' H; by apply sends_arcs).
  destruct e as [i now_ms|i f n now now_ms|n now|who n e now now_ms|i|i|i|e now];
    cbn [taken_arcs]; cbn [link_step] in Hs; [..|by destruct (Ho e now)]; clear Ho.
  - case_decide as Hi; [|done]. injection Hs as <-. unfold link_accept, accept_tunnel.
    destruct (_ >=? _); cbn; [split_and!; [done|by apply arcs_step_gets|done]|].
    split_and!; [by destruct Ht|by apply arcs_step_add, new_link_fresh|done].
  - destruct (l_readers x !! i) as [[|m g|]|]; try done. case_decide as Hn; [|done].
    specialize (Hf _ _ _ _ _ eq_refl). injection Hs as <-. unfold link_frame. destruct (dispatch_frame _ _) as [[] permits].
    + apply conj3; [apply Hsends, rlink_sends; intros l; by apply link_gets_same|].
      cbn. intros m g [[_ <-]|[_ Hm]]%lookup_insert_Some; [done|by eapply Hq].
    + assert (sends P (l_state x) (handle_frame lookup_host f n now (l_state x))) as H1
        by (apply sends_handle_frame; [done|by destruct Hf]).
      cbn [l_state with_state]. case_decide; (apply conj3; [apply Hsends|done]); [exact H1|].
      etrans; [exact H1|]. apply rlink_sends. intros l. by apply link_gets_same.
  - destruct (l_queued x !! n) as [f|] eqn:Hfq; [|done]. injection Hs as <-. unfold link_run_spawned.
    pose proof (Hq n f Hfq) as Hft. assert (sends P (l_state x) (handle_frame lookup_host f n now (l_state x))) as H1
      by (apply sends_handle_frame; [done|by destruct Hft]).
    case_decide; (apply conj3; [by apply Hsends|]); cbn; intros m g [_ Hm]%lookup_delete_Some; by eapply Hq.
  - case_decide as Hr; [|done]. destruct (rstep lookup_host window_bytes e now (l_state x)) as [s1|] eqn:Er; [|done].
    pose proof (rstep_resumes_sends P e n now _ _ PR Hr Er) as H1. destruct who as [i|].
    + destruct (l_readers x !! i) as [[|m f|]|]; try done. case_decide; [|done]. injection Hs as <-.
      apply conj3; [apply Hsends|done]. etrans; [exact H1|]. apply rlink_sends. intros l. by apply link_gets_same.
    + case_decide; [|done]. injection Hs as <-. apply conj3; [by apply Hsends|done].
  - destruct (l_readers x !! i) as [[|m f|]|]; try done. injection Hs as <-. apply conj3; [apply Hsends, rlink_sends; intros l; by apply link_gets_same|done].
  - destruct (l_readers x !! i) as [[|m f|]|]; try done. destruct (arcs _ !! i) as [l0|]; [|done].
    destruct (has_permit _); [|done]. injection Hs as <-. apply conj3; [apply Hsends, rlink_sends; intros l; by apply link_gets_same|done].
  - case_decide; [|done]. destruct (arcs _ !! i) as [l|] eqn:Hi; [|done]. injection Hs as <-. unfold link_drained.
    cbn [l_state l_queued]. apply conj3; [|done]. apply (sends_arcs P (on_rlink (set_lost_frames []) i (l_state x))).
    + apply sends_lost; [done|by eapply Hl].
    + by destruct Ht.
Qed.

(** ** The process *)
Definition responder_ok (q : Responder) : Prop := is_u32 (q_cid q) /\ 0 <= q_seq q < 2 ^ 64.

(** DATA and FIN of a reader or of a UDP connection. *)
(** A frame that carries a datagram [q] received. *)
Definition responder_frame (q : Responder) (f : Frame) : Prop :=
  exists sq src data dgram, (src, data) ∈ q_received q /\
    encode_udp_datagram (mkTargetAddr (normalize_ip (sa_ip src)) (sa_port src)) data = Ok dgram /\
    f = frame_data (q_cid q) sq dgram.

Record responder_grows (q q' : Responder) : Prop := {
  qg_cid : q_cid q' = q_cid q;
  qg_received : q_received q `prefix_of` q_received q';
}.

#[export] Instance responder_grows_preorder : PreOrder responder_grows.
Proof. split; [intros q; by split|]. intros q1 q2 q3 [A1 A2] [B1 B2]. split; [congruence|by etrans]. Qed.

Lemma responder_grows_frame q q' f : responder_grows q q' -> responder_frame q f -> responder_frame q' f.
Proof.
  intros [E [rest Hp]] (sq & src & data & dgram & Hin & He & ->). exists sq, src, data, dgram.
  split_and!; [rewrite Hp; apply elem_of_app; by left|done|by rewrite E].
Qed.

Definition r_owned (rs : gmap nat Reader) (us : gmap nat Responder) (f : Frame) : Prop :=
  (exists i r, rs !! i = Some r /\ f ∈ e_sent r) \/ (exists i q, us !! i = Some q /\ responder_frame q f).

Definition rnode_emits (n : RNode) : Frame -> Prop := vouched (r_owned (r_readers n) (r_udp n)).

(** The shared state and the links. *)
Record r_parts_ok (n : RNode) : Prop := {
  rp_link : link_inv (r_l n);
  rp_typed : r_typed (r_state n);
  rp_queued k f : l_queued (r_l n) !! k = Some f -> frame_typed f;
}.

(** The tasks of the connections. *)
Record r_tasks_ok (n : RNode) : Prop := {
  rt_readers : map_Forall reader_ok (r_readers n);
  rt_udp : map_Forall (fun _ => responder_ok) (r_udp n);
}.

Record rnode_inv (n : RNode) : Prop := {
  rv_parts : r_parts_ok n;
  rv_tasks : r_tasks_ok n;
  rv_wires : wires_ok (rnode_emits n) (r_arcs n) (r_wires n);
}.

Record r_grows (n n' : RNode) : Prop := {
  rg_readers i r : r_readers n !! i = Some r -> exists r', r_readers n' !! i = Some r' /\ reader_grows r r';
  rg_udp i x : r_udp n !! i = Some x -> exists x', r_udp n' !! i = Some x' /\ responder_grows x x';
}.

#[export] Instance r_grows_preorder : PreOrder r_grows.
Proof.
  split.
  - intros n. split; [intros i r Hi; exists r; by split|intros i x Hi; by exists x].
  - intros n1 n2 n3 [A1 A2] [B1 B2]. split.
    + intros i r Hi. destruct (A1 i r Hi) as (r2 & Hi2 & G1). destruct (B1 i r2 Hi2) as (r3 & Hi3 & G2).
      exists r3. split; [done|by etrans].
    + intros i x Hi. destruct (A2 i x Hi) as (x2 & Hi2 & G1). destruct (B2 i x2 Hi2) as (x3 & Hi3 & G2).
      exists x3. split; [done|by etrans].
Qed.

Lemma r_grows_same n n' : r_readers n' = r_readers n -> r_udp n' = r_udp n -> r_grows n n'.
Proof. intros E1 E2. split; rewrite ?E1, ?E2; [intros i r Hi; exists r; by split|intros i x Hi; by exists x]. Qed.

Lemma r_grows_emits n n' f : r_grows n n' -> rnode_emits n f -> rnode_emits n' f.
Proof.
  intros [G1 G2]. apply vouched_mono. intros [(i & r & Hi & Hs)|(i & x & Hi & Hs)].
  - left. destruct (G1 i r Hi) as (r' & Hi' & E & _ & [rest Hp]). exists i, r'. split; [done|].
    rewrite Hp. apply elem_of_app. by left.
  - right. destruct (G2 i x Hi) as (x' & Hi' & G). exists i, x'. split; [done|by eapply responder_grows_frame].
Qed.

Lemma r_grows_reader i r n :
  (forall r0, r_readers n !! i = Some r0 -> reader_grows r0 r) ->
  r_grows n (with_readers (<[i := r]> (r_readers n)) n).
Proof.
  intros Hg. split; cbn; [|intros j x Hj; by exists x]. intros j r0 Hj. destruct (decide (j = i)) as [->|Hne].
  - rewrite lookup_insert_eq. exists r. auto.
  - rewrite lookup_insert_ne by done. exists r0. by split.
Qed.

Lemma r_grows_responder i x n :
  (forall x0, r_udp n !! i = Some x0 -> responder_grows x0 x) -> r_grows n (with_responders (<[i := x]> (r_udp n)) n).
Proof.
  intros Hg. split; cbn; [intros j r0 Hj; exists r0; by split|]. intros j x0 Hj. destruct (decide (j = i)) as [->|Hne].
  - rewrite lookup_insert_eq. exists x. auto.
  - rewrite lookup_insert_ne by done. by exists x0.
Qed.

(** After a step of the shared state, with the records of the tasks of [n1]. *)
Lemma rnode_put_inv x ws n n1 a :
  rnode_inv n -> wires_ok (rnode_emits n) a (r_wires n) -> r_grows n n1 -> r_tasks_ok n1 ->
  r_wires n1 = r_wires n -> link_inv x -> r_typed (l_state x) ->
  (forall k f, l_queued x !! k = Some f -> frame_typed f) ->
  arcs_step (rnode_emits n1) a (arcs (rpool (l_state x))) ->
  rnode_inv (rnode_put x ws n1) /\ r_grows n (rnode_put x ws n1).
Proof.
  intros HI HW HG [Ht1 Ht2] Ew HL Ht Hq Ha. split; [|etrans; [exact HG|by apply r_grows_same]].
  split; [by split|by split|]. unfold rnode_put, r_arcs. cbn [r_l r_wires r_state].
  change (wires_ok (rnode_emits n1) (arcs (rpool (l_state x))) (sync_wires (arcs (rpool (l_state x))) (r_wires n1))).
  rewrite Ew. eapply wires_sync_ok; [apply vouched_typed| |exact Ha].
  eapply wires_ok_mono; [|exact HW]. intros f Hf. by eapply r_grows_emits.
Qed.

Lemma rnode_do_inv e n n1 n' :
  rnode_inv n -> r_l n1 = r_l n -> r_w n1 = r_w n -> r_wires n1 = r_wires n -> r_grows n n1 -> r_tasks_ok n1 ->
  xevent_sends (rnode_emits n1) (r_state n) e -> rnode_do lookup_host window_bytes e n1 = Some n' ->
  rnode_inv n' /\ r_grows n n'.
Proof.
  intros HI El Ew Ewi HG HT He Hs. unfold rnode_do, r_x, r_state in Hs. rewrite El, Ew in Hs.
  destruct (xstep _ _ e _) as [x|] eqn:Ex; [|done]. injection Hs as <-.
  pose proof (rv_parts _ HI) as [HL Ht Hq].
  destruct (xstep_sends (rnode_emits n1) e (mkXState (r_state n) (r_w n)) x) as (H1 & H2 & H3);
    [apply vouched_resets|done|done|done|]. cbn [xs] in H2, H3.
  eapply (rnode_put_inv _ (xw x) n n1 (r_arcs n)); try done.
  - apply HI.
  - by apply link_inv_state.
  - by apply arcs_step_gets.
Qed.

(** The tasks that start own no frame yet. *)
Lemma spawn_ok e s' n :
  r_tasks_ok n -> r_typed (r_state n) -> link_allowed n e ->
  let n1 := spawn e (r_state n) s' n in r_tasks_ok n1 /\ r_grows n n1 /\ r_wires n1 = r_wires n.
Proof.
  intros HT Ht Ha. assert (r_tasks_ok n /\ r_grows n n /\ r_wires n = r_wires n) as Hsame by (by split_and!).
  destruct e as [| | |who k [|k' i b|k' i o| | | | | |] now now_ms| | | |]; cbn in Ha |- *; try exact Hsame;
    destruct (tasks (r_state n) !! k') as [[c|c t]|] eqn:Et; try exact Hsame;
    (destruct (vcs s' !! i); [|exact Hsame]); pose proof (rt_tasks _ Ht k' _ Et) as Hc; cbn in Hc;
    destruct HT as [HT1 HT2]; (split; [|split; [|done]]).
  - split; [done|]. apply map_Forall_insert_2; [|done]. split; [exact Hc|cbn; lia].
  - apply r_grows_responder. intros x0 H. congruence.
  - split; [|done]. apply map_Forall_insert_2; [|done]. split; cbn; [exact Hc|lia|reflexivity|reflexivity].
  - apply r_grows_reader. intros r0 H. congruence.
Qed.

Lemma rnode_lost_ok n i l :
  rnode_inv n -> r_arcs n !! i = Some l ->
  Forall (fun f => is_u32 (conn_id f) /\ rnode_emits n f) (lost_frames l).
Proof.
  intros HI Hl. pose proof (rv_wires _ HI i) as HW. rewrite Hl in HW. inversion HW as [? w [_ _ Hlost _]|]. subst.
  eapply Forall_impl; [exact Hlost|]. intros f Hf. split; [by eapply vouched_u32|done].
Qed.

Lemma rnode_link_inv e n n' :
  rnode_inv n -> rnode_link lookup_host window_bytes e n = Some n' -> rnode_inv n' /\ r_grows n n'.
Proof.
  intros HI Hs. unfold rnode_link in Hs. case_decide as Ha; [|done].
  destruct (link_step _ _ e (r_l n)) as [x|] eqn:Ex; [|done]. injection Hs as <-.
  pose proof (rv_parts _ HI) as [HL Ht Hq].
  destruct (spawn_ok e (l_state x) n (rv_tasks _ HI) Ht Ha) as (HT & HG & Ew).
  set (n1 := spawn e (r_state n) (l_state x) n) in *.
  destruct (link_sends (rnode_emits n1) e (r_l n) x) as (H1 & H2 & H3); [apply vouched_resets|done|done| | | |exact Ex|].
  - intros i f k now ms ->. exact Ha.
  - intros i l -> Hl. eapply Forall_impl; [by apply (rnode_lost_ok n i l HI)|].
    intros f [Hc Hf]. split; [done|by eapply r_grows_emits].
  - intros e' now ->. exact Ha.
  - eapply (rnode_put_inv x (r_w n) n n1 (taken_arcs e (r_arcs n))); try done.
    + pose proof (rv_wires _ HI) as HW. destruct e as [| | | | | |i|]; try exact HW. cbn [taken_arcs].
      cbn in Ha, Ex. destruct (r_wires n !! i) as [w|] eqn:Hw; [|done].
      pose proof (HW i) as Hi. rewrite Hw in Hi. inversion Hi as [l ? ? El|]. subst. symmetry in El.
      rewrite (alter_as_insert _ i l) by done. apply wires_ok_taken; [done|done|]. intros w0 E. congruence.
    + by eapply link_step_inv.
Qed.

Lemma rnode_reader_inv i e now n n' :
  rnode_inv n -> rnode_step lookup_host window_bytes f64_exp (RnReader i e now) n = Some n' ->
  rnode_inv n' /\ r_grows n n'.
Proof.
  intros HI Hs. cbn [rnode_step] in Hs. destruct (r_readers n !! i) as [r|] eqn:Hr; [|done].
  destruct (egress_read_step e now r (r_state n)) as [[r' xe]|] eqn:Es; [|done].
  pose proof (rv_tasks _ HI) as [HT1 HT2]. set (n1 := with_readers (<[i := r']> (r_readers n)) n) in *.
  destruct (egress_read_ok (rnode_emits n1) e now i r (r_state n) r' xe) as (H1 & H2 & H3).
  - exact (HT1 i r Hr).
  - intros f Hf Hin. split; [done|]. intros _. left. exists i, r'. cbn. by rewrite lookup_insert_eq.
  - exact Es.
  - eapply (rnode_do_inv xe n n1); try done.
    + apply r_grows_reader. intros r0 E. rewrite Hr in E. by injection E as <-.
    + split; [by apply map_Forall_insert_2|done].
Qed.

Lemma udp_response_seq c sq src data now s :
  0 <= sq < 2 ^ 64 -> 0 <= (udp_response c sq src data now s).1 < 2 ^ 64.
Proof.
  intros H. unfold udp_response. destruct (encode_udp_datagram _ _); [|done]. destruct (_ >? _); [done|].
  destruct (send _ _) as [[] p]; [by apply wrap_range|done].
Qed.

Lemma rnode_datagram_inv i src data now n n' :
  rnode_inv n -> rnode_step lookup_host window_bytes f64_exp (RnDatagram i src data now) n = Some n' ->
  rnode_inv n' /\ r_grows n n'.
Proof.
  intros HI Hs. cbn [rnode_step] in Hs. destruct (r_udp n !! i) as [q|] eqn:Hu; [|done]. destruct (q_done q); [done|].
  pose proof (rv_tasks _ HI) as [HT1 HT2]. destruct (HT2 i q Hu) as [Hc Hq].
  eapply rnode_do_inv; [exact HI| | | | | | |exact Hs]; try done.
  - apply r_grows_responder. intros x0 E. rewrite Hu in E. injection E as <-. split; [done|by eexists].
  - split; [done|]. apply map_Forall_insert_2; [|done]. split; [done|by apply udp_response_seq].
  - intros dgram He. split; [by split|]. intros _. right. eexists i, _. cbn. rewrite lookup_insert_eq. split; [done|].
    exists (q_seq q), src, data, dgram. split_and!; [|done|done]. apply elem_of_app. right. by apply list_elem_of_singleton.
Qed.

Lemma rnode_responder_end_inv i n n' :
  rnode_inv n -> rnode_step lookup_host window_bytes f64_exp (RnResponderEnd i) n = Some n' ->
  rnode_inv n' /\ r_grows n n'.
Proof.
  intros HI Hs. cbn [rnode_step] in Hs. destruct (r_udp n !! i) as [q|] eqn:Hu; [|done]. injection Hs as <-.
  set (n1 := with_responders _ n). assert (r_grows n n1) as HG.
  { apply r_grows_responder. intros x0 E. rewrite Hu in E. by injection E as <-. }
  destruct HI as [[HL Ht Hq] [HT1 HT2] HW]. split; [|exact HG]. split; [by split| |].
  - split; [done|]. apply map_Forall_insert_2; [exact (HT2 i q Hu)|done].
  - eapply wires_ok_mono; [|exact HW]. intros f. by apply r_grows_emits.
Qed.

Lemma rnode_drain_inv i e n n' :
  rnode_inv n -> rnode_step lookup_host window_bytes f64_exp (RnDrain i e) n = Some n' ->
  rnode_inv n' /\ r_grows n n'.
Proof.
  intros [[HL Ht Hq] [HT1 HT2] HW] Hs. cbn [rnode_step] in Hs.
  destruct (drain_at f64_exp i e (r_arcs n) (r_wires n)) as [[a ws]|] eqn:Ed; [|done]. injection Hs as <-.
  split; [|by apply r_grows_same]. split.
  - split; cbn; [by apply link_inv_state|by destruct Ht|exact Hq].
  - by split.
  - exact (drain_at_ok f64_exp _ i e _ _ a ws HW Ed).
Qed.

Lemma other_xevent_sends P s e : other_xevent e = true -> xevent_sends P s e.
Proof. by destruct e as [[]| |]. Qed.

Lemma rnode_step_inv e n n' :
  rnode_inv n -> rnode_step lookup_host window_bytes f64_exp e n = Some n' -> rnode_inv n' /\ r_grows n n'.
Proof.
  intros HI Hs. destruct e as [e|i e now|i src data now|i|i e|xe].
  - by eapply rnode_link_inv.
  - by eapply rnode_reader_inv.
  - by eapply rnode_datagram_inv.
  - by eapply rnode_responder_end_inv.
  - by eapply rnode_drain_inv.
  - cbn [rnode_step] in Hs. destruct (other_xevent xe) eqn:Ho; [|done].
    eapply (rnode_do_inv xe n n); try done; [apply HI|by apply other_xevent_sends].
Qed.

Lemma rnode_start_inv : rnode_inv rnode_start.
Proof.
  split; [split|split|].
  - apply links_start_inv.
  - split; cbn; intros k x Hk; by rewrite lookup_empty in Hk.
  - intros k f Hk. cbn in Hk. by rewrite lookup_empty in Hk.
  - apply map_Forall_empty.
  - apply map_Forall_empty.
  - intros i. cbn. rewrite !lookup_empty. constructor.
Qed.

(** ** The process refines its shared state *)
Definition x_comes (P : Frame -> Prop) (F : nat -> Z -> Prop) (e : XEvent) : Prop :=
  match e with XR e now => comes_from P F (e, now) | _ => True end.

Definition x_simulated (P : Frame -> Prop) (F : nat -> Z -> Prop) (x x' : XState) : Prop :=
  exists es, xrun lookup_host window_bytes es x = Some x' /\ Forall (x_comes P F) es.

#[export] Instance x_simulated_preorder P F : PreOrder (x_simulated P F).
Proof.
  split; [intros x; by exists []|]. intros x1 x2 x3 (r1 & R1 & F1) (r2 & R2 & F2). exists (r1 ++ r2).
  split; [|by apply Forall_app]. clear F1. revert x1 R1.
  induction r1 as [|e r1 IH]; intros x1 R1; cbn in *; [by injection R1 as ->|].
  destruct (xstep _ _ e x1) as [x|]; [by apply IH|done].
Qed.

(** A run of the state alone leaves the writer tasks. *)
Lemma simulated_x P F s s' w :
  simulated lookup_host window_bytes P F s s' -> x_simulated P F (mkXState s w) (mkXState s' w).
Proof.
  intros (res & Hr & Hf). exists (map (fun r => XR r.1 r.2) res). split.
  - clear Hf. revert s Hr. induction res as [|[e now] res IH]; intros s Hr; cbn in *; [by injection Hr as ->|].
    destruct (rstep _ _ e now s) as [s1|]; [by apply IH|done].
  - apply Forall_map. eapply Forall_impl; [exact Hf|]. by intros [e now].
Qed.

Lemma rnode_do_sim P F e n n' :
  x_comes P F e -> rnode_do lookup_host window_bytes e n = Some n' -> x_simulated P F (r_x n) (r_x n').
Proof.
  intros He Hs. unfold rnode_do in Hs. destruct (xstep _ _ e (r_x n)) as [x|] eqn:Ex; [|done]. injection Hs as <-.
  exists [e]. cbn [xrun]. rewrite Ex. split; [by destruct x|by constructor].
Qed.

Lemma egress_read_comes P F e now r s r' xe : egress_read_step e now r s = Some (r', xe) -> x_comes P F xe.
Proof.
  assert (forall e, reader_turn e now r s = Some (r', xe) -> x_comes P F xe) as Ht.
  { intros e0. unfold reader_turn. destruct (rd_done _); [done|]. by intros [= _ <-]. }
  assert (forall f full w st, reader_pass f full w st now r s = Some (r', xe) -> x_comes P F xe) as Hp.
  { intros f full w st. unfold reader_pass. destruct (send_async_pass _ _ _) as [[|full'| |] p];
      [apply Ht|by intros [= _ <-]..]. }
  unfold egress_read_step. destruct e as [b|n|err| | |].
  - destruct (rd_done _); [done|]. by intros [= _ <-].
  - destruct (e_sending r); try done. case_decide; [|done]. by intros [= _ <-].
  - destruct (e_sending r); try done. destruct (_ || _); [done|]. by intros [= _ <-].
  - destruct (e_sending r); [done|apply Hp|apply Hp].
  - destruct (e_sending r); [done|apply Ht|apply Ht].
  - destruct (is_cancelled _ _); [apply Ht|done].
Qed.

(** The frames that wait with a spawned SYN handler. *)
Definition queued_ok (P : Frame -> Prop) (n : RNode) : Prop :=
  forall k f, l_queued (r_l n) !! k = Some f -> P f.

Lemma rnode_sim (P : Frame -> Prop) F e n n' :
  rnode_inv n -> queued_ok P n -> (forall i f k now ms, e = RnLink (LvFrame i f k now ms) -> P f) ->
  (forall i now, e = RnOther (XR (EvFallback i) now) -> F i now) ->
  rnode_step lookup_host window_bytes f64_exp e n = Some n' ->
  x_simulated P F (r_x n) (r_x n') /\ queued_ok P n'.
Proof.
  intros HI Hq He Hfb Hs.
  assert (forall xe n1, r_x n1 = r_x n -> r_l n1 = r_l n -> x_comes P F xe ->
    rnode_do lookup_host window_bytes xe n1 = Some n' -> x_simulated P F (r_x n) (r_x n') /\ queued_ok P n') as Hdo.
  { intros xe n1 Ex El Hc Hd. split; [rewrite <- Ex; by eapply rnode_do_sim|]. unfold rnode_do in Hd.
    destruct (xstep _ _ _ _) as [x|]; [|done]. injection Hd as <-. unfold queued_ok. cbn. by rewrite El. }
  destruct e as [e|i e now|i src data now|i|i e|xe]; cbn [rnode_step] in Hs.
  - unfold rnode_link in Hs. case_decide as Ha; [|done]. destruct (link_step _ _ e (r_l n)) as [x|] eqn:Ex; [|done].
    injection Hs as <-. destruct (link_sim lookup_host window_bytes P F e (r_l n) x) as [Hsim Hq'];
      [apply HI|exact Hq| | |exact Ex|].
    + intros i f k now ms ->. by eapply He.
    + intros i now ->. by destruct Ha.
    + split; [|exact Hq']. by apply simulated_x.
  - destruct (r_readers n !! i) as [r|]; [|done]. destruct (egress_read_step _ _ _ _) as [[r' xe]|] eqn:Er; [|done].
    eapply Hdo; [..|exact Hs]; [done|done|]. by eapply egress_read_comes.
  - destruct (r_udp n !! i) as [q|]; [|done]. destruct (q_done q); [done|]. by eapply Hdo; [..|exact Hs].
  - destruct (r_udp n !! i) as [q|]; [|done]. injection Hs as <-. split; [reflexivity|exact Hq].
  - destruct (drain_at _ _ _ _ _) as [[a ws]|]; [|done]. injection Hs as <-. split; [|exact Hq].
    eexists [XPool _]. split; [reflexivity|by constructor].
  - destruct (other_xevent xe) eqn:Ho; [|done]. eapply Hdo; [done|done| |exact Hs].
    destruct xe as [[]| |]; try done. cbn. by apply Hfb.
Qed.
End rnode_facts.
