(* ===== verification/ReassemblerTargets.v ===== *)
(** * What the reassembler's connections are connected to

    A TCP connection enters the reassembler's map only at the end of a connect, together
    with the reader of its socket; so in any run of the process ([ReassemblerNode]) every
    TCP connection of the map has a reader, and the target of a reader's socket is one that
    a SYN with the connection's id asked for.  [fewer s s'] says that [s'] maps no id that
    [s] did not map, and that no connection changed its kind. *)
From Stdlib Require Import ZArith Lia.
From Stdlib Require Import Strings.Byte.
From stdpp Require Import base numbers list option fin_maps gmap.
From S2P Require Import Prelude Runtime Frames Reorder Tunnel Net.
From S2P Require Import Socks5 Wire PoolSends Wires Reassembler.
From S2P Require Import EgressWriter ReassemblerStream ReassemblerOrigin.
From S2P Require Import TunnelTask LinkTask ReassemblerNode ReassemblerNodeFacts.
Local Open Scope Z_scope.

Section fewer.
Context {T : Tokio} {TL : TokioLaws T} {D : DashIter} {DL : DashIterLaws D} {B : BufMut}.
Context (lookup_host : bytes -> Z -> option IpAddr) (window_bytes : Z).

Record fewer (s s' : RState) : Prop := {
  fw_conns c i : conns s' !! c = Some i -> conns s !! c = Some i;
  fw_vcs i v : vcs s !! i = Some v -> exists v', vcs s' !! i = Some v' /\ is_udp v' = is_udp v;
}.

#[export] Instance fewer_preorder : PreOrder fewer.
Proof.
  split; [intros s; split; [done|intros i v Hv; by exists v]|].
  intros s1 s2 s3 [A1 A2] [B1 B2]. split; [auto|]. intros i v1 H1.
  destruct (A2 i v1 H1) as (v2 & H2 & E2). destruct (B2 i v2 H2) as (v3 & H3 & E3).
  exists v3. split; [done|congruence].
Qed.

Lemma less_fewer s s' : less s s' -> fewer s s'.
Proof. intros [_ _ H1 H2 _]. by split. Qed.

Lemma fewer_same s s' : conns s' = conns s -> vcs s' = vcs s -> fewer s s'.
Proof. intros E1 E2. split; rewrite ?E1, ?E2; [done|]. intros i v Hv. by exists v. Qed.

(** *** The frame handlers *)
Lemma fewer_forward v p s : fewer s (forward_udp_datagram lookup_host v p s).
Proof.
  unfold forward_udp_datagram. destruct (decode_udp_datagram p) as [[t data]|]; [|done].
  destruct (udp_sock v); [|done]. destruct (udp_send_to _ _ _ _ _); [by apply fewer_same|done].
Qed.

Lemma fewer_data_conn i f now s : fewer s (data_conn lookup_host i f now s).
Proof.
  destruct (vcs s !! i) as [v|] eqn:Hv; [|unfold data_conn; by rewrite Hv].
  destruct (is_udp v) eqn:Hu; [|by eapply less_fewer, less_data_conn].
  unfold data_conn. rewrite Hv, Hu. etrans; [apply (fewer_forward v (payload f))|]. by apply less_fewer, less_upd.
Qed.

Lemma fewer_data_unknown f now s : fewer s (data_unknown f now s).2.
Proof.
  assert (forall s1, fewer s s1 -> fewer s (fail_pending_conn (conn_id f) now s1)) as Hfail.
  { intros s1 H. etrans; [exact H|]. apply less_fewer, less_fail. }
  assert (forall s1 m b, fewer s s1 -> fewer s (with_pending m b s1)) as Hpush.
  { intros s1 m b H. etrans; [exact H|]. by apply fewer_same. }
  unfold data_unknown, reserve. case_decide; [apply less_fewer, less_send|]. case_decide.
  - pose proof (less_fewer _ _ (less_reserve (size (pending s)) (Some (conn_id f)) (zlen (payload f)) now s)) as Hr.
    destruct (try_reserve_pending _ _ _ _ _) as [[[]|] s1]; cbn [snd] in *; [|by apply Hfail|by apply Hfail].
    destruct (pending s1 !! conn_id f) as [e|]; [destruct (_ <? _)|]; cbn [snd]; auto.
  - destruct (_ <? _); [|by apply Hfail].
    pose proof (less_fewer _ _ (less_reserve (size (pending s)) None (zlen (payload f)) now s)) as Hr.
    destruct (try_reserve_pending _ _ _ _ _) as [[[]|] s1]; cbn [snd] in *; auto.
Qed.

Lemma fewer_handle_data f now s : fewer s (handle_data lookup_host f now s).
Proof.
  unfold handle_data. destruct (conns s !! conn_id f); [apply fewer_data_conn|].
  pose proof (fewer_data_unknown f now s) as H. destruct (data_unknown f now s) as [[] s']; cbn in H; [|done].
  destruct (conns s' !! conn_id f); [|done]. etrans; [exact H|apply fewer_data_conn].
Qed.

Lemma fewer_handle_fin f now s : fewer s (handle_fin f now s).
Proof.
  unfold handle_fin. destruct (conns s !! conn_id f) as [i|].
  - destruct (vcs s !! i) as [v|]; [|done]. destruct (is_udp v); [done|].
    apply less_fewer. etrans; [apply (less_start_half i (seq f))|apply less_finish].
  - case_decide; [done|]. destruct (pending s !! conn_id f); (destruct (_ <? _); [|apply less_fewer, less_fail]);
      by apply fewer_same.
Qed.

Lemma fewer_handle_syn f n now s : fewer s (handle_syn f n now s).
Proof.
  unfold handle_syn. case_decide; [done|]. set (s1 := with_handshaking _ s).
  assert (fewer s s1) as H1 by by apply fewer_same. destruct (bool_decide _); [done|]. etrans; [exact H1|].
  clearbody s1. clear H1. set (s2 := with_notifies _ _).
  assert (fewer s1 s2) as H2 by by apply fewer_same. etrans; [exact H2|]. clearbody s2. clear H2 s1.
  case_decide; [apply less_fewer; etrans; [apply (less_remove_pending (conn_id f))|apply less_end]|].
  destruct (syn_target_decode (payload f)); [|apply less_fewer, less_syn_fail].
  destruct (_ && _); [apply less_fewer, less_syn_fail|by apply fewer_same].
Qed.

Lemma fewer_frame f n now s : fewer s (handle_frame lookup_host f n now s).
Proof.
  unfold handle_frame. destruct (has_flag f FLAG_SYN); [apply fewer_handle_syn|].
  destruct (has_flag f FLAG_DATA); [apply fewer_handle_data|]. destruct (has_flag f FLAG_FIN); [apply fewer_handle_fin|].
  destruct (has_flag f FLAG_RST); [apply less_fewer, less_handle_rst|done].
Qed.

(** *** The end of a handshake *)

(** [s'] comes after the installation of a connection of kind [udp] under [c], or without one. *)
Definition installs (udp : bool) (c : Z) (i : nat) (s s' : RState) : Prop :=
  vcs s !! i = None /\ (fewer s s' \/ exists v, is_udp v = udp /\ fewer (install_conn i v c s) s').

Lemma installs_tasks udp c i m s s' : installs udp c i (with_tasks m s) s' -> installs udp c i s s'.
Proof.
  intros [Hi H]. split; [exact Hi|]. destruct H as [H|(v & Hv & H)]; [left|right; exists v; split; [done|]];
    (etrans; [|exact H]); by apply fewer_same.
Qed.

Lemma syn_udp_installs c i bound now s :
  vcs s !! i = None -> installs true c i s (syn_udp lookup_host window_bytes c i bound now s).
Proof.
  intros Hi. split; [done|]. destruct bound as [sock|]; [|left; apply less_fewer, less_syn_fail].
  right. exists (new_udp_conn window_bytes now sock). split; [done|]. cbn [syn_udp]. set (s1 := install_conn _ _ _ _).
  pose proof (less_fewer _ _ (less_remove_pending c s1)) as H2.
  destruct (remove_pending c s1) as [[e|] s2]; cbn in H2; (etrans; [exact H2|]); [|apply less_fewer, less_end].
  destruct (pe_cancelled e); [apply less_fewer, less_drop_cancelled|]. etrans; [|apply less_fewer, less_end].
  clear H2. revert s2. induction (pe_frames e) as [|f fs IH]; intros s2; cbn [fold_left]; [done|].
  etrans; [|apply IH]. destruct (has_flag f FLAG_DATA); [apply fewer_forward|done].
Qed.

Lemma syn_connected_installs c i o now s :
  vcs s !! i = None -> installs false c i s (syn_connected window_bytes c i o now s).
Proof.
  intros Hi. split; [done|]. destruct o; cbn [syn_connected]; try (left; apply less_fewer, less_syn_fail).
  - case_decide; [left|right].
    + apply less_fewer. etrans; [apply (less_remove_pending c)|apply less_end].
    + eexists. split; [|apply less_fewer, less_syn_drain]. done.
  - left. apply less_fewer. etrans; [apply (less_remove_pending c)|]. etrans; [apply (less_end c)|apply less_tombstone].
Qed.

(** Every event of the shared state. *)
Definition installing (e : REvent) (s s' : RState) : Prop :=
  match e with
  | EvUdpBound n i _ => exists c, tasks s !! n = Some (TaskUdpBind c) /\ installs true c i s s'
  | EvConnected n i _ => exists c st, tasks s !! n = Some (TaskConnect c st) /\ installs false c i s s'
  | _ => fewer s s'
  end.

Lemma rstep_installing e now s s' : rstep lookup_host window_bytes e now s = Some s' -> installing e s s'.
Proof.
  intros Hs. destruct e; cbn in Hs |- *.
  - case_decide; [|done]. injection Hs as <-. apply fewer_frame.
  - case_decide; [|done]. unfold resume in Hs. destruct (tasks s !! n) as [[c|c t]|]; try done. injection Hs as <-.
    exists c. split; [done|]. eapply installs_tasks. by apply syn_udp_installs.
  - case_decide; [|done]. unfold resume in Hs. destruct (tasks s !! n) as [[c|c t]|]; try done. injection Hs as <-.
    exists c, t. split; [done|]. eapply installs_tasks. by apply syn_connected_installs.
  - case_decide; [|done]. injection Hs as <-. apply less_fewer, less_upd. intros v _. apply (close_keeps_udp true).
  - destruct (rd_done t); [|injection Hs as <-]; [done|]. apply less_fewer, less_reader.
  - injection Hs as <-. apply less_fewer, less_udp_response.
  - injection Hs as <-. apply less_fewer, less_heartbeat.
  - injection Hs as <-. apply less_fewer, less_lost.
  - case_decide; [|done]. injection Hs as <-. unfold accept_tunnel. destruct (_ >=? _); [done|]. apply less_fewer, less_pool.
Qed.
(** The other events of the shared state install nothing. *)
Lemma writer_fewer e x x' :
  xstep lookup_host window_bytes e x = Some x' -> (forall ev now, e <> XR ev now) -> fewer (xs x) (xs x').
Proof.
  intros Hs He. destruct e as [e now|i we|p]; cbn [xstep] in Hs; [by destruct (He e now)|..].
  - destruct (vcs (xs x) !! i) as [v|] eqn:Hv; [|done]. destruct (writer_step _ _ v) as [[w' v']|] eqn:Ew; [|done].
    injection Hs as <-. apply less_fewer, (less_set i v); [done|by eapply writer_keeps_udp].
  - injection Hs as <-. by apply fewer_same.
Qed.

Lemma xevent_fewer P e x x' :
  xevent_sends P (xs x) e -> xstep lookup_host window_bytes e x = Some x' -> fewer (xs x) (xs x').
Proof.
  intros He Hs. destruct e as [e now| |]; [|eapply writer_fewer; [exact Hs|done]..]. cbn [xstep] in Hs.
  destruct (rstep _ _ e now (xs x)) as [s|] eqn:Er; [|done]. injection Hs as <-.
  apply rstep_installing in Er. by destruct e.
Qed.

(** No event takes a connection away or changes its kind. *)
Definition same_kind (s s' : RState) : Prop :=
  forall i v, vcs s !! i = Some v -> exists v', vcs s' !! i = Some v' /\ is_udp v' = is_udp v.

Lemma fewer_kind s s' : fewer s s' -> same_kind s s'.
Proof. by intros []. Qed.

Lemma installs_kind udp c i s s' : installs udp c i s s' -> same_kind s s'.
Proof.
  intros [Hi [F|(v0 & _ & F)]]; [by apply fewer_kind|]. intros j v Hv. apply (fw_vcs _ _ F j v). cbn.
  by rewrite lookup_insert_ne by congruence.
Qed.

Lemma xrun_kind es : forall x x', xrun lookup_host window_bytes es x = Some x' -> same_kind (xs x) (xs x').
Proof.
  induction es as [|e es IH]; intros x x' Hr; cbn [xrun] in Hr; [injection Hr as <-; intros i v Hv; by exists v|].
  destruct (xstep _ _ e x) as [x1|] eqn:Es; [|done]. intros i v Hv.
  assert (same_kind (xs x) (xs x1)) as Hk.
  { destruct e as [e now| |]; [|eapply fewer_kind, writer_fewer; [exact Es|done]..]. cbn [xstep] in Es.
    destruct (rstep _ _ e now (xs x)) as [s|] eqn:Er; [|done]. injection Es as <-.
    apply rstep_installing in Er. destruct e; try (by apply fewer_kind).
    - destruct Er as (c & _ & H). by eapply installs_kind.
    - destruct Er as (c & st & _ & H). by eapply installs_kind. }
  destruct (Hk i v Hv) as (v1 & Hv1 & E1). destruct (IH x1 x' Hr i v1 Hv1) as (v2 & Hv2 & E2).
  exists v2. split; [done|congruence].
Qed.
End fewer.

(** ** The process *)
Section targets.
Context {T : Tokio} {TL : TokioLaws T} {D : DashIter} {DL : DashIterLaws D} {B : BufMut} {BL : BufMutLaws B}.
Context (lookup_host : bytes -> Z -> option IpAddr) (window_bytes : Z) (f64_exp : f64 -> f64).

(** [R] holds of the ids and identifiers of the TCP connections in the map. *)
Definition tcp_conns (R : Z -> nat -> Prop) (s : RState) : Prop :=
  forall c i, conns s !! c = Some i -> exists v, vcs s !! i = Some v /\ (is_udp v = false -> R c i).

Lemma tcp_conns_fewer R R' s s' :
  fewer s s' -> (forall c i, R c i -> R' c i) -> tcp_conns R s -> tcp_conns R' s'.
Proof.
  intros [F1 F2] HR H c i Hc. destruct (H c i (F1 c i Hc)) as (v & Hv & Hu).
  destruct (F2 i v Hv) as (v' & Hv' & E). exists v'. split; [done|]. rewrite E. auto.
Qed.

Lemma tcp_conns_install (R : Z -> nat -> Prop) i v c s :
  vcs s !! i = None -> (is_udp v = false -> R c i) -> tcp_conns R s -> tcp_conns R (install_conn i v c s).
Proof.
  intros Hi Hv H c' j Hj. cbn in *. apply lookup_insert_Some in Hj as [[<- <-]|[_ Hj]]; [exists v; by rewrite lookup_insert_eq|].
  destruct (H c' j Hj) as (v' & Hv' & Hu). exists v'. rewrite lookup_insert_ne by congruence. done.
Qed.

Definition read_by (rs : gmap nat Reader) (c : Z) (i : nat) : Prop :=
  exists r, rs !! i = Some r /\ rd_cid (e_task r) = c.

Lemma read_by_grows n n' c i : r_grows n n' -> read_by (r_readers n) c i -> read_by (r_readers n') c i.
Proof. intros [G _] (r & Hr & E). destruct (G i r Hr) as (r' & Hr' & E' & _). exists r'. split; [done|congruence]. Qed.

(** *** The steps of the links *)
Lemma link_fewer e x x' :
  (forall who n ev now ms, e <> LvResume who n ev now ms) -> (forall ev now, e <> LvOther ev now) ->
  link_step lookup_host window_bytes e x = Some x' -> fewer (l_state x) (l_state x').
Proof.
  intros Hn Ho Hs. destruct e as [i now_ms|i f n now now_ms|n now|who n e now now_ms|i|i|i|e now];
    [..|by destruct (Ho e now)]; cbn [link_step] in Hs.
  - case_decide; [|done]. injection Hs as <-. unfold link_accept, accept_tunnel. destruct (_ >=? _); by apply fewer_same.
  - destruct (l_readers x !! i) as [[|m g|]|]; try done. case_decide; [|done]. injection Hs as <-. unfold link_frame.
    destruct (dispatch_frame _ _) as [[] permits]; [by apply fewer_same|].
    assert (fewer (l_state x) (handle_frame lookup_host f n now (l_state x))) as H1 by apply fewer_frame.
    cbn [l_state with_state]. case_decide; [exact H1|]. etrans; [exact H1|by apply fewer_same].
  - destruct (l_queued x !! n) as [f|]; [|done]. injection Hs as <-. unfold link_run_spawned.
    case_decide; apply fewer_frame.
  - by destruct (Hn who n e now now_ms).
  - destruct (l_readers x !! i) as [[|m f|]|]; try done. injection Hs as <-. by apply fewer_same.
  - destruct (l_readers x !! i) as [[|m f|]|]; try done. destruct (arcs _ !! i); [|done].
    destruct (has_permit _); [|done]. injection Hs as <-. by apply fewer_same.
  - case_decide; [|done]. destruct (arcs _ !! i) as [l|]; [|done]. injection Hs as <-. unfold link_drained. cbn [l_state].
    etrans; [|apply less_fewer, less_lost]. by apply fewer_same.
Qed.

Lemma link_resumed who n ev now ms x x' :
  link_step lookup_host window_bytes (LvResume who n ev now ms) x = Some x' ->
  resumes ev = Some n /\ exists s, installing ev (l_state x) s /\ conns (l_state x') = conns s /\ vcs (l_state x') = vcs s.
Proof.
  intros Hs. cbn [link_step] in Hs. case_decide as Hr; [|done]. split; [done|].
  destruct (rstep _ _ ev now (l_state x)) as [s|] eqn:Er; [|done]. exists s.
  split; [by eapply rstep_installing|]. destruct who as [i|].
  - destruct (l_readers x !! i) as [[|m f|]|]; try done. case_decide; [|done]. by injection Hs as <-.
  - case_decide; [|done]. by injection Hs as <-.
Qed.

(** *** Readers *)

(** The target of a reader that starts is that of the connect that ended. *)
Lemma spawn_readers e s s' n i r :
  r_readers (spawn e s s' n) !! i = Some r ->
  r_readers n !! i = Some r \/ exists k, tasks s !! k = Some (TaskConnect (rd_cid (e_task r)) (e_target r)).
Proof.
  intros H. destruct e as [| | |who k [|k' j b|k' j o| | | | | |] now ms| | | |]; cbn [spawn] in H; try (by left).
  - destruct (tasks s !! k') as [[c|c st]|]; [|by left..]. by destruct (vcs s' !! j); left.
  - destruct (tasks s !! k') as [[c|c st]|] eqn:Et; [by left| |by left]. destruct (vcs s' !! j); [|by left].
    cbn [r_readers with_readers] in H. apply lookup_insert_Some in H as [[<- <-]|[_ H]]; [|by left]. right. by exists k'.
Qed.

Lemma spawn_reads who k k' i o now ms c st s s' n :
  tasks s !! k' = Some (TaskConnect c st) -> is_Some (vcs s' !! i) ->
  read_by (r_readers (spawn (LvResume who k (EvConnected k' i o) now ms) s s' n)) c i.
Proof.
  intros Ht [v Hv]. cbn [spawn]. rewrite Ht, Hv. cbn [r_readers with_readers]. eexists. by rewrite lookup_insert_eq.
Qed.

(** *** The process *)
Definition reads (n : RNode) : Prop := tcp_conns (read_by (r_readers n)) (r_state n).

Lemma rnode_link_reads e n n' :
  rnode_inv n -> reads n -> rnode_link lookup_host window_bytes e n = Some n' -> reads n'.
Proof.
  intros HI HR Hs. destruct (rnode_link_inv lookup_host window_bytes e n n' HI Hs) as [_ HG]. unfold rnode_link in Hs.
  case_decide as Ha; [|done]. destruct (link_step _ _ e (r_l n)) as [x|] eqn:Ex; [|done]. injection Hs as <-.
  set (n' := rnode_put _ _ _) in *. change (tcp_conns (read_by (r_readers n')) (l_state x)).
  assert (forall c i, read_by (r_readers n) c i -> read_by (r_readers n') c i) as Hm by (intros; by eapply read_by_grows).
  destruct e as [i now_ms|i f k now now_ms|k now|who k ev now ms|i|i|i|ev now];
    try (eapply tcp_conns_fewer; [eapply (link_fewer _ (r_l n)); [..|exact Ex]; done|exact Hm|exact HR]).
  destruct (link_resumed who k ev now ms (r_l n) x Ex) as (Hr & s & Hi & E1 & E2).
  eapply (tcp_conns_fewer (read_by (r_readers n'))); [by apply (fewer_same s)|done|].
  destruct ev as [|k' i b|k' i o| | | | | |]; try done; cbn in Hi.
  - destruct Hi as (c & _ & Hvn & [F|(v & Hv & F)]); (eapply tcp_conns_fewer; [exact F|exact Hm|]); [exact HR|].
    apply tcp_conns_install; [done|by rewrite Hv|exact HR].
  - destruct Hi as (c & st & Ht & Hvn & [F|(v & Hv & F)]); [eapply tcp_conns_fewer; [exact F|exact Hm|exact HR]|].
    eapply (tcp_conns_fewer (read_by (r_readers n'))); [exact F|done|].
    apply tcp_conns_install; [done| |eapply tcp_conns_fewer; [reflexivity|exact Hm|exact HR]]. intros _.
    destruct (fw_vcs _ _ F i v) as (v' & Hv' & _); [cbn; by rewrite lookup_insert_eq|].
    apply (spawn_reads who k k' i o now ms c st (r_state n)); [exact Ht|]. rewrite E2. by exists v'.
Qed.

Lemma rnode_do_reads P e n n1 n' :
  reads n -> r_grows n n1 -> r_l n1 = r_l n -> r_w n1 = r_w n -> xevent_sends P (r_state n) e ->
  rnode_do lookup_host window_bytes e n1 = Some n' -> reads n' /\ r_readers n' = r_readers n1.
Proof.
  intros HR HG El Ew He Hs. unfold rnode_do, r_x, r_state in Hs. rewrite El, Ew in Hs.
  destruct (xstep _ _ e _) as [x|] eqn:Ex; [|done]. injection Hs as <-. split; [|done].
  pose proof (xevent_fewer lookup_host window_bytes P e (mkXState (l_state (r_l n)) (r_w n)) x He Ex) as F.
  apply (tcp_conns_fewer (read_by (r_readers n)) _ (r_state n)); [exact F| |exact HR].
  intros c i. by apply (read_by_grows n n1).
Qed.

(** A reader is one of before the step, or one of a connect that ended. *)
Definition reader_from (n : RNode) (i : nat) (r : Reader) : Prop :=
  (exists r0, r_readers n !! i = Some r0 /\ reader_grows r0 r) \/
  exists k, tasks (r_state n) !! k = Some (TaskConnect (rd_cid (e_task r)) (e_target r)).

Lemma rnode_step_reads e n n' :
  rnode_inv n -> reads n -> rnode_step lookup_host window_bytes f64_exp e n = Some n' ->
  reads n' /\ forall i r, r_readers n' !! i = Some r -> reader_from n i r.
Proof.
  intros HI HR Hs.
  assert (forall rs, rs = r_readers n -> forall i r, rs !! i = Some r -> reader_from n i r) as Hold.
  { intros rs -> i r Hr. left. by exists r. }
  destruct e as [e|i e now|i src data now|i|i e|xe].
  - split; [by eapply rnode_link_reads|]. cbn [rnode_step] in Hs. unfold rnode_link in Hs. case_decide; [|done].
    destruct (link_step _ _ e (r_l n)) as [x|]; [|done]. injection Hs as <-. intros i r Hr.
    destruct (spawn_readers _ _ _ _ _ _ Hr) as [H0|H0]; [left; by exists r|by right].
  - cbn [rnode_step] in Hs. destruct (r_readers n !! i) as [r|] eqn:Hr; [|done].
    destruct (egress_read_step e now r (r_state n)) as [[r' xe]|] eqn:Es; [|done].
    destruct (egress_read_ok (fun _ => True) e now i r (r_state n) r' xe (rt_readers _ (rv_tasks _ HI) i r Hr)) as (_ & G & Hx);
      [done|exact Es|].
    eapply (rnode_do_reads (fun _ => True)) in Hs as [H1 H2]; [|exact HR| |done|done|exact Hx];
      [|apply r_grows_reader; intros r0 E; rewrite Hr in E; by injection E as <-].
    split; [exact H1|]. rewrite H2. intros j r0 Hj. cbn [r_readers with_readers] in Hj.
    apply lookup_insert_Some in Hj as [[<- <-]|[_ Hj]]; left; [by exists r|by exists r0].
  - cbn [rnode_step] in Hs. destruct (r_udp n !! i) as [q|] eqn:Hu; [|done]. destruct (q_done q); [done|].
    eapply (rnode_do_reads (fun _ => True)) in Hs as [H1 H2]; [|exact HR| |done|done|done];
      [|apply r_grows_responder; intros x0 E; rewrite Hu in E; injection E as <-; split; [done|by eexists]].
    split; [exact H1|]. by apply Hold.
  - cbn [rnode_step] in Hs. destruct (r_udp n !! i); [|done]. injection Hs as <-. split; [exact HR|by apply Hold].
  - cbn [rnode_step] in Hs. destruct (drain_at _ _ _ _ _) as [[a ws]|]; [|done]. injection Hs as <-.
    split; [exact HR|by apply Hold].
  - cbn [rnode_step] in Hs. destruct (other_xevent xe) eqn:Ho; [|done].
    eapply (rnode_do_reads (fun _ => True)) in Hs as [H1 H2]; [|exact HR|reflexivity|done|done|by apply other_xevent_sends].
    split; [exact H1|]. by apply Hold.
Qed.

(** ** Invariant *)

(** [P]: what holds of the frames received. *)
Record targets_inv (P : Frame -> Prop) (n : RNode) : Prop := {
  ti_readers i r : r_readers n !! i = Some r -> task_asked P (TaskConnect (rd_cid (e_task r)) (e_target r));
  ti_conns : reads n;
}.

Lemma task_asked_mono (P Q : Frame -> Prop) t : (forall f, P f -> Q f) -> task_asked P t -> task_asked Q t.
Proof.
  intros H. assert (forall c st, asked P c st -> asked Q c st) as Ha.
  { intros c st (f & Hf & Hr). exists f. auto. }
  destruct t as [c|c st]; cbn.
  - intros (st & Hs & Hp). exists st. auto.
  - intros [Hs Hp]. auto.
Qed.

Lemma targets_mono (P Q : Frame -> Prop) n n' :
  (forall f, P f -> Q f) -> r_readers n' = r_readers n -> r_state n' = r_state n ->
  targets_inv P n -> targets_inv Q n'.
Proof.
  intros H E1 E2 [H1 H2]. split; [|unfold reads; by rewrite E1, E2].
  intros i r Hr. rewrite E1 in Hr. eapply task_asked_mono; [exact H|by eapply H1].
Qed.

Lemma targets_step P e n n' :
  rnode_inv n -> (forall k t, tasks (r_state n) !! k = Some t -> task_asked P t) -> targets_inv P n ->
  rnode_step lookup_host window_bytes f64_exp e n = Some n' -> targets_inv P n'.
Proof.
  intros HI HT [H1 H2] Hs. destruct (rnode_step_reads e n n' HI H2 Hs) as [H3 H4]. split; [|exact H3].
  intros i r Hr. destruct (H4 i r Hr) as [(r0 & Hr0 & (Ec & Et & _))|(k & Hk)]; [|by apply (HT k)].
  rewrite Ec, Et. by eapply H1.
Qed.

Lemma targets_start P : targets_inv P rnode_start.
Proof. split; [intros i r H; cbn in H|intros c i H; cbn in H]; by rewrite lookup_empty in H. Qed.
End targets.
