(* ===== verification/EndToEnd.v ===== *)
(** * Between the client's socket and the target's socket

    Composes the parts.  Up: the splitter's client handler ([tcp_run]), the tunnels (the
    encoder of [drain_frames], a TCP byte stream, the decoder), the dispatch of the
    decoded frames, and the reassembler with its writer tasks ([xrun]).
    Down: the reassembler's egress reader ([reader_run]), the tunnels, and the splitter
    with its writer tasks ([yrun]). *)
From Stdlib Require Import ZArith Lia.
From Stdlib Require Import Strings.Byte.
From stdpp Require Import base numbers list option fin_maps gmap.
From S2P Require Import Prelude Runtime Frames Reorder Tunnel Net.
From S2P Require Import Socks5 Reassembler EgressWriter EgressFacts ReassemblerStream.
From S2P Require Import Splitter SplitterTcp ClientConn ClientFacts SplitterStream.
Local Open Scope Z_scope.

(** The frames for [cid] that reach [handle_frame] are among [fs]. *)
Definition arrives {T : Tokio} (cid : Z) (fs : list Frame) (e : XEvent) : Prop :=
  match e with
  | XR (EvFrame f _) _ => conn_id f = cid -> f ∈ fs
  | _ => True
  end.
(** The same for [handle_inbound_frame]. *)
Definition returns {T : Tokio} (cid : Z) (fs : list Frame) (e : YEvent) : Prop :=
  match e with
  | YS (SvInbound f) _ | YPush f => conn_id f = cid -> f ∈ fs
  | _ => True
  end.

(** The DATA and FIN frames for [cid] on these links are frames its sender sent; the
    links carry the frames of other connections, too. *)
Definition only_sent (cid : Z) (sent : list Frame) (links : list (list Frame)) : Prop :=
  Forall frame_ok (concat links) /\
  forall f, f ∈ concat links -> conn_id f = cid ->
    has_flag f FLAG_DATA || has_flag f FLAG_FIN = true -> f ∈ sent.

(** One tunnel connection: the frames [fs] encoded, the bytes cut into reads, the
    connection broken anywhere, also inside a frame, and [rcvd] decoded at the other end
    before its read loop ended. *)
Definition tunnel_carries {B : BufMut} (fs rcvd : list Frame) : Prop :=
  exists encs reads fuel,
    Forall2 (fun f e => frame_encode f = Ok e) fs encs /\
    Forall (fun c => c <> []) reads /\ concat reads `prefix_of` concat encs /\
    (length (concat reads) < fuel)%nat /\
    rcvd `prefix_of` (decode_stream fuel [] (map ReadOk reads ++ [ReadOk []])).1.

Lemma tunnel_carries_prefix {B : BufMut} {BL : BufMutLaws B} fs rcvd :
  Forall frame_ok fs -> tunnel_carries fs rcvd -> rcvd `prefix_of` fs.
Proof.
  intros Hfs (encs & reads & fuel & He & Hr & Hc & Hf & Hp). etrans; [exact Hp|].
  rewrite decode_stream_chunks by done. cbn [app].
  rewrite (concat_encodings fs encs Hfs He) in Hc.
  destruct (cut_frames fs (concat reads) Hfs Hc) as (k & tail & E & Ht). rewrite E in *.
  rewrite parse_all_frames; [apply prefix_take|by apply Forall_take|done|done].
Qed.

Section end_to_end.
Context {T : Tokio} {TL : TokioLaws T} {D : DashIter} {B : BufMut} {BL : BufMutLaws B}.

(** The payload of DATA frame [k]. *)
Definition chunk_at (cs : list bytes) (k : Z) : bytes := default [] (cs !! Z.to_nat (k - 1)).

Lemma chunks_of_list cs : chunks (chunk_at cs) 1 (zlen cs + 1) = cs.
Proof.
  unfold chunks. replace (zlen cs + 1 - 1) with (zlen cs) by lia.
  apply list_eq. intros j. rewrite list_lookup_fmap. unfold zlen.
  destruct (decide (j < length cs)%nat) as [Hj|Hj].
  - rewrite lookup_seqZ_lt by lia. cbn. unfold chunk_at.
    replace (Z.to_nat (1 + Z.of_nat j - 1)) with j by lia.
    destruct (cs !! j) eqn:E; [done|]. apply lookup_ge_None_1 in E. lia.
  - rewrite lookup_seqZ_ge by lia. cbn. symmetry. apply lookup_ge_None_2. lia.
Qed.

(** The frames of a handler are frames of its stream. *)
Lemma sent_frame cid cs fin f :
  zlen cs < 2 ^ 64 - 2 -> f ∈ data_frames cid cs ++ fin_frames cid fin cs ->
  (exists k, 1 <= k <= zlen cs /\ f = frame_data cid k (chunk_at cs k)) \/
  (fin = true /\ f = frame_fin cid (zlen cs + 1)).
Proof.
  intros Hn [Hf|Hf]%elem_of_app.
  - left. apply list_elem_of_lookup_1 in Hf as [j Hj]. unfold data_frames in Hj.
    rewrite list_lookup_imap in Hj. destruct (cs !! j) as [c|] eqn:E; [|done]. cbn in Hj. simplify_eq.
    assert (j < length cs)%nat by (by apply lookup_lt_Some in E). unfold zlen in *.
    exists (1 + Z.of_nat j). split; [lia|]. rewrite wrap_small by lia. unfold chunk_at.
    replace (Z.to_nat (1 + Z.of_nat j - 1)) with j by lia. by rewrite E.
  - right. unfold fin_frames in Hf. destruct fin; [|by apply elem_of_nil in Hf].
    apply list_elem_of_singleton in Hf as ->. split; [done|].
    pose proof (zlen_nonneg cs). rewrite wrap_small by lia. by rewrite Z.add_comm.
Qed.

Lemma carried_in links rcvds f :
  Forall frame_ok (concat links) -> Forall2 tunnel_carries links rcvds ->
  f ∈ concat rcvds -> f ∈ concat links.
Proof.
  intros Hok H. induction H as [|fs r links rcvds H Hcar IH]; [done|]. cbn in *.
  apply Forall_app in Hok as [H1 H2]. rewrite !elem_of_app. intros [Hf|Hf]; [left|right; by apply IH].
  destruct (tunnel_carries_prefix _ _ H1 H) as [x ->]. apply elem_of_app. by left.
Qed.

(** The DATA and FIN frames for [cid] that an event delivers are in [sent]. *)
Definition own_frame (cid : Z) (sent : list Frame) (f : Frame) : Prop :=
  conn_id f = cid -> has_flag f FLAG_DATA || has_flag f FLAG_FIN = true -> f ∈ sent.

(** What arrives for [cid] belongs to the stream. *)
Lemma own_stream cid cs fin f :
  zlen cs < 2 ^ 64 - 2 -> own_frame cid (data_frames cid cs ++ fin_frames cid fin cs) f ->
  conn_id f = cid -> stream_frame (chunk_at cs) (zlen cs) fin f.
Proof.
  intros Hn Hs Hc. unfold stream_frame. destruct (has_flag f FLAG_DATA || has_flag f FLAG_FIN) eqn:Ef.
  - destruct (sent_frame cid cs fin f Hn (Hs Hc Ef)) as [(k & Hk & ->)|[Hfin ->]]; by cbn.
  - by apply orb_false_iff in Ef as [-> ->].
Qed.

Lemma carried_own cid sent links rcvds f :
  only_sent cid sent links -> Forall2 tunnel_carries links rcvds -> f ∈ concat rcvds -> own_frame cid sent f.
Proof. intros [Hok Hs] Hcar H%(carried_in _ _ _ Hok Hcar) Hc Hf. by apply Hs. Qed.

Definition delivers_own (cid : Z) (sent : list Frame) (e : XEvent) : Prop :=
  match e with XR (EvFrame f _) _ => own_frame cid sent f | _ => True end.

Lemma arrives_own cid sent links rcvds e :
  only_sent cid sent links -> Forall2 tunnel_carries links rcvds -> arrives cid (concat rcvds) e ->
  delivers_own cid sent e.
Proof.
  intros Hs Hcar H. destruct e as [[]| |]; try exact I. cbn in *. intros Hc.
  by apply (carried_own cid sent links rcvds f Hs Hcar (H Hc)).
Qed.

(** What one client's handler read and what the connections of its id were given, when the
    reassembler gets only frames the handler sent. *)
Lemma client_bytes lookup_host window turns cid h t p es1 es2 x1 x i :
  tcp_run turns (client_start cid h) = Some t -> zlen (omap read_chunk turns) < 2 ^ 64 - 2 ->
  0 <= window -> Forall (delivers_own cid (tc_sent t)) (es1 ++ es2) ->
  xrun lookup_host window es1 (xstart p) = Some x1 -> conns (xs x1) !! cid = Some i ->
  xrun lookup_host window es2 x1 = Some x ->
  exists v, vcs (xs x) !! i = Some v /\
    (is_udp v = false ->
     let w := writer_of (xw x) i in
     w_out w `prefix_of` concat (omap read_chunk turns) /\
     (half_closed (w_phase w) -> (forall now, XR (EvFallback i) now ∉ es1 ++ es2) ->
      w_out w = concat (omap read_chunk turns))).
Proof.
  intros Hrun Hlen Hwin Hes Hr1 Hi Hr2.
  destruct (tcp_run_inv _ _ _ _ Hrun) as (fin & lost & [_ _ _ Hf Hread _ Hfin _]).
  rewrite Hf in Hes. set (cs := omap sent_chunk turns) in *. rewrite Hread in *.
  assert (0 <= zlen cs < 2 ^ 64 - 2) as Hn
    by (rewrite zlen_app in Hlen; pose proof (zlen_nonneg lost); pose proof (zlen_nonneg cs); lia).
  assert (Forall (from_client cid (chunk_at cs) (zlen cs) fin) (es1 ++ es2)) as Hh.
  { eapply Forall_impl; [exact Hes|]. intros e He. destruct e as [[]| |]; try exact I. cbn in *. intros Hc _.
    by apply (own_stream cid cs fin f (proj2 Hn) He). }
  destruct (xrun_bytes _ _ _ _ _ _ _ _ _ _ _ _ Hn Hwin Hh Hr1 Hi Hr2) as (v & Hv & P).
  exists v. split; [done|]. intros Hu w. destruct (P Hu) as [P1 P2].
  rewrite chunks_of_list in *. rewrite concat_app. split; [etrans; [exact P1|by eexists]|].
  intros Hc Hnf. destruct (P2 Hc Hnf) as [E Hfs]. rewrite (Hfin Hfs), app_nil_r. exact E.
Qed.

Definition answers_own (cid : Z) (sent : list Frame) (e : YEvent) : Prop :=
  match e with YS (SvInbound f) _ | YPush f => own_frame cid sent f | _ => True end.

Lemma returns_own cid sent links rcvds e :
  only_sent cid sent links -> Forall2 tunnel_carries links rcvds -> returns cid (concat rcvds) e ->
  answers_own cid sent e.
Proof.
  intros Hs Hcar H. destruct e as [[]| | | | | | |]; try exact I; cbn in *; intros Hc;
    apply (carried_own cid sent links rcvds f Hs Hcar (H Hc) Hc).
Qed.

(** The same for one reader of a target, and the clients of its id. *)
Lemma reader_bytes window turns cid h t fs p es1 es2 y1 y i :
  reader_run turns (egress_reader_init cid h) = Some (t, fs) -> zlen (omap resp_read turns) < 2 ^ 64 - 2 ->
  0 <= window -> Forall (answers_own cid fs) (es1 ++ es2) ->
  yrun window es1 (ystart p) = Some y1 -> sp_conns (ys y1) !! cid = Some i ->
  yrun window es2 y1 = Some y ->
  exists v, sp_vcs (ys y) !! i = Some v /\
    (sp_is_udp v = false ->
     let w := client_writer_of (yw y) i in
     (exists kept, kept `sublist_of` omap resp_read turns /\ cw_out w `prefix_of` concat kept) /\
     (i ∉ y_broken y ->
      cw_out w `prefix_of` concat (omap resp_read turns) /\
      (cw_at w = CwReturned CwDrained -> sp_fin_received v = true ->
       is_complete_through (sp_reorder v) (sp_fin_seq v) = true ->
       cw_out w = concat (omap resp_read turns)))).
Proof.
  intros Hrun Hlen Hwin Hes Hr1 Hi Hr2.
  destruct (reader_run_stream _ _ _ _ _ Hrun) as (fin & lost & -> & Hread & _ & Hfin).
  set (cs := omap resp_sent turns) in *. rewrite Hread in *.
  assert (0 <= zlen cs < 2 ^ 64 - 2) as Hn
    by (rewrite zlen_app in Hlen; pose proof (zlen_nonneg lost); pose proof (zlen_nonneg cs); lia).
  assert (Forall (from_reader cid (chunk_at cs) (zlen cs) fin) (es1 ++ es2)) as Hh.
  { eapply Forall_impl; [exact Hes|]. intros e He. destruct e as [[]| | | | | | |]; try exact I; cbn in *; intros Hc;
      by apply (own_stream cid cs fin f (proj2 Hn) He). }
  destruct (yrun_bytes _ _ _ _ _ _ _ _ _ _ _ Hn Hwin Hh Hr1 Hi Hr2) as (v & Hv & P).
  exists v. split; [done|]. intros Hu w. destruct (P Hu) as [(acc & A1 & A2) P2].
  unfold upto in *. rewrite chunks_of_list in *. rewrite concat_app. split.
  - exists acc. split; [by apply sublist_inserts_r|done].
  - intros Hb. destruct (P2 Hb) as [P1 P3]. split; [etrans; [exact P1|by eexists]|].
    intros Hd Hf Hc. destruct (P3 Hd Hf Hc) as [E Hfs]. rewrite (Hfin Hfs), app_nil_r. exact E.
Qed.

(** ** Properties *)


(** C8: the bytes of a target reach the client in order and without repetition, over
    the tunnels as above.  The whole splitter runs with the writer tasks of all its
    clients, each delivery cut at its channel writes: the frames of [cid] in any order,
    repeated or not at all, any frames of the others, clients that come and go, resets,
    heartbeats, dead tunnels.  What the client of a connection that was ever in the table
    for [cid] has been given is always a prefix of some of the chunks read from the
    target, in their order; chunks are missing only where a call of [on_frame] returned
    true, which resets the connection.  Without that, it is a prefix of what was read
    from the target; and when the FIN has arrived, the stream is complete through it, and
    the writer task drained its channel, it is all of it. *)
Theorem target_to_client window turns cid h t fs links rcvds p es1 es2 y1 y i :
  reader_run turns (egress_reader_init cid h) = Some (t, fs) ->
  zlen (omap resp_read turns) < 2 ^ 64 - 2 ->
  only_sent cid fs links -> Forall2 tunnel_carries links rcvds ->
  0 <= window -> Forall (returns cid (concat rcvds)) (es1 ++ es2) ->
  yrun window es1 (ystart p) = Some y1 -> sp_conns (ys y1) !! cid = Some i ->
  yrun window es2 y1 = Some y ->
  exists v, sp_vcs (ys y) !! i = Some v /\
    (sp_is_udp v = false ->
     let w := client_writer_of (yw y) i in
     (exists kept, kept `sublist_of` omap resp_read turns /\ cw_out w `prefix_of` concat kept) /\
     (i ∉ y_broken y ->
      cw_out w `prefix_of` concat (omap resp_read turns) /\
      (cw_at w = CwReturned CwDrained -> sp_fin_received v = true ->
       is_complete_through (sp_reorder v) (sp_fin_seq v) = true ->
       cw_out w = concat (omap resp_read turns)))).
Proof.
  intros Hrun Hlen Hsent Hcar Hwin Hes. apply (reader_bytes window turns cid h t fs p); try done.
  eapply Forall_impl; [exact Hes|]. intros e. by apply (returns_own cid _ links rcvds).
Qed.
End end_to_end.

(** ** Witness *)
#[local] Existing Instance RefTokio.
#[local] Existing Instance RefBufMut.
#[local] Existing Instance RefDashIter.

Definition demo_frames : list Frame := [frame_data 9 1 [x61]; frame_data 9 2 [x62; x63]; frame_fin 9 3].
(** Two tunnels: the second frame overtakes the first, and the FIN both. *)
Definition demo_links : list (list Frame) :=
  [[frame_data 9 2 [x62; x63]]; [frame_data 9 1 [x61]; frame_fin 9 3]].

(** The handler's SYN goes with them.  Frame 2 waits for the connect, with a frame of
    another client around it; the FIN, frame 1 and the writer follow. *)
Definition demo_syn9 : Frame :=
  frame_syn 9 (be_bytes 1 PROTO_TCP ++ be_bytes 2 1 ++ [x61] ++ be_bytes 2 80).
Definition demo_up : list (list Frame) :=
  [[demo_syn9; frame_data 9 2 [x62; x63]]; [frame_data 9 1 [x61]; frame_fin 9 3]].
Definition demo_arrivals1 : list XEvent :=
  [XR (EvFrame (frame_data 9 2 [x62; x63]) 0) 1; XR (EvFrame (frame_data 4 1 [x78]) 0) 2;
   XR (EvFrame demo_syn9 0) 3; XR (EvConnected 0 10 ConnectOk) 4].
Definition demo_arrivals2 : list XEvent :=
  [XR (EvFrame (frame_fin 9 3) 1) 5; XR (EvFrame (frame_data 4 2 [x79]) 1) 6;
   XR (EvFrame (frame_data 9 1 [x61]) 1) 7; XR (EvHeartbeat 8) 8] ++
  map (XW 10) [WvPoll false; WvWritten; WvPoll false; WvWritten; WvPoll false; WvNext; WvShutdown].

Lemma demo_carried fs :
  frame_bytes <$> fs <> [] -> Forall frame_ok fs -> tunnel_carries fs fs.
Proof.
  intros Hne Hok. exists (map frame_bytes fs), (map frame_bytes fs), (S (length (concat (map frame_bytes fs)))).
  assert (Forall (fun c => c <> []) (map frame_bytes fs)) as Hnn.
  { apply Forall_map, Forall_forall. intros f _ E. apply (f_equal length) in E.
    rewrite length_frame_bytes in E. cbn in E. lia. }
  split_and!; [|done|done|lia|].
  - clear Hne Hnn. induction Hok as [|f fs Hf Hok IH]; cbn; constructor; [|done].
    by apply frame_encode_ok, Hf.
  - rewrite decode_stream_chunks; [|done|cbn; lia].
    cbn [app]. rewrite <- (app_nil_r (concat (map frame_bytes fs))) at 2.
    by rewrite parse_all_frames by (done || (rewrite app_nil_r; lia)).
Qed.

Lemma demo_only_sent : only_sent 9 demo_frames demo_links.
Proof.
  split.
  - repeat constructor; zcompute.
  - intros f Hf _ _. change (concat demo_links) with
      [frame_data 9 2 [x62; x63]; frame_data 9 1 [x61]; frame_fin 9 3] in Hf.
    rewrite !elem_of_cons in Hf. unfold demo_frames. rewrite !elem_of_cons. tauto.
Qed.

Lemma demo_up_sent : only_sent 9 demo_frames demo_up.
Proof.
  split.
  - repeat constructor; zcompute.
  - intros f Hf _ Hd. change (concat demo_up) with
      [demo_syn9; frame_data 9 2 [x62; x63]; frame_data 9 1 [x61]; frame_fin 9 3] in Hf.
    apply elem_of_cons in Hf as [->|Hf]; [discriminate Hd|].
    rewrite !elem_of_cons in Hf. unfold demo_frames. rewrite !elem_of_cons. tauto.
Qed.

Lemma demo_all_carried : Forall2 tunnel_carries demo_links demo_links.
Proof. repeat constructor; (apply demo_carried; [discriminate|repeat constructor; zcompute]). Qed.
Lemma demo_up_carried : Forall2 tunnel_carries demo_up demo_up.
Proof. repeat constructor; (apply demo_carried; [discriminate|repeat constructor; zcompute]). Qed.

Definition demo_dns (host : bytes) (port : Z) : option IpAddr := None.


(** The response "abc" in two chunks, the second frame and the FIN first. *)
Definition demo_rstate : RState := reassembler_init demo_pool.
Definition demo_reads : list reader_input :=
  [(RdChunk [x61] RaceSent demo_pool, 1, demo_rstate); (RdChunk [x62; x63] RaceSent demo_pool, 2, demo_rstate);
   (RdEof RaceSent demo_pool, 3, demo_rstate)].
(** The client's connection, then the frames: the writer runs between two writes of a
    delivery, a frame for nobody passes, and the handler removes the entry. *)
Definition demo_target : TargetAddr := mkTargetAddr [x61] 80.
Definition demo_opened : list YEvent := [YS (SvTcpOpen [0; 9] 0 demo_target []) 1].
Definition demo_response : list YEvent :=
  [YPush (frame_data 9 2 [x62; x63]); YEnd 0 5; YS (SvInbound (frame_fin 9 3)) 5;
   YPush (frame_data 9 1 [x61]); YSend 0; YW 0 (CwPoll false); YS (SvInbound (frame_data 4 1 [x78])) 6;
   YSend 0; YEnd 0 6; YW 0 CwWritten; YS (SvTcp (mkTcpClient 9 0 1 TcCleanup []) TcRemove) 7] ++
  map (YW 0) [CwPoll false; CwWritten; CwPoll true; CwShut].

Lemma target_to_client_witness :
  match yrun 65536 demo_opened (ystart demo_pool) with
  | Some y1 =>
    match yrun 65536 demo_response y1 with
    | Some y => sp_conns (ys y1) !! 9 = Some 0%nat /\ cw_out (client_writer_of (yw y) 0) = [x61; x62; x63]
    | None => False
    end
  | None => False
  end.
Proof.
  destruct (yrun 65536 demo_opened (ystart demo_pool)) as [y1|] eqn:E1; [|vm_compute in E1; discriminate E1].
  destruct (yrun 65536 demo_response y1) as [y|] eqn:E2;
    [|vm_compute in E1; injection E1 as <-; vm_compute in E2; discriminate E2].
  assert (sp_conns (ys y1) !! 9 = Some 0%nat) as Hc.
  { vm_compute in E1. injection E1 as <-. vm_compute. reflexivity. }
  split; [exact Hc|].
  destruct (target_to_client 65536 demo_reads 9 0 (mkEgressReader 9 0 3 true) demo_frames
    demo_links demo_links demo_pool demo_opened demo_response y1 y 0) as (v & Hv & H).
  - reflexivity.
  - zcompute.
  - exact demo_only_sent.
  - exact demo_all_carried.
  - lia.
  - repeat apply Forall_cons_2; try apply Forall_nil_2; try exact I; cbn; intros Hd; try discriminate Hd;
      rewrite !elem_of_cons; tauto.
  - exact E1.
  - exact Hc.
  - exact E2.
  - assert (sp_is_udp v = false /\ sp_fin_received v = true /\ y_broken y = [] /\
      is_complete_through (sp_reorder v) (sp_fin_seq v) = true /\
      cw_at (client_writer_of (yw y) 0) = CwReturned CwDrained) as (Hu & Hf & Hb & Hcm & Hd).
    { vm_compute in E1. injection E1 as <-. vm_compute in E2. injection E2 as <-.
      vm_compute in Hv. injection Hv as <-. vm_compute. by repeat split. }
    destruct (H Hu) as [_ P]. apply P; [rewrite Hb; apply not_elem_of_nil|exact Hd|exact Hf|exact Hcm].
Defined.
