(* ===== verification/World.v ===== *)
(** * The two processes and the tunnels between them

    [World] is the splitter ([SplitterNode]), the reassembler ([ReassemblerNode]) and the
    TCP connections that join a link of one with a link of the other.  What crosses is
    bytes: a read loop gets what the drain task at the other end wrote, through the
    decoder, and every frame that a process handles was decoded so.  The clients, the
    targets, the timers and the scheduler are the events. *)
From Stdlib Require Import ZArith Lia.
From Stdlib Require Import Strings.Byte.
From stdpp Require Import base numbers list option fin_maps gmap.
From S2P Require Import Prelude Runtime Frames Reorder Tunnel Net.
From S2P Require Import Socks5 Wire PoolSends Wires Reassembler.
From S2P Require Import EgressWriter EgressFacts ReassemblerStream ReassemblerSends.
From S2P Require Import Splitter SplitterTcp TunnelTask LinkTask LinkFacts ClientConn ClientFacts.
From S2P Require Import SplitterStream SplitterNode ReassemblerNode.
Local Open Scope Z_scope.

Section world.
Context {T : Tokio} {D : DashIter} {B : BufMut}.
Context (lookup_host : bytes -> Z -> option IpAddr) (s_window r_window : Z) (f64_exp : f64 -> f64).

(** [w_peer]: the link of the reassembler at the other end of a link of the splitter. *)
Record World : Type := mkWorld {
  w_s : Node;
  w_r : RNode;
  w_peer : gmap nat nat;
}.

Inductive world_event : Type :=
| WConnect (k i j : nat) (now now_ms : Z)
    (** tunnel task [k] connects: link [i] of the splitter, link [j] of the reassembler *)
| WUp (i n m : nat) (now now_ms : Z)
    (** the reassembler reads up to [n] bytes of the tunnel; [m] names a SYN handler *)
| WDown (k n : nat) (now : Z)
    (** the splitter reads up to [n] bytes of the tunnel of task [k] *)
| WSplitter (e : node_event)
| WReassembler (e : rnode_event).

(** Frames and tunnels come only by the first three. *)
Definition s_internal (e : node_event) : bool :=
  match e with NvFrame _ _ _ | NvTunnel _ (TvConnected _) _ => false | _ => true end.
Definition r_internal (e : rnode_event) : bool :=
  match e with RnLink (LvAccept _ _) | RnLink (LvFrame _ _ _ _ _) => false | _ => true end.

(** The read loop of link [j] of the reassembler at its [select!]. *)
Definition reading (j : nat) (r : RNode) : bool :=
  match l_readers (r_l r) !! j with Some LrReading => true | _ => false end.

Definition on_splitter (f : Node -> option Node) (w : World) : option World :=
  match f (w_s w) with Some s => Some (mkWorld s (w_r w) (w_peer w)) | None => None end.
Definition on_reassembler (f : RNode -> option RNode) (w : World) : option World :=
  match f (w_r w) with Some r => Some (mkWorld (w_s w) r (w_peer w)) | None => None end.

Definition world_up (i n m : nat) (now now_ms : Z) (w : World) : option World :=
  match w_peer w !! i with
  | None => None
  | Some j =>
    if reading j (w_r w) then
      match read_at i n (n_wires (w_s w)) with
      | Some (o, ws) =>
        let w1 := mkWorld (with_wires ws (w_s w)) (w_r w) (w_peer w) in
        match o with
        | NextFrame f =>
          on_reassembler (rnode_step lookup_host r_window f64_exp (RnLink (LvFrame j f m now now_ms))) w1
        | NextPending => Some w1
        | _ => None
        end
      | None => None
      end
    else None
  end.

Definition world_down (k n : nat) (now : Z) (w : World) : option World :=
  match tt_phase (default tunnel_start (n_tasks (w_s w) !! k)) with
  | TtReading i =>
    match w_peer w !! i with
    | None => None
    | Some j =>
      match read_at j n (r_wires (w_r w)) with
      | Some (o, ws) =>
        let w1 := mkWorld (w_s w) (with_rwires ws (w_r w)) (w_peer w) in
        match o with
        | NextFrame f => on_splitter (node_step s_window f64_exp (NvFrame k f now)) w1
        | NextPending => Some w1
        | _ => None
        end
      | None => None
      end
    end
  | _ => None
  end.

Definition world_step (e : world_event) (w : World) : option World :=
  match e with
  | WConnect k i j now now_ms =>
    match node_step s_window f64_exp (NvTunnel k (TvConnected i) now) (w_s w),
          rnode_step lookup_host r_window f64_exp (RnLink (LvAccept j now_ms)) (w_r w) with
    | Some s, Some r => Some (mkWorld s r (<[i := j]> (w_peer w)))
    | _, _ => None
    end
  | WUp i n m now now_ms => world_up i n m now now_ms w
  | WDown k n now => world_down k n now w
  | WSplitter e => if s_internal e then on_splitter (node_step s_window f64_exp e) w else None
  | WReassembler e =>
    if r_internal e then on_reassembler (rnode_step lookup_host r_window f64_exp e) w else None
  end.

Fixpoint world_run (es : list world_event) (w : World) : option World :=
  match es with
  | [] => Some w
  | e :: es' => match world_step e w with Some w' => world_run es' w' | None => None end
  end.

Definition world_start : World := mkWorld node_start rnode_start ∅.
End world.
