(* ===== verification/WorldFacts.v ===== *)
(** * What crosses the tunnels in a run of both processes

    In any run of [World] the frames that one process handles were sent by the handlers
    and readers of the other; so the bytes of a target reach the client in order.  A step of
    [World] is at most one step of each process ([world_step_parts]). *)
From Stdlib Require Import ZArith Lia.
From Stdlib Require Import Strings.Byte.
From stdpp Require Import base numbers list option fin_maps gmap.
From S2P Require Import Prelude Runtime Frames Reorder Tunnel Net.
From S2P Require Import Socks5 Wire PoolSends Wires Reassembler.
From S2P Require Import EgressWriter EgressFacts ReassemblerStream ReassemblerSends.
From S2P Require Import Splitter SplitterTcp SplitterUdp SplitterSends TunnelTask LinkTask LinkFacts ClientConn ClientFacts.
From S2P Require Import SplitterStream SplitterNode SplitterNodeFacts ReassemblerNode ReassemblerNodeFacts.
From S2P Require Import EndToEnd World.
Local Open Scope Z_scope.

Section world_facts.
Context {T : Tokio} {TL : TokioLaws T} {D : DashIter} {DL : DashIterLaws D} {B : BufMut} {BL : BufMutLaws B}.
Context (lookup_host : bytes -> Z -> option IpAddr) (s_window r_window : Z) (f64_exp : f64 -> f64).
Notation wstep := (world_step lookup_host s_window r_window f64_exp).
Notation wrun := (world_run lookup_host s_window r_window f64_exp).

(** ** Invariant *)
Record world_inv (w : World) : Prop := {
  ww_s : node_inv (w_s w);
  ww_r : rnode_inv (w_r w);
  ww_queued : queued_ok (node_emits (w_s w)) (w_r w);
}.

(** Frames that went up belong to the splitter's clients, frames that came down to the
    reassembler's readers; both processes did only what their shared state allows. *)
Record follows_from (F : nat -> Z -> Prop) (w w' : World) : Prop := {
  ff_s : grows (w_s w) (w_s w');
  ff_r : r_grows (w_r w) (w_r w');
  ff_x : x_simulated lookup_host r_window (node_emits (w_s w')) F (r_x (w_r w)) (r_x (w_r w'));
  ff_y : y_simulated s_window (rnode_emits (w_r w')) (n_y (w_s w)) (n_y (w_s w'));
}.

Lemma x_simulated_mono (P Q : Frame -> Prop) F x x' :
  (forall f, P f -> Q f) -> x_simulated lookup_host r_window P F x x' -> x_simulated lookup_host r_window Q F x x'.
Proof.
  intros H (es & Hr & Hf). exists es. split; [done|]. eapply Forall_impl; [exact Hf|].
  intros e He. destruct e as [[]| |]; try done. cbn in *. by apply H.
Qed.

Lemma y_simulated_mono (P Q : Frame -> Prop) y y' :
  (forall f, P f -> Q f) -> y_simulated s_window P y y' -> y_simulated s_window Q y y'.
Proof.
  intros H (es & Hr & Hf). exists es. split; [done|]. eapply Forall_impl; [exact Hf|].
  intros e He. destruct e as [[]| | | | | | |]; try done; cbn in *; by apply H.
Qed.

#[local] Instance follows_from_preorder F : PreOrder (follows_from F).
Proof.
  split; [intros w; by split|]. intros w1 w2 w3 [A1 A2 A3 A4] [B1 B2 B3 B4]. split; [by etrans|by etrans| |].
  - etrans; [|exact B3]. eapply x_simulated_mono; [|exact A3]. intros f. by apply grows_emits.
  - etrans; [|exact B4]. eapply y_simulated_mono; [|exact A4]. intros f. by apply r_grows_emits.
Qed.

Lemma splitter_step F e w s :
  world_inv w -> (forall k f now, e = NvFrame k f now -> rnode_emits (w_r w) f) ->
  node_step s_window f64_exp e (w_s w) = Some s ->
  world_inv (mkWorld s (w_r w) (w_peer w)) /\ follows_from F w (mkWorld s (w_r w) (w_peer w)).
Proof.
  intros [HS HR HQ] He Hs. destruct (node_step_inv _ _ e _ _ HS Hs) as [HS' G]. split.
  - split; [done|done|]. intros k f Hf. eapply grows_emits; [exact G|]. by eapply HQ.
  - split; cbn; [done|done|reflexivity|]. by eapply node_sim.
Qed.

Lemma reassembler_step (F : nat -> Z -> Prop) e w r :
  world_inv w -> (forall i f k now ms, e = RnLink (LvFrame i f k now ms) -> node_emits (w_s w) f) ->
  (forall i now, e = RnOther (XR (EvFallback i) now) -> F i now) ->
  rnode_step lookup_host r_window f64_exp e (w_r w) = Some r ->
  world_inv (mkWorld (w_s w) r (w_peer w)) /\ follows_from F w (mkWorld (w_s w) r (w_peer w)).
Proof.
  intros [HS HR HQ] He HF Hs. destruct (rnode_step_inv _ _ _ e _ _ HR Hs) as [HR' G].
  destruct (rnode_sim lookup_host r_window f64_exp _ F e _ _ HR HQ He HF Hs) as [Hsim HQ'].
  split; [by split|]. split; cbn; [done|done|exact Hsim|reflexivity].
Qed.

(** A read changes only the tunnel, and what it decodes was sent. *)
Lemma read_up i n o ws w :
  world_inv w -> read_at i n (n_wires (w_s w)) = Some (o, ws) ->
  world_inv (mkWorld (with_wires ws (w_s w)) (w_r w) (w_peer w)) /\
  match o with NextFrame f => node_emits (w_s w) f | NextPending => True | _ => False end.
Proof.
  intros [HS HR HQ] Hr. destruct (read_at_ok (node_emits (w_s w)) i n (n_arcs (w_s w)) _ _ _ (nv_wires _ HS) Hr) as [HW Ho].
  split; [|destruct o; [apply Ho|done..]]. split; [|done|exact HQ].
  split; [destruct HS as [[] _]; by split|exact HW].
Qed.

Lemma read_down j n o ws w :
  world_inv w -> read_at j n (r_wires (w_r w)) = Some (o, ws) ->
  world_inv (mkWorld (w_s w) (with_rwires ws (w_r w)) (w_peer w)) /\
  match o with NextFrame f => rnode_emits (w_r w) f | NextPending => True | _ => False end.
Proof.
  intros [HS HR HQ] Hr. destruct (read_at_ok (rnode_emits (w_r w)) j n (r_arcs (w_r w)) _ _ _ (rv_wires _ HR) Hr) as [HW Ho].
  split; [|destruct o; [apply Ho|done..]]. split; [done| |exact HQ].
  destruct HR as [[] [] _]. split; [by split|by split|exact HW].
Qed.

Definition fallback_event (e : world_event) (i : nat) (now : Z) : Prop :=
  e = WReassembler (RnOther (XR (EvFallback i) now)).

Lemma world_step_inv (F : nat -> Z -> Prop) e w w' :
  world_inv w -> (forall i now, fallback_event e i now -> F i now) -> wstep e w = Some w' ->
  world_inv w' /\ follows_from F w w'.
Proof.
  intros HI HF Hs. destruct e as [k i j now now_ms|i n m now now_ms|k n now|e|e]; cbn [world_step] in Hs.
  - destruct (node_step _ _ _ _) as [s|] eqn:Es; [|done]. destruct (rnode_step _ _ _ _ _) as [r|] eqn:Er; [|done].
    injection Hs as <-. destruct (splitter_step F (NvTunnel k (TvConnected i) now) w s HI ltac:(done) Es) as [HI1 H1].
    destruct (reassembler_step F (RnLink (LvAccept j now_ms)) (mkWorld s (w_r w) (w_peer w)) r HI1 ltac:(done) ltac:(done) Er) as [HI2 H2].
    destruct HI2 as [A1 A2 A3]. split; [by split|]. pose proof (transitivity H1 H2) as [B1 B2 B3 B4]. by split.
  - unfold world_up in Hs. destruct (w_peer w !! i) as [j|]; [|done]. destruct (reading j _); [|done].
    destruct (read_at i n _) as [[o ws]|] eqn:Er; [|done]. destruct (read_up i n o ws w HI Er) as [HI1 Ho].
    assert (follows_from F w (mkWorld (with_wires ws (w_s w)) (w_r w) (w_peer w))) as G1.
    { split; cbn; [by apply grows_same|done|reflexivity|reflexivity]. }
    destruct o as [f| |e|]; try done; [|by injection Hs as <-]. unfold on_reassembler in Hs.
    destruct (rnode_step _ _ _ _ _) as [r|] eqn:Es; [|done]. injection Hs as <-.
    destruct (reassembler_step F (RnLink (LvFrame j f m now now_ms)) _ r HI1) as [HI2 G2];
      [by intros ????? [= <- <- <- <- <-]|done|exact Es|split; [done|by etrans]].
  - unfold world_down in Hs. destruct (tt_phase _) as [|i| | |]; try done. destruct (w_peer w !! i) as [j|]; [|done].
    destruct (read_at j n _) as [[o ws]|] eqn:Er; [|done]. destruct (read_down j n o ws w HI Er) as [HI1 Ho].
    assert (follows_from F w (mkWorld (w_s w) (with_rwires ws (w_r w)) (w_peer w))) as G1.
    { split; cbn; [done|by apply r_grows_same|reflexivity|reflexivity]. }
    destruct o as [f| |e|]; try done; [|by injection Hs as <-]. unfold on_splitter in Hs.
    destruct (node_step _ _ _ _) as [s|] eqn:Es; [|done]. injection Hs as <-.
    destruct (splitter_step F (NvFrame k f now) _ s HI1) as [HI2 G2];
      [by intros ??? [= <- <- <-]|exact Es|split; [done|by etrans]].
  - destruct (s_internal e) eqn:Hi; [|done]. unfold on_splitter in Hs.
    destruct (node_step _ _ e _) as [s|] eqn:Es; [|done]. injection Hs as <-.
    apply (splitter_step F e w s HI); [|done]. by intros k f now ->.
  - destruct (r_internal e) eqn:Hi; [|done]. unfold on_reassembler in Hs.
    destruct (rnode_step _ _ _ e _) as [r|] eqn:Es; [|done]. injection Hs as <-.
    apply (reassembler_step F e w r HI); [|intros i now ->; by apply HF|done]. by intros i f k now ms ->.
Qed.

Lemma world_start_inv : world_inv world_start.
Proof.
  split; [apply node_start_inv|apply rnode_start_inv|]. intros k f H. cbn in H. by rewrite lookup_empty in H.
Qed.

Lemma world_run_inv (F : nat -> Z -> Prop) es : forall w w',
  world_inv w -> (forall e i now, e ∈ es -> fallback_event e i now -> F i now) -> wrun es w = Some w' ->
  world_inv w' /\ follows_from F w w'.
Proof.
  induction es as [|e es IH]; intros w w' HI HF Hr; cbn in Hr; [injection Hr as <-; by split|].
  destruct (wstep e w) as [w1|] eqn:Es; [|done].
  destruct (world_step_inv F e w w1 HI) as [HI1 G1]; [|done|].
  { intros i now. apply HF, elem_of_cons. by left. }
  destruct (IH w1 w' HI1) as [HI2 G2]; [|done|split; [done|by etrans]].
  intros e' i now He'. apply HF, elem_of_cons. by right.
Qed.

(** ** A step, seen by each process *)

(** The splitter: a read of the tunnels, nothing, or a step of its own; a frame it handles
    left the reassembler. *)
Definition splitter_part (w w' : World) : Prop :=
  (exists ws, w_s w' = with_wires ws (w_s w)) \/ w_s w' = w_s w \/
  (exists e, node_step s_window f64_exp e (w_s w) = Some (w_s w') /\
     forall k f now, e = NvFrame k f now -> rnode_emits (w_r w) f).

Definition reassembler_part (w w' : World) : Prop :=
  (exists ws, w_r w' = with_rwires ws (w_r w)) \/ w_r w' = w_r w \/
  (exists e, rnode_step lookup_host r_window f64_exp e (w_r w) = Some (w_r w')).

Lemma world_step_parts e w w' :
  world_inv w -> wstep e w = Some w' -> splitter_part w w' /\ reassembler_part w w'.
Proof.
  intros HI Hs. unfold splitter_part, reassembler_part.
  destruct e as [k i j now now_ms|i n m now now_ms|k n now|e|e]; cbn [world_step] in Hs.
  - destruct (node_step _ _ _ _) as [s|] eqn:Es; [|done]. destruct (rnode_step _ _ _ _ _) as [r|] eqn:Er; [|done].
    injection Hs as <-. split; right; right; [exists (NvTunnel k (TvConnected i) now)|eexists]; [by split|exact Er].
  - unfold world_up in Hs. destruct (w_peer w !! i) as [j|]; [|done]. destruct (reading j _); [|done].
    destruct (read_at i n _) as [[[f| |e|] ws]|]; try done; [|injection Hs as <-; split; eauto]. unfold on_reassembler in Hs.
    destruct (rnode_step _ _ _ _ _) as [r|] eqn:Es; [|done]. injection Hs as <-.
    cbn [w_r w_s] in *. split; eauto 10.
  - unfold world_down in Hs. destruct (tt_phase _) as [|i| | |]; try done. destruct (w_peer w !! i) as [j|]; [|done].
    destruct (read_at j n _) as [[o ws]|] eqn:Er; [|done]. destruct (read_down j n o ws w HI Er) as [_ Ho].
    destruct o as [f| |e|]; try done; [|injection Hs as <-; split; eauto]. unfold on_splitter in Hs.
    destruct (node_step _ _ _ _) as [s|] eqn:Es; [|done]. injection Hs as <-.
    cbn [w_r w_s] in *. split; [right; right|eauto].
    exists (NvFrame k f now). split; [done|]. by intros ??? [= <- <- <-].
  - destruct (s_internal e) eqn:Hi; [|done]. unfold on_splitter in Hs.
    destruct (node_step _ _ e _) as [s|] eqn:Es; [|done]. injection Hs as <-. split; [right; right|eauto].
    exists e. split; [done|]. by intros k f now ->.
  - destruct (r_internal e); [|done]. unfold on_reassembler in Hs.
    destruct (rnode_step _ _ _ e _) as [r|] eqn:Es; [|done]. injection Hs as <-. cbn [w_r w_s]. split; eauto 10.
Qed.

Lemma world_run_app es1 es2 w : wrun (es1 ++ es2) w = match wrun es1 w with Some w1 => wrun es2 w1 | None => None end.
Proof.
  revert w. induction es1 as [|e es1 IH]; intros w; cbn; [done|]. by destruct (wstep e w).
Qed.

(** Induction on a run, from its start. *)
Lemma world_run_ind (I : World -> Prop) :
  I world_start ->
  (forall es w e w', wrun es world_start = Some w -> I w -> wstep e w = Some w' -> I w') ->
  forall es w, wrun es world_start = Some w -> I w.
Proof.
  intros H0 HS es. induction es as [|e es IH] using rev_ind; intros w Hr; [cbn in Hr; by injection Hr as <-|].
  rewrite world_run_app in Hr. destruct (wrun es world_start) as [w1|] eqn:E; [|done]. cbn in Hr.
  destruct (wstep e w1) as [w2|] eqn:Es; [|done]. injection Hr as <-. by eapply HS; [|apply IH|].
Qed.

(** ** One connection *)

(** The splitter gave the id [cid] to client [h] and to nobody else. *)
Definition sole_client (n : Node) (h : nat) (cid : Z) : Prop :=
  (forall h' H, n_handlers n !! h' = Some H -> tc_cid (h_task H) = cid -> h' = h) /\
  (forall i x, n_udp n !! i = Some x -> uc_cid (ur_client (u_relay x)) <> cid).

(** Only reader [j] of the reassembler answers under [cid]. *)
Definition sole_reader (n : RNode) (j : nat) (cid : Z) : Prop :=
  (forall j' r, r_readers n !! j' = Some r -> rd_cid (e_task r) = cid -> j' = j) /\
  (forall i q, r_udp n !! i = Some q -> q_cid q <> cid).

Lemma stream_frame_cid cid cs fin f : f ∈ data_frames cid cs ++ fin_frames cid fin cs -> conn_id f = cid.
Proof.
  intros [Hf|Hf]%elem_of_app.
  - apply list_elem_of_lookup_1 in Hf as [j Hj]. unfold data_frames in Hj. rewrite list_lookup_imap in Hj.
    destruct (cs !! j); [|done]. by injection Hj as <-.
  - destruct fin; [|by apply elem_of_nil in Hf]. by apply list_elem_of_singleton in Hf as ->.
Qed.

Lemma carries_data f : has_flag f FLAG_DATA || has_flag f FLAG_FIN = true -> carries f = true.
Proof. intros H. unfold carries. rewrite H. apply orb_true_r. Qed.

(** Whose frame: DATA and FIN of a client, or its SYN. *)
Lemma handler_frame_cid h H f : handler_ok h H -> handler_frame H f -> conn_id f = tc_cid (h_task H).
Proof.
  intros HH [Hf|(syn & _ & ->)]; [|done].
  destruct (tcp_run_inv _ _ _ _ (ho_run _ _ HH)) as (fin & lost & [_ _ _ E _ _ _ _]). rewrite E in Hf. by apply stream_frame_cid in Hf.
Qed.

Lemma relay_frame_cid i x f : relay_ok i x -> relay_frame x f -> conn_id f = uc_cid (ur_client (u_relay x)).
Proof.
  intros Hx [Hf|(syn & _ & ->)]; [|done].
  destruct (relay_run_ok _ _ _ _ _ (uo_run _ _ Hx)) as (ds & [_ _ _ E _]). rewrite E in Hf.
  apply (stream_frame_cid _ ds false), elem_of_app. by left.
Qed.

Lemma emitted_own n h H f :
  node_inv n -> n_handlers n !! h = Some H -> sole_client n h (tc_cid (h_task H)) ->
  node_emits n f -> own_frame (tc_cid (h_task H)) (tc_sent (h_task H)) f.
Proof.
  intros [[_ HI HU] _] Hh [U1 U2] [_ Ho] Hc Hf. destruct (Ho (carries_data f Hf)) as [(h' & H' & Hh' & Hs)|(i & x & Hi & Hs)].
  - pose proof (handler_frame_cid h' H' f (HI h' H' Hh') Hs) as Hid.
    rewrite (U1 h' H' Hh') in Hh' by congruence. rewrite Hh in Hh'. injection Hh' as <-.
    destruct Hs as [Hs|(syn & _ & ->)]; [exact Hs|discriminate Hf].
  - pose proof (relay_frame_cid i x f (HU i x Hi) Hs) as Hid. destruct (U2 i x Hi). congruence.
Qed.

Lemma remitted_own n j r f :
  rnode_inv n -> r_readers n !! j = Some r -> sole_reader n j (rd_cid (e_task r)) ->
  rnode_emits n f -> own_frame (rd_cid (e_task r)) (e_sent r) f.
Proof.
  intros [_ [HI _] _] Hj [U1 U2] [_ Ho] Hc Hf. destruct (Ho (carries_data f Hf)) as [(j' & r' & Hj' & Hs)|(i & q & Hi & Hs)].
  - destruct (reader_run_stream _ _ _ _ _ (ro_run _ _ (HI j' r' Hj'))) as (fin & lost & E & _).
    assert (rd_cid (e_task r') = conn_id f) as Hid by (rewrite E in Hs; by apply stream_frame_cid in Hs).
    rewrite (U1 j' r' Hj') in Hj' by congruence. rewrite Hj in Hj'. by injection Hj' as <-.
  - destruct Hs as (sq & src & data & dgram & _ & _ & ->). by destruct (U2 i q Hi).
Qed.

(** The fallback timers that fire in [es]. *)
Definition fired (es : list world_event) (i : nat) (now : Z) : Prop :=
  exists e, e ∈ es /\ fallback_event e i now.

Lemma world_run_fired es w w' es' :
  world_inv w -> wrun es w = Some w' -> (forall e, e ∈ es -> e ∈ es') ->
  world_inv w' /\ follows_from (fired es') w w'.
Proof. intros HI Hr Hs. apply (world_run_inv _ es); [done| |done]. intros e i now He Hf. exists e. auto. Qed.

(** What the two halves of a run did. *)
Lemma world_halves es1 es2 w1 w :
  wrun es1 world_start = Some w1 -> wrun es2 w1 = Some w ->
  world_inv w /\ follows_from (fired (es1 ++ es2)) world_start w1 /\ follows_from (fired (es1 ++ es2)) w1 w.
Proof.
  intros H1 H2. destruct (world_run_fired es1 _ _ (es1 ++ es2) world_start_inv H1) as [HI G1].
  { intros e He. apply elem_of_app. by left. }
  destruct (world_run_fired es2 _ _ (es1 ++ es2) HI H2) as [HI' G2]; [|done].
  intros e He. apply elem_of_app. by right.
Qed.

(** ** Properties *)

(** C2: the way back.  In a run as above, if one reader of the reassembler answers
    under an id, then what the client of a connection that was ever in the splitter's
    table for that id has been given is always a prefix of some of the chunks that the
    reader read from the target, in their order; chunks are missing only where a call of
    [on_frame] returned true.  Without that, it is a prefix of what the target sent; and
    when the FIN has arrived, the stream is complete through it, and the writer task
    drained its channel, only what the reader had not read or had in its hands is
    missing. *)
Theorem world_target_to_client es1 es2 w1 w j r i :
  wrun es1 world_start = Some w1 -> wrun es2 w1 = Some w ->
  r_readers (w_r w) !! j = Some r -> sole_reader (w_r w) j (rd_cid (e_task r)) ->
  zlen (omap resp_read (e_turns r)) < 2 ^ 64 - 2 -> 0 <= s_window ->
  sp_conns (n_state (w_s w1)) !! rd_cid (e_task r) = Some i ->
  exists v, sp_vcs (n_state (w_s w)) !! i = Some v /\
    (sp_is_udp v = false ->
     let out := cw_out (client_writer_of (yw (n_y (w_s w))) i) in
     (exists kept, kept `sublist_of` omap resp_read (e_turns r) /\ out `prefix_of` concat kept) /\
     (i ∉ y_broken (n_y (w_s w)) ->
      out `prefix_of` e_stream r /\
      (cw_at (client_writer_of (yw (n_y (w_s w))) i) = CwReturned CwDrained -> sp_fin_received v = true ->
       is_complete_through (sp_reorder v) (sp_fin_seq v) = true ->
       e_stream r = out ++ in_flight (e_sending r) ++ e_unread r))).
Proof.
  intros Hr1 Hr2 Hj Hu Hlen Hwin Hi. destruct (world_halves es1 es2 w1 w Hr1 Hr2) as (HI & [_ _ _ F1] & [_ G2 _ F2]).
  destruct (y_simulated_mono _ _ _ _ (fun f => r_grows_emits _ _ f G2) F1) as (ys1 & Y1 & C1).
  destruct F2 as (ys2 & Y2 & C2). pose proof (rt_readers _ (rv_tasks _ (ww_r _ HI)) j r Hj) as HR.
  destruct (reader_bytes s_window (e_turns r) (rd_cid (e_task r)) j (e_task r) (e_sent r) pool_new ys1 ys2 (n_y (w_s w1))
    (n_y (w_s w)) i (ro_run _ _ HR) Hlen Hwin) as (v & Hv & P); [|exact Y1|exact Hi|exact Y2|].
  { eapply Forall_impl; [apply Forall_app; by split|]. intros e He.
    destruct e as [[]| | | | | | |]; try exact I; by apply (remitted_own (w_r w) j r _ (ww_r _ HI) Hj Hu). }
  exists v. split; [exact Hv|]. intros Hudp out. destruct (P Hudp) as [P1 P2]. split; [exact P1|]. intros Hb.
  destruct (P2 Hb) as [P3 P4]. rewrite (ro_socket _ _ HR). split; [by apply prefix_app_r|].
  intros Ha Hf Hcpl. by rewrite <- (P4 Ha Hf Hcpl).
Qed.
End world_facts.

(** ** Witness *)
#[local] Existing Instance RefTokio.
#[local] Existing Instance RefBufMut.
#[local] Existing Instance RefDashIter.

(** Two tunnels.  The client's SYN and first frame go by the first; the frame's bytes are
    in the socket, half read, when the splitter ends that tunnel.  The rest goes by the
    second and is read first.  The response takes the second tunnel. *)
Definition up_written (i : nat) (t : Z) : list world_event :=
  [WSplitter (NvDrain i EvRecv); WSplitter (NvDrain i (EvWritten f64_one t))].
Definition down_written (i : nat) (t : Z) : list world_event :=
  [WReassembler (RnDrain i EvRecv); WReassembler (RnDrain i (EvWritten f64_one t))].
(** "SOCKS5, one method: none", "CONNECT to the domain a, port 80", and the byte "a". *)
Definition demo_hello : bytes := [x05; x01; x00; x05; x01; x00; x03; x01; x61; x00; x50; x61].
Definition demo_session1 : list world_event :=
  [WConnect 0 0 0 0 0; WConnect 1 1 1 0 0; WSplitter (NvClient [9] 5 None demo_hello 1);
   WSplitter (NvHandler 5 (HvRead 100) 2); WSplitter (NvHandler 5 HvPass 2)] ++
  up_written 0 2 ++ up_written 0 3 ++
  [WUp 0 15 0 3 3; WUp 0 10 7 3 3; WReassembler (RnLink (LvRun 7 4));
   WReassembler (RnLink (LvResume None 7 (EvConnected 7 10 ConnectOk) 5 5))].
Definition demo_session2 : list world_event :=
  [WSplitter (NvTunnel 0 TvReadEnd 6); WSplitter (NvDrain 0 EvStop); WSplitter (NvDrain 0 EvFlush);
   WSplitter (NvDrain 0 EvReturn); WSplitter (NvTunnel 0 (TvDrained false) 6);
   WSplitter (NvHandler 5 (HvArrive [x62; x63]) 7); WSplitter (NvHandler 5 (HvRead 2) 7); WSplitter (NvHandler 5 HvPass 7);
   WSplitter (NvHandler 5 (HvTurn TcEof) 8); WSplitter (NvHandler 5 HvFin 8); WSplitter (NvHandler 5 HvPass 8)] ++
  up_written 1 8 ++ up_written 1 8 ++
  [WUp 1 32 0 9 9; WUp 1 32 0 9 9; WUp 0 20 0 9 9] ++
  map (fun e => WReassembler (RnOther (XW 10 e)))
    [WvPoll false; WvWritten; WvPoll false; WvWritten; WvPoll false; WvNext; WvShutdown] ++
  [WReassembler (RnLink (LvReadEnd 0)); WReassembler (RnDrain 0 EvStop); WReassembler (RnDrain 0 EvFlush);
   WReassembler (RnDrain 0 EvReturn); WReassembler (RnLink (LvDrained 0));
   WReassembler (RnReader 10 (RvArrive [x78; x79]) 10); WReassembler (RnReader 10 (RvRead 64) 10);
   WReassembler (RnReader 10 RvPass 10); WReassembler (RnReader 10 (RvEof false) 11); WReassembler (RnReader 10 RvPass 11)] ++
  down_written 1 11 ++ down_written 1 11 ++
  [WDown 1 40 12; WSplitter (NvOther (YSend 5)); WSplitter (NvOther (YEnd 5 12)); WDown 1 0 12] ++
  map (fun e => WSplitter (NvOther (YW 5 e))) [CwPoll false; CwWritten] ++
  [WSplitter (NvHandler 5 (HvTurn TcPoll) 13); WSplitter (NvHandler 5 (HvTurn TcRemove) 14)] ++ map (fun e => WSplitter (NvOther (YW 5 e))) [CwPoll true; CwShut].

Definition demo_world_run (es : list world_event) : World -> option World :=
  world_run demo_dns 65536 65536 (fun x => x) es.

Definition demo_w1 : World := default world_start (demo_world_run demo_session1 world_start).
Definition demo_w : World := default world_start (demo_world_run demo_session2 demo_w1).

Lemma demo_run1 : demo_world_run demo_session1 world_start = Some demo_w1.
Proof. vm_compute. reflexivity. Qed.
Lemma demo_run2 : demo_world_run demo_session2 demo_w1 = Some demo_w.
Proof. vm_compute. reflexivity. Qed.

(** The only tasks of the two sides. *)
Lemma demo_handler :
  (fun H => (tc_cid (h_task H), zlen (omap read_chunk (h_turns H)), h_stream H,
             saw_eof H)) <$> n_handlers (w_s demo_w) !! 5%nat
    = Some (9, 2, [x61; x62; x63], true) /\
  dom (n_handlers (w_s demo_w)) = {[5%nat]} /\ n_udp (w_s demo_w) = ∅.
Proof. split_and!; vm_compute; reflexivity. Qed.
Lemma demo_reader :
  (fun r => (rd_cid (e_task r), zlen (omap resp_read (e_turns r)), e_stream r,
             in_flight (e_sending r) ++ e_unread r)) <$> r_readers (w_r demo_w) !! 10%nat
    = Some (9, 1, [x78; x79], []) /\
  dom (r_readers (w_r demo_w)) = {[10%nat]} /\ r_udp (w_r demo_w) = ∅.
Proof. split_and!; vm_compute; reflexivity. Qed.

Lemma world_target_to_client_witness :
  sp_conns (n_state (w_s demo_w1)) !! 9 = Some 5%nat /\
  [x78; x79] = cw_out (client_writer_of (yw (n_y (w_s demo_w))) 5).
Proof.
  assert (sp_conns (n_state (w_s demo_w1)) !! 9 = Some 5%nat) as Hc by (vm_compute; reflexivity). split; [exact Hc|].
  assert ((fun v => (sp_is_udp v, sp_fin_received v, is_complete_through (sp_reorder v) (sp_fin_seq v))) <$>
      sp_vcs (n_state (w_s demo_w)) !! 5%nat = Some (false, true, true)) as Hv by (vm_compute; reflexivity).
  assert (y_broken (n_y (w_s demo_w)) = []) as Hb by (vm_compute; reflexivity).
  destruct demo_reader as (Hr & Hd & Hu). destruct (r_readers (w_r demo_w) !! 10%nat) as [r|] eqn:E; [|discriminate Hr].
  injection Hr as Hid Hrd Hst Hun.
  destruct (world_target_to_client demo_dns 65536 65536 (fun x => x) demo_session1 demo_session2 demo_w1 demo_w 10 r 5)
    as (v & Hvc & P); [exact demo_run1|exact demo_run2|exact E| | |lia|by rewrite Hid|].
  - split; [|intros i x Hi; rewrite Hu, lookup_empty in Hi; discriminate Hi].
    intros j' r' Hj' _. apply elem_of_dom_2 in Hj'. rewrite Hd in Hj'. by apply elem_of_singleton in Hj'.
  - rewrite Hrd. lia.
  - rewrite Hvc in Hv. injection Hv as Hv1 Hv2 Hv3. destruct (P Hv1) as [_ P2].
    rewrite Hb in P2. destruct (P2 ltac:(apply not_elem_of_nil)) as [_ P3].
    rewrite Hun, app_nil_r, Hst in P3. apply P3; [|exact Hv2|exact Hv3]. vm_compute. reflexivity.
Defined.
