(* ===== verification/WorldOrigin.v ===== *)
(** * Nothing the reassembler does for a client was not asked for

    Across the tunnels of [World]: the targets the reassembler connects to are those that
    clients of the splitter asked for, each gets the bytes that this client sent, and the
    datagrams that leave its UDP sockets are those that clients of a UDP association sent. *)
From Stdlib Require Import ZArith Lia.
From Stdlib Require Import Strings.Byte.
From stdpp Require Import base numbers list option fin_maps gmap.
From S2P Require Import Prelude Runtime Frames Reorder Tunnel Net.
From S2P Require Import Socks5 Socks5Facts Wire PoolSends Wires Reassembler.
From S2P Require Import EgressWriter EgressFacts ReassemblerStream ReassemblerSends ReassemblerOrigin.
From S2P Require Import Splitter SplitterTcp SplitterUdp SplitterSends TunnelTask LinkTask LinkFacts.
From S2P Require Import ClientConn SplitterStream SplitterNode SplitterNodeFacts.
From S2P Require Import ReassemblerNode ReassemblerNodeFacts ReassemblerTargets EndToEnd World WorldFacts.
Local Open Scope Z_scope.

Section world_origin.
Context {T : Tokio} {TL : TokioLaws T} {D : DashIter} {DL : DashIterLaws D} {B : BufMut} {BL : BufMutLaws B}.
Context (lookup_host : bytes -> Z -> option IpAddr) (s_window r_window : Z) (f64_exp : f64 -> f64).
Notation wrun := (world_run lookup_host s_window r_window f64_exp).

(** ** The frames of the splitter *)
Lemma stream_frame_flags cid cs fin f : f ∈ data_frames cid cs ++ fin_frames cid fin cs -> has_flag f FLAG_SYN = false.
Proof.
  intros [Hf|Hf]%elem_of_app.
  - apply list_elem_of_lookup_1 in Hf as [j Hj]. unfold data_frames in Hj. rewrite list_lookup_imap in Hj.
    destruct (cs !! j); [|done]. by injection Hj as <-.
  - destruct fin; [|by apply elem_of_nil in Hf]. by apply list_elem_of_singleton in Hf as ->.
Qed.

Lemma syn_of_decode cid st f st' :
  syn_target_typed st -> syn_of cid st f -> syn_target_decode (payload f) = Ok st' -> st' = st.
Proof.
  intros Ht (syn & He & ->) Hd. change (payload (frame_syn cid syn)) with syn in Hd. rewrite syn_encode_spec in He.
  destruct (zlen (address st) >? 65535) eqn:El; [done|]. injection He as <-.
  rewrite <- (app_nil_r (syn_bytes st)), syn_decode_bytes in Hd; [by injection Hd as <-|done|].
  rewrite Z.gtb_ltb in El. by apply Z.ltb_ge in El.
Qed.

(** Whose SYN, and what it asks for. *)
Lemma emitted_syn n f st :
  node_inv n -> node_emits n f -> has_flag f FLAG_SYN = true -> syn_target_decode (payload f) = Ok st ->
  (exists h H, n_handlers n !! h = Some H /\ tc_cid (h_task H) = conn_id f /\ st = tcp_syn (h_target H)) \/
  (exists i x, n_udp n !! i = Some x /\ uc_cid (ur_client (u_relay x)) = conn_id f /\ st = udp_syn).
Proof.
  intros [[_ HI HU] _] [_ Ho] Hs Hd. destruct Ho as [(h & H & Hh & Hf)|(i & x & Hi & Hf)]; [unfold carries; by rewrite Hs| |].
  - left. exists h, H. pose proof (HI h H Hh) as HH. split; [done|].
    split; [by rewrite (handler_frame_cid h H f HH Hf)|].
    pose proof (ho_run _ _ HH) as Hr. pose proof (handler_target_typed _ _ HH) as Ht. destruct Hf as [Hf|Hf].
    + destruct (tcp_run_inv _ _ _ _ Hr) as (fin & lost & [_ _ _ E _ _ _ _]). rewrite E in Hf.
      apply stream_frame_flags in Hf. congruence.
    + by eapply syn_of_decode.
  - right. exists i, x. pose proof (HU i x Hi) as Hx. split; [done|].
    split; [by rewrite (relay_frame_cid i x f Hx Hf)|]. pose proof (uo_run _ _ Hx) as Hr. destruct Hf as [Hf|Hf].
    + destruct (relay_run_ok _ _ _ _ _ Hr) as (ds & [_ _ _ E _]). rewrite E in Hf.
      assert (has_flag f FLAG_SYN = false); [|congruence].
      apply (stream_frame_flags (uc_cid (ur_client (u_relay x))) ds false), elem_of_app. by left.
    + eapply syn_of_decode; [|exact Hf|exact Hd]. by repeat split; vm_compute.
Qed.

(** Whose DATA. *)
Lemma emitted_data n f :
  node_emits n f -> has_flag f FLAG_DATA = true ->
  (exists h H, n_handlers n !! h = Some H /\ handler_frame H f) \/
  (exists i x, n_udp n !! i = Some x /\ f ∈ ur_frames (u_relay x)).
Proof.
  intros [_ Ho] Hd. destruct Ho as [(h & H & Hh & Hf)|(i & x & Hi & Hf)]; [apply carries_data; by rewrite Hd| |].
  - left. by exists h, H.
  - right. exists i, x. split; [done|]. destruct Hf as [Hf|(syn & _ & ->)]; [done|discriminate Hd].
Qed.

Lemma world_origin es w :
  wrun es world_start = Some w ->
  world_inv w /\ origin_inv lookup_host (node_emits (w_s w)) (r_state (w_r w)).
Proof.
  intros Hr. destruct (world_run_fired lookup_host s_window r_window f64_exp es _ _ es (world_start_inv) Hr) as [HI [_ _ F _]];
    [done|]. split; [done|]. destruct F as (xs & Hx & Hc).
  eapply (xrun_origin lookup_host r_window (node_emits (w_s w)) xs (r_x (w_r world_start)) (r_x (w_r w))); [|apply (origin_start lookup_host _ pool_new)|exact Hx].
  eapply Forall_impl; [exact Hc|]. by intros [[]| |].
Qed.

(** ** The targets *)
Lemma world_targets es w : wrun es world_start = Some w -> targets_inv (node_emits (w_s w)) (w_r w).
Proof.
  revert es w. apply (world_run_ind lookup_host s_window r_window f64_exp); [apply targets_start|].
  intros es w e w' Hr HT Hs. destruct (world_origin es w Hr) as [HI HO].
  destruct (world_step_inv lookup_host s_window r_window f64_exp (fun _ _ => True) e w w' HI ltac:(done) Hs) as [_ [GS _ _ _]].
  destruct (world_step_parts lookup_host s_window r_window f64_exp e w w' HI Hs) as [_ [[ws E]|[E|(e' & E)]]];
    (apply (targets_mono (node_emits (w_s w)) _ (w_r w')); [intros f; by apply grows_emits|done|done|]).
  - rewrite E. by apply (targets_mono (node_emits (w_s w)) _ (w_r w)).
  - by rewrite E.
  - eapply targets_step; [apply HI|exact (oi_tasks _ _ _ HO)|exact HT|exact E].
Qed.

(** Client [h] has the id [cid], and asked for [st] in its handshake. *)
Definition asked_by (n : Node) (h : nat) (cid : Z) (st : SynTarget) : Prop :=
  exists H target rest, n_handlers n !! h = Some H /\ tc_cid (h_task H) = cid /\
    requests (h_hello H) (Connect target) rest /\ st = tcp_syn target.

Lemma connect_asked n cid st :
  node_inv n -> task_asked (node_emits n) (TaskConnect cid st) -> exists h, asked_by n h cid st.
Proof.
  intros HN ((f & Hf & Hs & Hc & Hd) & Hp).
  destruct (emitted_syn _ f st HN Hf Hs Hd) as [(h & H & Hh & E & ->)|(i & x & _ & _ & ->)]; [|discriminate Hp].
  destruct (ho_hello _ _ (po_handlers _ (nv_parts _ HN) h H Hh)) as (rest & Hreq & _).
  exists h, H, (h_target H), rest. split_and!; [done|congruence|done|done].
Qed.

(** The reader of a TCP connection that was ever in the map, and its target. *)
Lemma world_connected es1 es2 w1 w cid i v :
  wrun es1 world_start = Some w1 -> wrun es2 w1 = Some w -> conns (r_state (w_r w1)) !! cid = Some i ->
  vcs (r_state (w_r w)) !! i = Some v -> is_udp v = false ->
  exists r h, r_readers (w_r w) !! i = Some r /\ rd_cid (e_task r) = cid /\ asked_by (w_s w) h cid (e_target r).
Proof.
  intros Hr1 Hr2 Hc Hv Hu.
  destruct (world_halves lookup_host s_window r_window f64_exp es1 es2 w1 w Hr1 Hr2) as (HI & _ & [_ [GR _] (xs2 & X2 & _) _]).
  destruct (ti_conns _ _ (world_targets es1 w1 Hr1) cid i Hc) as (v1 & Hv1 & Hrd).
  destruct (xrun_kind lookup_host r_window xs2 _ _ X2 i v1 Hv1) as (v2 & Hv2 & E).
  assert (v2 = v) as -> by (change (vcs (r_state (w_r w)) !! i = Some v2) in Hv2; congruence).
  destruct Hrd as (r1 & Hr & Ecid); [congruence|]. destruct (GR i r1 Hr) as (r & Hr' & (Ec & _)).
  assert (wrun (es1 ++ es2) world_start = Some w) as Hrun by (rewrite world_run_app, Hr1; done).
  destruct (connect_asked (w_s w) (rd_cid (e_task r)) (e_target r) (ww_s _ HI)) as (h & Hh).
  { exact (ti_readers _ _ (world_targets _ w Hrun) i r Hr'). }
  assert (rd_cid (e_task r) = cid) as Ei by congruence. rewrite Ei in Hh. by exists r, h.
Qed.

(** ** Properties *)


(** C3: the reassembler connects only where a client wants to go.  In every run of both
    processes, a connect that is under way for an id, and the socket of every connection
    whose connect succeeded, has the target, host and port, that the bytes of a client of
    the splitter with this id asked for in the SOCKS5 handshake; and a UDP association is
    being set up only for an id the splitter gave to a client that asked for one: whatever
    the tunnels lose, reorder or break, no SYN is made up, altered or attributed to
    another id. *)
Theorem world_connects_asked es w :
  wrun es world_start = Some w ->
  (forall n cid st, tasks (r_state (w_r w)) !! n = Some (TaskConnect cid st) -> exists h, asked_by (w_s w) h cid st) /\
  (forall i r, r_readers (w_r w) !! i = Some r -> exists h, asked_by (w_s w) h (rd_cid (e_task r)) (e_target r)) /\
  (forall n cid, tasks (r_state (w_r w)) !! n = Some (TaskUdpBind cid) ->
     exists i x a addr rest, n_udp (w_s w) !! i = Some x /\ uc_cid (ur_client (u_relay x)) = cid /\
       requests (u_hello x) (UdpAssociate a addr) rest).
Proof.
  intros Hr. destruct (world_origin es w Hr) as [HI HO]. pose proof (world_targets es w Hr) as HT. split_and!.
  - intros n cid st Ht. apply connect_asked; [apply HI|exact (oi_tasks _ _ _ HO n _ Ht)].
  - intros i r Hi. apply connect_asked; [apply HI|exact (ti_readers _ _ HT i r Hi)].
  - intros n cid Ht. destruct (oi_tasks _ _ _ HO n _ Ht) as (st & (f & Hf & Hs & Hc & Hd) & Hp).
    destruct (emitted_syn _ f st (ww_s _ HI) Hf Hs Hd) as [(h & H & _ & _ & ->)|(i & x & Hi & E & _)]; [discriminate Hp|].
    destruct (uo_hello _ _ (po_udp _ (nv_parts _ (ww_s _ HI)) i x Hi)) as (a & rest & Hreq).
    exists i, x, a, (u_addr x), rest. split_and!; [done|congruence|done].
Qed.

End world_origin.

(** ** Witnesses *)
#[local] Existing Instance RefTokio.
#[local] Existing Instance RefBufMut.
#[local] Existing Instance RefDashIter.

(** A TCP client and a UDP client over one tunnel: the TCP connect is under way and the
    association's datagram "hi" to 10.0.0.1:53 was forwarded. *)
Definition demo_datagram : bytes := [x00; x00; x00; x01; x0a; x00; x00; x01; x00; x35; x68; x69].
Definition demo_udp_hello : bytes := [x05; x01; x00; x05; x03; x00; x01; x00; x00; x00; x00; x00; x00].
Definition demo_udp_session : list world_event :=
  [WConnect 0 0 0 0 0; WSplitter (NvClient [9] 5 None demo_hello 1);
   WSplitter (NvClient [7] 6 (Some (demo_addr 4000)) demo_udp_hello 2);
   WSplitter (NvRelay 6 (UrDatagram (demo_addr 1000) demo_datagram) 3)] ++
  up_written 0 3 ++ up_written 0 3 ++ up_written 0 3 ++
  [WUp 0 64 0 4 4; WUp 0 64 1 4 4; WUp 0 64 2 4 4; WReassembler (RnLink (LvRun 0 5)); WReassembler (RnLink (LvRun 1 5));
   WReassembler (RnLink (LvResume None 1 (EvUdpBound 1 11 (Some (mkUdpPair false))) 6 6))].
Definition demo_udp_w : World := default world_start (demo_world_run demo_udp_session world_start).
Lemma demo_udp_run : demo_world_run demo_udp_session world_start = Some demo_udp_w.
Proof. vm_compute. reflexivity. Qed.


Lemma demo_run_both : demo_world_run (demo_session1 ++ demo_session2) world_start = Some demo_w.
Proof. vm_compute. reflexivity. Qed.

Lemma world_connects_asked_witness :
  (exists h, asked_by (w_s demo_udp_w) h 9 (mkSynTarget PROTO_TCP [x61] 80)) /\
  exists r h, r_readers (w_r demo_w) !! 10%nat = Some r /\ asked_by (w_s demo_w) h 9 (e_target r).
Proof.
  split.
  - apply (world_connects_asked demo_dns 65536 65536 (fun x => x) demo_udp_session demo_udp_w demo_udp_run) with 0%nat.
    vm_compute. reflexivity.
  - destruct demo_reader as (Hr & _ & _). destruct (r_readers (w_r demo_w) !! 10%nat) as [r|] eqn:E; [|discriminate Hr].
    injection Hr as Hid _ _ _. exists r.
    destruct (world_connects_asked demo_dns 65536 65536 (fun x => x) (demo_session1 ++ demo_session2) demo_w) as (_ & P & _).
    + exact demo_run_both.
    + destruct (P 10%nat r E) as (h & Hh). rewrite Hid in Hh. exists h. split; [reflexivity|exact Hh].
Defined.

Lemma demo_udp_ids :
  map_to_list ((fun H => tc_cid (h_task H)) <$> n_handlers (w_s demo_udp_w)) = [(5%nat, 9)] /\
  map_to_list ((fun x => uc_cid (ur_client (u_relay x))) <$> n_udp (w_s demo_udp_w)) = [(6%nat, 7)].
Proof. split; vm_compute; reflexivity. Qed.

(** The values of a map with one entry. *)
Lemma only_value {A} (f : A -> Z) (m : gmap nat A) k0 c k x :
  map_to_list (f <$> m) = [(k0, c)] -> m !! k = Some x -> f x = c.
Proof.
  intros Hm Hk. assert ((k, f x) ∈ map_to_list (f <$> m)) as Hin
    by (apply elem_of_map_to_list; by rewrite lookup_fmap, Hk).
  rewrite Hm in Hin. apply list_elem_of_singleton in Hin. by injection Hin.
Qed.

