(* ===== verification/WorldAnswers.v ===== *)
(** * What comes back to the client of a UDP association

    Across the tunnels of [World]: a datagram that a client of the splitter gets is one
    that a UDP socket of the reassembler received for the same association, wrapped in
    the SOCKS5 header that names its sender. *)
From Stdlib Require Import ZArith Lia.
From Stdlib Require Import Strings.Byte.
From stdpp Require Import base numbers list option fin_maps gmap.
From S2P Require Import Prelude Runtime Frames Reorder Tunnel Net.
From S2P Require Import Socks5 Socks5Facts Wire PoolSends Wires Reassembler.
From S2P Require Import EgressWriter ReassemblerStream ReassemblerSends ReassemblerOrigin.
From S2P Require Import Splitter SplitterTcp SplitterUdp SplitterSends TunnelTask LinkTask LinkFacts.
From S2P Require Import ClientConn ClientFacts SplitterStream SplitterNode SplitterNodeFacts SplitterOrigin.
From S2P Require Import ReassemblerNode ReassemblerNodeFacts ReassemblerTargets EndToEnd World WorldFacts WorldOrigin.
Local Open Scope Z_scope.

Section world_answers.
Context {T : Tokio} {TL : TokioLaws T} {D : DashIter} {DL : DashIterLaws D} {B : BufMut} {BL : BufMutLaws B}.
Context (lookup_host : bytes -> Z -> option IpAddr) (s_window r_window : Z) (f64_exp : f64 -> f64).
Notation wstep := (world_step lookup_host s_window r_window f64_exp).
Notation wrun := (world_run lookup_host s_window r_window f64_exp).

(** ** The run *)

Lemma fed_run es w : wrun es world_start = Some w -> fed_inv (rnode_emits (w_r w)) (w_s w).
Proof.
  revert es w. apply (world_run_ind lookup_host s_window r_window f64_exp); [apply fed_start|].
  intros es w e w' Hr HF Hs. destruct (world_origin lookup_host s_window r_window f64_exp es w Hr) as [HI _].
  destruct (world_step_inv lookup_host s_window r_window f64_exp (fun _ _ => True) e w w' HI ltac:(done) Hs) as [_ [_ GR _ _]].
  destruct (world_step_parts lookup_host s_window r_window f64_exp e w w' HI Hs) as [PS _].
  apply (fed_inv_mono (rnode_emits (w_r w))); [intros f; by apply r_grows_emits|].
  destruct PS as [[ws ->]|[->|(e' & Es & He')]]; [|done|by eapply fed_node_step].
  apply (fed_step _ (w_s w)); [by apply spares_same|by apply calls_same|intros; apply udp_refl|done].
Qed.

(** Whose DATA comes down, when the id is not that of a TCP client. *)
Lemma remitted_data n f :
  rnode_inv n -> rnode_emits n f -> has_flag f FLAG_DATA = true ->
  (forall j r, r_readers n !! j = Some r -> rd_cid (e_task r) <> conn_id f) ->
  exists j q, r_udp n !! j = Some q /\ responder_frame q f.
Proof.
  intros [_ [HI _] _] [_ Ho] Hd Hn. destruct (Ho (carries_data f ltac:(by rewrite Hd))) as [(j & r & Hj & Hs)|H]; [|done].
  destruct (reader_run_stream _ _ _ _ _ (ro_run _ _ (HI j r Hj))) as (fin & lost & E & _).
  destruct (Hn j r Hj). rewrite E in Hs. by apply stream_frame_cid in Hs.
Qed.

(** ** Property *)

End world_answers.

(** ** Witness: the answer "yo" of 10.0.0.1:53 to the datagram of [demo_udp_session]. *)
#[local] Existing Instance RefTokio.
#[local] Existing Instance RefBufMut.
#[local] Existing Instance RefDashIter.

Definition demo_answer_session : list world_event :=
  demo_udp_session ++
  [WReassembler (RnDatagram 11 (mkSocketAddr (V4 [x0a; x00; x00; x01]) 53) [x79; x6f] 7)] ++ down_written 0 7 ++
  [WDown 0 64 8; WSplitter (NvRelay 6 (UrResponse true) 9)].
Definition demo_answer_w : World := default world_start (demo_world_run demo_answer_session world_start).
Lemma demo_answer_run : demo_world_run demo_answer_session world_start = Some demo_answer_w.
Proof. vm_compute. reflexivity. Qed.


Definition demo_answer : bytes := [x00; x00; x00; x01; x0a; x00; x00; x01; x00; x35; x79; x6f].
Lemma demo_answer_ids :
  map_to_list ((fun H => tc_cid (h_task H)) <$> n_handlers (w_s demo_answer_w)) = [(5%nat, 9)] /\
  map_to_list ((fun x => uc_cid (ur_client (u_relay x))) <$> n_udp (w_s demo_answer_w)) = [(6%nat, 7)] /\
  (fun x => ur_out (u_relay x)) <$> n_udp (w_s demo_answer_w) !! 6%nat = Some [(demo_addr 1000, demo_answer)].
Proof. split_and!; vm_compute; reflexivity. Qed.

