(* ===== verification/Logging.v ===== *)
(** * Daily log files

    Models [src/src/logging.rs]: the civil date of a day number, the file names, the
    rotation and the write loop of [DailyWriter::write], and which files
    [purge_old_logs] removes.  Reading the clock is an argument, in seconds since the
    epoch; what the operating system answers to [open] and [write] is an argument too. *)
From Stdlib Require Import ZArith Lia.
From Stdlib Require Import Strings.Byte.
From stdpp Require Import base numbers list option.
From S2P Require Import Prelude Net.
Local Open Scope Z_scope.

Definition DASH : byte := chr 45.

(** ** Dates *)

(** [days_to_civil] before the formatting.  [/] of Rust truncates. *)
Definition civil (days : Z) : Z * Z * Z :=
  let z := days + 719468 in
  let era := Z.quot (if z >=? 0 then z else z - 146096) 146097 in
  let doe := wrap 32 (z - era * 146097) in
  let yoe := (doe - doe / 1460 + doe / 36524 - doe / 146096) / 365 in
  let y := yoe + era * 400 in
  let doy := doe - (365 * yoe + yoe / 4 - yoe / 100) in
  let mp := (5 * doy + 2) / 153 in
  let d := doy - (153 * mp + 2) / 5 + 1 in
  let m := if mp <? 10 then mp + 3 else mp - 9 in
  let y := if m <=? 2 then y + 1 else y in
  (y, m, d).

(** [{:0n}] of a number that is not negative. *)
Definition pad (n : nat) (z : Z) : bytes :=
  let s := show 10 z in replicate (n - length s) ZERO_CH ++ s.

Definition days_to_civil (days : Z) : bytes :=
  let '(y, m, d) := civil days in pad 4 y ++ [DASH] ++ pad 2 m ++ [DASH] ++ pad 2 d.

Definition today_utc (secs : Z) : bytes := days_to_civil (secs / 86400).

(** ** Files *)
Definition dot_log : bytes := DOT :: map chr [108; 111; 103].

(** [format!("{}.{}.log", prefix, date)]. *)
Definition log_name (prefix date : bytes) : bytes := prefix ++ [DOT] ++ date ++ dot_log.

Inductive io_error : Set := IoWriteZero | IoOther.
Inductive write_result : Set := WrOk (n : nat) | WrInterrupted | WrErr.

Record LogInner : Type := mkLogInner {
  li_file : bytes;   (** the name of the open file *)
  li_date : bytes;
}.

(** What a call does to the disk, in order. *)
Inductive log_effect : Type :=
| LeOpen (name : bytes)
| LeAppend (name : bytes) (b : bytes)
| LePurge (secs : Z).

(** [DailyLogWriter::new]; [opened]: the file could be opened. *)
Definition log_new (prefix : bytes) (secs : Z) (opened : bool) : option (LogInner * list log_effect) :=
  let date := today_utc secs in
  if opened then
    Some (mkLogInner (log_name prefix date) date, [LeOpen (log_name prefix date); LePurge secs])
  else None.

(** The [while written < buf.len()] loop; [rs] answers the calls of [File::write].  The
    result ([None]: more answers are needed), and the bytes that went out. *)
Fixpoint write_loop (buf : bytes) (rs : list write_result) : option (result io_error ()) * bytes :=
  match buf, rs with
  | [], _ => (Some (Ok ()), [])
  | _, [] => (None, [])
  | _, WrOk n :: rs' =>
    if (n =? 0)%nat then (Some (Err IoWriteZero), [])
    else let '(r, out) := write_loop (drop n buf) rs' in (r, take n buf ++ out)
  | _, WrInterrupted :: rs' => write_loop buf rs'
  | _, WrErr :: _ => (Some (Err IoOther), [])
  end.

(** [DailyWriter::write] at [secs], a moment of the day [today]. *)
Definition write_on (today prefix buf : bytes) (secs : Z) (opened : bool)
    (rs : list write_result) (st : LogInner) : option (result io_error Z) * LogInner * list log_effect :=
  let rotate := negb (bool_decide (today = li_date st)) in
  if rotate && negb opened then (Some (Err IoOther), st, [])
  else
    let st1 := if rotate then mkLogInner (log_name prefix today) today else st in
    let eff := if rotate then [LeOpen (log_name prefix today); LePurge secs] else [] in
    let '(r, out) := write_loop buf rs in
    (match r with
     | Some (Ok _) => Some (Ok (zlen buf))
     | Some (Err e) => Some (Err e)
     | None => None
     end, st1, eff ++ [LeAppend (li_file st1) out]).

Definition daily_write (prefix buf : bytes) (secs : Z) : bool -> list write_result -> LogInner ->
    option (result io_error Z) * LogInner * list log_effect :=
  write_on (today_utc secs) prefix buf secs.

(** ** Purging *)

(** [<] of [str]: byte by byte. *)
Fixpoint bytes_lt (a b : bytes) : bool :=
  match a, b with
  | _, [] => false
  | [], _ :: _ => true
  | x :: a', y :: b' =>
    if byte_to_Z x <? byte_to_Z y then true
    else if byte_to_Z y <? byte_to_Z x then false
    else bytes_lt a' b'
  end.

Definition strip_prefix (p s : bytes) : option bytes :=
  if decide (take (length p) s = p) then Some (drop (length p) s) else None.
Definition strip_suffix (p s : bytes) : option bytes :=
  if decide (length p <= length s /\ drop (length s - length p) s = p)%nat
  then Some (take (length s - length p) s) else None.

(** The cut-off day of a purge at [secs]. *)
Definition cutoff_days (keep_days secs : Z) : Z := sat_sub secs (keep_days * 86400) / 86400.

(** Whether a directory entry is removed. *)
Definition purges (prefix : bytes) (keep_days secs : Z) (name : bytes) : bool :=
  let date_part :=
    match strip_prefix prefix name with
    | Some s => match strip_suffix dot_log s with Some r => r | None => [] end
    | None => []
    end in
  match date_part with
  | c :: date =>
    (length date_part =? 11)%nat && bool_decide (c = DOT) &&
    bytes_lt date (days_to_civil (cutoff_days keep_days secs))
  | [] => false
  end.

(** What is left of a directory. *)
Definition purge_old_logs (prefix : bytes) (keep_days secs : Z) (dir : list bytes) : list bytes :=
  filter (fun name => negb (purges prefix keep_days secs name)) dir.
