(* ===== verification/LoggingFacts.v ===== *)
(** * Correctness of the daily log files

    [civil] against a reference calendar, the order of date strings, which files a
    purge removes, and the write loop. *)
From Stdlib Require Import ZArith Lia.
From Stdlib Require Import Strings.Byte.
From stdpp Require Import base numbers list option.
From S2P Require Import Prelude Net Logging.
Local Open Scope Z_scope.

(** ** The reference calendar *)
Definition leap (y : Z) : bool :=
  ((y mod 4 =? 0) && negb (y mod 100 =? 0)) || (y mod 400 =? 0).

Definition month_length (y m : Z) : Z :=
  if m =? 2 then (if leap y then 29 else 28)
  else if (m =? 4) || (m =? 6) || (m =? 9) || (m =? 11) then 30 else 31.

Definition year_length (y : Z) : Z := if leap y then 366 else 365.

Definition valid_date (y m d : Z) : Prop := 1 <= m <= 12 /\ 1 <= d <= month_length y m.

(** Days of the years before [y] (from year 1), of the months before [m]. *)
Definition days_before_year (y : Z) : Z := 365 * (y - 1) + (y - 1) / 4 - (y - 1) / 100 + (y - 1) / 400.
Definition days_before_month (y m : Z) : Z := zsum (map (month_length y) (seqZ 1 (m - 1))).

(** Day 0 is 1970-01-01. *)
Definition day_number (y m d : Z) : Z :=
  days_before_year y + days_before_month y m + (d - 1) - (days_before_year 1970).

Lemma days_before_year_succ y : days_before_year (y + 1) = days_before_year y + year_length y.
Proof.
  unfold days_before_year, year_length, leap.
  replace (y + 1 - 1) with y by lia.
  destruct (Z.eqb_spec (y mod 4) 0), (Z.eqb_spec (y mod 100) 0), (Z.eqb_spec (y mod 400) 0); cbn;
    Z.to_euclidean_division_equations; lia.
Qed.

(** The twelve months, one by one. *)
Ltac month_cases m :=
  let H := fresh in
  assert (m = 1 \/ m = 2 \/ m = 3 \/ m = 4 \/ m = 5 \/ m = 6 \/ m = 7 \/ m = 8 \/ m = 9 \/
          m = 10 \/ m = 11 \/ m = 12) as H by lia;
  destruct H as [->|[->|[->|[->|[->|[->|[->|[->|[->|[->|[->| ->]]]]]]]]]]].

(** The months before [m], by table. *)
Lemma days_before_month_table y m : 1 <= m <= 12 ->
  days_before_month y m =
    nth (Z.to_nat (m - 1)) [0; 31; 59; 90; 120; 151; 181; 212; 243; 273; 304; 334] 0 +
    (if (2 <? m) && leap y then 1 else 0).
Proof.
  intros Hm. unfold days_before_month.
  month_cases m; cbn; unfold month_length; cbn; by destruct (leap y).
Qed.

(** A valid date lies within its year, a valid day within its month. *)
Lemma days_before_month_bound y m d : valid_date y m d ->
  0 <= days_before_month y m + (d - 1) < year_length y.
Proof.
  intros [Hm Hd]. rewrite days_before_month_table by done. unfold month_length, year_length in *.
  month_cases m; simpl in *; destruct (leap y); simpl in *; lia.
Qed.

(** ** Dates and day numbers have the same order *)
Definition date_lt (a b : Z * Z * Z) : Prop :=
  a.1.1 < b.1.1 \/ (a.1.1 = b.1.1 /\ (a.1.2 < b.1.2 \/ (a.1.2 = b.1.2 /\ a.2 < b.2))).

Lemma days_before_year_mono y1 y2 : y1 < y2 -> days_before_year y1 + year_length y1 <= days_before_year y2.
Proof.
  intros H. rewrite <- days_before_year_succ. unfold days_before_year.
  Z.to_euclidean_division_equations; lia.
Qed.

Lemma days_before_month_mono y m1 m2 : 1 <= m1 -> m1 < m2 -> m2 <= 12 ->
  days_before_month y m1 + month_length y m1 <= days_before_month y m2.
Proof.
  intros. rewrite !days_before_month_table by lia. unfold month_length.
  month_cases m2; try (exfalso; lia); month_cases m1; try (exfalso; lia); simpl;
    destruct (leap y); simpl; lia.
Qed.

Lemma day_number_mono y1 m1 d1 y2 m2 d2 :
  valid_date y1 m1 d1 -> valid_date y2 m2 d2 -> date_lt (y1, m1, d1) (y2, m2, d2) ->
  day_number y1 m1 d1 < day_number y2 m2 d2.
Proof.
  intros V1 V2 H. pose proof (days_before_month_bound _ _ _ V1). pose proof (days_before_month_bound _ _ _ V2).
  destruct V1 as [M1 D1], V2 as [M2 D2]. unfold day_number.
  destruct H as [H|[E [H|[E2 H]]]]; cbn in *.
  - pose proof (days_before_year_mono y1 y2 H). lia.
  - subst y2. pose proof (days_before_month_mono y1 m1 m2). lia.
  - subst. lia.
Qed.

Lemma date_lt_trichotomy a b : date_lt a b \/ a = b \/ date_lt b a.
Proof.
  destruct a as [[y1 m1] d1], b as [[y2 m2] d2]. unfold date_lt. cbn.
  destruct (Z.lt_trichotomy y1 y2) as [?|[->|?]]; [by left; left| |by right; right; left].
  destruct (Z.lt_trichotomy m1 m2) as [?|[->|?]]; [by left; right; split; [|left]| |by right; right; right; split; [|left]].
  destruct (Z.lt_trichotomy d1 d2) as [?|[->|?]]; [by left; right; split; [|right]|by right; left|].
  by right; right; right; split; [|right].
Qed.

Lemma day_number_order y1 m1 d1 y2 m2 d2 :
  valid_date y1 m1 d1 -> valid_date y2 m2 d2 ->
  day_number y1 m1 d1 < day_number y2 m2 d2 <-> date_lt (y1, m1, d1) (y2, m2, d2).
Proof.
  intros V1 V2. split; [|by apply day_number_mono]. intros H.
  destruct (date_lt_trichotomy (y1, m1, d1) (y2, m2, d2)) as [?|[E|G]]; [done|simplify_eq; lia|].
  apply day_number_mono in G; [lia|done|done].
Qed.

(** ** [civil] *)

(** The year of a day of a 400-year era that starts on a 1st of March. *)
Lemma year_of_era doe : 0 <= doe < 146097 ->
  let yoe := (doe - doe / 1460 + doe / 36524 - doe / 146096) / 365 in
  0 <= yoe < 400 /\ 365 * yoe + yoe / 4 - yoe / 100 <= doe /\
  (yoe < 399 -> doe < 365 * (yoe + 1) + (yoe + 1) / 4 - (yoe + 1) / 100) /\
  (yoe = 399 -> doe - (365 * yoe + yoe / 4 - yoe / 100) <= 365).
Proof.
  intros H yoe.
  assert (doe / 146096 = 0 /\ doe < 146096 \/ doe = 146096) as [[E H1]| ->]
    by (Z.to_euclidean_division_equations; lia).
  2:{ subst yoe. vm_compute. repeat split; try discriminate; intros; discriminate. }
  subst yoe. rewrite E. set (c := doe / 36524).
  assert (0 <= c <= 3 /\ 36524 * c <= doe < 36524 * c + 36524) as [Hc Hd]
    by (subst c; Z.to_euclidean_division_equations; lia).
  clearbody c. assert (c = 0 \/ c = 1 \/ c = 2 \/ c = 3) as [->|[->|[->| ->]]] by lia;
    Z.to_euclidean_division_equations; lia.
Qed.

(** The month and day of a day [doy] of a year that starts on a 1st of March and whose
    February has [28 + extra] days. *)
Lemma month_of_year doy : 0 <= doy <= 365 ->
  let mp := (5 * doy + 2) / 153 in
  0 <= mp <= 11 /\ 0 <= doy - (153 * mp + 2) / 5 /\
  (mp < 11 -> doy < (153 * (mp + 1) + 2) / 5).
Proof. intros H mp. subst mp. Z.to_euclidean_division_equations; lia. Qed.

(** Evaluate the divisions of closed terms by 5. *)
Ltac compute_div5 :=
  repeat match goal with
  | |- context [?a / 5] => let v := eval vm_compute in (a / 5) in change (a / 5) with v
  | H : context [?a / 5] |- _ => let v := eval vm_compute in (a / 5) in change (a / 5) with v in H
  end.

(** Days since 0000-03-01, by the March-based year, month and day. *)
Lemma day_number_march y mp d : 0 <= mp <= 11 ->
  let m := if mp <? 10 then mp + 3 else mp - 9 in
  day_number (if m <=? 2 then y + 1 else y) m d =
    365 * y + y / 4 - y / 100 + y / 400 + (153 * mp + 2) / 5 + d - 1 - 719468.
Proof.
  intros Hmp m. unfold day_number.
  assert (days_before_year 1970 = 719162) as -> by done.
  assert (days_before_year (y + 1) = 365 * y + y / 4 - y / 100 + y / 400) as Hy.
  { unfold days_before_year. by replace (y + 1 - 1) with y by lia. }
  pose proof (days_before_year_succ y) as Hs. unfold year_length in Hs.
  assert (mp = 0 \/ mp = 1 \/ mp = 2 \/ mp = 3 \/ mp = 4 \/ mp = 5 \/ mp = 6 \/ mp = 7 \/ mp = 8 \/
    mp = 9 \/ mp = 10 \/ mp = 11) as E by lia. subst m.
  destruct E as [->|[->|[->|[->|[->|[->|[->|[->|[->|[->|[->| ->]]]]]]]]]]];
    rewrite days_before_month_table by (simpl; lia); simpl; rewrite ?Hy; destruct (leap y);
    compute_div5; lia.
Qed.

(** The last day of February: [doy] reaches 365 only before a leap day. *)
Lemma february_ok yoe era doy : 0 <= yoe < 400 -> doy <= 365 ->
  (yoe < 399 -> doy < 365 + ((yoe + 1) / 4 - yoe / 4) - ((yoe + 1) / 100 - yoe / 100)) ->
  leap (yoe + era * 400 + 1) = false -> doy <= 364.
Proof.
  intros Hy Hd H. unfold leap.
  destruct (Z.eqb_spec ((yoe + era * 400 + 1) mod 4) 0), (Z.eqb_spec ((yoe + era * 400 + 1) mod 100) 0),
    (Z.eqb_spec ((yoe + era * 400 + 1) mod 400) 0); cbn; try done; intros _;
    Z.to_euclidean_division_equations; lia.
Qed.

Lemma civil_correct days : 0 <= days < 2 ^ 50 ->
  let '(y, m, d) := civil days in valid_date y m d /\ day_number y m d = days.
Proof.
  intros Hd. unfold civil. rewrite (proj2 (Z.geb_le (days + 719468) 0)) by lia.
  rewrite Z.quot_div_nonneg by lia. set (z := days + 719468). set (era := z / 146097).
  assert (0 <= z - era * 146097 < 146097) as Hdoe by (subst era; Z.to_euclidean_division_equations; lia).
  rewrite wrap_small by lia. set (doe := z - era * 146097) in *.
  destruct (year_of_era doe Hdoe) as (Y0 & Y1 & Y2 & Y3).
  set (yoe := (doe - doe / 1460 + doe / 36524 - doe / 146096) / 365) in *.
  set (doy := doe - (365 * yoe + yoe / 4 - yoe / 100)) in *.
  assert (0 <= doy <= 365) as Hdoy.
  { split; [lia|]. destruct (decide (yoe = 399)) as [->|]; [by apply Y3|].
    specialize (Y2 ltac:(lia)). subst doy. clear -Y2. Z.to_euclidean_division_equations; lia. }
  destruct (month_of_year doy Hdoy) as (M0 & M1 & M2). set (mp := (5 * doy + 2) / 153) in *.
  set (d := doy - (153 * mp + 2) / 5 + 1) in *. set (m := if mp <? 10 then mp + 3 else mp - 9).
  pose proof (day_number_march (yoe + era * 400) mp d M0) as E. cbv zeta in E. fold m in E.
  assert (day_number (if m <=? 2 then yoe + era * 400 + 1 else yoe + era * 400) m d = days) as Hday.
  { rewrite E. subst d doy doe z.
    assert ((yoe + era * 400) / 4 = yoe / 4 + era * 100 /\ (yoe + era * 400) / 100 = yoe / 100 + era * 4 /\
            (yoe + era * 400) / 400 = era) as (-> & -> & ->)
      by (clear -Y0; clearbody yoe era; Z.to_euclidean_division_equations; lia).
    lia. }
  split; [|exact Hday]. split; [subst m; clear -M0; destruct (Z.ltb_spec mp 10); lia|].
  split; [lia|]. assert (mp = 11 -> leap (yoe + era * 400 + 1) = false -> doy <= 364) as Hfeb.
  { intros _. apply february_ok; [done|lia|]. intros H. specialize (Y2 H). subst doy. lia. }
  assert (mp < 11 -> d <= (153 * (mp + 1) + 2) / 5 - (153 * mp + 2) / 5) as Hlen.
  { intros H. specialize (M2 H). subst d. lia. }
  clear -M0 Hdoy Hfeb Hlen. clearbody mp. subst d. unfold month_length.
  assert (mp = 0 \/ mp = 1 \/ mp = 2 \/ mp = 3 \/ mp = 4 \/ mp = 5 \/ mp = 6 \/ mp = 7 \/ mp = 8 \/
    mp = 9 \/ mp = 10 \/ mp = 11) as E by lia. subst m.
  destruct E as [->|[->|[->|[->|[->|[->|[->|[->|[->|[->|[->| ->]]]]]]]]]]];
    try (specialize (Hlen ltac:(lia)); compute_div5); simpl; try lia.
  compute_div5. destruct (leap (yoe + era * 400 + 1)) eqn:El; [lia|]. specialize (Hfeb eq_refl eq_refl). lia.
Qed.

(** ** Date strings *)

(** The [n] low decimal digits of [z]. *)
Fixpoint dec (n : nat) (z : Z) : bytes :=
  match n with
  | O => []
  | S n' => dec n' (z / 10) ++ [digit_char (z mod 10)]
  end.

Lemma length_dec n z : length (dec n z) = n.
Proof. revert z. induction n as [|n IH]; intros z; cbn; [done|]. rewrite length_app, IH. cbn. lia. Qed.

Lemma dec_zero n : dec n 0 = replicate n ZERO_CH.
Proof.
  induction n as [|n IH]; [done|]. cbn [dec]. change (0 / 10) with 0. rewrite IH.
  change (digit_char (0 mod 10)) with ZERO_CH. by rewrite <- replicate_S_end.
Qed.

Lemma pad_digits n f z : (1 <= n <= f)%nat -> 0 <= z < 10 ^ Z.of_nat n ->
  replicate (n - length (digits f 10 z)) ZERO_CH ++ digits f 10 z = dec n z.
Proof.
  revert f z. induction n as [|n IH]; intros [|f] z Hn Hz; [lia..|].
  cbn [digits dec]. destruct (Z.ltb_spec z 10) as [Hlt|Hge].
  - rewrite Z.div_small, Z.mod_small by lia. rewrite dec_zero. cbn [length].
    by replace (S n - 1)%nat with n by lia.
  - destruct (decide (n = 0%nat)) as [->|]; [change (10 ^ Z.of_nat 1) with 10 in Hz; lia|].
    rewrite length_app. cbn [length]. rewrite app_assoc. f_equal.
    replace (S n - (length (digits f 10 (z / 10)) + 1))%nat
      with (n - length (digits f 10 (z / 10)))%nat by lia.
    apply IH; [lia|]. rewrite Nat2Z.inj_succ, Z.pow_succ_r in Hz by lia.
    split; [apply Z.div_pos; lia|apply Z.div_lt_upper_bound; lia].
Qed.

Lemma pad_dec n z : (1 <= n <= 17)%nat -> 0 <= z < 10 ^ Z.of_nat n -> pad n z = dec n z.
Proof. apply pad_digits. Qed.

Lemma bytes_lt_app a b x y :
  length a = length b ->
  bytes_lt (a ++ x) (b ++ y) = bytes_lt a b || (bool_decide (a = b) && bytes_lt x y).
Proof.
  revert b. induction a as [|p a IH]; intros [|q b] H; cbn in H; try lia.
  - cbn. by destruct x, y.
  - cbn [app bytes_lt]. destruct (Z.ltb_spec (byte_to_Z p) (byte_to_Z q)); [done|].
    destruct (Z.ltb_spec (byte_to_Z q) (byte_to_Z p)).
    + rewrite bool_decide_eq_false_2; [done|]. intros [= -> _]. lia.
    + assert (p = q) as -> by (apply byte_to_Z_inj; lia). rewrite IH by lia. f_equal. f_equal.
      apply bool_decide_ext. split; [by intros ->|by intros [= ->]].
Qed.

Lemma digit_value d : 0 <= d < 10 -> byte_to_Z (digit_char d) = 48 + d.
Proof.
  intros Hd. unfold digit_char. rewrite (proj2 (Z.ltb_lt d 10)) by lia.
  unfold chr. rewrite byte_to_of_Z. apply Z.mod_small. lia.
Qed.

Lemma dec_inj n z1 z2 :
  0 <= z1 < 10 ^ Z.of_nat n -> 0 <= z2 < 10 ^ Z.of_nat n -> dec n z1 = dec n z2 -> z1 = z2.
Proof.
  revert z1 z2. induction n as [|n IH]; intros z1 z2 H1 H2 E; [cbn in H1, H2; lia|].
  cbn [dec] in E. rewrite Nat2Z.inj_succ, Z.pow_succ_r in H1, H2 by lia.
  apply app_inj_2 in E as [E1 E2]; [|done]. injection E2 as E2.
  pose proof (Z.mod_pos_bound z1 10). pose proof (Z.mod_pos_bound z2 10).
  apply (f_equal byte_to_Z) in E2. rewrite !digit_value in E2 by lia.
  apply IH in E1; [|split; [apply Z.div_pos; lia|apply Z.div_lt_upper_bound; lia]..].
  rewrite (Z.div_mod z1 10), (Z.div_mod z2 10) by lia. lia.
Qed.

Lemma dec_lt n z1 z2 :
  0 <= z1 < 10 ^ Z.of_nat n -> 0 <= z2 < 10 ^ Z.of_nat n ->
  bytes_lt (dec n z1) (dec n z2) = (z1 <? z2).
Proof.
  revert z1 z2. induction n as [|n IH]; intros z1 z2 H1 H2.
  { cbn in *. symmetry. apply Z.ltb_ge. lia. }
  rewrite Nat2Z.inj_succ, Z.pow_succ_r in H1, H2 by lia. cbn [dec].
  assert (forall z, 0 <= z < 10 * 10 ^ Z.of_nat n -> 0 <= z / 10 < 10 ^ Z.of_nat n) as Hq.
  { intros z Hz. split; [apply Z.div_pos; lia|apply Z.div_lt_upper_bound; lia]. }
  rewrite bytes_lt_app by (by rewrite !length_dec). rewrite IH by auto.
  pose proof (Z.div_mod z1 10). pose proof (Z.div_mod z2 10).
  pose proof (Z.mod_pos_bound z1 10). pose proof (Z.mod_pos_bound z2 10).
  assert (bytes_lt [digit_char (z1 mod 10)] [digit_char (z2 mod 10)] = (z1 mod 10 <? z2 mod 10)) as ->.
  { cbn [bytes_lt]. rewrite !digit_value by lia.
    destruct (Z.ltb_spec (48 + z1 mod 10) (48 + z2 mod 10)), (Z.ltb_spec (z1 mod 10) (z2 mod 10));
      try done; try lia. by destruct (_ <? _). }
  case_bool_decide as E.
  - apply dec_inj in E; [|auto..]. rewrite E, Z.ltb_irrefl. cbn.
    destruct (Z.ltb_spec (z1 mod 10) (z2 mod 10)), (Z.ltb_spec z1 z2); try done; lia.
  - rewrite andb_false_l, orb_false_r. assert (z1 / 10 <> z2 / 10) by congruence.
    destruct (Z.ltb_spec (z1 / 10) (z2 / 10)), (Z.ltb_spec z1 z2); try done; lia.
Qed.

(** "YYYY-MM-DD". *)
Definition date_text (a : Z * Z * Z) : bytes :=
  dec 4 a.1.1 ++ [DASH] ++ dec 2 a.1.2 ++ [DASH] ++ dec 2 a.2.

Definition in_range (a : Z * Z * Z) : Prop := 0 <= a.1.1 <= 9999 /\ valid_date a.1.1 a.1.2 a.2.

Lemma month_length_le y m : month_length y m <= 31.
Proof. unfold month_length. by repeat case_match; lia. Qed.

Lemma valid_two y m d : valid_date y m d -> 0 <= m < 100 /\ 0 <= d < 100.
Proof. intros [? ?]. pose proof (month_length_le y m). lia. Qed.

Lemma days_to_civil_text days a : civil days = a -> in_range a -> days_to_civil days = date_text a.
Proof.
  intros E [Hy Hv]. destruct a as [[y m] d]. cbn in Hy, Hv. apply valid_two in Hv as [Hm Hd].
  unfold days_to_civil. rewrite E. rewrite !pad_dec; [done| | | | | |]; cbn; lia.
Qed.

Lemma dash_app x y : bytes_lt ([DASH] ++ x) ([DASH] ++ y) = bytes_lt x y.
Proof. done. Qed.

Lemma date_text_lt a b : in_range a -> in_range b -> bytes_lt (date_text a) (date_text b) = true <-> date_lt a b.
Proof.
  destruct a as [[y1 m1] d1], b as [[y2 m2] d2]. intros [Y1 V1] [Y2 V2]. cbn in Y1, V1, Y2, V2.
  apply valid_two in V1 as [M1 D1], V2 as [M2 D2]. unfold date_text, date_lt. cbn [fst snd].
  rewrite bytes_lt_app, dash_app, bytes_lt_app, dash_app, !dec_lt by (rewrite ?length_dec; cbn; lia || done).
  rewrite orb_true_iff, andb_true_iff, orb_true_iff, andb_true_iff, !bool_decide_eq_true, !Z.ltb_lt.
  assert (dec 4 y1 = dec 4 y2 <-> y1 = y2) as -> by (split; [intros E; apply dec_inj in E; cbn; lia|by intros ->]).
  assert (dec 2 m1 = dec 2 m2 <-> m1 = m2) as -> by (split; [intros E; apply dec_inj in E; cbn; lia|by intros ->]).
  done.
Qed.

(** 9999-12-31. *)
Definition LAST_DAY : Z := 2932896.

Lemma civil_in_range days : 0 <= days <= LAST_DAY -> in_range (civil days).
Proof.
  intros Hd. pose proof (civil_correct days ltac:(unfold LAST_DAY in Hd; lia)) as H.
  destruct (civil days) as [[y m] d]. destruct H as [V E]. split; [|done]. cbn.
  pose proof (days_before_month_bound _ _ _ V). unfold day_number, LAST_DAY in *.
  assert (days_before_year 1970 = 719162) as E0 by done. rewrite E0 in E. split.
  - destruct (decide (0 <= y)); [done|]. pose proof (days_before_year_mono y 1). 
    assert (days_before_year 1 = 0) as E1 by done. unfold year_length in *. destruct (leap y); lia.
  - destruct (decide (y <= 9999)); [done|]. pose proof (days_before_year_mono 9999 y).
    assert (days_before_year 9999 = 3651694) as E1 by done. unfold year_length in *.
    assert (leap 9999 = false) as E2 by done. rewrite E1, E2 in *. lia.
Qed.

(** Day order is the order of the texts. *)
Lemma date_text_order k1 k2 : 0 <= k1 <= LAST_DAY -> 0 <= k2 <= LAST_DAY ->
  bytes_lt (days_to_civil k1) (days_to_civil k2) = (k1 <? k2) /\ length (days_to_civil k1) = 10%nat.
Proof.
  intros H1 H2. pose proof (civil_in_range _ H1) as R1. pose proof (civil_in_range _ H2) as R2.
  rewrite (days_to_civil_text k1 _ eq_refl R1), (days_to_civil_text k2 _ eq_refl R2).
  split; [|unfold date_text; by rewrite !length_app, !length_dec].
  apply eq_bool_prop_intro. rewrite !Is_true_true, date_text_lt, Z.ltb_lt by done.
  pose proof (civil_correct k1 ltac:(unfold LAST_DAY in *; lia)) as C1.
  pose proof (civil_correct k2 ltac:(unfold LAST_DAY in *; lia)) as C2.
  destruct (civil k1) as [[y1 m1] d1], (civil k2) as [[y2 m2] d2]. destruct C1 as [V1 <-], C2 as [V2 <-].
  symmetry. by apply day_number_order.
Qed.

(** ** Files *)
Lemma strip_suffix_app a p : strip_suffix p (a ++ p) = Some a.
Proof.
  unfold strip_suffix. rewrite length_app. replace (length a + length p - length p)%nat with (length a) by lia.
  rewrite drop_app_length, take_app_length. by rewrite decide_True by (split; [lia|done]).
Qed.

Lemma purges_log_name prefix keep secs date :
  length date = 10%nat ->
  purges prefix keep secs (log_name prefix date) =
    bytes_lt date (days_to_civil (cutoff_days keep secs)).
Proof.
  intros Hl. unfold purges, log_name, strip_prefix.
  rewrite take_app_length, drop_app_length, decide_True by done.
  rewrite app_assoc, strip_suffix_app. cbn [app length]. rewrite Hl. done.
Qed.

(** The bytes the loop wrote are a prefix of the buffer, all of it on success. *)
Lemma write_loop_spec buf rs r out :
  write_loop buf rs = (r, out) -> out `prefix_of` buf /\ (r = Some (Ok ()) -> out = buf).
Proof.
  revert buf out. induction rs as [|w rs IH]; intros buf out H; destruct buf as [|b buf]; cbn in H;
    try (simplify_eq; split; [by eexists|done]).
  destruct w as [n| |]; [|by apply IH|simplify_eq; split; [by eexists|done]].
  destruct (Nat.eqb_spec n 0); [simplify_eq; split; [by eexists|done]|].
  destruct (write_loop (drop n (b :: buf)) rs) as [r' out'] eqn:E. simplify_eq.
  apply IH in E as [[rest E] Hok]. split.
  - exists rest. rewrite <- app_assoc, <- E. symmetry. apply take_drop.
  - intros Hr. rewrite (Hok Hr). apply take_drop.
Qed.

Lemma write_on_spec today prefix buf secs opened rs st r st' eff :
  li_file st = log_name prefix (li_date st) ->
  write_on today prefix buf secs opened rs st = (r, st', eff) ->
  li_file st' = log_name prefix (li_date st') /\
  (forall n, r = Some (Ok n) -> n = zlen buf /\ li_date st' = today) /\
  ((li_date st' = today /\
    exists out, out `prefix_of` buf /\ (is_Some (r ≫= fun x => match x with Ok n => Some n | Err _ => None end) -> out = buf) /\
      eff = (if decide (today = li_date st) then []
             else [LeOpen (log_name prefix today); LePurge secs]) ++
            [LeAppend (log_name prefix today) out]) \/
   (opened = false /\ today <> li_date st /\ st' = st /\ eff = [] /\ r = Some (Err IoOther))).
Proof.
  intros Hst H. unfold write_on in H.
  destruct (decide (today = li_date st)) as [E|E].
  - rewrite bool_decide_eq_true_2 in H by done. cbn [negb andb] in H.
    destruct (write_loop buf rs) as [w out] eqn:Ew. apply write_loop_spec in Ew as [Hp Hok].
    simplify_eq. split; [done|].
    split; [intros n; destruct w as [[[]|]|]; intros Hn; simplify_eq; split; congruence || reflexivity|].
    left. split; [done|]. exists out. split; [done|]. split; [|by rewrite Hst].
    destruct w as [[[]|]|]; cbn; intros [? Hx]; simplify_eq. by apply Hok.
  - rewrite bool_decide_eq_false_2 in H by done. cbn [negb andb] in H.
    destruct opened; cbn [negb] in H; [|simplify_eq; split; [done|]; split; [done|]; by right].
    destruct (write_loop buf rs) as [w out] eqn:Ew. apply write_loop_spec in Ew as [Hp Hok].
    simplify_eq. split; [done|].
    split; [intros n; destruct w as [[[]|]|]; intros Hn; simplify_eq; split; congruence || reflexivity|].
    left. split; [done|]. exists out. split; [done|]. split; [|done].
    destruct w as [[[]|]|]; cbn; intros [? Hx]; simplify_eq. by apply Hok.
Qed.

(** ** Properties *)

(** C40: [days_to_civil] computes the Gregorian calendar: the date it prints for a day
    is the one valid date whose number, counted by year and month lengths from
    1970-01-01 with the leap-year rule, is that day. *)
Theorem civil_calendar days y m d :
  0 <= days < 2 ^ 50 ->
  civil days = (y, m, d) <-> valid_date y m d /\ day_number y m d = days.
Proof.
  intros Hd. pose proof (civil_correct days Hd) as H.
  destruct (civil days) as [[y0 m0] d0]. destruct H as [V E]. split.
  - intros ?; by simplify_eq.
  - intros [V' E']. destruct (date_lt_trichotomy (y0, m0, d0) (y, m, d)) as [L|[?|L]]; [|done|];
      apply day_number_mono in L; (done || lia).
Qed.

Lemma civil_calendar_witness : civil 19782 = (2024, 2, 29).
Proof. apply (civil_calendar 19782 2024 2 29); [lia|]. split; [repeat split; zcompute|reflexivity]. Defined.

(** The purge removes, of the files the program writes, exactly those of the days
    before the cut-off ([keep_days] before now), through the year 9999; and it removes
    no file whose name is not the prefix, a dot, ten bytes and ".log". *)
Theorem purge_spec prefix keep_days secs :
  0 <= keep_days -> 0 <= secs < 86400 * LAST_DAY ->
  (forall k, 0 <= k <= LAST_DAY ->
    purges prefix keep_days secs (log_name prefix (days_to_civil k)) =
      (k <? cutoff_days keep_days secs)) /\
  (forall name, purges prefix keep_days secs name = true ->
    exists date, length date = 10%nat /\ name = log_name prefix date).
Proof.
  intros Hk Hs. split.
  - intros k Hkr. assert (0 <= cutoff_days keep_days secs <= LAST_DAY) as Hc.
    { unfold cutoff_days, sat_sub. split; [apply Z.div_pos; lia|]. apply Z.div_le_upper_bound; lia. }
    destruct (date_text_order k _ Hkr Hc) as [Ho Hl]. by rewrite purges_log_name.
  - intros name H. unfold purges, strip_prefix, strip_suffix in H. case_decide as Hp; [|done].
    case_decide as Hx; [|done]. destruct Hx as [Hlen Hx].
    destruct (take _ (drop _ name)) as [|c date] eqn:E; [done|].
    rewrite !andb_true_iff, Nat.eqb_eq, bool_decide_eq_true in H. destruct H as [[Hl ->] _].
    cbn [length] in Hl. exists date. split; [lia|].
    rewrite <- (take_drop (length prefix) name) at 1. rewrite Hp. unfold log_name. f_equal.
    rewrite <- (take_drop (length (drop (length prefix) name) - length dot_log) (drop (length prefix) name)).
    by rewrite E, Hx.
Qed.

Lemma purge_spec_witness :
  purges [chr 114] 7 (86400 * 20000) (log_name [chr 114] (days_to_civil 19992)) = true /\
  purges [chr 114] 7 (86400 * 20000) (log_name [chr 114] (days_to_civil 19993)) = false.
Proof.
  destruct (purge_spec [chr 114] 7 (86400 * 20000)) as [H _]; [lia|unfold LAST_DAY; lia|].
  split; [rewrite (H 19992)|rewrite (H 19993)]; try reflexivity; unfold LAST_DAY; lia.
Defined.

(** A log write that reports success put the whole buffer into the file of the
    current day, opening that file and purging first when the day changed; one that
    fails wrote a prefix of it there, or nothing when the new file could not be
    opened, and leaves the old file in use.  [st] is a state the program can be in:
    its file is the one of its date. *)
Theorem daily_write_spec prefix buf secs opened rs st r st' eff :
  li_file st = log_name prefix (li_date st) ->
  daily_write prefix buf secs opened rs st = (r, st', eff) ->
  li_file st' = log_name prefix (li_date st') /\
  (forall n, r = Some (Ok n) -> n = zlen buf /\ li_date st' = today_utc secs) /\
  ((li_date st' = today_utc secs /\
    exists out, out `prefix_of` buf /\ (is_Some (r ≫= fun x => match x with Ok n => Some n | Err _ => None end) -> out = buf) /\
      eff = (if decide (today_utc secs = li_date st) then []
             else [LeOpen (log_name prefix (today_utc secs)); LePurge secs]) ++
            [LeAppend (log_name prefix (today_utc secs)) out]) \/
   (opened = false /\ today_utc secs <> li_date st /\ st' = st /\ eff = [] /\ r = Some (Err IoOther))).
Proof. apply write_on_spec. Qed.

Lemma daily_write_spec_witness :
  daily_write [chr 114] [Byte.x61; Byte.x62] 86400 true [WrOk 1; WrInterrupted; WrOk 1]
    (mkLogInner (log_name [chr 114] (days_to_civil 0)) (days_to_civil 0)) =
  (Some (Ok 2), mkLogInner (log_name [chr 114] (days_to_civil 1)) (days_to_civil 1),
   [LeOpen (log_name [chr 114] (days_to_civil 1)); LePurge 86400;
    LeAppend (log_name [chr 114] (days_to_civil 1)) [Byte.x61; Byte.x62]]) /\
  2 = zlen [Byte.x61; Byte.x62].
Proof.
  split; [vm_compute; reflexivity|].
  apply (daily_write_spec [chr 114] [Byte.x61; Byte.x62] 86400 true [WrOk 1; WrInterrupted; WrOk 1]
    (mkLogInner (log_name [chr 114] (days_to_civil 0)) (days_to_civil 0)) (Some (Ok 2))
    (mkLogInner (log_name [chr 114] (days_to_civil 1)) (days_to_civil 1))
    [LeOpen (log_name [chr 114] (days_to_civil 1)); LePurge 86400;
     LeAppend (log_name [chr 114] (days_to_civil 1)) [Byte.x61; Byte.x62]]);
    [reflexivity|vm_compute; reflexivity|reflexivity].
Defined.
