(* ===== verification/Config.v ===== *)
(** * Configuration: port lists and validation

    Models [src/src/config.rs]: [parse_ports], [validate] of both sections and the
    defaults.  Text is its UTF-8 bytes; [trim] and [u16::from_str] of the standard
    library are modelled here.  A [SocketAddr] is the one of [Net].  The search for the
    file is in [Startup]; deserialising it is not modelled. *)
From Stdlib Require Import ZArith Lia.
From Stdlib Require Import Strings.Byte.
From stdpp Require Import base numbers list option.
From S2P Require Import Prelude Frames Net.
Local Open Scope Z_scope.

Inductive ConfigError : Set :=
| CfgChunkSize
| CfgZeroSecs
| CfgWindowTooSmall
| CfgWindowTooLarge
| CfgTunnelPort
| CfgProxyPort
| CfgParseInt
| CfgStartAfterEnd
| CfgRangeTooLong (count : Z)
| CfgTooManyPorts (count : Z)
| CfgPortZero
| CfgNoPorts.

(** ** [str::trim]: the White_Space characters, as UTF-8 *)
Definition whitespace : list bytes :=
  map (fun z => [chr z]) [9; 10; 11; 12; 13; 32] ++
  [[chr 194; chr 133]; [chr 194; chr 160]; [chr 225; chr 154; chr 128]] ++
  map (fun z => [chr 226; chr 128; chr z]) [128; 129; 130; 131; 132; 133; 134; 135; 136; 137; 138; 168; 169; 175] ++
  [[chr 226; chr 129; chr 159]; [chr 227; chr 128; chr 128]].

(** The white space [s] starts with: how many bytes. *)
Definition leading_space (s : bytes) : option nat :=
  match filter (fun w => bool_decide (take (length w) s = w)) whitespace with
  | w :: _ => Some (length w)
  | [] => None
  end.
Definition trailing_space (s : bytes) : option nat :=
  match filter (fun w => bool_decide (length w <= length s /\ drop (length s - length w) s = w)%nat) whitespace with
  | w :: _ => Some (length w)
  | [] => None
  end.

Fixpoint trim_start (fuel : nat) (s : bytes) : bytes :=
  match fuel, leading_space s with
  | S f, Some n => trim_start f (drop n s)
  | _, _ => s
  end.
Fixpoint trim_end (fuel : nat) (s : bytes) : bytes :=
  match fuel, trailing_space s with
  | S f, Some n => trim_end f (take (length s - n) s)
  | _, _ => s
  end.
(** Each round takes a byte or more. *)
Definition trim (s : bytes) : bytes := trim_end (length s) (trim_start (length s) s).

(** ** [u16::from_str] *)
Fixpoint u16_digits (acc : Z) (s : bytes) : option Z :=
  match s with
  | [] => Some acc
  | b :: s' =>
    match to_digit 10 b with
    | None => None
    | Some d =>
      if acc * 10 + d >? 65535 then None else u16_digits (acc * 10 + d) s'
    end
  end.

Definition PLUS : byte := chr 43.

Definition parse_u16 (s : bytes) : result ConfigError Z :=
  let digits := match s with
                | b :: s' => if bool_decide (b = PLUS) then s' else s
                | [] => []
                end in
  match digits with
  | [] => Err CfgParseInt
  | _ => match u16_digits 0 digits with Some v => Ok v | None => Err CfgParseInt end
  end.

(** [split_once('-')]. *)
Definition MINUS : byte := chr 45.
Fixpoint split_once (c : byte) (s : bytes) : option (bytes * bytes) :=
  match s with
  | [] => None
  | b :: s' =>
    if bool_decide (b = c) then Some ([], s')
    else match split_once c s' with Some (x, y) => Some (b :: x, y) | None => None end
  end.

(** ** Ports *)
Inductive Ports : Type :=
| Range (s : bytes)
| PList (v : list Z).

Definition MAX_PORTS : Z := 256.

(** [start..=end]. *)
Definition port_range (a b : Z) : list Z := seqZ a (b - a + 1).

Definition expand_ports (p : Ports) : result ConfigError (list Z) :=
  match p with
  | PList v => Ok v
  | Range s =>
    match split_once MINUS s with
    | Some (a, b) =>
      match parse_u16 (trim a) with
      | Err e => Err e
      | Ok start =>
        match parse_u16 (trim b) with
        | Err e => Err e
        | Ok end_ =>
          if start >? end_ then Err CfgStartAfterEnd
          else
            let count := end_ - start + 1 in
            if count >? MAX_PORTS then Err (CfgRangeTooLong count)
            else Ok (port_range start end_)
        end
      end
    | None => match parse_u16 (trim s) with Ok v => Ok [v] | Err e => Err e end
    end
  end.

(** [out.retain(..)] with [seen.insert(..)] as its test. *)
Fixpoint retain_new (seen : list Z) (l : list Z) : list Z :=
  match l with
  | [] => []
  | p :: l' => if bool_decide (p ∈ seen) then retain_new seen l' else p :: retain_new (p :: seen) l'
  end.

Definition parse_ports (p : Ports) : result ConfigError (list Z) :=
  match expand_ports p with
  | Err e => Err e
  | Ok out =>
    if zlen out >? MAX_PORTS then Err (CfgTooManyPorts (zlen out))
    else if bool_decide (0 ∈ out) then Err CfgPortZero
    else
      let out := retain_new [] out in
      if zlen out =? 0 then Err CfgNoPorts else Ok out
  end.

(** ** Sections of the file *)
Record TunnelCfg : Type := mkTunnelCfg { tn_proxy : SocketAddr; tn_target : bytes; tn_port : Z }.

Record SplitterConfig : Type := mkSplitterConfig {
  sc_listen : SocketAddr;
  sc_chunk_size : Z;
  sc_tunnel : list TunnelCfg;
  sc_data_send_timeout_secs : Z;
  sc_heartbeat_secs : Z;
  sc_reorder_window_bytes : Z;
}.

Record ReassemblerConfig : Type := mkReassemblerConfig {
  rc_listen : IpAddr;
  rc_ports : Ports;
  rc_local_target : SocketAddr;
  rc_chunk_size : Z;
  rc_data_send_timeout_secs : Z;
  rc_heartbeat_secs : Z;
  rc_reorder_window_bytes : Z;
}.

Definition default_data_send_timeout : Z := 30.
Definition default_heartbeat : Z := 60.
Definition default_reorder_window : Z := 64 * 1024 * 1024.
Definition default_chunk : Z := 65535.
Definition localhost : IpAddr := V4 [chr 127; chr 0; chr 0; chr 1].
Definition default_splitter_listen : SocketAddr := mkSocketAddr localhost 52310.
Definition default_local_target : SocketAddr := mkSocketAddr localhost 52310.
(** "52311-52319". *)
Definition default_reassembler_ports : Ports := Range (show 10 52311 ++ [MINUS] ++ show 10 52319).

Definition validate_secs (secs : Z) : result ConfigError () :=
  if secs =? 0 then Err CfgZeroSecs else Ok ().

Definition validate_reorder_window (window chunk_size : Z) : result ConfigError () :=
  if window <? chunk_size then Err CfgWindowTooSmall
  else if window >? 1024 * 1024 * 1024 then Err CfgWindowTooLarge
  else Ok ().

Definition validate_chunk (chunk_size : Z) : result ConfigError () :=
  if (chunk_size <? MIN_CHUNK) || (chunk_size >? MAX_CHUNK) then Err CfgChunkSize else Ok ().

Definition splitter_validate (c : SplitterConfig) : result ConfigError () :=
  _ ← validate_chunk (sc_chunk_size c);
  _ ← validate_secs (sc_data_send_timeout_secs c);
  _ ← validate_secs (sc_heartbeat_secs c);
  _ ← validate_reorder_window (sc_reorder_window_bytes c) (sc_chunk_size c);
  if existsb (fun t => tn_port t =? 0) (sc_tunnel c) then Err CfgTunnelPort
  else if existsb (fun t => sa_port (tn_proxy t) =? 0) (sc_tunnel c) then Err CfgProxyPort
  else Ok ().

Definition reassembler_validate (c : ReassemblerConfig) : result ConfigError () :=
  _ ← validate_chunk (rc_chunk_size c);
  _ ← validate_secs (rc_data_send_timeout_secs c);
  _ ← validate_secs (rc_heartbeat_secs c);
  validate_reorder_window (rc_reorder_window_bytes c) (rc_chunk_size c).
