(* ===== verification/ConfigFacts.v ===== *)
(** * Correctness of the configuration checks

    Which port lists and texts [parse_ports] accepts and what it makes of them, and
    what a validated section guarantees to the wire format and the reorder buffer. *)
From Stdlib Require Import ZArith Lia.
From Stdlib Require Import Strings.Byte.
From stdpp Require Import base numbers list option fin_maps gmap.
From S2P Require Import Prelude Runtime Frames Reorder Net NetFacts Config.
Local Open Scope Z_scope.

(** ** Duplicates *)
Lemma elem_of_retain_new seen l x : x ∈ retain_new seen l <-> x ∈ l /\ x ∉ seen.
Proof.
  revert seen. induction l as [|p l IH]; intros seen; cbn [retain_new].
  { split; [by intros ?%elem_of_nil|by intros [?%elem_of_nil _]]. }
  case_bool_decide as Hp; rewrite ?elem_of_cons, IH, ?elem_of_cons.
  - split; [tauto|]. intros [[->|?] ?]; tauto.
  - destruct (decide (x = p)) as [->|]; tauto.
Qed.

Lemma NoDup_retain_new seen l : NoDup (retain_new seen l).
Proof.
  revert seen. induction l as [|p l IH]; intros seen; cbn [retain_new]; [apply NoDup_nil_2|].
  case_bool_decide; [done|]. apply NoDup_cons_2; [|done].
  rewrite elem_of_retain_new, elem_of_cons. tauto.
Qed.

Lemma retain_new_sublist seen l : retain_new seen l `sublist_of` l.
Proof.
  revert seen. induction l as [|p l IH]; intros seen; cbn [retain_new]; [done|].
  case_bool_decide; by constructor.
Qed.

Lemma retain_new_nodup seen l : NoDup l -> (forall x, x ∈ l -> x ∉ seen) -> retain_new seen l = l.
Proof.
  intros Hl. revert seen. induction Hl as [|p l Hp Hl IH]; intros seen Hs; cbn [retain_new]; [done|].
  rewrite bool_decide_eq_false_2 by (apply Hs, elem_of_cons; by left). f_equal. apply IH.
  intros x Hx. rewrite elem_of_cons. intros [->|?]; [done|].
  by apply (Hs x); [apply elem_of_cons; right|].
Qed.

(** ** Numbers *)
Lemma u16_digits_app acc a b :
  u16_digits acc (a ++ b) = match u16_digits acc a with Some v => u16_digits v b | None => None end.
Proof.
  revert acc. induction a as [|x a IH]; intros acc; [done|]. cbn [app u16_digits].
  destruct (to_digit 10 x); [|done]. by destruct (_ >? _).
Qed.

Lemma u16_digits_show f z : 0 <= z <= 65535 -> z < 10 ^ Z.of_nat f -> u16_digits 0 (digits f 10 z) = Some z.
Proof.
  revert z. induction f as [|f IH]; intros z Hz Hf; [cbn in Hf; assert (z = 0) as -> by lia; done|].
  cbn [digits]. destruct (Z.ltb_spec z 10).
  - cbn [u16_digits]. destruct (to_digit_10_char z) as [-> _]; [lia|].
    rewrite (proj2 (Z.ltb_lt z 10)) by lia. replace (0 * 10 + z) with z by lia. destruct (Z.gtb_spec z 65535); [lia|done].
  - rewrite Nat2Z.inj_succ, Z.pow_succ_r in Hf by lia. pose proof (Z.mod_pos_bound z 10).
    pose proof (Z.div_mod z 10). rewrite u16_digits_app, IH by (Z.to_euclidean_division_equations; lia).
    cbn [u16_digits]. destruct (to_digit_10_char (z mod 10)) as [-> _]; [lia|].
    rewrite (proj2 (Z.ltb_lt (z mod 10) 10)) by lia.
    replace (z / 10 * 10 + z mod 10) with z by lia. destruct (Z.gtb_spec z 65535); [lia|done].
Qed.

(** A decimal text: not empty, of digits only. *)
Definition is_digit (b : byte) : Prop := exists d, 0 <= d < 10 /\ b = digit_char d.

Lemma digits_are_digits f z : 0 <= z -> Forall is_digit (digits f 10 z).
Proof.
  revert z. induction f as [|f IH]; intros z Hz; cbn [digits]; [apply Forall_nil_2|].
  destruct (Z.ltb_spec z 10).
  - apply Forall_cons_2; [|apply Forall_nil_2]. exists z. split; [lia|done].
  - apply Forall_app. split; [apply IH, Z.div_pos; lia|].
    apply Forall_cons_2; [|apply Forall_nil_2]. exists (z mod 10). split; [apply Z.mod_pos_bound; lia|done].
Qed.

Lemma show_digits z : 0 <= z -> Forall is_digit (show 10 z).
Proof. apply digits_are_digits. Qed.

Lemma show_not_nil z : show 10 z <> [].
Proof. unfold show. cbn [digits]. destruct (z <? 10); [done|]. intros E. by apply app_eq_nil in E as [_ ?]. Qed.

(** A property of the ten digits, checked on each. *)
Lemma is_digit_all (P : byte -> Prop) :
  Forall P (map digit_char [0; 1; 2; 3; 4; 5; 6; 7; 8; 9]) -> forall b, is_digit b -> P b.
Proof.
  intros H b (d & Hd & ->). rewrite Forall_forall in H. apply H, list_elem_of_In, in_map. cbn. lia.
Qed.

Lemma parse_u16_show z : 0 <= z <= 65535 -> parse_u16 (show 10 z) = Ok z.
Proof.
  intros Hz. unfold parse_u16. pose proof (show_digits z) as Hd. pose proof (show_not_nil z) as Hn.
  pose proof (u16_digits_show 17 z Hz) as Hu. fold (show 10 z) in Hu.
  destruct (show 10 z) as [|b s]; [done|]. specialize (Hd ltac:(lia)). apply Forall_cons_1 in Hd as [Hb _].
  rewrite bool_decide_eq_false_2.
  - rewrite Hu; [done|]. change (10 ^ Z.of_nat 17) with 100000000000000000. lia.
  - revert b Hb Hn Hu. intros b Hb _ _. revert b Hb. apply is_digit_all. repeat constructor; discriminate.
Qed.

(** ** Trimming *)
Definition SPACE : byte := chr 32.

(** No white space starts, or ends, with a digit; only the space itself with a space. *)
Lemma whitespace_digit w b : w ∈ whitespace -> is_digit b -> head w <> Some b /\ last w <> Some b.
Proof.
  intros Hw Hb. revert b Hb. apply is_digit_all.
  assert (Forall (fun w => Forall (fun b => head w <> Some b /\ last w <> Some b)
    (map digit_char [0; 1; 2; 3; 4; 5; 6; 7; 8; 9])) whitespace) as H.
  { repeat first [apply Forall_nil_2 | apply Forall_cons_2; [repeat constructor; discriminate|]]. }
  rewrite Forall_forall in H. by apply H.
Qed.

Lemma whitespace_space w : w ∈ whitespace -> head w = Some SPACE \/ last w = Some SPACE -> w = [SPACE].
Proof.
  intros Hw. revert w Hw. apply (proj1 (Forall_forall (fun w => head w = Some SPACE \/ last w = Some SPACE -> w = [SPACE]) _)).
  repeat first [apply Forall_nil_2 | apply Forall_cons_2; [intros [H|H]; first [reflexivity | discriminate H]|]].
Qed.

Lemma whitespace_nonempty w : w ∈ whitespace -> w <> [].
Proof.
  revert w. apply (proj1 (Forall_forall (fun w => w <> []) _)). repeat constructor; discriminate.
Qed.

Lemma leading_space_digit b s : is_digit b -> leading_space (b :: s) = None.
Proof.
  intros Hb. unfold leading_space. destruct (filter _ whitespace) as [|w l] eqn:E; [done|].
  assert (w ∈ w :: l) as Hw by (apply elem_of_cons; by left). rewrite <- E in Hw.
  apply list_elem_of_filter in Hw as [Ht Hw]. apply bool_decide_unpack in Ht.
  destruct (whitespace_digit w b Hw Hb) as [Hh _]. pose proof (whitespace_nonempty w Hw).
  destruct w as [|x w]; [done|]. cbn in Ht, Hh. injection Ht as -> _. done.
Qed.

Lemma trailing_space_digit b s : is_digit b -> trailing_space (s ++ [b]) = None.
Proof.
  intros Hb. unfold trailing_space. destruct (filter _ whitespace) as [|w l] eqn:E; [done|].
  assert (w ∈ w :: l) as Hw by (apply elem_of_cons; by left). rewrite <- E in Hw.
  apply list_elem_of_filter in Hw as [Ht Hw]. apply bool_decide_unpack in Ht as [Hl Ht].
  destruct (whitespace_digit w b Hw Hb) as [_ Hh]. destruct Hh.
  pose proof (whitespace_nonempty w Hw). rewrite <- Ht. rewrite length_app in *. cbn [length] in *.
  rewrite drop_app_le by (destruct w; [done|cbn; lia]). by rewrite last_snoc.
Qed.

Lemma leading_space_space s : leading_space (SPACE :: s) = Some 1%nat.
Proof.
  unfold leading_space. destruct (filter _ whitespace) as [|w l] eqn:E.
  - assert ([SPACE] ∈ filter (fun w => bool_decide (take (length w) (SPACE :: s) = w)) whitespace) as H.
    { apply list_elem_of_filter. split; [by apply bool_decide_pack|by apply (list_elem_of_lookup_2 _ 5)]. }
    rewrite E in H. by apply elem_of_nil in H.
  - assert (w ∈ w :: l) as Hw by (apply elem_of_cons; by left). rewrite <- E in Hw.
    apply list_elem_of_filter in Hw as [Ht Hw]. apply bool_decide_unpack in Ht.
    pose proof (whitespace_nonempty w Hw). rewrite (whitespace_space w Hw); [done|left].
    destruct w as [|x w]; [done|]. cbn in Ht. by injection Ht as -> _.
Qed.

Lemma trailing_space_space s : trailing_space (s ++ [SPACE]) = Some 1%nat.
Proof.
  unfold trailing_space. destruct (filter _ whitespace) as [|w l] eqn:E.
  - assert ([SPACE] ∈ filter (fun w => bool_decide (length w <= length (s ++ [SPACE]) /\
      drop (length (s ++ [SPACE]) - length w) (s ++ [SPACE]) = w)%nat) whitespace) as H.
    { apply list_elem_of_filter. split; [|by apply (list_elem_of_lookup_2 _ 5)]. apply bool_decide_pack.
      rewrite length_app. cbn [length]. split; [lia|].
      replace (length s + 1 - 1)%nat with (length s) by lia. by rewrite drop_app_length. }
    rewrite E in H. by apply elem_of_nil in H.
  - assert (w ∈ w :: l) as Hw by (apply elem_of_cons; by left). rewrite <- E in Hw.
    apply list_elem_of_filter in Hw as [Ht Hw]. apply bool_decide_unpack in Ht as [Hl Ht].
    pose proof (whitespace_nonempty w Hw). rewrite (whitespace_space w Hw); [done|right].
    rewrite <- Ht. rewrite length_app in *. cbn [length] in *.
    rewrite drop_app_le by (destruct w; [done|cbn; lia]). by rewrite last_snoc.
Qed.

Definition spaces (n : nat) : bytes := replicate n SPACE.

Lemma trim_start_spaces f n b s : (n <= f)%nat -> is_digit b -> trim_start f (spaces n ++ b :: s) = b :: s.
Proof.
  intros Hn Hb. revert f Hn. induction n as [|n IH]; intros f Hn; cbn [spaces replicate app].
  - destruct f; [done|]. cbn [trim_start]. by rewrite leading_space_digit.
  - destruct f; [lia|]. cbn [trim_start app]. rewrite leading_space_space. cbn [drop].
    rewrite drop_0. apply IH. lia.
Qed.

Lemma trim_end_spaces f n s b : (n <= f)%nat -> is_digit b -> trim_end f ((s ++ [b]) ++ spaces n) = s ++ [b].
Proof.
  intros Hn Hb. revert f Hn. induction n as [|n IH]; intros f Hn; unfold spaces.
  - rewrite app_nil_r. destruct f; [done|]. cbn [trim_end]. by rewrite trailing_space_digit.
  - destruct f; [lia|]. rewrite replicate_S_end, app_assoc. cbn [trim_end]. rewrite trailing_space_space.
    rewrite length_app. cbn [length].
    replace (length ((s ++ [b]) ++ replicate n SPACE) + 1 - 1)%nat
      with (length ((s ++ [b]) ++ replicate n SPACE)) by lia.
    rewrite take_app_length. apply IH. lia.
Qed.

(** A number with spaces around it. *)
Definition padded (n : nat) (z : Z) (m : nat) : bytes := spaces n ++ show 10 z ++ spaces m.

Lemma parse_padded n z m : 0 <= z <= 65535 -> parse_u16 (trim (padded n z m)) = Ok z.
Proof.
  intros Hz. unfold trim, padded. pose proof (show_digits z ltac:(lia)) as Hd. pose proof (show_not_nil z) as Hn.
  assert (exists b s, show 10 z = b :: s /\ is_digit b) as (b & s & E & Hb).
  { destruct (show 10 z) as [|b s]; [done|]. apply Forall_cons_1 in Hd as [? _]. by exists b, s. }
  assert (n <= length (spaces n ++ show 10 z ++ spaces m) /\ m <= length (spaces n ++ show 10 z ++ spaces m))%nat
    as [Ln Lm] by (rewrite !length_app; unfold spaces; rewrite !length_replicate; lia).
  set (L := length (spaces n ++ show 10 z ++ spaces m)) in *. clearbody L.
  rewrite E, <- app_comm_cons, trim_start_spaces by done.
  rewrite app_comm_cons, <- E.
  destruct (exists_last Hn) as (s' & b' & E'). rewrite E' in Hd |- *.
  apply Forall_app in Hd as [_ Hd]. apply Forall_cons_1 in Hd as [Hb' _].
  rewrite trim_end_spaces by done. rewrite <- E'. by apply parse_u16_show.
Qed.

Lemma split_once_app c a b : c ∉ a -> split_once c (a ++ c :: b) = Some (a, b).
Proof.
  induction a as [|x a IH]; intros Ha; cbn [app split_once].
  - by rewrite bool_decide_eq_true_2.
  - apply not_elem_of_cons in Ha as [Hx Ha]. rewrite bool_decide_eq_false_2 by congruence. by rewrite IH.
Qed.

Lemma padded_no_minus n z m : 0 <= z -> MINUS ∉ padded n z m.
Proof.
  intros Hz H. unfold padded in H. apply elem_of_app in H as [H|H]; [|apply elem_of_app in H as [H|H]];
    try (by apply elem_of_replicate in H as [E _]; discriminate E).
  pose proof (show_digits z Hz) as Hd. rewrite Forall_forall in Hd. apply Hd in H. revert H.
  enough (forall b, is_digit b -> b = MINUS -> False) as F by (intros H; by apply (F MINUS)).
  apply (is_digit_all (fun b => b = MINUS -> False)). repeat constructor; discriminate.
Qed.

(** ** Properties *)

(** The ranges serde gives the fields. *)
Definition ports_typed (p : Ports) : Prop :=
  match p with PList v => Forall (fun x => 0 <= x < 65536) v | Range _ => True end.

Lemma u16_digits_range acc s v : 0 <= acc -> u16_digits acc s = Some v -> acc <= 65535 -> 0 <= v <= 65535.
Proof.
  revert acc. induction s as [|b s IH]; intros acc Ha H Hm; cbn in H; [simplify_eq; lia|].
  destruct (to_digit 10 b) as [d|] eqn:E; [|done]. apply to_digit_10 in E as [Hd _].
  destruct (Z.gtb_spec (acc * 10 + d) 65535); [done|]. apply IH in H; lia.
Qed.

Lemma parse_u16_range s v : parse_u16 s = Ok v -> 0 <= v <= 65535.
Proof.
  unfold parse_u16. destruct (match s with b :: s' => _ | [] => _ end) as [|b t]; [done|].
  destruct (u16_digits 0 (b :: t)) as [x|] eqn:E; [|done]. intros; simplify_eq.
  by apply u16_digits_range in E.
Qed.

Lemma expand_ports_range p l : ports_typed p -> expand_ports p = Ok l -> Forall (fun x => 0 <= x < 65536) l.
Proof.
  intros Ht H. destruct p as [s|v]; cbn in H; [|by simplify_eq].
  destruct (split_once MINUS s) as [[a b]|].
  - destruct (parse_u16 (trim a)) as [x|] eqn:Ea; [|done]. destruct (parse_u16 (trim b)) as [y|] eqn:Eb; [|done].
    apply parse_u16_range in Ea, Eb. destruct (x >? y); [done|]. destruct (_ >? MAX_PORTS); [done|]. simplify_eq.
    apply Forall_forall. unfold port_range. intros z Hz. apply elem_of_seqZ in Hz. lia.
  - destruct (parse_u16 (trim s)) as [x|] eqn:E; [|done]. apply parse_u16_range in E. simplify_eq.
    apply Forall_cons_2; [lia|apply Forall_nil_2].
Qed.

(** What an accepted result is. *)
Lemma parse_ports_ok p out :
  ports_typed p -> parse_ports p = Ok out ->
  out <> [] /\ zlen out <= 256 /\ NoDup out /\ Forall (fun x => 1 <= x <= 65535) out /\
  exists l, expand_ports p = Ok l /\ out `sublist_of` l /\ forall x, x ∈ out <-> x ∈ l.
Proof.
  intros Ht H. unfold parse_ports in H. destruct (expand_ports p) as [l|] eqn:El; [|done].
  pose proof (expand_ports_range p l Ht El) as Hr.
  destruct (zlen l >? MAX_PORTS) eqn:Eg; [done|]. unfold MAX_PORTS in Eg. zbool.
  case_bool_decide as H0; [done|]. destruct (Z.eqb_spec (zlen (retain_new [] l)) 0) as [|Hn]; [done|].
  simplify_eq. assert (forall x, x ∈ retain_new [] l <-> x ∈ l) as Hx.
  { intros x. rewrite elem_of_retain_new. split; [by intros [? _]|intros ?; split; [done|apply not_elem_of_nil]]. }
  split; [by intros E; rewrite E in Hn|]. split.
  { pose proof (sublist_length _ _ (retain_new_sublist [] l)). unfold zlen in *. lia. }
  split; [apply NoDup_retain_new|]. split.
  { rewrite Forall_forall in Hr |- *. intros x Hin. apply Hx in Hin. specialize (Hr x Hin).
    destruct (decide (x = 0)) as [->|]; [done|lia]. }
  exists l. split; [done|]. split; [apply retain_new_sublist|done].
Qed.

(** C35: what [parse_ports] accepts.  The result is not empty, holds at most 256 ports,
    all of 1 .. 65535, none twice, in the order of the list or range that was given and
    with the same ports; and a list is accepted exactly when it has between 1 and 256
    entries, none of them 0. *)
Theorem parse_ports_sound p :
  ports_typed p ->
  (forall out, parse_ports p = Ok out ->
    out <> [] /\ zlen out <= 256 /\ NoDup out /\ Forall (fun x => 1 <= x <= 65535) out /\
    exists l, expand_ports p = Ok l /\ out `sublist_of` l /\ forall x, x ∈ out <-> x ∈ l) /\
  (forall v, p = PList v -> is_ok (parse_ports p) = true <-> v <> [] /\ zlen v <= 256 /\ 0 ∉ v).
Proof.
  intros Ht. split.
  - intros out. by apply parse_ports_ok.
  - intros v ->. unfold parse_ports, expand_ports, MAX_PORTS.
    destruct (zlen v >? 256) eqn:Eg; zbool; [split; [done|lia]|].
    case_bool_decide as H0; [split; [done|tauto]|].
    destruct (Z.eqb_spec (zlen (retain_new [] v)) 0) as [E|E]; cbn.
    + split; [done|]. intros [Hv _]. destruct v as [|x v]; [done|]. apply zlen_0_nil in E.
      assert (x ∈ retain_new [] (x :: v)) as Hx.
      { apply elem_of_retain_new. split; [apply elem_of_cons; by left|apply not_elem_of_nil]. }
      rewrite E in Hx. by apply elem_of_nil in Hx.
    + split; [intros _; split_and!; [by intros ->|lia|done]|done].
Qed.

Lemma parse_ports_sound_witness :
  let out := [5; 7] in
  out <> [] /\ zlen out <= 256 /\ is_ok (parse_ports (PList [5; 7; 5])) = true.
Proof.
  destruct (parse_ports_sound (PList [5; 7; 5])) as [H1 H2].
  { repeat apply Forall_cons_2; try apply Forall_nil_2; lia. }
  destruct (H1 [5; 7]) as (A & B & _); [reflexivity|]. cbv zeta. split; [exact A|]. split; [exact B|].
  apply (H2 [5; 7; 5] eq_refl). split; [discriminate|]. split; [zcompute|]. set_solver.
Defined.

(** A range written as text, with any spaces around its bounds, gives its ports in
    ascending order, or the error its bounds call for: inverted, more than 256 ports,
    or starting at port 0. *)
Theorem parse_ports_range i a j k b l :
  0 <= a <= 65535 -> 0 <= b <= 65535 ->
  parse_ports (Range (padded i a j ++ [MINUS] ++ padded k b l)) =
    if b <? a then Err CfgStartAfterEnd
    else if 256 <? b - a + 1 then Err (CfgRangeTooLong (b - a + 1))
    else if a =? 0 then Err CfgPortZero
    else Ok (seqZ a (b - a + 1)).
Proof.
  intros Ha Hb. unfold parse_ports, expand_ports. cbn [app].
  rewrite split_once_app by (by apply padded_no_minus; lia). rewrite !parse_padded by done.
  unfold MAX_PORTS. rewrite Z.gtb_ltb. destruct (Z.ltb_spec b a); [done|].
  rewrite Z.gtb_ltb. destruct (Z.ltb_spec 256 (b - a + 1)); [done|]. unfold port_range.
  assert (zlen (seqZ a (b - a + 1)) = b - a + 1) as Hl by (unfold zlen; rewrite length_seqZ; lia).
  rewrite Hl, Z.gtb_ltb. destruct (Z.ltb_spec 256 (b - a + 1)); [lia|].
  destruct (Z.eqb_spec a 0) as [->|].
  - rewrite bool_decide_eq_true_2; [done|]. apply elem_of_seqZ. lia.
  - rewrite bool_decide_eq_false_2 by (rewrite elem_of_seqZ; lia).
    rewrite retain_new_nodup; [|apply NoDup_seqZ|intros; apply not_elem_of_nil].
    rewrite Hl. by destruct (Z.eqb_spec (b - a + 1) 0); [lia|].
Qed.

Lemma parse_ports_range_witness :
  parse_ports (Range (padded 1 80 0 ++ [MINUS] ++ padded 2 82 1)) = Ok [80; 81; 82].
Proof. rewrite (parse_ports_range 1 80 0 2 82 1); [reflexivity|lia|lia]. Defined.

(** ** Validation *)

(** What the wire format and the reorder buffer need of a configuration. *)
Definition sound_numbers (chunk send_timeout heartbeat window : Z) : Prop :=
  512 <= chunk <= 65535 /\ send_timeout <> 0 /\ heartbeat <> 0 /\ chunk <= window <= 2 ^ 30.

Lemma validate_numbers chunk secs1 secs2 window (k : result ConfigError ()) :
  (_ ← validate_chunk chunk; _ ← validate_secs secs1; _ ← validate_secs secs2;
   _ ← validate_reorder_window window chunk; k) = Ok () <->
  sound_numbers chunk secs1 secs2 window /\ k = Ok ().
Proof.
  unfold validate_chunk, validate_secs, validate_reorder_window, MIN_CHUNK, MAX_CHUNK, sound_numbers.
  rewrite !Z.gtb_ltb.
  destruct (Z.ltb_spec chunk 512); [split; [discriminate|lia]|].
  destruct (Z.ltb_spec 65535 chunk); [split; [discriminate|lia]|]. cbn [orb mbind result_bind].
  destruct (Z.eqb_spec secs1 0); [split; [discriminate|tauto]|]. cbn [mbind result_bind].
  destruct (Z.eqb_spec secs2 0); [split; [discriminate|tauto]|]. cbn [mbind result_bind].
  destruct (Z.ltb_spec window chunk); [split; [discriminate|lia]|].
  destruct (Z.ltb_spec (1024 * 1024 * 1024) window); [split; [discriminate|lia]|].
  cbn [mbind result_bind]. split; [|by intros [_ ?]]. intros ?. split_and!; (done || lia).
Qed.

Lemma splitter_validate_iff c :
  splitter_validate c = Ok () <->
  sound_numbers (sc_chunk_size c) (sc_data_send_timeout_secs c) (sc_heartbeat_secs c)
    (sc_reorder_window_bytes c) /\
  Forall (fun t => tn_port t <> 0 /\ sa_port (tn_proxy t) <> 0) (sc_tunnel c).
Proof.
  unfold splitter_validate. rewrite validate_numbers.
  assert (Forall (fun t => tn_port t <> 0 /\ sa_port (tn_proxy t) <> 0) (sc_tunnel c) <->
    existsb (fun t => tn_port t =? 0) (sc_tunnel c) = false /\
    existsb (fun t => sa_port (tn_proxy t) =? 0) (sc_tunnel c) = false) as ->.
  { induction (sc_tunnel c) as [|t ts IH]; [by repeat split|]. cbn [existsb].
    rewrite Forall_cons, IH, !orb_false_iff, !Z.eqb_neq. tauto. }
  destruct (existsb (fun t => tn_port t =? 0) _), (existsb (fun t => sa_port (tn_proxy t) =? 0) _); naive_solver.
Qed.

Lemma reassembler_validate_iff c :
  reassembler_validate c = Ok () <->
  sound_numbers (rc_chunk_size c) (rc_data_send_timeout_secs c) (rc_heartbeat_secs c)
    (rc_reorder_window_bytes c).
Proof.
  rewrite <- (and_True (sound_numbers _ _ _ _)).
  assert (True <-> (Ok () : result ConfigError ()) = Ok ()) as -> by done.
  rewrite <- validate_numbers. unfold reassembler_validate.
  destruct (validate_chunk _); [|done]. cbn [mbind result_bind].
  destruct (validate_secs (rc_data_send_timeout_secs c)); [|done]. cbn [mbind result_bind].
  destruct (validate_secs (rc_heartbeat_secs c)); [|done]. cbn [mbind result_bind].
  by destruct (validate_reorder_window _ _) as [[]|].
Qed.

(** With such numbers every chunk encodes, and a frame ahead of its turn is buffered. *)
Lemma sound_numbers_safe {B : BufMut} {BL : BufMutLaws B} chunk s1 s2 window :
  sound_numbers chunk s1 s2 window -> forall cid sq p, zlen p <= chunk ->
  is_ok (frame_encode (frame_data cid sq p)) = true /\
  (1 < sq -> accepted (push (with_limit window) sq p).1 = true).
Proof.
  intros (H1 & _ & _ & H4) cid sq p Hc. split.
  - rewrite frame_encode_ok; [done|]. cbn. unfold MAX_PAYLOAD. lia.
  - intros Hs. unfold push. cbn [with_limit expected pending].
    destruct (Z.ltb_spec sq 1); [lia|]. destruct (Z.eqb_spec sq 1); [lia|].
    unfold with_limit at 1. cbn [pending expected]. rewrite lookup_empty.
    assert (can_buffer (with_limit window) p = true) as ->; [|done].
    unfold can_buffer, with_limit, MAX_REORDER_WINDOW. cbn [pending max_entries pending_bytes max_bytes].
    rewrite map_size_empty, andb_true_iff, Z.ltb_lt, Z.leb_le. lia.
Qed.

Definition demo_config : SplitterConfig := {|
  sc_listen := default_splitter_listen; sc_chunk_size := default_chunk;
  sc_tunnel := [mkTunnelCfg (mkSocketAddr localhost 1080) [] 52311];
  sc_data_send_timeout_secs := default_data_send_timeout;
  sc_heartbeat_secs := default_heartbeat; sc_reorder_window_bytes := default_reorder_window |}.
