(* ===== verification/Startup.v ===== *)
(** * Start-up

    Models [find_config] of [src/src/config.rs] and [main] of [src/src/main.rs]: which
    file is read, and what the process runs with which configuration.  Parsing TOML,
    the tests and reads of the file system and the log writer's outcome are arguments. *)
From Stdlib Require Import ZArith Lia.
From Stdlib Require Import Strings.Byte.
From stdpp Require Import base numbers list option fin_maps gmap.
From S2P Require Import Prelude Runtime Frames Reorder Net Config ConfigFacts.
Local Open Scope Z_scope.

(** [&["config.toml", "round_robin.toml"]], beside the executable or in the current
    directory. *)
Inductive config_name : Set := ConfigToml | RoundRobinToml.
Inductive candidate : Set := BesideExe (name : config_name) | InCwd (name : config_name).

(** [round_robin::config::Config]. *)
Record Config : Type := mkConfig {
  cfg_mode : bytes;
  cfg_log : bool;
  cfg_splitter : option SplitterConfig;
  cfg_reassembler : option ReassemblerConfig;
}.

Inductive StartError : Type :=
| SeNoFile
| SeRead
| SeToml
| SeLogPanic
| SeMissingSplitter
| SeMissingReassembler
| SeNoTunnels
| SeUnknownMode
| SeInvalid (e : ConfigError).

(** The configurations [run_splitter] and [run_reassembler] get, durations in seconds. *)
Record SplitterRun : Type := mkSplitterRun {
  sr_listen_addr : SocketAddr;
  sr_tunnels : list TunnelCfg;
  sr_chunk_size : Z;
  sr_data_send_timeout : Z;
  sr_heartbeat_interval : Z;
  sr_reorder_window_bytes : Z;
}.
Record ReassemblerRun : Type := mkReassemblerRun {
  rr_listen_ip : IpAddr;
  rr_listen_ports : list Z;
  rr_local_target : SocketAddr;
  rr_chunk_size : Z;
  rr_data_send_timeout : Z;
  rr_heartbeat_interval : Z;
  rr_reorder_window_bytes : Z;
}.
Inductive Launch : Type := RunSplitter (c : SplitterRun) | RunReassembler (c : ReassemblerRun).

Section startup.
Context (exe_dir : bool) (is_file : candidate -> bool) (read_to_string : candidate -> option bytes).

(** The candidates in the order they are tried. *)
Definition candidates_of (name : config_name) : list candidate :=
  (if exe_dir then [BesideExe name] else []) ++ [InCwd name].

Fixpoint first_file (cs : list candidate) : result StartError bytes :=
  match cs with
  | [] => Err SeNoFile
  | c :: cs' =>
    if is_file c then match read_to_string c with Some b => Ok b | None => Err SeRead end
    else first_file cs'
  end.
Definition find_config : result StartError bytes :=
  first_file (candidates_of ConfigToml ++ candidates_of RoundRobinToml).

Definition invalid {A} (r : result ConfigError A) : result StartError A :=
  match r with Ok a => Ok a | Err e => Err (SeInvalid e) end.

Definition mode_splitter : bytes := map chr [115; 112; 108; 105; 116; 116; 101; 114].
Definition mode_reassembler : bytes := map chr [114; 101; 97; 115; 115; 101; 109; 98; 108; 101; 114].

Definition launch_splitter (sc : SplitterConfig) : result StartError Launch :=
  _ ← invalid (splitter_validate sc);
  if bool_decide (sc_tunnel sc = []) then Err SeNoTunnels
  else Ok (RunSplitter (mkSplitterRun (sc_listen sc) (sc_tunnel sc) (sc_chunk_size sc)
             (sc_data_send_timeout_secs sc) (sc_heartbeat_secs sc) (sc_reorder_window_bytes sc))).

Definition launch_reassembler (rc : ReassemblerConfig) : result StartError Launch :=
  _ ← invalid (reassembler_validate rc);
  ports ← invalid (parse_ports (rc_ports rc));
  Ok (RunReassembler (mkReassemblerRun (rc_listen rc) ports (rc_local_target rc) (rc_chunk_size rc)
        (rc_data_send_timeout_secs rc) (rc_heartbeat_secs rc) (rc_reorder_window_bytes rc))).

(** The [match cfg.mode] at the end of [main]. *)
Definition launch (cfg : Config) : result StartError Launch :=
  if bool_decide (cfg_mode cfg = mode_splitter) then
    match cfg_splitter cfg with Some sc => launch_splitter sc | None => Err SeMissingSplitter end
  else if bool_decide (cfg_mode cfg = mode_reassembler) then
    match cfg_reassembler cfg with Some rc => launch_reassembler rc | None => Err SeMissingReassembler end
  else Err SeUnknownMode.

Context (toml : bytes -> option Config) (log_opened : bool).

(** [main] up to the call that runs the chosen side. *)
Definition main : result StartError Launch :=
  content ← find_config;
  match toml content with
  | None => Err SeToml
  | Some cfg => if cfg_log cfg && negb log_opened then Err SeLogPanic else launch cfg
  end.
End startup.
