(* ===== verification/StartupFacts.v ===== *)
(** * What is started

    [main] runs a side only with a configuration both the wire format and the reorder
    buffer can work with. *)
From Stdlib Require Import ZArith Lia.
From Stdlib Require Import Strings.Byte.
From stdpp Require Import base numbers list option fin_maps gmap.
From S2P Require Import Prelude Runtime Frames Reorder Net Config ConfigFacts Startup.
Local Open Scope Z_scope.

Lemma invalid_Ok {A} (r : result ConfigError A) a : invalid r = Ok a <-> r = Ok a.
Proof. destruct r; cbn; naive_solver. Qed.

(** The file read is the first candidate that is a file. *)
Lemma first_file_spec is_file read cs content :
  first_file is_file read cs = Ok content <->
  exists before c after, cs = before ++ c :: after /\ Forall (fun x => is_file x = false) before /\
    is_file c = true /\ read c = Some content.
Proof.
  induction cs as [|c cs IH]; cbn.
  - split; [done|]. by intros ([] & ? & ? & ? & _).
  - destruct (is_file c) eqn:Ec.
    + split.
      * destruct (read c) as [b|] eqn:Er; [|done]. intros [= <-]. by exists [], c, cs.
      * intros (before & c' & after & Hc & Hb & Hf & Hr). destruct before as [|x before]; cbn in Hc; simplify_eq.
        -- by rewrite Hr.
        -- apply Forall_cons_1 in Hb as [? _]. congruence.
    + rewrite IH. split; intros (before & c' & after & Hc & Hb & Hf & Hr).
      * exists (c :: before), c', after. cbn. split_and!; [by f_equal|by constructor|done|done].
      * destruct before as [|x before]; cbn in Hc; injection Hc as <- ->; [congruence|].
        exists before, c', after. by apply Forall_cons_1 in Hb as [_ ?].
Qed.

Lemma launch_splitter_ok sc l :
  launch_splitter sc = Ok l <->
  splitter_validate sc = Ok () /\ sc_tunnel sc <> [] /\
  l = RunSplitter (mkSplitterRun (sc_listen sc) (sc_tunnel sc) (sc_chunk_size sc)
        (sc_data_send_timeout_secs sc) (sc_heartbeat_secs sc) (sc_reorder_window_bytes sc)).
Proof.
  unfold launch_splitter. destruct (splitter_validate sc) as [[]|e]; cbn [invalid mbind result_bind].
  - case_bool_decide; naive_solver.
  - naive_solver.
Qed.

Lemma launch_reassembler_ok rc l :
  launch_reassembler rc = Ok l <->
  exists ports, reassembler_validate rc = Ok () /\ parse_ports (rc_ports rc) = Ok ports /\
  l = RunReassembler (mkReassemblerRun (rc_listen rc) ports (rc_local_target rc) (rc_chunk_size rc)
        (rc_data_send_timeout_secs rc) (rc_heartbeat_secs rc) (rc_reorder_window_bytes rc)).
Proof.
  unfold launch_reassembler. destruct (reassembler_validate rc) as [[]|e]; cbn [invalid mbind result_bind].
  - destruct (parse_ports (rc_ports rc)); cbn [invalid mbind result_bind]; naive_solver.
  - naive_solver.
Qed.

(** The numbers of a configuration that is started. *)
Definition launch_numbers (l : Launch) : Z * Z * Z * Z :=
  match l with
  | RunSplitter c =>
    (sr_chunk_size c, sr_data_send_timeout c, sr_heartbeat_interval c, sr_reorder_window_bytes c)
  | RunReassembler c =>
    (rr_chunk_size c, rr_data_send_timeout c, rr_heartbeat_interval c, rr_reorder_window_bytes c)
  end.

(** The port lists of a parsed file are lists of [u16]. *)
Definition config_typed (c : Config) : Prop :=
  forall rc, cfg_reassembler c = Some rc -> ports_typed (rc_ports rc).

(** C34: what [main] starts.  From the first candidate that is a file it starts the side
    its mode names, if that section is there and valid and the log could be opened, and
    nothing else.  The numbers it starts with are sound: chunks of 512 .. 65535 bytes,
    timeouts of at least a second, a window of one chunk to 1 GiB, so every chunk read
    encodes and a first frame ahead of its turn is buffered.  A splitter has a tunnel, and
    no tunnel has port 0; a reassembler listens on 1 to 256 distinct ports, none of them 0. *)
Theorem main_starts_valid {B : BufMut} {BL : BufMutLaws B} exe_dir is_file read toml log_opened l :
  (forall b c, toml b = Some c -> config_typed c) ->
  main exe_dir is_file read toml log_opened = Ok l ->
  (exists before c after content cfg,
    candidates_of exe_dir ConfigToml ++ candidates_of exe_dir RoundRobinToml = before ++ c :: after /\
    Forall (fun x => is_file x = false) before /\ is_file c = true /\ read c = Some content /\
    toml content = Some cfg /\ (cfg_log cfg = true -> log_opened = true) /\
    cfg_mode cfg = match l with RunSplitter _ => mode_splitter | RunReassembler _ => mode_reassembler end) /\
  (let '(chunk, s1, s2, window) := launch_numbers l in
   sound_numbers chunk s1 s2 window /\ forall cid sq p, zlen p <= chunk ->
     is_ok (frame_encode (frame_data cid sq p)) = true /\
     (1 < sq -> accepted (push (with_limit window) sq p).1 = true)) /\
  match l with
  | RunSplitter c => sr_tunnels c <> [] /\
      Forall (fun t => tn_port t <> 0 /\ sa_port (tn_proxy t) <> 0) (sr_tunnels c)
  | RunReassembler c => 1 <= zlen (rr_listen_ports c) <= 256 /\ NoDup (rr_listen_ports c) /\
      Forall (fun x => 1 <= x <= 65535) (rr_listen_ports c)
  end.
Proof.
  intros Ht H. unfold main in H.
  destruct (find_config exe_dir is_file read) as [content|] eqn:Ef; [|done]. cbn [mbind result_bind] in H.
  apply first_file_spec in Ef as (before & c & after & E1 & E2 & E3 & E4).
  destruct (toml content) as [cfg|] eqn:Et; [|done].
  destruct (cfg_log cfg && negb log_opened) eqn:El; [done|].
  assert (cfg_log cfg = true -> log_opened = true) as Hlog.
  { intros E. rewrite E in El. by destruct log_opened. }
  unfold launch in H. case_bool_decide as Hm; [|case_bool_decide as Hm'; [|done]].
  - destruct (cfg_splitter cfg) as [sc|] eqn:Es; [|done].
    apply launch_splitter_ok in H as (Hv & Hne & ->). apply splitter_validate_iff in Hv as [Hn Hp].
    split; [by exists before, c, after, content, cfg|]. split; [|done].
    split; [done|]. exact (sound_numbers_safe _ _ _ _ Hn).
  - destruct (cfg_reassembler cfg) as [rc|] eqn:Er; [|done].
    apply launch_reassembler_ok in H as (ports & Hv & Hp & ->). apply reassembler_validate_iff in Hv.
    apply parse_ports_ok in Hp as (P1 & P2 & P3 & P4 & _); [|by apply (Ht content cfg)].
    split; [by exists before, c, after, content, cfg|]. split.
    + split; [done|]. exact (sound_numbers_safe _ _ _ _ Hv).
    + split; [|done]. cbn. split; [|done]. destruct ports; [done|]. rewrite zlen_cons.
      pose proof (zlen_nonneg ports). lia.
Qed.

(** ** Witness: only [round_robin.toml] beside the executable is a file. *)
Definition demo_is_file (c : candidate) : bool :=
  match c with BesideExe RoundRobinToml => true | _ => false end.
Definition demo_toml (b : bytes) : option Config :=
  match b with [] => None | _ => Some (mkConfig mode_splitter true (Some demo_config) None) end.

Lemma main_starts_valid_witness :
  match main true demo_is_file (fun _ => Some [x61]) demo_toml true with
  | Ok (RunSplitter c) => sr_tunnels c <> []
  | _ => False
  end.
Proof.
  destruct (main true demo_is_file (fun _ => Some [x61]) demo_toml true) as [l|] eqn:E;
    [|vm_compute in E; discriminate E].
  destruct (main_starts_valid (B := RefBufMut) true demo_is_file (fun _ => Some [x61]) demo_toml true l)
    as (_ & _ & H).
  - intros b c Hc rc Hrc. destruct b; [discriminate Hc|]. injection Hc as <-. discriminate Hrc.
  - exact E.
  - vm_compute in E. injection E as <-. exact (proj1 H).
Defined.
